(** * Multi-bit flip-flop banking and legalization engine: shallow embedding

    The C++ sources work on [double].  In this development a [double] is
    modelled by an exact rational ([Q]) wherever only order and structure
    matter; [std::numeric_limits<double>::max()] used as "no score yet" is
    then a separate top element.  Where the value of a double itself matters
    (the two scoring expressions) the computation is also given on binary64
    floats, every operation rounding to nearest.  Strings are
    [string], [std::vector] is [list], and the name-keyed tables
    ([std::unordered_map<std::string, std::shared_ptr<...>>]) are association
    lists whose order stands for the (unspecified) iteration order. *)

From Stdlib Require Import String Ascii QArith Qround Qabs ZArith Bool Lia Lra Psatz List.
From Stdlib Require Import DecimalString Permutation.
From Stdlib Require Import Floats.
From Stdlib Require Uint63.
Import ListNotations.

Open Scope string_scope.
Open Scope Q_scope.

(* ========================================================================= *)
(** ** Rational helpers *)
(* ========================================================================= *)

Definition Qltb (x y : Q) : bool := negb (Qle_bool y x).

Definition Qleb (x y : Q) : bool := Qle_bool x y.

(** [std::floor] and [std::ceil] of an exact value. *)
Definition floorQ (x : Q) : Q := inject_Z (Qfloor x).
Definition ceilQ (x : Q) : Q := inject_Z (Qceiling x).

(** [s.find(sub) != std::string::npos] *)
Definition contains (sub s : string) : bool :=
  match String.index 0 sub s with Some _ => true | None => false end.

(** [std::to_string] on an [int]. *)
Definition to_string (z : Z) : string := NilZero.string_of_int (Z.to_int z).

(* ========================================================================= *)
(** ** Data model (data_structures.hpp) *)
(* ========================================================================= *)

Inductive FlipFlopPinType :=
| FF_DATA_INPUT | FF_DATA_OUTPUT | FF_DATA_OUTPUT_N | FF_CLOCK
| FF_SCAN_INPUT | FF_SCAN_OUTPUT | FF_SCAN_ENABLE | FF_RESET | FF_SET
| FF_RD | FF_SD | FF_SR | FF_RS | FF_VDDR | FF_OTHER | FF_NOT_FF_PIN.

Record Pin := mkPin {
  pin_name : string;
  ff_pin_type : FlipFlopPinType
}.

Inductive CellType := FLIP_FLOP | LOGIC_GATE | BUFFER | FILL_CELL | OTHER.

Inductive ClockEdge := RISING | FALLING | UNKNOWN_EDGE.

Record CellTemplate := mkCell {
  ct_name : string;
  ct_width : Q;
  ct_height : Q;
  ct_pins : list Pin;
  ct_area : Q;
  ct_leakage_power : Q;
  ct_single_bit_degenerate : string;
  ct_bit_width : Z;
  ct_clock_edge : ClockEdge;
  ct_type : CellType
}.

Definition ct_is_flip_flop (c : CellTemplate) : bool :=
  match ct_type c with FLIP_FLOP => true | _ => false end.

Record ObjectiveWeights := mkWeights {
  alpha : Q;
  beta : Q;
  gamma : Q
}.

(** [db.cell_library]: name-keyed table of cell templates. *)
Definition CellLibrary := list (string * CellTemplate).

Fixpoint assoc_find {A : Type} (k : string) (m : list (string * A)) : option A :=
  match m with
  | [] => None
  | (k', v) :: m' => if String.eqb k k' then Some v else assoc_find k m'
  end.

Fixpoint assoc_erase {A : Type} (k : string) (m : list (string * A)) : list (string * A) :=
  match m with
  | [] => []
  | (k', v) :: m' =>
      if String.eqb k k' then assoc_erase k m' else (k', v) :: assoc_erase k m'
  end.

(** [m[k] = v]: overwrite in place when the key exists, else add. *)
Fixpoint assoc_set {A : Type} (k : string) (v : A) (m : list (string * A)) : list (string * A) :=
  match m with
  | [] => [(k, v)]
  | (k', v') :: m' =>
      if String.eqb k k' then (k, v) :: m' else (k', v') :: assoc_set k v m'
  end.

Definition keys {A : Type} (m : list (string * A)) : list string := map fst m.

(** An ordered [std::map<std::string, V>]: association list kept sorted by
    key, so that list order is iteration order. *)
Fixpoint smap_set {A : Type} (k : string) (v : A) (m : list (string * A))
  : list (string * A) :=
  match m with
  | [] => [(k, v)]
  | (k', v') :: m' =>
      match String.compare k k' with
      | Eq => (k, v) :: m'
      | Lt => (k, v) :: (k', v') :: m'
      | Gt => (k', v') :: smap_set k v m'
      end
  end.

(* ========================================================================= *)
(** ** Scoring (ff_instance_grouping.cpp, substitution.cpp) *)
(* ========================================================================= *)

(** A score is a finite value or [std::numeric_limits<double>::max()]. *)
Inductive Score := Fin (q : Q) | DblMax.

(** [a < b] on scores. *)
Definition score_ltb (a b : Score) : bool :=
  match a, b with
  | Fin x, Fin y => Qltb x y
  | Fin _, DblMax => true
  | DblMax, _ => false
  end.

Definition score_le (a b : Score) : Prop :=
  match a, b with
  | Fin x, Fin y => x <= y
  | _, DblMax => True
  | DblMax, Fin _ => False
  end.

Definition score_lt (a b : Score) : Prop :=
  match a, b with
  | Fin x, Fin y => x < y
  | Fin _, DblMax => True
  | DblMax, _ => False
  end.

Section Scoring.

(** [TimingReprMap::get_timing_repr] lives in timing_repr_hardcoded.hpp, which
    is not part of the sources at hand; the table is a parameter. *)
Variable get_timing_repr : string -> Q.

Variable cell_library : CellLibrary.
Variable objective_weights : ObjectiveWeights.

(** substitution.cpp, [calculate_ff_score], with the arithmetic read over
    the rationals (no rounding); [calculate_ff_score_double] below is the
    same function on doubles. *)
Definition calculate_ff_score (cell_name : string) : Score :=
  match assoc_find cell_name cell_library with
  | None => DblMax
  | Some cell =>
      if negb (ct_is_flip_flop cell) then DblMax
      else
        let power := ct_leakage_power cell in
        let area := ct_area cell in
        let bit_width := Z.max 1 (ct_bit_width cell) in
        let timing_repr := get_timing_repr cell_name in
        let delta := alpha objective_weights * timing_repr in
        Fin ((beta objective_weights * power * (1 # 1000)
              + gamma objective_weights * area) / inject_Z bit_width + delta)
  end.

(** scan_chain_detection.cpp, [export_ff_grouping_report]: the bit-width key
    under which a cell is filed in [hierarchical_ff_groups]. *)
Definition group_bit_width (cell : CellTemplate) : Z :=
  if (ct_bit_width cell <=? 0)%Z then 1%Z else ct_bit_width cell.

(** ff_instance_grouping.cpp, [calculate_optimal_ff_for_instance_groups]:
    the score computed inside the loop over the cells of a group with key
    bit-width [bit_width]; [None] when the cell is skipped by a [continue].
    The arithmetic is read over the rationals; [cache_score_double] below is
    the same computation on doubles. *)
Definition cache_score (bit_width : Z) (cell_name : string) : option Q :=
  match assoc_find cell_name cell_library with
  | None => None
  | Some cell =>
      if negb (ct_is_flip_flop cell) then None
      else
        let power := ct_leakage_power cell in
        let area := ct_area cell in
        let effective_bit_width := if (bit_width >? 0)%Z then bit_width else 1%Z in
        let timing_repr := get_timing_repr cell_name in
        let delta := alpha objective_weights * timing_repr * 1000 in
        Some ((beta objective_weights * power * (1 # 1000)
               + gamma objective_weights * area) / inject_Z effective_bit_width + delta)
  end.

(** The inner loop of [calculate_optimal_ff_for_instance_groups] over the
    cells of one group, threading [(best_cell, best_score)]. *)
Fixpoint cache_scan (bit_width : Z) (cell_names : list string)
         (best_cell : string) (best_score : Score) : string * Score :=
  match cell_names with
  | [] => (best_cell, best_score)
  | cell_name :: rest =>
      match cache_score bit_width cell_name with
      | None => cache_scan bit_width rest best_cell best_score
      | Some score =>
          if score_ltb (Fin score) best_score
          then cache_scan bit_width rest cell_name (Fin score)
          else cache_scan bit_width rest best_cell best_score
      end
  end.

End Scoring.

(* ========================================================================= *)
(** ** Instances, records and the design database (data_structures.hpp) *)
(* ========================================================================= *)

Inductive BankingType := BT_FSDN | BT_RISING_LSRDPQ | BT_NONE.

Inductive PlacementStatus := UNPLACED | PLACED | FIXED.

Record Connection := mkConn {
  conn_pin_name : string;
  conn_net_name : string
}.

(** [struct Instance].  [inst_cell_template = None] is the null
    [shared_ptr]; cell templates are never mutated after load, so the pointer
    is modelled by the value it points to. *)
Record Instance := mkInst {
  inst_name : string;
  inst_cell_type : string;
  inst_cell_template : option CellTemplate;
  inst_module_name : string;
  inst_banking_type : BankingType;
  inst_cluster_id : string;
  inst_best_ff_from_substitution : string;
  inst_best_ff_score : Score;
  inst_position_x : Q;
  inst_position_y : Q;
  inst_placement_status : PlacementStatus;
  inst_connections : list Connection;
  inst_x_new : Q;
  inst_y_new : Q;
  inst_weight : Z
}.

Definition is_flip_flop (i : Instance) : bool :=
  match inst_cell_template i with
  | Some c => ct_is_flip_flop c
  | None => false
  end.

Definition get_bit_width (i : Instance) : Z :=
  match inst_cell_template i with
  | Some c => ct_bit_width c
  | None => 1%Z
  end.

(** Name of the current cell template ([instance->cell_template->name]). *)
Definition template_name (i : Instance) : string :=
  match inst_cell_template i with
  | Some c => ct_name c
  | None => ""
  end.

Definition set_cell_template (c : CellTemplate) (i : Instance) : Instance :=
  mkInst (inst_name i) (inst_cell_type i) (Some c) (inst_module_name i)
         (inst_banking_type i) (inst_cluster_id i)
         (inst_best_ff_from_substitution i) (inst_best_ff_score i)
         (inst_position_x i) (inst_position_y i) (inst_placement_status i)
         (inst_connections i) (inst_x_new i) (inst_y_new i) (inst_weight i).

Definition set_best_ff (n : string) (s : Score) (i : Instance) : Instance :=
  mkInst (inst_name i) (inst_cell_type i) (inst_cell_template i) (inst_module_name i)
         (inst_banking_type i) (inst_cluster_id i) n s
         (inst_position_x i) (inst_position_y i) (inst_placement_status i)
         (inst_connections i) (inst_x_new i) (inst_y_new i) (inst_weight i).

Definition set_new_position (x y : Q) (i : Instance) : Instance :=
  mkInst (inst_name i) (inst_cell_type i) (inst_cell_template i) (inst_module_name i)
         (inst_banking_type i) (inst_cluster_id i)
         (inst_best_ff_from_substitution i) (inst_best_ff_score i)
         (inst_position_x i) (inst_position_y i) (inst_placement_status i)
         (inst_connections i) x y (inst_weight i).

Definition set_placement_status (s : PlacementStatus) (i : Instance) : Instance :=
  mkInst (inst_name i) (inst_cell_type i) (inst_cell_template i) (inst_module_name i)
         (inst_banking_type i) (inst_cluster_id i)
         (inst_best_ff_from_substitution i) (inst_best_ff_score i)
         (inst_position_x i) (inst_position_y i) s
         (inst_connections i) (inst_x_new i) (inst_y_new i) (inst_weight i).

(** [db.instances]. *)
Definition InstanceTable := list (string * Instance).

Inductive Operation := KEEP | DEBANK | BANK | SUBSTITUTE | POST_SUBSTITUTE.

Definition Operation_eqb (a b : Operation) : bool :=
  match a, b with
  | KEEP, KEEP | DEBANK, DEBANK | BANK, BANK
  | SUBSTITUTE, SUBSTITUTE | POST_SUBSTITUTE, POST_SUBSTITUTE => true
  | _, _ => false
  end.

(** [struct TransformationRecord] (the orientation string is left out). *)
Record TransformationRecord := mkRec {
  rec_original_instance_name : string;
  rec_result_instance_name : string;
  rec_pin_mapping : list (string * string);
  rec_operation : Operation;
  rec_original_cell_type : string;
  rec_result_cell_type : string;
  rec_stage : string;
  rec_related_instances : list string;
  rec_result_x : Q;
  rec_result_y : Q;
  rec_cluster_id : string
}.

(** One entry of [db.hierarchical_ff_groups]
    (clock edge -> pin interface -> bit width -> cell names), in the iteration
    order of the nested [std::map]. *)
Record HierGroup := mkHG {
  hg_clock_edge : string;
  hg_pin_interface : string;
  hg_bit_width : Z;
  hg_cell_names : list string
}.

Definition hier_key (g : HierGroup) : string :=
  hg_clock_edge g ++ "|" ++ hg_pin_interface g ++ "|" ++ to_string (hg_bit_width g) ++ "bit".

(* ========================================================================= *)
(** ** Three-stage substitution (substitution.cpp) *)
(* ========================================================================= *)

Section Substitution.

Variable get_timing_repr : string -> Q.
Variable cell_library : CellLibrary.
Variable objective_weights : ObjectiveWeights.
Variable hierarchical_ff_groups : list HierGroup.

Local Abbreviation score := (calculate_ff_score get_timing_repr cell_library objective_weights).

(** ff_instance_grouping.cpp, [calculate_optimal_ff_for_instance_groups]. *)
Fixpoint calculate_optimal_ff_for_instance_groups_from
         (groups : list HierGroup) (optimal : list (string * string))
  : list (string * string) :=
  match groups with
  | [] => optimal
  | g :: rest =>
      let '(best_cell, _) :=
        cache_scan get_timing_repr cell_library objective_weights
                   (hg_bit_width g) (hg_cell_names g) "" DblMax in
      let optimal' :=
        if String.eqb best_cell "" then optimal
        else assoc_set (hier_key g) best_cell optimal in
      calculate_optimal_ff_for_instance_groups_from rest optimal'
  end.

Definition calculate_optimal_ff_for_instance_groups : list (string * string) :=
  calculate_optimal_ff_for_instance_groups_from hierarchical_ff_groups [].

Variable optimal_ff_for_groups : list (string * string).

(** [update_best_ff_record] *)
Definition update_best_ff_record (instance : Instance) (ff_name : string) : Instance :=
  let s := score ff_name in
  if score_ltb s (inst_best_ff_score instance)
  then set_best_ff ff_name s instance
  else instance.

Definition mem_string (s : string) (l : list string) : bool :=
  existsb (String.eqb s) l.

(** [get_hierarchical_key_from_instance] *)
Fixpoint find_hier_key (cell_name : string) (groups : list HierGroup) : string :=
  match groups with
  | [] => ""
  | g :: rest =>
      if mem_string cell_name (hg_cell_names g) then hier_key g
      else find_hier_key cell_name rest
  end.

Definition get_hierarchical_key_from_instance (instance : Instance) : string :=
  match inst_cell_template instance with
  | None => ""
  | Some c => find_hier_key (ct_name c) hierarchical_ff_groups
  end.

(** Body of the inner loop of [execute_stage1_substitution]. *)
Definition stage1_instance (instance : Instance) : Instance :=
  let hierarchical_key := get_hierarchical_key_from_instance instance in
  if String.eqb hierarchical_key "" then instance
  else
    match assoc_find hierarchical_key optimal_ff_for_groups with
    | None => instance
    | Some optimal_ff_name =>
        match assoc_find optimal_ff_name cell_library with
        | None => instance
        | Some optimal_cell =>
            let original_cell_name := template_name instance in
            if negb (String.eqb original_cell_name optimal_ff_name)
            then update_best_ff_record (set_cell_template optimal_cell instance)
                                       optimal_ff_name
            else instance
        end
    end.

(** [CellTemplate::find_pin] *)
Fixpoint find_pin (pins : list Pin) (n : string) : option Pin :=
  match pins with
  | [] => None
  | p :: rest => if String.eqb (pin_name p) n then Some p else find_pin rest n
  end.

Definition active_pin_label (t : FlipFlopPinType) : option string :=
  match t with
  | FF_DATA_INPUT => Some "D"
  | FF_DATA_OUTPUT => Some "Q"
  | FF_DATA_OUTPUT_N => Some "QN"
  | FF_CLOCK => Some "CK"
  | FF_SCAN_INPUT => Some "SI"
  | FF_SCAN_ENABLE => Some "SE"
  | FF_RESET => Some "R"
  | FF_RD => Some "RD"
  | FF_SET => Some "S"
  | FF_SD => Some "SD"
  | FF_RS => Some "RS"
  | FF_SR => Some "SR"
  | _ => None
  end.

Fixpoint active_pins (c : CellTemplate) (conns : list Connection) : list string :=
  match conns with
  | [] => []
  | connection :: rest =>
      if String.eqb (conn_net_name connection) "UNCONNECTED"
         || String.eqb (conn_net_name connection) "VSS"
      then active_pins c rest
      else
        match find_pin (ct_pins c) (conn_pin_name connection) with
        | None => active_pins c rest
        | Some pin =>
            match active_pin_label (ff_pin_type pin) with
            | Some l => l :: active_pins c rest
            | None => active_pins c rest
            end
        end
  end.

Definition pin_order : list string :=
  ["D"; "Q"; "QN"; "CK"; "SI"; "SE"; "R"; "RD"; "S"; "SD"; "RS"; "SR"].

Fixpoint join_underscore (l : list string) : string :=
  match l with
  | [] => ""
  | [x] => x
  | x :: rest => x ++ "_" ++ join_underscore rest
  end.

(** [get_effective_pin_pattern] *)
Definition get_effective_pin_pattern (instance : Instance) : string :=
  match inst_cell_template instance with
  | None => ""
  | Some c =>
      let act := active_pins c (inst_connections instance) in
      join_underscore (filter (fun p => mem_string p act) pin_order)
  end.

(** ff_instance_grouping.cpp, [get_instance_clock_edge] *)
Definition get_instance_clock_edge (instance : Instance) : string :=
  match inst_cell_template instance with
  | None => "UNKNOWN"
  | Some c =>
      let cell_name := ct_name c in
      if contains "FDN" cell_name || contains "FSDN" cell_name then "FALLING"
      else if contains "FDP" cell_name || contains "FSDP" cell_name then "RISING"
      else "UNKNOWN"
  end.

(** [convert_effective_pattern_to_hierarchical_key] *)
Definition convert_effective_pattern_to_hierarchical_key
           (effective_pattern clock_edge : string) : string :=
  if String.eqb effective_pattern "" || String.eqb clock_edge "" then ""
  else clock_edge ++ "|" ++ effective_pattern ++ "|1bit".

(** Body of the inner loop of [execute_stage2_substitution]. *)
Definition stage2_instance (instance : Instance) : Instance :=
  let current_score := score (template_name instance) in
  let effective_pattern := get_effective_pin_pattern instance in
  let clock_edge := get_instance_clock_edge instance in
  let effective_key :=
    convert_effective_pattern_to_hierarchical_key effective_pattern clock_edge in
  if String.eqb effective_key "" then instance
  else
    match assoc_find effective_key optimal_ff_for_groups with
    | None => instance
    | Some optimal_ff_name =>
        let optimal_score := score optimal_ff_name in
        if score_ltb optimal_score current_score then
          match assoc_find optimal_ff_name cell_library with
          | None => instance
          | Some optimal_cell =>
              update_best_ff_record (set_cell_template optimal_cell instance)
                                    optimal_ff_name
          end
        else instance
    end.

Definition is_rd_or_sd (t : FlipFlopPinType) : bool :=
  match t with FF_RD | FF_SD => true | _ => false end.

(** [has_rd_sd_pins] *)
Fixpoint has_rd_sd_conns (c : CellTemplate) (conns : list Connection) : bool :=
  match conns with
  | [] => false
  | connection :: rest =>
      if String.eqb (conn_net_name connection) "UNCONNECTED"
         || String.eqb (conn_net_name connection) "VSS"
      then has_rd_sd_conns c rest
      else
        match find_pin (ct_pins c) (conn_pin_name connection) with
        | None => has_rd_sd_conns c rest
        | Some pin =>
            if is_rd_or_sd (ff_pin_type pin) then true else has_rd_sd_conns c rest
        end
  end.

Definition has_rd_sd_pins (instance : Instance) : bool :=
  match inst_cell_template instance with
  | None => false
  | Some c => has_rd_sd_conns c (inst_connections instance)
  end.

(** [find_best_fsdn4_target], [find_best_lsrdpq4_target] *)
Definition find_best_fsdn4_target : string :=
  match assoc_find "FALLING|D_Q_QN_CK_SI_SE|4bit" optimal_ff_for_groups with
  | Some n => n
  | None => ""
  end.

Definition find_best_lsrdpq4_target : string :=
  match assoc_find "RISING|D_Q_QN_CK|4bit" optimal_ff_for_groups with
  | Some n => n
  | None => ""
  end.

(** [is_eligible_for_lsrdpq4_banking] *)
Definition is_eligible_for_lsrdpq4_banking (instance : Instance) : bool :=
  match inst_cell_template instance with
  | None => false
  | Some _ =>
      let effective_pattern := get_effective_pin_pattern instance in
      let clock_edge := get_instance_clock_edge instance in
      if negb (String.eqb clock_edge "RISING") then false
      else
        let hierarchical_key :=
          convert_effective_pattern_to_hierarchical_key effective_pattern clock_edge in
        String.eqb hierarchical_key "RISING|D_Q_CK|1bit"
        || String.eqb hierarchical_key "RISING|D_QN_CK|1bit"
  end.

(** The values [execute_stage3_substitution] computes before its loop:
    [(available, target score, optimal single-bit cell)] for one edge. *)
Definition stage3_target (best4 single_key : string) : bool * Score * string :=
  if negb (String.eqb best4 "") then
    match assoc_find single_key optimal_ff_for_groups with
    | Some single => (true, score best4, single)
    | None => (false, score best4, "")
    end
  else (false, Fin 0, "").

(** Body of the inner loop of [execute_stage3_substitution]. *)
Definition stage3_instance (fsdn lsrdpq : bool * Score * string)
           (instance : Instance) : Instance :=
  let '(fsdn4_available, fsdn4_score, optimal_single_fsdn) := fsdn in
  let '(lsrdpq4_available, lsrdpq4_score, optimal_single_lsrdpq) := lsrdpq in
  let clock_edge := get_instance_clock_edge instance in
  let current_score := score (template_name instance) in
  if String.eqb clock_edge "FALLING" && fsdn4_available then
    if has_rd_sd_pins instance then instance
    else if score_ltb fsdn4_score current_score then
      match assoc_find optimal_single_fsdn cell_library with
      | None => instance
      | Some optimal_cell =>
          update_best_ff_record (set_cell_template optimal_cell instance)
                                optimal_single_fsdn
      end
    else instance
  else if String.eqb clock_edge "RISING" && lsrdpq4_available then
    if negb (is_eligible_for_lsrdpq4_banking instance) then instance
    else if score_ltb lsrdpq4_score current_score then
      match assoc_find optimal_single_lsrdpq cell_library with
      | None => instance
      | Some optimal_cell =>
          update_best_ff_record (set_cell_template optimal_cell instance)
                                optimal_single_lsrdpq
      end
    else instance
  else instance.

(** The instances of the groups are the objects of [db.instances]; a stage
    runs its loop body on every instance of every group, in order. *)
Fixpoint apply_to_names (f : Instance -> Instance) (names : list string)
         (instances : InstanceTable) : InstanceTable :=
  match names with
  | [] => instances
  | n :: rest =>
      match assoc_find n instances with
      | None => apply_to_names f rest instances
      | Some i => apply_to_names f rest (assoc_set n (f i) instances)
      end
  end.

Definition group_members (ff_instance_groups : list (string * list string)) : list string :=
  concat (map snd ff_instance_groups).

Definition execute_stage1_substitution (ff_instance_groups : list (string * list string))
           (instances : InstanceTable) : InstanceTable :=
  apply_to_names stage1_instance (group_members ff_instance_groups) instances.

Definition execute_stage2_substitution (ff_instance_groups : list (string * list string))
           (instances : InstanceTable) : InstanceTable :=
  apply_to_names stage2_instance (group_members ff_instance_groups) instances.

Definition execute_stage3_substitution (ff_instance_groups : list (string * list string))
           (instances : InstanceTable) : InstanceTable :=
  let fsdn := stage3_target find_best_fsdn4_target "FALLING|D_Q_QN_CK_SI_SE|1bit" in
  let lsrdpq := stage3_target find_best_lsrdpq4_target "RISING|D_Q_QN_CK|1bit" in
  if negb (fst (fst fsdn)) && negb (fst (fst lsrdpq)) then instances
  else apply_to_names (stage3_instance fsdn lsrdpq)
                      (group_members ff_instance_groups) instances.

Definition has_connection (instance : Instance) (pin : string) : bool :=
  existsb (fun c => String.eqb (conn_pin_name c) pin) (inst_connections instance).

Definition common_ff_pins : list string :=
  ["D"; "Q"; "QN"; "CK"; "SI"; "SE"; "SO"; "R"; "S"].

(** [record.pin_mapping[pin] = pin] for every common pin the instance has a
    connection on; [pin_mapping] is a [std::map]. *)
Definition identity_pin_mapping (instance : Instance) : list (string * string) :=
  fold_left (fun m pin => if has_connection instance pin then smap_set pin pin m else m)
            common_ff_pins [].

Fixpoint inherited_cluster_id (n : string) (history : list TransformationRecord) : string :=
  match history with
  | [] => ""
  | r :: rest =>
      if (String.eqb (rec_original_instance_name r) n
          || String.eqb (rec_result_instance_name r) n)
         && negb (String.eqb (rec_cluster_id r) "")
      then rec_cluster_id r
      else inherited_cluster_id n rest
  end.

(** transformation_tracking.cpp, [record_substitute_transformation] *)
Definition record_substitute_transformation (instances : InstanceTable)
           (history : list TransformationRecord)
           (instance_name original_cell_type final_cell_type : string)
  : list TransformationRecord :=
  match assoc_find instance_name instances with
  | None => history
  | Some instance =>
      let inherited := inherited_cluster_id instance_name history in
      history ++
      [mkRec instance_name instance_name (identity_pin_mapping instance) SUBSTITUTE
             original_cell_type final_cell_type "SUBSTITUTE" []
             (inst_position_x instance) (inst_position_y instance)
             (if String.eqb inherited "" then instance_name else inherited)]
  end.

(** [original_cell_types], filled at the start of
    [execute_three_stage_substitution]. *)
Fixpoint record_original_cell_types (l : InstanceTable) (m : list (string * string))
  : list (string * string) :=
  match l with
  | [] => m
  | (_, instance) :: rest =>
      if is_flip_flop instance
      then record_original_cell_types rest
             (assoc_set (inst_name instance) (template_name instance) m)
      else record_original_cell_types rest m
  end.

(** [record_final_substitution_operations] *)
Fixpoint record_final_substitution_operations_from
         (original_cell_types : list (string * string))
         (instances : InstanceTable) (l : InstanceTable)
         (history : list TransformationRecord) : list TransformationRecord :=
  match l with
  | [] => history
  | (_, instance) :: rest =>
      if negb (is_flip_flop instance)
      then record_final_substitution_operations_from original_cell_types instances rest history
      else
        match assoc_find (inst_name instance) original_cell_types with
        | None =>
            record_final_substitution_operations_from original_cell_types instances rest history
        | Some original_cell_name =>
            let current_cell_name := template_name instance in
            if negb (String.eqb original_cell_name current_cell_name)
            then record_final_substitution_operations_from original_cell_types instances rest
                   (record_substitute_transformation instances history (inst_name instance)
                      original_cell_name current_cell_name)
            else record_final_substitution_operations_from original_cell_types instances rest
                   history
        end
  end.

(** [execute_three_stage_substitution], up to the stage capture. *)
Definition execute_three_stage_substitution
           (ff_instance_groups : list (string * list string))
           (instances : InstanceTable) (history : list TransformationRecord)
  : InstanceTable * list TransformationRecord :=
  let original_cell_types := record_original_cell_types instances [] in
  let i1 := execute_stage1_substitution ff_instance_groups instances in
  let i2 := execute_stage2_substitution ff_instance_groups i1 in
  let i3 := execute_stage3_substitution ff_instance_groups i2 in
  (i3, record_final_substitution_operations_from original_cell_types i3 i3 history).

(** [is_single_bit_ff] *)
Definition is_single_bit_ff (instance : Instance) : bool :=
  is_flip_flop instance && (get_bit_width instance =? 1)%Z.

(** [record_post_substitution_transformation] *)
Definition record_post_substitution_transformation
           (history : list TransformationRecord) (instance : Instance)
           (old_ff new_ff : string) : list TransformationRecord :=
  history ++
  [mkRec (inst_name instance) (inst_name instance) (identity_pin_mapping instance)
         POST_SUBSTITUTE old_ff new_ff "POST_BANKING" []
         (inst_position_x instance) (inst_position_y instance) ""].

(** Body of the loop of [execute_post_banking_substitution]: the instance
    after the iteration and the records appended by it. *)
Definition post_banking_instance (instance : Instance)
           (history : list TransformationRecord)
  : Instance * list TransformationRecord :=
  if negb (is_single_bit_ff instance) then (instance, history)
  else
    let current_ff := template_name instance in
    let current_score := score current_ff in
    if negb (String.eqb (inst_best_ff_from_substitution instance) "")
       && score_ltb (inst_best_ff_score instance) current_score
    then
      match assoc_find (inst_best_ff_from_substitution instance) cell_library with
      | None => (instance, history)
      | Some best_cell =>
          let instance' := set_cell_template best_cell instance in
          (instance',
           record_post_substitution_transformation history instance' current_ff
             (inst_best_ff_from_substitution instance))
      end
    else (instance, history).

(** [execute_post_banking_substitution]: one pass over [db.instances]. *)
Fixpoint execute_post_banking_substitution (instances : InstanceTable)
         (history : list TransformationRecord)
  : InstanceTable * list TransformationRecord :=
  match instances with
  | [] => ([], history)
  | (k, instance) :: rest =>
      let '(instance', history') := post_banking_instance instance history in
      let '(rest', history'') := execute_post_banking_substitution rest history' in
      ((k, instance') :: rest', history'')
  end.

End Substitution.

(* ========================================================================= *)
(** ** Example inputs: scoring and substitution *)
(* ========================================================================= *)

(** The empty timing table: every cell is unknown and maps to 0. *)
Definition ex_timing : string -> Q := fun _ => 0.

Definition ex_weights : ObjectiveWeights := mkWeights 0 0 1.

Definition ex_pins_d_q_ck : list Pin :=
  [mkPin "D" FF_DATA_INPUT; mkPin "Q" FF_DATA_OUTPUT; mkPin "CK" FF_CLOCK].

Definition ex_pins_scan : list Pin :=
  [mkPin "D" FF_DATA_INPUT; mkPin "Q" FF_DATA_OUTPUT; mkPin "QN" FF_DATA_OUTPUT_N;
   mkPin "CK" FF_CLOCK; mkPin "SI" FF_SCAN_INPUT; mkPin "SE" FF_SCAN_ENABLE].

Definition ex_cell_fdn : CellTemplate :=
  mkCell "FDN_A" 400 200 ex_pins_d_q_ck 5 0 "null" 1 FALLING FLIP_FLOP.

Definition ex_cell_fsdn1 : CellTemplate :=
  mkCell "FSDN_S" 400 200 ex_pins_scan 10 0 "null" 1 FALLING FLIP_FLOP.

Definition ex_cell_fsdn2 : CellTemplate :=
  mkCell "FSDN2_X" 800 200 ex_pins_scan 6 0 "FSDN_S" 2 FALLING FLIP_FLOP.

Definition ex_cell_fsdn4 : CellTemplate :=
  mkCell "FSDN4_X" 1600 200 ex_pins_scan 4 0 "FSDN_S" 4 FALLING FLIP_FLOP.

Definition ex_library : CellLibrary :=
  [("FDN_A", ex_cell_fdn); ("FSDN_S", ex_cell_fsdn1);
   ("FSDN2_X", ex_cell_fsdn2); ("FSDN4_X", ex_cell_fsdn4)].

Definition ex_hier_groups : list HierGroup :=
  [mkHG "FALLING" "D_Q_CK" 1 ["FDN_A"];
   mkHG "FALLING" "D_Q_QN_CK_SI_SE" 1 ["FSDN_S"];
   mkHG "FALLING" "D_Q_QN_CK_SI_SE" 2 ["FSDN2_X"];
   mkHG "FALLING" "D_Q_QN_CK_SI_SE" 4 ["FSDN4_X"]].

Definition ex_optimal : list (string * string) :=
  calculate_optimal_ff_for_instance_groups ex_timing ex_library ex_weights ex_hier_groups.

(** A plain instance: given name, cell, position and connections, everything
    else as the constructors of [struct Instance] leave it. *)
Definition new_instance (n : string) (c : CellTemplate) (x y : Q)
           (conns : list Connection) : Instance :=
  mkInst n (ct_name c) (Some c) "" BT_NONE "" "" DblMax x y UNPLACED conns 0 0 1.

Definition ex_u1 : Instance :=
  new_instance "u1" ex_cell_fdn 0 0
    [mkConn "D" "n1"; mkConn "Q" "n2"; mkConn "CK" "clk"].

Definition ex_subst_instances : InstanceTable := [("u1", ex_u1)].

Definition ex_subst_groups : list (string * list string) :=
  [("NON_SCAN|TOP_LEVEL|clk", ["u1"])].

(** An instance currently on the scan cell whose best alternative seen during
    substitution is the cheaper plain cell. *)
Definition ex_post_u2 : Instance :=
  set_best_ff "FDN_A" (calculate_ff_score ex_timing ex_library ex_weights "FDN_A")
    (new_instance "u2" ex_cell_fsdn1 0 0
       [mkConn "D" "n1"; mkConn "Q" "n2"; mkConn "CK" "clk"]).

Definition ex_post_instances : InstanceTable := [("u2", ex_post_u2)].

(* ========================================================================= *)
(** ** Spatial clustering (banking.cpp) *)
(* ========================================================================= *)

Definition FSDN_2BIT_BANKING_distance : Q := 10000.
Definition FSDN_4BIT_BANKING_distance : Q := 10000.
Definition LSRDPQ_4BIT_BANKING_distance : Q := 10000.

(** [manhattan_distance] *)
Definition manhattan_distance (inst1 inst2 : Instance) : Q :=
  let dx := Qabs (inst_position_x inst1 - inst_position_x inst2) in
  let dy := Qabs (inst_position_y inst1 - inst_position_y inst2) in
  dx + dy.

(** The cast [(size_t)target_cluster_size] of an [int] (64-bit [size_t]). *)
Definition size_t_of_int (z : Z) : Z :=
  if (z <? 0)%Z then (z + 2 ^ 64)%Z else z.

(** Inner loop of [simple_distance_clustering]: [rest] are the entries
    [instances[j]], [j > i], each with its [used] flag; [cluster] is the
    cluster grown so far from [first = instances[i]].  Returns the cluster and
    the entries with their flags updated. *)
Fixpoint grow_cluster (first : Instance) (target_cluster_size : Z)
         (max_distance_threshold : Q) (rest : list (Instance * bool))
         (cluster : list Instance) : list Instance * list (Instance * bool) :=
  match rest with
  | [] => (cluster, [])
  | (j, used) :: rest' =>
      if (Z.of_nat (length cluster) <? size_t_of_int target_cluster_size)%Z then
        if used then
          let '(c, r) := grow_cluster first target_cluster_size
                           max_distance_threshold rest' cluster in
          (c, (j, used) :: r)
        else if Qleb (manhattan_distance first j) max_distance_threshold then
          let '(c, r) := grow_cluster first target_cluster_size
                           max_distance_threshold rest' (cluster ++ [j])%list in
          (c, (j, true) :: r)
        else
          let '(c, r) := grow_cluster first target_cluster_size
                           max_distance_threshold rest' cluster in
          (c, (j, used) :: r)
      else (cluster, rest)
  end.

(** Outer loop of [simple_distance_clustering] from index [i] on; [fuel]
    bounds the number of remaining entries. *)
Fixpoint clustering_loop (fuel : nat) (target_cluster_size : Z)
         (max_distance_threshold : Q) (l : list (Instance * bool))
  : list (list Instance) :=
  match fuel with
  | O => []
  | S fuel' =>
      match l with
      | [] => []
      | (i, true) :: rest =>
          clustering_loop fuel' target_cluster_size max_distance_threshold rest
      | (i, false) :: rest =>
          let '(cluster, rest') :=
            grow_cluster i target_cluster_size max_distance_threshold rest [i] in
          let tail :=
            clustering_loop fuel' target_cluster_size max_distance_threshold rest' in
          if (size_t_of_int target_cluster_size <=? Z.of_nat (length cluster))%Z
          then cluster :: tail
          else tail
      end
  end.

(** [simple_distance_clustering] *)
Definition simple_distance_clustering (instances : list Instance)
           (target_cluster_size : Z) (max_distance_threshold : Q)
  : list (list Instance) :=
  clustering_loop (length instances) target_cluster_size max_distance_threshold
                  (map (fun i => (i, false)) instances).

(** The sweep as the specification words it, for comparison with the code:
    candidates sorted by [position.x] (the input is taken sorted); the current
    cluster grows with the next candidates and growth stops when it reaches
    the target size or when the next candidate is farther than the threshold
    from the cluster's first instance. *)
Fixpoint spec_take (first : Instance) (room : nat) (thr : Q)
         (rest : list Instance) : list Instance * list Instance :=
  match room, rest with
  | S room', j :: rest' =>
      if Qleb (manhattan_distance first j) thr then
        let '(c, r) := spec_take first room' thr rest' in (j :: c, r)
      else ([], rest)
  | _, _ => ([], rest)
  end.

Fixpoint spec_sweep (fuel : nat) (target : nat) (thr : Q) (l : list Instance)
  : list (list Instance) :=
  match fuel with
  | O => []
  | S fuel' =>
      match l with
      | [] => []
      | i :: rest =>
          let '(c, rest') := spec_take i (pred target) thr rest in
          if (target <=? S (length c))%nat
          then (i :: c) :: spec_sweep fuel' target thr rest'
          else spec_sweep fuel' target thr rest'
      end
  end.

(** The sweep as the code runs it, on the candidates alone (no flags): the
    cluster of [first] takes, in the order of [rest], every candidate within
    the threshold of [first] while there is room; a farther candidate is
    skipped and stays a candidate for later clusters, and so does every
    candidate after the cluster is full.  Returns the members taken and the
    candidates left, both in the order of [rest]. *)
Fixpoint greedy_take (first : Instance) (room : nat) (thr : Q)
         (rest : list Instance) : list Instance * list Instance :=
  match rest with
  | [] => ([], [])
  | j :: rest' =>
      match room with
      | O => ([], rest)
      | S room' =>
          if Qleb (manhattan_distance first j) thr then
            let '(c, r) := greedy_take first room' thr rest' in (j :: c, r)
          else
            let '(c, r) := greedy_take first room thr rest' in (c, j :: r)
      end
  end.

(** Each cluster is seeded at the first candidate left; it is emitted when it
    reaches the target size and dropped otherwise, and in both cases its
    members are candidates no more. *)
Fixpoint greedy_sweep (fuel : nat) (target : nat) (thr : Q) (l : list Instance)
  : list (list Instance) :=
  match fuel with
  | O => []
  | S fuel' =>
      match l with
      | [] => []
      | i :: rest =>
          let '(c, rest') := greedy_take i (pred target) thr rest in
          if (target <=? S (length c))%nat
          then (i :: c) :: greedy_sweep fuel' target thr rest'
          else greedy_sweep fuel' target thr rest'
      end
  end.

(** Three candidates already sorted by x; the middle one is far away in y. *)
Definition ex_ca : Instance := new_instance "a" ex_cell_fsdn1 0 0 [].
Definition ex_cb : Instance := new_instance "b" ex_cell_fsdn1 1 20000 [].
Definition ex_cc : Instance := new_instance "c" ex_cell_fsdn1 2 0 [].

(* ========================================================================= *)
(** ** Strategic debanking (strategic_debanking.cpp) *)
(* ========================================================================= *)

(** [map_singlebit_pin_to_multibit] *)
Definition map_singlebit_pin_to_multibit (singlebit_pin : string) (bit_index : Z) : string :=
  if String.eqb singlebit_pin "D" then ("D" ++ to_string bit_index)%string
  else if String.eqb singlebit_pin "Q" then ("Q" ++ to_string bit_index)%string
  else if String.eqb singlebit_pin "QN" then ("QN" ++ to_string bit_index)%string
  else singlebit_pin.

(** First connection of an instance on a given pin. *)
Fixpoint find_connection (conns : list Connection) (pin : string) : option Connection :=
  match conns with
  | [] => None
  | c :: rest =>
      if String.eqb (conn_pin_name c) pin then Some c else find_connection rest pin
  end.

Definition shared_pins : list string :=
  ["CK"; "CLK"; "CP"; "R"; "RB"; "S"; "SB"; "SE"; "RD"; "SD"].

(** [find_shared_pin_connection] *)
Definition find_shared_pin_connection (multibit_instance : Instance)
           (singlebit_pin : string) : string :=
  if existsb (fun shared_pin =>
                String.eqb singlebit_pin shared_pin
                && has_connection multibit_instance shared_pin) shared_pins
  then singlebit_pin else "".

(** [map_multibit_to_singlebit_connections]: the connections of the fragment
    for bit [bit_index], one candidate per pin of the single-bit template. *)
Fixpoint map_multibit_to_singlebit_connections (multibit_instance : Instance)
         (singlebit_pins : list Pin) (bit_index : Z) : list Connection :=
  match singlebit_pins with
  | [] => []
  | singlebit_pin :: rest =>
      let singlebit_pin_name := pin_name singlebit_pin in
      let multibit_pin_name := map_singlebit_pin_to_multibit singlebit_pin_name bit_index in
      let connected_net :=
        match find_connection (inst_connections multibit_instance) multibit_pin_name with
        | Some conn => conn_net_name conn
        | None => ""
        end in
      let tail := map_multibit_to_singlebit_connections multibit_instance rest bit_index in
      if negb (String.eqb connected_net "") then
        mkConn singlebit_pin_name connected_net :: tail
      else
        let shared_pin := find_shared_pin_connection multibit_instance singlebit_pin_name in
        if negb (String.eqb shared_pin "") then
          match find_connection (inst_connections multibit_instance) shared_pin with
          | Some conn => mkConn singlebit_pin_name (conn_net_name conn) :: tail
          | None => tail
          end
        else tail
  end.

(** The fragment created for bit [bit] of [instance]. *)
Definition debank_fragment (instance : Instance) (parent_cell_name : string)
           (parent_template : CellTemplate) (bit : Z) : Instance :=
  mkInst (inst_name instance ++ "_BIT" ++ to_string bit)%string
         parent_cell_name (Some parent_template) (inst_module_name instance)
         BT_NONE (inst_name instance) "" DblMax
         (inst_position_x instance) (inst_position_y instance) UNPLACED
         (map_multibit_to_singlebit_connections instance (ct_pins parent_template) bit)
         0 0 1.

(** Bits [0 .. bit_width-1], as the [for] loop visits them. *)
Definition bit_range (bit_width : Z) : list Z :=
  map Z.of_nat (seq 0 (Z.to_nat bit_width)).

Definition ff_pins : list string :=
  ["D"; "Q"; "QN"; "CK"; "SI"; "SE"; "SO"; "R"; "S"].

(** Position of the first fragment with the given name
    ([bit_index] in [record_debank_transformation]). *)
Fixpoint index_of_name (n : string) (l : list Instance) (i : Z) : Z :=
  match l with
  | [] => 0
  | x :: rest => if String.eqb (inst_name x) n then i else index_of_name n rest (i + 1)
  end.

(** The pin-mapping loop of [record_debank_transformation] over [ff_pins];
    [pin_mapping] is a [std::map]. *)
Fixpoint debank_pin_mapping (original : Instance) (bit_index : Z) (pins : list string)
         (m : list (string * string)) : list (string * string) :=
  match pins with
  | [] => m
  | pin :: rest =>
      let multibit_pin := (pin ++ to_string bit_index)%string in
      if has_connection original multibit_pin
      then debank_pin_mapping original bit_index rest (smap_set multibit_pin pin m)
      else if has_connection original pin
      then debank_pin_mapping original bit_index rest (smap_set pin pin m)
      else debank_pin_mapping original bit_index rest m
  end.

(** transformation_tracking.cpp, [record_debank_transformation] *)
Definition record_debank_transformation (history : list TransformationRecord)
           (original_multibit_instance : Instance)
           (resulting_singlebit_instances : list Instance)
           (parent_cell_type : string) : list TransformationRecord :=
  (history ++
   map (fun singlebit_instance =>
          let bit_index :=
            index_of_name (inst_name singlebit_instance) resulting_singlebit_instances 0 in
          mkRec (inst_name original_multibit_instance) (inst_name singlebit_instance)
                (debank_pin_mapping original_multibit_instance bit_index ff_pins [])
                DEBANK (inst_cell_type original_multibit_instance) parent_cell_type
                "DEBANK"
                (map inst_name
                     (filter (fun related_inst =>
                                negb (String.eqb (inst_name related_inst)
                                                 (inst_name singlebit_instance)))
                             resulting_singlebit_instances))
                (inst_position_x singlebit_instance) (inst_position_y singlebit_instance)
                (inst_name original_multibit_instance))
       resulting_singlebit_instances)%list.

(** [remove_keep_transformation_record] *)
Definition remove_keep_transformation_record (history : list TransformationRecord)
           (instance_name : string) : list TransformationRecord :=
  filter (fun r => negb (Operation_eqb (rec_operation r) KEEP
                         && String.eqb (rec_original_instance_name r) instance_name))
         history.

(** The test guarding the body of the main loop of
    [perform_strategic_debanking]: the parent cell when the instance is
    debanked, [None] when the iteration is skipped. *)
Definition debank_parent (cell_library : CellLibrary) (instance : Instance)
  : option CellTemplate :=
  match inst_cell_template instance with
  | None => None
  | Some c =>
      if ct_is_flip_flop c && negb (String.eqb (ct_single_bit_degenerate c) "null")
      then assoc_find (ct_single_bit_degenerate c) cell_library
      else None
  end.

(** Loop state of [perform_strategic_debanking]. *)
Record DebankState := mkDebank {
  db_new_instances : list Instance;
  db_instances_to_remove : list string;
  db_history : list TransformationRecord
}.

Definition debank_step (cell_library : CellLibrary) (st : DebankState)
           (instance : Instance) : DebankState :=
  match inst_cell_template instance, debank_parent cell_library instance with
  | Some c, Some parent_template =>
      let parent_cell_name := ct_single_bit_degenerate c in
      let resulting_singlebit_instances :=
        map (debank_fragment instance parent_cell_name parent_template)
            (bit_range (ct_bit_width c)) in
      let h1 := record_debank_transformation (db_history st) instance
                  resulting_singlebit_instances parent_cell_name in
      let h2 := remove_keep_transformation_record h1 (inst_name instance) in
      mkDebank (db_new_instances st ++ resulting_singlebit_instances)%list
               (db_instances_to_remove st ++ [inst_name instance])%list
               h2
  | _, _ => st
  end.

Definition erase_all (names : list string) (instances : InstanceTable) : InstanceTable :=
  fold_left (fun t n => assoc_erase n t) names instances.

Definition insert_all (new_instances : list Instance) (instances : InstanceTable)
  : InstanceTable :=
  fold_left (fun t i => assoc_set (inst_name i) i t) new_instances instances.

(** [perform_strategic_debanking], up to the stage capture: the new instance
    table and history. *)
Definition perform_strategic_debanking (cell_library : CellLibrary)
           (instances : InstanceTable) (history : list TransformationRecord)
  : InstanceTable * list TransformationRecord :=
  let st := fold_left (debank_step cell_library) (map snd instances)
                      (mkDebank [] [] history) in
  (insert_all (db_new_instances st) (erase_all (db_instances_to_remove st) instances),
   db_history st).

(** A library in which the two-bit cell names no single-bit degenerate. *)
Definition ex_cell_fsdn2_nodeg : CellTemplate :=
  mkCell "FSDN2_Y" 800 200 ex_pins_scan 6 0 "null" 2 FALLING FLIP_FLOP.

Definition ex_debank_library : CellLibrary :=
  [("FSDN_S", ex_cell_fsdn1); ("FSDN2_Y", ex_cell_fsdn2_nodeg);
   ("FSDN4_X", ex_cell_fsdn4)].

Definition ex_mb2 : Instance :=
  new_instance "k" ex_cell_fsdn2_nodeg 1000 1000
    [mkConn "D0" "a0"; mkConn "D1" "a1"; mkConn "Q0" "b0"; mkConn "Q1" "b1";
     mkConn "CK" "clk"].

Definition ex_mb4 : Instance :=
  new_instance "m" ex_cell_fsdn4 1000 1000
    [mkConn "D0" "a0"; mkConn "D1" "a1"; mkConn "D2" "a2"; mkConn "D3" "a3";
     mkConn "Q0" "b0"; mkConn "Q1" "b1"; mkConn "Q2" "b2"; mkConn "Q3" "b3";
     mkConn "CK" "clk"].

Definition ex_debank_instances : InstanceTable := [("k", ex_mb2); ("m", ex_mb4)].

(* ========================================================================= *)
(** ** Banking (banking.cpp) *)
(* ========================================================================= *)

(** [struct BankingOperation] *)
Record BankingOperation := mkOp {
  op_source_instances : list Instance;
  op_result_instance_name : string;
  op_target_cell_type : string;
  op_pin_mapping : list (string * string);
  op_operation_type : string
}.

(** [m[k].push_back(x)] on an ordered map of vectors. *)
Definition smap_push {A : Type} (k : string) (x : A) (m : list (string * list A))
  : list (string * list A) :=
  match assoc_find k m with
  | Some l => smap_set k (l ++ [x])%list m
  | None => smap_set k [x] m
  end.

(** The part of [s] before the last occurrence of [ch], if [ch] occurs. *)
Fixpoint prefix_before_last (ch : Ascii.ascii) (s : string) : option string :=
  match s with
  | EmptyString => None
  | String c rest =>
      match prefix_before_last ch rest with
      | Some p => Some (String c p)
      | None => if Ascii.eqb c ch then Some EmptyString else None
      end
  end.

(** [extract_hierarchy_prefix] *)
Definition extract_hierarchy_prefix (instance_name : string) : string :=
  match prefix_before_last "/"%char instance_name with
  | Some p => p
  | None => ""
  end.

Definition is_data_pin (p : string) : bool :=
  String.eqb p "D" || String.eqb p "Q" || String.eqb p "QN".

(** Inner loop of [generate_complete_banking_pin_mapping] for source [i]. *)
Fixpoint banking_pin_mapping_conns (source_name final_name : string) (i : Z)
         (conns : list Connection) (m : list (string * string)) : list (string * string) :=
  match conns with
  | [] => m
  | conn :: rest =>
      let original_pin := (source_name ++ "/" ++ conn_pin_name conn)%string in
      let final_pin :=
        if is_data_pin (conn_pin_name conn)
        then (final_name ++ "/" ++ conn_pin_name conn ++ "[" ++ to_string i ++ "]")%string
        else (final_name ++ "/" ++ conn_pin_name conn)%string in
      banking_pin_mapping_conns source_name final_name i rest
                                (smap_set original_pin final_pin m)
  end.

(** [generate_complete_banking_pin_mapping] *)
Fixpoint generate_complete_banking_pin_mapping_from (i : Z)
         (original_sources : list Instance) (final_name : string)
         (m : list (string * string)) : list (string * string) :=
  match original_sources with
  | [] => m
  | source :: rest =>
      generate_complete_banking_pin_mapping_from (i + 1) rest final_name
        (banking_pin_mapping_conns (inst_name source) final_name i
                                   (inst_connections source) m)
  end.

Definition generate_complete_banking_pin_mapping (original_sources : list Instance)
           (final_name : string) (m : list (string * string)) : list (string * string) :=
  generate_complete_banking_pin_mapping_from 0 original_sources final_name m.

(** Connections contributed by single-bit source [i] in
    [map_singlebit_to_multibit_connections]. *)
Fixpoint singlebit_conns (i pin_offset : Z) (conns : list Connection) : list Connection :=
  match conns with
  | [] => []
  | conn :: rest =>
      if is_data_pin (conn_pin_name conn) then
        mkConn (conn_pin_name conn ++ to_string (i + pin_offset))%string (conn_net_name conn)
        :: singlebit_conns i pin_offset rest
      else if (i =? 0)%Z then conn :: singlebit_conns i pin_offset rest
      else singlebit_conns i pin_offset rest
  end.

Fixpoint map_singlebit_from (i pin_offset target_bit_width : Z)
         (singlebit_instances : list Instance) : list Connection :=
  match singlebit_instances with
  | [] => []
  | singlebit :: rest =>
      if (i <? target_bit_width)%Z then
        (singlebit_conns i pin_offset (inst_connections singlebit)
         ++ map_singlebit_from (i + 1) pin_offset target_bit_width rest)%list
      else []
  end.

(** [map_singlebit_to_multibit_connections]: the connection list given to the
    multi-bit instance whose template is [template]. *)
Definition map_singlebit_to_multibit_connections (singlebit_instances : list Instance)
           (template : option CellTemplate) (target_bit_width : Z) : list Connection :=
  let is_lsrdpq :=
    match template with
    | Some c => contains "LSRDPQ" (ct_name c)
    | None => false
    end in
  let pin_offset := if is_lsrdpq then 1%Z else 0%Z in
  map_singlebit_from 0 pin_offset target_bit_width singlebit_instances.

(** Connections contributed by two-bit source [i] in
    [map_2bit_to_4bit_connections]. *)
Fixpoint twobit_conns (i : Z) (conns : list Connection) : list Connection :=
  match conns with
  | [] => []
  | conn :: rest =>
      let p := conn_pin_name conn in
      let tail := twobit_conns i rest in
      if String.eqb p "D0" then mkConn ("D" ++ to_string (i * 2))%string (conn_net_name conn) :: tail
      else if String.eqb p "D1" then mkConn ("D" ++ to_string (i * 2 + 1))%string (conn_net_name conn) :: tail
      else if String.eqb p "Q0" then mkConn ("Q" ++ to_string (i * 2))%string (conn_net_name conn) :: tail
      else if String.eqb p "Q1" then mkConn ("Q" ++ to_string (i * 2 + 1))%string (conn_net_name conn) :: tail
      else if String.eqb p "QN0" then mkConn ("QN" ++ to_string (i * 2))%string (conn_net_name conn) :: tail
      else if String.eqb p "QN1" then mkConn ("QN" ++ to_string (i * 2 + 1))%string (conn_net_name conn) :: tail
      else if (i =? 0)%Z then conn :: tail
      else tail
  end.

Fixpoint map_2bit_from (i : Z) (twobit_instances : list Instance) : list Connection :=
  match twobit_instances with
  | [] => []
  | twobit :: rest =>
      if (i <? 2)%Z then
        (twobit_conns i (inst_connections twobit) ++ map_2bit_from (i + 1) rest)%list
      else []
  end.

(** [map_2bit_to_4bit_connections] *)
Definition map_2bit_to_4bit_connections (twobit_instances : list Instance)
  : list Connection :=
  map_2bit_from 0 twobit_instances.

Definition sum_x (l : list Instance) : Q :=
  fold_left (fun a i => a + inst_position_x i) l 0.

Definition sum_y (l : list Instance) : Q :=
  fold_left (fun a i => a + inst_position_y i) l 0.

(** The state the three banking passes work on: [db.instances],
    [db.ff_instance_groups], the file-level collectors
    [banking_operations] and [original_sources_map], and the three function
    [static] counters.  The group vectors hold pointers to instance objects;
    no banking pass mutates an existing instance object, so a pointer is
    modelled by the value of its object and compared by instance name. *)
Record BankState := mkBank {
  bk_instances : InstanceTable;
  bk_ff_instance_groups : list (string * list Instance);
  bk_banking_operations : list BankingOperation;
  bk_original_sources_map : list (string * list Instance);
  bk_ff_counter : Z;
  bk_ff_counter_4bit : Z;
  bk_lsrdpq_counter : Z
}.

Definition name_in (l : list Instance) (i : Instance) : bool :=
  existsb (fun j => String.eqb (inst_name j) (inst_name i)) l.

(** Rebuild of one group's vector: drop the members of [cluster], append the
    new instance. *)
Definition rebuild_group (group_key : string) (cluster : list Instance)
           (new_inst : Instance) (groups : list (string * list Instance))
  : list (string * list Instance) :=
  match assoc_find group_key groups with
  | None => groups
  | Some members =>
      assoc_set group_key
                (filter (fun i => negb (name_in cluster i)) members ++ [new_inst])%list
                groups
  end.

Definition erase_instances (cluster : list Instance) (t : InstanceTable) : InstanceTable :=
  fold_left (fun t i => assoc_erase (inst_name i) t) cluster t.

Section Banking.

Variable cell_library : CellLibrary.
Variable hierarchical_ff_groups : list HierGroup.
Variable optimal_ff_for_groups : list (string * string).

(** [get_hierarchical_key_from_group] *)
Definition get_hierarchical_key_from_group (instances : list Instance) : string :=
  match instances with
  | [] => ""
  | first_instance :: _ =>
      match inst_cell_template first_instance with
      | None => ""
      | Some c => find_hier_key (ct_name c) hierarchical_ff_groups
      end
  end.

(** A freshly constructed multi-bit instance as the banking passes fill it.
    [db.cell_library[optimal_ff]] yields the null pointer for an unknown
    name. *)
Definition new_multibit (n optimal_ff : string) (x y : Q) (bt : BankingType)
           (cluster_id module_name : string) (conns : list Connection) : Instance :=
  mkInst n optimal_ff (assoc_find optimal_ff cell_library) module_name bt cluster_id
         "" DblMax x y UNPLACED conns 0 0 1.

(* ---- Pass A: debank-cluster re-banking ---------------------------------- *)

(** The [clusters] map of [execute_debank_cluster_rebanking]. *)
Fixpoint collect_debank_clusters (l : InstanceTable)
         (clusters : list (string * list Instance)) : list (string * list Instance) :=
  match l with
  | [] => clusters
  | (_, instance) :: rest =>
      if negb (is_flip_flop instance) || String.eqb (inst_cluster_id instance) "" then
        collect_debank_clusters rest clusters
      else
        match inst_banking_type instance with
        | BT_NONE => collect_debank_clusters rest clusters
        | _ => collect_debank_clusters rest
                 (smap_push (inst_cluster_id instance) instance clusters)
        end
  end.

(** The target group key chosen for a cluster; [""] when the cluster is
    skipped. *)
Definition rebank_target_key (banking_type : BankingType) (size : nat) : string :=
  match banking_type with
  | BT_FSDN =>
      if (4 <=? size)%nat then "FALLING|D_Q_QN_CK_SI_SE|4bit"
      else if (2 <=? size)%nat then "FALLING|D_Q_QN_CK_SI_SE|2bit"
      else ""
  | BT_RISING_LSRDPQ =>
      if (4 <=? size)%nat then "RISING|D_Q_QN_CK|4bit" else ""
  | BT_NONE => ""
  end.

(** Body of the loop over clusters in [execute_debank_cluster_rebanking]. *)
Definition rebank_cluster (st : BankState) (cluster : string * list Instance)
  : BankState :=
  let '(cluster_id, instances) := cluster in
  if (length instances <? 2)%nat then st
  else
    match instances with
    | [] => st
    | first :: _ =>
        let banking_type := inst_banking_type first in
        let target_key := rebank_target_key banking_type (length instances) in
        if String.eqb target_key "" then st
        else
          match assoc_find target_key optimal_ff_for_groups with
          | None => st
          | Some optimal_ff =>
              let target_bit_width := if (4 <=? length instances)%nat then 4%Z else 2%Z in
              let n := inject_Z (Z.of_nat (length instances)) in
              let center_x := sum_x instances / n in
              let center_y := sum_y instances / n in
              let new_name := (cluster_id ++ "_REBANKED")%string in
              let new_mbff :=
                new_multibit new_name optimal_ff center_x center_y banking_type
                  cluster_id (inst_module_name first)
                  (map_singlebit_to_multibit_connections instances
                     (assoc_find optimal_ff cell_library) target_bit_width) in
              let op :=
                mkOp instances new_name optimal_ff
                     (generate_complete_banking_pin_mapping instances new_name [])
                     "DEBANK_CLUSTER_REBANK" in
              mkBank (erase_instances instances
                        (assoc_set new_name new_mbff (bk_instances st)))
                     (bk_ff_instance_groups st)
                     (bk_banking_operations st ++ [op])%list
                     (bk_original_sources_map st)
                     (bk_ff_counter st) (bk_ff_counter_4bit st) (bk_lsrdpq_counter st)
          end
    end.

(** [execute_debank_cluster_rebanking] *)
Definition execute_debank_cluster_rebanking (st : BankState) : BankState :=
  fold_left rebank_cluster (collect_debank_clusters (bk_instances st) []) st.

End Banking.

Section BankingPasses.

Variable cell_library : CellLibrary.
Variable hierarchical_ff_groups : list HierGroup.
Variable optimal_ff_for_groups : list (string * string).

(* ---- Pass B: FSDN two-phase banking -------------------------------------- *)

(** Members of a group vector that pass the test [keep] on their own cell
    name and still exist in [db.instances]; the object pushed is the one found
    in [db.instances]. *)
Fixpoint collect_from_group (keep : string -> bool) (instances : InstanceTable)
         (members : list Instance) : list Instance :=
  match members with
  | [] => []
  | group_instance :: rest =>
      if negb (is_flip_flop group_instance) then collect_from_group keep instances rest
      else if keep (template_name group_instance) then
        match assoc_find (inst_name group_instance) instances with
        | Some i => i :: collect_from_group keep instances rest
        | None => collect_from_group keep instances rest
        end
      else collect_from_group keep instances rest
  end.

Definition is_1bit_fsdn_name (cell_name : string) : bool :=
  contains "FSDN" cell_name
  && (negb (contains "FSDN2" cell_name) && negb (contains "FSDN4" cell_name)).

(** [collect_fsdn_instances_for_group] *)
Definition collect_fsdn_instances_for_group (st : BankState) (group_key : string)
  : list Instance :=
  match assoc_find group_key (bk_ff_instance_groups st) with
  | None => []
  | Some members => collect_from_group is_1bit_fsdn_name (bk_instances st) members
  end.

(** Replace the bit-width suffix of a hierarchical key
    ([substr(0, rfind('|')) + suffix]); [None] when there is no ['|']. *)
Definition retarget_key (hierarchical_key suffix : string) : option string :=
  match prefix_before_last "|"%char hierarchical_key with
  | Some p => Some (p ++ suffix)%string
  | None => None
  end.

Definition minted_name (cluster : list Instance) (stem : string) (counter : Z) : string :=
  let hierarchy_prefix :=
    match cluster with
    | first :: _ => extract_hierarchy_prefix (inst_name first)
    | [] => ""
    end in
  if String.eqb hierarchy_prefix "" then (stem ++ to_string counter)%string
  else (hierarchy_prefix ++ "/" ++ stem ++ to_string counter)%string.

Definition first_module_name (cluster : list Instance) : string :=
  match cluster with
  | first :: _ => inst_module_name first
  | [] => ""
  end.

(** Body of the loop over clusters in [execute_1bit_to_2bit_banking]. *)
Definition bank_pair_1to2 (group_key : string) (st : BankState)
           (cluster : list Instance) : BankState :=
  if negb (length cluster =? 2)%nat then st
  else
    let hierarchical_key := get_hierarchical_key_from_group hierarchical_ff_groups cluster in
    if String.eqb hierarchical_key "" then st
    else
      match retarget_key hierarchical_key "|2bit" with
      | None => st
      | Some target_key =>
          match assoc_find target_key optimal_ff_for_groups with
          | None => st
          | Some optimal_ff =>
              let center_x := sum_x cluster / 2 in
              let center_y := sum_y cluster / 2 in
              let new_name := minted_name cluster "ff_fsdn2_" (bk_ff_counter st) in
              let new_2bit :=
                new_multibit cell_library new_name optimal_ff center_x center_y BT_FSDN
                  "" (first_module_name cluster)
                  (map_singlebit_to_multibit_connections cluster
                     (assoc_find optimal_ff cell_library) 2) in
              mkBank (erase_instances cluster
                        (assoc_set new_name new_2bit (bk_instances st)))
                     (rebuild_group group_key cluster new_2bit (bk_ff_instance_groups st))
                     (bk_banking_operations st)
                     (smap_set new_name cluster (bk_original_sources_map st))
                     (bk_ff_counter st + 1) (bk_ff_counter_4bit st) (bk_lsrdpq_counter st)
          end
      end.

(** [execute_1bit_to_2bit_banking]: the state after the phase and the number
    of two-bit instances created. *)
Definition execute_1bit_to_2bit_banking (st : BankState) (group_key : string)
  : BankState * Z :=
  let fsdn_instances := collect_fsdn_instances_for_group st group_key in
  if (length fsdn_instances <? 2)%nat then (st, 0%Z)
  else
    let two_bit_clusters :=
      simple_distance_clustering fsdn_instances 2 FSDN_2BIT_BANKING_distance in
    let st' := fold_left (bank_pair_1to2 group_key) two_bit_clusters st in
    (st', (bk_ff_counter st' - bk_ff_counter st)%Z).

(** The original single-bit sources recorded for the members of a cluster of
    two-bit instances. *)
Fixpoint all_original_sources_of (original_sources_map : list (string * list Instance))
         (cluster : list Instance) : list Instance :=
  match cluster with
  | [] => []
  | twobit_ff :: rest =>
      match assoc_find (inst_name twobit_ff) original_sources_map with
      | Some sources => (sources ++ all_original_sources_of original_sources_map rest)%list
      | None => all_original_sources_of original_sources_map rest
      end
  end.

(** Body of the loop over clusters in [execute_2bit_to_4bit_banking]. *)
Definition bank_pair_2to4 (group_key : string) (st : BankState)
           (cluster : list Instance) : BankState :=
  if negb (length cluster =? 2)%nat then st
  else
    let hierarchical_key := get_hierarchical_key_from_group hierarchical_ff_groups cluster in
    if String.eqb hierarchical_key "" then st
    else
      match retarget_key hierarchical_key "|4bit" with
      | None => st
      | Some target_key =>
          match assoc_find target_key optimal_ff_for_groups with
          | None => st
          | Some optimal_ff =>
              let center_x := sum_x cluster / 2 in
              let center_y := sum_y cluster / 2 in
              let new_name := minted_name cluster "ff_fsdn4_" (bk_ff_counter_4bit st) in
              let new_4bit :=
                new_multibit cell_library new_name optimal_ff center_x center_y BT_FSDN
                  "" (first_module_name cluster)
                  (map_2bit_to_4bit_connections cluster) in
              let all_original_sources :=
                all_original_sources_of (bk_original_sources_map st) cluster in
              let op :=
                mkOp all_original_sources new_name optimal_ff
                     (generate_complete_banking_pin_mapping all_original_sources new_name [])
                     "FSDN_4BIT_BANKING" in
              mkBank (erase_instances cluster
                        (assoc_set new_name new_4bit (bk_instances st)))
                     (rebuild_group group_key cluster new_4bit (bk_ff_instance_groups st))
                     (bk_banking_operations st ++ [op])%list
                     (bk_original_sources_map st)
                     (bk_ff_counter st) (bk_ff_counter_4bit st + 1) (bk_lsrdpq_counter st)
          end
      end.

(** [execute_2bit_to_4bit_banking] *)
Definition execute_2bit_to_4bit_banking (st : BankState) (group_key : string)
  : BankState :=
  match assoc_find group_key (bk_ff_instance_groups st) with
  | None => st
  | Some members =>
      let twobit_instances :=
        collect_from_group (contains "FSDN2") (bk_instances st) members in
      if (length twobit_instances <? 2)%nat then st
      else
        fold_left (bank_pair_2to4 group_key)
                  (simple_distance_clustering twobit_instances 2 FSDN_4BIT_BANKING_distance)
                  st
  end.

Definition is_4bit_op (op : BankingOperation) : bool :=
  String.eqb (op_operation_type op) "FSDN_4BIT_BANKING"
  || String.eqb (op_operation_type op) "LSRDPQ_4BIT_BANKING".

(** The test [used_in_4bit] of [finalize_2bit_banking_records]. *)
Definition used_in_4bit (ops : list BankingOperation) (original_sources : list Instance)
  : bool :=
  existsb (fun op =>
             is_4bit_op op
             && existsb (fun source => name_in (op_source_instances op) source)
                        original_sources) ops.

(** [finalize_2bit_banking_records] *)
Definition finalize_2bit_banking_records (st : BankState) : BankState :=
  let ops :=
    fold_left (fun ops (mapping : string * list Instance) =>
                 let '(twobit_name, original_sources) := mapping in
                 if used_in_4bit ops original_sources then ops
                 else (ops ++ [mkOp original_sources twobit_name "" [] "FSDN_2BIT_BANKING"])%list)
              (bk_original_sources_map st) (bk_banking_operations st) in
  mkBank (bk_instances st) (bk_ff_instance_groups st) ops (bk_original_sources_map st)
         (bk_ff_counter st) (bk_ff_counter_4bit st) (bk_lsrdpq_counter st).

(** Body of the loop over groups in [execute_fsdn_two_phase_banking]. *)
Definition fsdn_group_step (st : BankState) (group_key : string) : BankState :=
  let initial_fsdn_instances := collect_fsdn_instances_for_group st group_key in
  if (length initial_fsdn_instances <? 2)%nat then st
  else
    let '(st1, created_2bit) := execute_1bit_to_2bit_banking st group_key in
    if (created_2bit >? 0)%Z then execute_2bit_to_4bit_banking st1 group_key
    else st1.

(** [execute_fsdn_two_phase_banking]; the loop runs over the keys of
    [db.ff_instance_groups], which the loop body never changes. *)
Definition execute_fsdn_two_phase_banking (st : BankState) : BankState :=
  finalize_2bit_banking_records
    (fold_left fsdn_group_step (keys (bk_ff_instance_groups st)) st).

(* ---- Pass C: LSRDPQ single-phase banking --------------------------------- *)

Definition is_1bit_lsrdpq_name (cell_name : string) : bool :=
  let is_lsrdpq := contains "LSRDPQ" cell_name in
  let is_fdp := contains "FDP" cell_name in
  let is_1bit := negb (contains "LSRDPQ4" cell_name) in
  (is_lsrdpq && is_1bit) || is_fdp.

(** [collect_lsrdpq_instances_for_group] *)
Definition collect_lsrdpq_instances_for_group (st : BankState) (group_key : string)
  : list Instance :=
  match assoc_find group_key (bk_ff_instance_groups st) with
  | None => []
  | Some members => collect_from_group is_1bit_lsrdpq_name (bk_instances st) members
  end.

(** Body of the loop over clusters in [execute_lsrdpq_4bit_banking]. *)
Definition bank_quad_lsrdpq (group_key : string) (st : BankState)
           (cluster : list Instance) : BankState :=
  if negb (length cluster =? 4)%nat then st
  else
    match assoc_find "RISING|D_Q_QN_CK|4bit" optimal_ff_for_groups with
    | None => st
    | Some optimal_ff =>
        let center_x := sum_x cluster / 4 in
        let center_y := sum_y cluster / 4 in
        let new_name := minted_name cluster "ff_lsrdpq4_" (bk_lsrdpq_counter st) in
        let new_4bit :=
          new_multibit cell_library new_name optimal_ff center_x center_y
            BT_RISING_LSRDPQ "" (first_module_name cluster)
            (map_singlebit_to_multibit_connections cluster
               (assoc_find optimal_ff cell_library) 4) in
        let op :=
          mkOp cluster new_name optimal_ff
               (generate_complete_banking_pin_mapping cluster new_name [])
               "LSRDPQ_4BIT_BANKING" in
        mkBank (erase_instances cluster
                  (assoc_set new_name new_4bit (bk_instances st)))
               (rebuild_group group_key cluster new_4bit (bk_ff_instance_groups st))
               (bk_banking_operations st ++ [op])%list
               (bk_original_sources_map st)
               (bk_ff_counter st) (bk_ff_counter_4bit st) (bk_lsrdpq_counter st + 1)
    end.

(** [execute_lsrdpq_4bit_banking] *)
Definition execute_lsrdpq_4bit_banking (st : BankState) (group_key : string)
  : BankState :=
  let lsrdpq_instances := collect_lsrdpq_instances_for_group st group_key in
  if (length lsrdpq_instances <? 4)%nat then st
  else
    fold_left (bank_quad_lsrdpq group_key)
              (simple_distance_clustering lsrdpq_instances 4 LSRDPQ_4BIT_BANKING_distance)
              st.

(** [execute_lsrdpq_single_phase_banking] *)
Definition execute_lsrdpq_single_phase_banking (st : BankState) : BankState :=
  fold_left (fun st group_key =>
               if (length (collect_lsrdpq_instances_for_group st group_key) <? 4)%nat
               then st
               else execute_lsrdpq_4bit_banking st group_key)
            (keys (bk_ff_instance_groups st)) st.

(* ---- Recording ----------------------------------------------------------- *)

(** transformation_tracking.cpp, [record_bank_transformation] *)
Definition record_bank_transformation (history : list TransformationRecord)
           (original_singlebit_ffs : list Instance)
           (resulting_multibit_name multibit_cell_type : string)
           (pin_mapping : list (string * string)) : list TransformationRecord :=
  match original_singlebit_ffs with
  | [] => history
  | primary :: others =>
      (history ++
       [mkRec (inst_name primary) resulting_multibit_name pin_mapping BANK
              (inst_cell_type primary) multibit_cell_type "BANK"
              (map inst_name others)
              (inst_position_x primary) (inst_position_y primary)
              (inherited_cluster_id (inst_name primary) history)])%list
  end.

(** Body of the loop of [record_all_banking_transformations]. *)
Definition record_operation (instances : InstanceTable)
           (history : list TransformationRecord) (op : BankingOperation)
  : list TransformationRecord :=
  let missing :=
    String.eqb (op_target_cell_type op) ""
    || match op_pin_mapping op with [] => true | _ => false end in
  let result := if missing then assoc_find (op_result_instance_name op) instances else None in
  let target_cell_type :=
    match result with
    | Some r => if String.eqb (op_target_cell_type op) "" then template_name r
                else op_target_cell_type op
    | None => op_target_cell_type op
    end in
  let pin_mapping :=
    match result, op_pin_mapping op with
    | Some r, [] =>
        generate_complete_banking_pin_mapping (op_source_instances op) (inst_name r) []
    | _, m => m
    end in
  record_bank_transformation history (op_source_instances op)
                             (op_result_instance_name op) target_cell_type pin_mapping.

(** [record_all_banking_transformations], up to the stage capture. *)
Definition record_all_banking_transformations (st : BankState)
           (history : list TransformationRecord) : list TransformationRecord :=
  fold_left (record_operation (bk_instances st)) (bk_banking_operations st) history.

(** The three passes in the order [main] runs them. *)
Definition execute_all_banking (st : BankState) : BankState :=
  execute_lsrdpq_single_phase_banking
    (execute_fsdn_two_phase_banking
       (execute_debank_cluster_rebanking cell_library optimal_ff_for_groups st)).

End BankingPasses.

(** Number of source instances of a record: the primary one and the related
    ones. *)
Definition source_count (r : TransformationRecord) : Z :=
  (1 + Z.of_nat (length (rec_related_instances r)))%Z.

(** Bit-width of the record's result cell, looked up in the library. *)
Definition result_bit_width (lib : CellLibrary) (r : TransformationRecord) : option Z :=
  match assoc_find (rec_result_cell_type r) lib with
  | Some c => Some (ct_bit_width c)
  | None => None
  end.

(** Three fragments of one debanked flip-flop, all of banking type FSDN. *)
Definition ex_fragment (n : string) (bit : string) : Instance :=
  mkInst n "FSDN_S" (Some ex_cell_fsdn1) "" BT_FSDN "m" "" DblMax 1000 1000 UNPLACED
         [mkConn "D" ("a" ++ bit)%string; mkConn "Q" ("b" ++ bit)%string; mkConn "CK" "clk"]
         0 0 1.

Definition ex_three_fragments : InstanceTable :=
  [("m_BIT0", ex_fragment "m_BIT0" "0");
   ("m_BIT1", ex_fragment "m_BIT1" "1");
   ("m_BIT2", ex_fragment "m_BIT2" "2")].

Definition ex_bank_state (t : InstanceTable) (groups : list (string * list Instance))
  : BankState :=
  mkBank t groups [] [] 1 1 1.

(* ========================================================================= *)
(** ** Legalizer (Legalization.cpp) *)
(* ========================================================================= *)

(** [struct Cluster].  [cl_cells] holds the [Instance*] members as instance
    names; the [leftCluster] pointer is the rest of the list the cluster sits
    in (see [SubRow]). *)
Record Cluster := mkCluster {
  cl_x : Q;
  cl_width : Q;
  cl_weight : Q;
  cl_q : Q;
  cl_cells : list string
}.

(** [struct SubRow].  [sr_clusters] is the chain reachable from
    [lastCluster] through [leftCluster]: the head is [lastCluster], the empty
    list is the null pointer. *)
Record SubRow := mkSubRow {
  sr_x_min : Q;
  sr_x_max : Q;
  sr_Usewidth : Q;
  sr_clusters : list Cluster
}.

(** [SubRow(xmin, xmax)] *)
Definition new_SubRow (xmin xmax : Q) : SubRow := mkSubRow xmin xmax (xmax - xmin) [].

(** [struct PlacementRow] *)
Record PlacementRow := mkRow {
  row_origin_x : Q;
  row_origin_y : Q;
  row_num_x : Z;
  row_step_x : Q;
  row_step_y : Q;
  row_height : Q;
  row_site_width : Q;
  row_id : Z;
  row_subrows : list SubRow
}.

Record Rectangle := mkRect {
  rect_x1 : Q;
  rect_y1 : Q;
  rect_x2 : Q;
  rect_y2 : Q
}.

(** [floor((x - base) / sitew) * sitew + base] *)
Definition snap_down (base sitew x : Q) : Q :=
  floorQ ((x - base) / sitew) * sitew + base.

(** [ceil(width / sitew) * sitew] *)
Definition placed_width (sitew width : Q) : Q :=
  ceilQ (width / sitew) * sitew.

Definition get_width (i : Instance) : Q :=
  match inst_cell_template i with Some c => ct_width c | None => 0 end.

Definition get_height (i : Instance) : Q :=
  match inst_cell_template i with Some c => ct_height c | None => 0 end.

Definition Qeqb (x y : Q) : bool := Qeq_bool x y.

(** Body of the loop of the [Legalizer] constructor. *)
Definition init_row (i : Z) (r : PlacementRow) : PlacementRow :=
  let height := if Qeqb (row_height r) 0 then row_step_y r else row_height r in
  let site_width := if Qeqb (row_site_width r) 0 then row_step_x r else row_site_width r in
  let subrows :=
    match row_subrows r with
    | [] => [new_SubRow (row_origin_x r)
                        (row_origin_x r + row_step_x r * inject_Z (row_num_x r))]
    | l => l
    end in
  mkRow (row_origin_x r) (row_origin_y r) (row_num_x r) (row_step_x r) (row_step_y r)
        height site_width i subrows.

Fixpoint init_rows_from (i : Z) (rows : list PlacementRow) : list PlacementRow :=
  match rows with
  | [] => []
  | r :: rest => init_row i r :: init_rows_from (i + 1) rest
  end.

(** [Legalizer::Legalizer] *)
Definition Legalizer_init (rows : list PlacementRow) : list PlacementRow :=
  init_rows_from 0 rows.

(** [std::sort] by [position.x] with the comparator [a->position.x <
    b->position.x].  The standard leaves the order of instances with equal
    [x] open; the model keeps them in the order they had (the stable order:
    an instance goes before the first one that is not strictly left of it). *)
Fixpoint insert_by_x (i : Instance) (l : list Instance) : list Instance :=
  match l with
  | [] => [i]
  | j :: rest =>
      if Qltb (inst_position_x j) (inst_position_x i)
      then j :: insert_by_x i rest
      else i :: l
  end.

Fixpoint sort_by_x (l : list Instance) : list Instance :=
  match l with
  | [] => []
  | i :: rest => insert_by_x i (sort_by_x rest)
  end.

(** [classify_instances]: the flip-flops, the other instances, and the
    instance table in which the others have [x_new, y_new] set to their
    position. *)
Fixpoint classify_instances (l : InstanceTable)
  : list Instance * list Instance * InstanceTable :=
  match l with
  | [] => ([], [], [])
  | (k, instance) :: rest =>
      let '(ffs, blks, t) := classify_instances rest in
      if is_flip_flop instance then (instance :: ffs, blks, (k, instance) :: t)
      else
        let instance' :=
          set_new_position (inst_position_x instance) (inst_position_y instance) instance in
        (ffs, instance' :: blks, (k, instance') :: t)
  end.

Definition eps : Q := 1 # 1000000.

(** The carving loop of [buildSubRows] over the sub-rows of one row. *)
Fixpoint carve (front back : Q) (sr : list SubRow) : list SubRow :=
  match sr with
  | [] => []
  | slice :: rest =>
      if Qleb (sr_x_max slice) front || Qleb back (sr_x_min slice) then
        slice :: carve front back rest
      else if Qleb front (sr_x_min slice) && Qleb (sr_x_max slice) back then
        carve front back rest
      else if Qleb front (sr_x_min slice) && Qltb back (sr_x_max slice) then
        mkSubRow back (sr_x_max slice) (sr_x_max slice - back) (sr_clusters slice)
        :: carve front back rest
      else if Qltb (sr_x_min slice) front && Qleb (sr_x_max slice) back then
        mkSubRow (sr_x_min slice) front (front - sr_x_min slice) (sr_clusters slice)
        :: carve front back rest
      else
        new_SubRow (sr_x_min slice) front :: new_SubRow back (sr_x_max slice)
        :: carve front back rest
  end.

(** Body of the loop over rows for one obstacle [MINx, MAXx) x [MINy, MAXy). *)
Definition carve_row (MINx MAXx MINy MAXy : Q) (row : PlacementRow) : PlacementRow :=
  if negb (Qltb MINy (row_origin_y row + row_height row) && Qltb (row_origin_y row) MAXy)
  then row
  else
    let front := row_origin_x row
                 + floorQ ((MINx - row_origin_x row) / row_site_width row + eps)
                   * row_site_width row in
    let back := row_origin_x row
                + ceilQ ((MAXx - row_origin_x row) / row_site_width row - eps)
                  * row_site_width row in
    mkRow (row_origin_x row) (row_origin_y row) (row_num_x row) (row_step_x row)
          (row_step_y row) (row_height row) (row_site_width row) (row_id row)
          (carve front back (row_subrows row)).

Definition carve_instance (rows : list PlacementRow) (blk : Instance) : list PlacementRow :=
  match inst_cell_template blk with
  | None => rows
  | Some c =>
      map (carve_row (inst_position_x blk) (inst_position_x blk + ct_width c)
                     (inst_position_y blk) (inst_position_y blk + get_height blk)) rows
  end.

Definition carve_rect (rows : list PlacementRow) (rect : Rectangle) : list PlacementRow :=
  map (carve_row (rect_x1 rect) (rect_x2 rect) (rect_y1 rect) (rect_y2 rect)) rows.

(** [Legalizer::buildSubRows] *)
Definition buildSubRows (rows : list PlacementRow) (blockage_instances : list Instance)
           (placement_blockages : list Rectangle) : list PlacementRow :=
  fold_left carve_rect placement_blockages
            (fold_left carve_instance (sort_by_x blockage_instances) rows).

(** [Legalizer::findBestRow]: index of the first row closest in y, [-1]
    without rows. *)
Fixpoint findBestRow_from (y : Q) (rows : list PlacementRow) (i : Z)
         (best : Score) (br : Z) : Z :=
  match rows with
  | [] => br
  | r :: rest =>
      let dy := Qabs (y - row_origin_y r) in
      if score_ltb (Fin dy) best then findBestRow_from y rest (i + 1) (Fin dy) i
      else findBestRow_from y rest (i + 1) best br
  end.

Definition findBestRow (rows : list PlacementRow) (instance : Instance) : Z :=
  findBestRow_from (inst_position_y instance) rows 0 DblMax (-1).

(** [Legalizer::findSubrowpos] *)
Fixpoint findSubrowpos_from (px w : Q) (subrows : list SubRow) (idx : Z)
         (minDisplacement : Score) (subRow : Z) : Z :=
  match subrows with
  | [] => subRow
  | s :: rest =>
      if Qltb (sr_Usewidth s) w then
        findSubrowpos_from px w rest (idx + 1) minDisplacement subRow
      else
        let move :=
          if Qltb px (sr_x_min s) then sr_x_min s - px
          else if Qltb (sr_x_max s) (px + w) then px + w - sr_x_max s
          else 0 in
        if score_ltb (Fin move) minDisplacement
        then findSubrowpos_from px w rest (idx + 1) (Fin move) idx
        else subRow
  end.

Definition findSubrowpos (instance : Instance) (row : PlacementRow) : Z :=
  match inst_cell_template instance with
  | None => (-1)%Z
  | Some c =>
      findSubrowpos_from (inst_position_x instance) (ct_width c) (row_subrows row)
                         0 DblMax (-1)
  end.

(** [Legalizer::AddCell] *)
Definition AddCell (cluster : Cluster) (instance : Instance) (tempXpos placeCellwidth : Q)
  : Cluster :=
  mkCluster (cl_x cluster)
            (cl_width cluster + placeCellwidth)
            (cl_weight cluster + inject_Z (inst_weight instance))
            (cl_q cluster + inject_Z (inst_weight instance) * (tempXpos - cl_width cluster))
            (cl_cells cluster ++ [inst_name instance]).

(** [Legalizer::AddCluster]: [pred] after [curr] has been merged into it. *)
Definition AddCluster (pred curr : Cluster) : Cluster :=
  mkCluster (cl_x pred)
            (cl_width pred + cl_width curr)
            (cl_weight pred + cl_weight curr)
            (cl_q pred + (cl_q curr - cl_weight curr * cl_width pred))
            (cl_cells pred ++ cl_cells curr).

Definition set_cl_x (x : Q) (c : Cluster) : Cluster :=
  mkCluster x (cl_width c) (cl_weight c) (cl_q c) (cl_cells c).

(** The position [Collapse] gives a cluster: optimum, snapped, clamped. *)
Definition clamp_x (sr_xmin xmin xmax sitew q weight width : Q) : Q :=
  let x := snap_down sr_xmin sitew (q / weight) in
  let x := if Qltb x xmin then xmin else x in
  if Qltb xmax (x + width) then xmax - width else x.

(** [Legalizer::Collapse] on the chain [cluster :: lefts]; the result is the
    new chain, whose head is the new [lastCluster].  The assignment
    [cluster = *pred] copies the merged predecessor, its [leftCluster]
    included, into the object [lastCluster] points to. *)
Fixpoint Collapse (sr_xmin xmin xmax sitew : Q) (cluster : Cluster) (lefts : list Cluster)
  : list Cluster :=
  let x := clamp_x sr_xmin xmin xmax sitew (cl_q cluster) (cl_weight cluster)
                   (cl_width cluster) in
  match lefts with
  | pred :: lefts' =>
      if Qltb x (cl_x pred + cl_width pred)
      then Collapse sr_xmin xmin xmax sitew (AddCluster pred cluster) lefts'
      else set_cl_x x cluster :: lefts
  | [] => [set_cl_x x cluster]
  end.

(** The nominal position [tempXpos] computed at the start of both branches
    of [placeRow]. *)
Definition nominal_x (sitew : Q) (sr : SubRow) (px w : Q) : Q :=
  if Qleb px (sr_x_min sr) then sr_x_min sr
  else if Qleb (sr_x_max sr) (px + w) then snap_down (sr_x_min sr) sitew (sr_x_max sr - w)
  else snap_down (sr_x_min sr) sitew px.

Definition starts_new_cluster (sr : SubRow) (tempXpos : Q) : bool :=
  match sr_clusters sr with
  | [] => true
  | last :: _ => Qleb (cl_x last + cl_width last) tempXpos
  end.

(** [placeRow] with [final = true]: the sub-row after the insertion and the
    position written to the instance, if any is written. *)
Definition placeRow_final (row : PlacementRow) (instance : Instance) (sr : SubRow)
  : SubRow * option (Q * Q) :=
  let w := get_width instance in
  let sitew := row_site_width row in
  let placeCellwidth := placed_width sitew w in
  let Usewidth := sr_Usewidth sr - placeCellwidth in
  let tempXpos := nominal_x sitew sr (inst_position_x instance) w in
  if starts_new_cluster sr tempXpos then
    let cur := AddCell (mkCluster tempXpos 0 0 0 []) instance tempXpos placeCellwidth in
    (mkSubRow (sr_x_min sr) (sr_x_max sr) Usewidth (cur :: sr_clusters sr),
     Some (tempXpos, row_origin_y row))
  else
    match sr_clusters sr with
    | [] => (sr, None)
    | last :: lefts =>
        (mkSubRow (sr_x_min sr) (sr_x_max sr) Usewidth
                  (Collapse (sr_x_min sr) (sr_x_min sr) (sr_x_max sr) sitew
                            (AddCell last instance tempXpos placeCellwidth) lefts),
         None)
    end.

(** The simulated merge chain of the trial branch: returns the final
    [Tempx], [TempWidth] and the clusters visited ([checkmaxdis]). *)
Fixpoint trial_chain (sr_xmin sr_xmax sitew : Q) (TempQ TempWeight TempWidth : Q)
         (curr : Cluster) (lefts : list Cluster) : Q * Q * list Cluster :=
  let Tempx := clamp_x sr_xmin sr_xmin sr_xmax sitew TempQ TempWeight TempWidth in
  match lefts with
  | pred :: lefts' =>
      if Qltb Tempx (cl_x pred + cl_width pred) then
        let '(x, tw, visited) :=
          trial_chain sr_xmin sr_xmax sitew
                      (TempQ + (cl_q pred - TempWeight * cl_width pred))
                      (TempWeight + cl_weight pred)
                      (TempWidth + cl_width pred) pred lefts' in
        (x, tw, curr :: visited)
      else (Tempx, TempWidth, [curr])
  | [] => (Tempx, TempWidth, [curr])
  end.

(** Costs are Euclidean distances in the source; the model carries their
    squares.  Every use of a cost is a comparison between two non-negative
    quantities, which squaring preserves. *)
Definition dist2 (dx dy : Q) : Q := dx * dx + dy * dy.

(** [dis > max_disp_] *)
Definition exceeds (d2 : Q) (max_disp : Score) : bool :=
  match max_disp with
  | DblMax => false
  | Fin m => if Qltb m 0 then true else Qltb (m * m) d2
  end.

(** The displacement check over the clusters of [checkmaxdis]. *)
Fixpoint check_cells (instances : InstanceTable) (sitew row_y : Q) (max_disp : Score)
         (cells : list string) (Tempx : Q) : option Q :=
  match cells with
  | [] => Some Tempx
  | n :: rest =>
      match assoc_find n instances with
      | None => check_cells instances sitew row_y max_disp rest Tempx
      | Some cp =>
          if exceeds (dist2 (inst_position_x cp - Tempx) (inst_position_y cp - row_y))
                     max_disp
          then None
          else check_cells instances sitew row_y max_disp rest
                           (Tempx + placed_width sitew (get_width cp))
      end
  end.

Fixpoint check_clusters (instances : InstanceTable) (sitew row_y : Q) (max_disp : Score)
         (visited : list Cluster) (Tempx : Q) : bool :=
  match visited with
  | [] => true
  | c :: rest =>
      match check_cells instances sitew row_y max_disp (cl_cells c) Tempx with
      | None => false
      | Some Tempx' => check_clusters instances sitew row_y max_disp rest Tempx'
      end
  end.

(** [placeRow] with [final = false]: the cost and the trial position written
    to the instance (none when the function returns at its first line). *)
Definition placeRow_trial (max_disp : Score) (instances : InstanceTable)
           (row : PlacementRow) (instance : Instance) (sr : SubRow) (check : bool)
  : Score * option (Q * Q) :=
  match inst_cell_template instance with
  | None => (DblMax, None)
  | Some c =>
      let w := ct_width c in
      let sitew := row_site_width row in
      let placeCellwidth := placed_width sitew w in
      let tempXpos := nominal_x sitew sr (inst_position_x instance) w in
      let '(x_new, passed) :=
        if starts_new_cluster sr tempXpos then (tempXpos, true)
        else
          match sr_clusters sr with
          | [] => (tempXpos, true)
          | last :: lefts =>
              let TempWeight := cl_weight last + inject_Z (inst_weight instance) in
              let TempQ :=
                cl_q last + inject_Z (inst_weight instance) * (tempXpos - cl_width last) in
              let TempWidth := cl_width last + placeCellwidth in
              let '(Tempx, TempWidth', visited) :=
                trial_chain (sr_x_min sr) (sr_x_max sr) sitew TempQ TempWeight TempWidth
                            last lefts in
              (Tempx + TempWidth' - placeCellwidth,
               if check then check_clusters instances sitew (row_origin_y row) max_disp
                                            visited Tempx
               else true)
          end in
      let dis := dist2 (inst_position_x instance - x_new)
                       (inst_position_y instance - row_origin_y row) in
      if negb passed then (DblMax, Some (x_new, row_origin_y row))
      else if check && exceeds dis max_disp then (DblMax, Some (x_new, row_origin_y row))
      else (Fin dis, Some (x_new, row_origin_y row))
  end.

(** Write through an [Instance*]: update the object stored under a name. *)
Definition update_instance (n : string) (f : Instance -> Instance) (t : InstanceTable)
  : InstanceTable :=
  map (fun p => if String.eqb (fst p) n then (fst p, f (snd p)) else p) t.

Definition write_position (n : string) (pos : option (Q * Q)) (t : InstanceTable)
  : InstanceTable :=
  match pos with
  | Some (x, y) => update_instance n (set_new_position x y) t
  | None => t
  end.

Fixpoint replace_nth {A : Type} (n : nat) (x : A) (l : list A) : list A :=
  match l, n with
  | [], _ => []
  | _ :: rest, O => x :: rest
  | y :: rest, S n' => y :: replace_nth n' x rest
  end.

Definition set_subrows (subrows : list SubRow) (r : PlacementRow) : PlacementRow :=
  mkRow (row_origin_x r) (row_origin_y r) (row_num_x r) (row_step_x r) (row_step_y r)
        (row_height r) (row_site_width r) (row_id r) subrows.

(** State of the legalizer: the rows with their sub-rows and clusters, the
    instance table the clusters point into, and the warnings printed. *)
Record LegalState := mkLegal {
  lg_rows : list PlacementRow;
  lg_instances : InstanceTable;
  lg_warnings : list string
}.

(** Search state of the row sweep of [Abacus] for one instance. *)
Record Search := mkSearch {
  se_Cbest : Score;
  se_bestRowIdx : Z;
  se_bestSubRowIdx : Z;
  se_instances : InstanceTable
}.

(** The current object of an instance: the table holds the object the
    pointer refers to. *)
Definition current (t : InstanceTable) (instance : Instance) : Instance :=
  match assoc_find (inst_name instance) t with
  | Some i => i
  | None => instance
  end.

(** One side ("Try upward row" / "Try downward row") of the sweep. *)
Definition try_row (max_disp : Score) (rows : list PlacementRow) (instance : Instance)
           (rowidx : Z) (s : Search) : Search :=
  match nth_error rows (Z.to_nat rowidx) with
  | None => s
  | Some row =>
      let subRowidx := findSubrowpos instance row in
      if (subRowidx =? -1)%Z then s
      else
        match nth_error (row_subrows row) (Z.to_nat subRowidx) with
        | None => s
        | Some sr =>
            let '(cost, pos) :=
              placeRow_trial max_disp (se_instances s) row
                             (current (se_instances s) instance) sr true in
            let t := write_position (inst_name instance) pos (se_instances s) in
            if score_ltb cost (se_Cbest s)
            then mkSearch cost rowidx subRowidx t
            else mkSearch (se_Cbest s) (se_bestRowIdx s) (se_bestSubRowIdx s) t
        end
  end.

(** [std::abs(instance->position.y - row.origin.y) < Cbest], with the cost
    carried squared. *)
Definition within_best (rows : list PlacementRow) (instance : Instance) (rowidx : Z)
           (Cbest : Score) : bool :=
  match nth_error rows (Z.to_nat rowidx) with
  | None => false
  | Some row =>
      let dy := inst_position_y instance - row_origin_y row in
      score_ltb (Fin (dy * dy)) Cbest
  end.

(** The sweep [for (int i = 0; i < rows.size(); ++i)] from iteration [i] on;
    [fuel] is the number of iterations left. *)
Fixpoint sweep (max_disp : Score) (rows : list PlacementRow) (instance : Instance)
         (originRowIdx : Z) (fuel : nat) (i : Z) (s : Search) : Search :=
  match fuel with
  | O => s
  | S fuel' =>
      let rowidx1 := (originRowIdx + i)%Z in
      let rowidx2 := (originRowIdx - i)%Z in
      let up :=
        if (Z.of_nat (length rows) <=? rowidx1)%Z then false
        else within_best rows instance rowidx1 (se_Cbest s) in
      let down :=
        if (rowidx2 <? 0)%Z then false
        else within_best rows instance rowidx2 (se_Cbest s) in
      if negb up && negb down then s
      else
        let s1 := if up then try_row max_disp rows instance rowidx1 s else s in
        let s2 := if down then try_row max_disp rows instance rowidx2 s1 else s1 in
        sweep max_disp rows instance originRowIdx fuel' (i + 1) s2
  end.

(** The committing call of [placeRow] on [rows[bestRowIdx].subrows[bestSubRowIdx]]. *)
Definition commit (rows : list PlacementRow) (t : InstanceTable) (instance : Instance)
           (bestRowIdx bestSubRowIdx : Z) : list PlacementRow * InstanceTable :=
  match nth_error rows (Z.to_nat bestRowIdx) with
  | None => (rows, t)
  | Some row =>
      match nth_error (row_subrows row) (Z.to_nat bestSubRowIdx) with
      | None => (rows, t)
      | Some sr =>
          let '(sr', pos) := placeRow_final row (current t instance) sr in
          (replace_nth (Z.to_nat bestRowIdx)
                       (set_subrows (replace_nth (Z.to_nat bestSubRowIdx) sr'
                                                 (row_subrows row)) row)
                       rows,
           write_position (inst_name instance) pos t)
      end
  end.

(** Body of the loop "Step 4: Process each flip-flop instance" of [Abacus]. *)
Definition Abacus_step (max_disp : Score) (st : LegalState) (instance : Instance)
  : LegalState :=
  let rows := lg_rows st in
  let originRowIdx := findBestRow rows instance in
  if (originRowIdx =? -1)%Z then
    mkLegal rows (lg_instances st)
            (lg_warnings st
             ++ [("WARN: instance " ++ inst_name instance
                  ++ " cannot fit any [row]; skipping.")%string])
  else
    let s := sweep max_disp rows instance originRowIdx (length rows) 0
                   (mkSearch DblMax (-1) (-1) (lg_instances st)) in
    if negb (se_bestRowIdx s =? -1)%Z && negb (se_bestSubRowIdx s =? -1)%Z then
      let '(rows', t) :=
        commit rows (se_instances s) instance (se_bestRowIdx s) (se_bestSubRowIdx s) in
      mkLegal rows'
              (update_instance (inst_name instance) (set_placement_status PLACED) t)
              (lg_warnings st)
    else
      mkLegal rows
              (update_instance (inst_name instance)
                 (set_new_position (inst_position_x instance) (inst_position_y instance))
                 (se_instances s))
              (lg_warnings st
               ++ [("  Warning: Could not place instance " ++ inst_name instance)%string]).

(** [Legalizer::Abacus] *)
Definition Abacus (max_disp : Score) (rows : list PlacementRow)
           (instances : InstanceTable) (placement_blockages : list Rectangle)
  : LegalState :=
  let '(ff_instances, blockage_instances, t) := classify_instances instances in
  let rows' := buildSubRows rows blockage_instances placement_blockages in
  fold_left (Abacus_step max_disp) (sort_by_x ff_instances) (mkLegal rows' t []).

(** Inner loop of [place]: lay the cells of one cluster out from [x] on. *)
Fixpoint place_cells (sitew row_y : Q) (cells : list string) (x : Q) (t : InstanceTable)
  : InstanceTable :=
  match cells with
  | [] => t
  | n :: rest =>
      let w := match assoc_find n t with Some i => get_width i | None => 0 end in
      place_cells sitew row_y rest (x + placed_width sitew w)
                  (update_instance n (set_new_position x row_y) t)
  end.

Definition place_cluster (sitew row_y sub_x_min : Q) (t : InstanceTable) (c : Cluster)
  : InstanceTable :=
  place_cells sitew row_y (cl_cells c) (snap_down sub_x_min sitew (cl_x c)) t.

Definition place_subrow (sitew row_y : Q) (t : InstanceTable) (sub : SubRow)
  : InstanceTable :=
  fold_left (place_cluster sitew row_y (sr_x_min sub)) (sr_clusters sub) t.

Definition place_row (t : InstanceTable) (row : PlacementRow) : InstanceTable :=
  fold_left (place_subrow (row_site_width row) (row_origin_y row)) (row_subrows row) t.

(** [Legalizer::place] *)
Definition place (st : LegalState) : LegalState :=
  mkLegal (lg_rows st) (fold_left place_row (lg_rows st) (lg_instances st))
          (lg_warnings st).

(** The legalizer as [main] runs it: constructor, [Abacus], [place]. *)
Definition legalize (max_disp : Score) (rows : list PlacementRow)
           (instances : InstanceTable) (placement_blockages : list Rectangle)
  : LegalState :=
  place (Abacus max_disp (Legalizer_init rows) instances placement_blockages).

(** Scenario 5 of the specification: one row, a blockage, two flip-flops. *)
Definition ex_cell_ff400 : CellTemplate :=
  mkCell "FF400" 400 200 ex_pins_d_q_ck 1 0 "null" 1 RISING FLIP_FLOP.

Definition ex_row : PlacementRow := mkRow 0 0 50 200 200 0 0 (-1) [].

Definition ex_blockage : Rectangle := mkRect 2000 0 4000 200.

Definition ex_legal_instances : InstanceTable :=
  [("f1", new_instance "f1" ex_cell_ff400 3000 0 []);
   ("f2", new_instance "f2" ex_cell_ff400 3400 0 [])].

(* ========================================================================= *)
(** ** Pin classification and instance grouping
       (parsers.cpp, ff_instance_grouping.cpp, banking.cpp) *)
(* ========================================================================= *)

(** [::toupper] on one character. *)
Definition toupper_ascii (c : ascii) : ascii :=
  let n := nat_of_ascii c in
  if (97 <=? n)%nat && (n <=? 122)%nat then ascii_of_nat (n - 32) else c.

Fixpoint toupper (s : string) : string :=
  match s with
  | EmptyString => EmptyString
  | String c rest => String (toupper_ascii c) (toupper rest)
  end.

(** parsers.cpp, [classify_ff_pin_type] *)
Definition classify_ff_pin_type (pin_name : string) : FlipFlopPinType :=
  let upper_pin := toupper pin_name in
  let is_one_of := mem_string upper_pin in
  if is_one_of ["D"; "D0"; "D1"; "D2"; "D3"; "D4"; "D5"; "D6"; "D7"]
     || String.prefix "D[" upper_pin then FF_DATA_INPUT
  else if is_one_of ["QN"; "QN0"; "QN1"; "QN2"; "QN3"; "QN4"; "QN5"; "QN6"; "QN7"]
          || String.prefix "QN[" upper_pin then FF_DATA_OUTPUT_N
  else if is_one_of ["Q"; "Q0"; "Q1"; "Q2"; "Q3"; "Q4"; "Q5"; "Q6"; "Q7"]
          || String.prefix "Q[" upper_pin then FF_DATA_OUTPUT
  else if is_one_of ["CLK"; "CK"; "CLOCK"; "CP"] then FF_CLOCK
  else if is_one_of ["SI"; "SCAN_IN"; "SCIN"; "TI"] then FF_SCAN_INPUT
  else if is_one_of ["SO"; "SCAN_OUT"; "SCOUT"; "TO"] then FF_SCAN_OUTPUT
  else if is_one_of ["SE"; "SCAN_EN"; "SCAN_ENABLE"; "TE"] then FF_SCAN_ENABLE
  else if is_one_of ["RD"] then FF_RD
  else if is_one_of ["SD"] then FF_SD
  else if is_one_of ["SR"] then FF_SR
  else if is_one_of ["RS"] then FF_RS
  else if is_one_of ["VDDR"] then FF_VDDR
  else if is_one_of ["R"; "RST"; "RESET"; "RN"; "RESETN"; "RSTB"; "CDN"; "RSTN"; "CLR"; "CLRN"]
  then FF_RESET
  else if is_one_of ["S"; "SET"; "SN"; "SETN"; "SETB"; "SDN"; "PRE"; "PREN"; "PRESET"]
  then FF_SET
  else if is_one_of ["VDD"; "VSS"; "VDDPE"; "VSSE"; "VNW"; "VPW"; "VSDR";
                     "AVDD"; "AVSS"; "DVDD"; "DVSS"]
  then FF_NOT_FF_PIN
  else FF_OTHER.

Definition FlipFlopPinType_eqb (a b : FlipFlopPinType) : bool :=
  match a, b with
  | FF_DATA_INPUT, FF_DATA_INPUT | FF_DATA_OUTPUT, FF_DATA_OUTPUT
  | FF_DATA_OUTPUT_N, FF_DATA_OUTPUT_N | FF_CLOCK, FF_CLOCK
  | FF_SCAN_INPUT, FF_SCAN_INPUT | FF_SCAN_OUTPUT, FF_SCAN_OUTPUT
  | FF_SCAN_ENABLE, FF_SCAN_ENABLE | FF_RESET, FF_RESET | FF_SET, FF_SET
  | FF_RD, FF_RD | FF_SD, FF_SD | FF_SR, FF_SR | FF_RS, FF_RS
  | FF_VDDR, FF_VDDR | FF_OTHER, FF_OTHER | FF_NOT_FF_PIN, FF_NOT_FF_PIN => true
  | _, _ => false
  end.

(** parsers.cpp, [is_active_logical_connection] *)
Definition is_active_logical_connection (conn : Connection) : bool :=
  let net_name := conn_net_name conn in
  if String.eqb net_name "UNCONNECTED" || String.eqb net_name "" then false
  else if contains "SYNOPSYS_UNCONNECTED" net_name then false
  else if String.eqb net_name "VSS" then false
  else true.

(** [struct ScanChain], as far as the grouping reads it. *)
Record ScanChain := mkChain {
  chain_name : string;
  chain_sequence : list string
}.

(** [get_instance_hierarchy] *)
Definition get_instance_hierarchy (instance : Instance) : string :=
  if negb (String.eqb (inst_module_name instance) "") then inst_module_name instance
  else
    match prefix_before_last "/"%char (inst_name instance) with
    | Some p => p
    | None => "TOP_LEVEL"
    end.

Definition scan_pin_connected (t : FlipFlopPinType) (conns : list Connection) : bool :=
  existsb (fun conn =>
             FlipFlopPinType_eqb (classify_ff_pin_type (conn_pin_name conn)) t
             && negb (String.eqb (conn_net_name conn) "UNCONNECTED")
             && negb (contains "SYNOPSYS_UNCONNECTED" (conn_net_name conn))) conns.

Fixpoint find_scan_chain (scan_chains : list ScanChain) (n : string) : option string :=
  match scan_chains with
  | [] => None
  | chain :: rest =>
      if mem_string n (chain_sequence chain) then Some (chain_name chain)
      else find_scan_chain rest n
  end.

(** [get_instance_scan_chain] *)
Definition get_instance_scan_chain (scan_chains : list ScanChain) (instance : Instance)
  : string :=
  if scan_pin_connected FF_SCAN_INPUT (inst_connections instance)
     || scan_pin_connected FF_SCAN_ENABLE (inst_connections instance)
  then match find_scan_chain scan_chains (inst_name instance) with
       | Some n => n
       | None => "UNASSIGNED_SCAN"
       end
  else "NON_SCAN".

(** [get_instance_clock_domain] *)
Fixpoint get_instance_clock_domain_from (conns : list Connection) : string :=
  match conns with
  | [] => "UNKNOWN_CLOCK"
  | conn :: rest =>
      if FlipFlopPinType_eqb (classify_ff_pin_type (conn_pin_name conn)) FF_CLOCK
         && is_active_logical_connection conn
      then conn_net_name conn
      else get_instance_clock_domain_from rest
  end.

(** [generate_instance_group_key] *)
Definition generate_instance_group_key (scan_chains : list ScanChain) (instance : Instance)
  : string :=
  (get_instance_scan_chain scan_chains instance ++ "|"
   ++ get_instance_hierarchy instance ++ "|"
   ++ get_instance_clock_domain_from (inst_connections instance))%string.

(** [group_ff_instances]; a group holds pointers to the objects of
    [db.instances], here their names. *)
Fixpoint group_ff_instances_from (scan_chains : list ScanChain) (l : InstanceTable)
         (groups : list (string * list string)) : list (string * list string) :=
  match l with
  | [] => groups
  | (_, instance) :: rest =>
      if is_flip_flop instance
      then group_ff_instances_from scan_chains rest
             (smap_push (generate_instance_group_key scan_chains instance)
                        (inst_name instance) groups)
      else group_ff_instances_from scan_chains rest groups
  end.

Definition group_ff_instances (scan_chains : list ScanChain) (instances : InstanceTable)
  : list (string * list string) :=
  group_ff_instances_from scan_chains instances [].

(** [get_instance_clock_signal] *)
Fixpoint get_instance_clock_signal_from (conns : list Connection) : string :=
  match conns with
  | [] => "UNKNOWN_CLK"
  | conn :: rest =>
      if FlipFlopPinType_eqb (classify_ff_pin_type (conn_pin_name conn)) FF_CLOCK
         && negb (String.eqb (conn_net_name conn) "UNCONNECTED")
         && negb (contains "SYNOPSYS_UNCONNECTED" (conn_net_name conn))
         && negb (String.eqb (conn_net_name conn) "VSS")
         && negb (String.eqb (conn_net_name conn) "VDD")
      then conn_net_name conn
      else get_instance_clock_signal_from rest
  end.

(** [rebuild_ff_instance_groups_for_banking] *)
Fixpoint rebuild_ff_instance_groups_for_banking_from (l : InstanceTable)
         (groups : list (string * list Instance)) : list (string * list Instance) :=
  match l with
  | [] => groups
  | (_, instance) :: rest =>
      if is_flip_flop instance
      then rebuild_ff_instance_groups_for_banking_from rest
             (smap_push (get_instance_hierarchy instance ++ "|"
                         ++ get_instance_clock_signal_from (inst_connections instance))%string
                        instance groups)
      else rebuild_ff_instance_groups_for_banking_from rest groups
  end.

Definition rebuild_ff_instance_groups_for_banking (instances : InstanceTable)
  : list (string * list Instance) :=
  rebuild_ff_instance_groups_for_banking_from instances [].

Definition set_banking_type (bt : BankingType) (i : Instance) : Instance :=
  mkInst (inst_name i) (inst_cell_type i) (inst_cell_template i) (inst_module_name i)
         bt (inst_cluster_id i)
         (inst_best_ff_from_substitution i) (inst_best_ff_score i)
         (inst_position_x i) (inst_position_y i) (inst_placement_status i)
         (inst_connections i) (inst_x_new i) (inst_y_new i) (inst_weight i).

Definition set_cluster_id (c : string) (i : Instance) : Instance :=
  mkInst (inst_name i) (inst_cell_type i) (inst_cell_template i) (inst_module_name i)
         (inst_banking_type i) c
         (inst_best_ff_from_substitution i) (inst_best_ff_score i)
         (inst_position_x i) (inst_position_y i) (inst_placement_status i)
         (inst_connections i) (inst_x_new i) (inst_y_new i) (inst_weight i).

(** banking.cpp, [assign_banking_types] *)
Definition assign_banking_type (instance : Instance) : Instance :=
  if negb (is_flip_flop instance) then instance
  else
    let clock_edge := get_instance_clock_edge instance in
    let cell_name := template_name instance in
    if String.eqb clock_edge "FALLING" && contains "FSDN" cell_name
    then set_banking_type BT_FSDN instance
    else if String.eqb clock_edge "RISING"
            && (contains "FDP" cell_name || contains "LSRDPQ" cell_name)
    then set_banking_type BT_RISING_LSRDPQ instance
    else set_banking_type BT_NONE instance.

Definition assign_banking_types (instances : InstanceTable) : InstanceTable :=
  map (fun p => (fst p, assign_banking_type (snd p))) instances.

(* ========================================================================= *)
(** ** Stage snapshots and the driver (data_structures.hpp,
       transformation_tracking.cpp, main.cpp) *)
(* ========================================================================= *)

(** [struct InstanceSnapshot] (orientation left out). *)
Record InstanceSnapshot := mkSnap {
  snap_instance_name : string;
  snap_cell_type : string;
  snap_x : Q;
  snap_y : Q;
  snap_pin_connections : list (string * string);
  snap_cluster_id : string;
  snap_original_name : string;
  snap_last_operation : Operation
}.

(** [struct StagePipeline] *)
Record StagePipeline := mkStage {
  stage_name : string;
  stage_instances : list InstanceSnapshot;
  stage_transformation_indices : list nat;
  stage_total_instances : nat;
  stage_ff_instances : nat
}.

(** [CompletePipeline::CompletePipeline] *)
Definition CompletePipeline_init : list StagePipeline :=
  map (fun n => mkStage n [] [] 0 0)
      ["ORIGINAL"; "DEBANK"; "SUBSTITUTION"; "BANK"; "POST_BANKING"; "LEGALIZE"].

(** [CompletePipeline::get_stage] *)
Fixpoint get_stage (stages : list StagePipeline) (n : string) : option StagePipeline :=
  match stages with
  | [] => None
  | s :: rest => if String.eqb (stage_name s) n then Some s else get_stage rest n
  end.

(** The latest record naming an instance as original or result
    ([instance_to_record] in [capture_stage]). *)
Fixpoint latest_record (n : string) (history : list TransformationRecord)
         (found : option TransformationRecord) : option TransformationRecord :=
  match history with
  | [] => found
  | r :: rest =>
      if String.eqb (rec_original_instance_name r) n
         || String.eqb (rec_result_instance_name r) n
      then latest_record n rest (Some r)
      else latest_record n rest found
  end.

(** [InstanceSnapshot::from_instance] followed by the record lookup of
    [capture_stage]. *)
Definition snapshot_of (history : list TransformationRecord) (inst : Instance)
  : InstanceSnapshot :=
  let cell := match inst_cell_template inst with
              | Some c => ct_name c
              | None => inst_cell_type inst
              end in
  let pins := fold_left (fun m conn => smap_set (conn_pin_name conn) (conn_net_name conn) m)
                        (inst_connections inst) [] in
  match latest_record (inst_name inst) history None with
  | Some r =>
      mkSnap (inst_name inst) cell (inst_position_x inst) (inst_position_y inst) pins
             (rec_cluster_id r) (rec_original_instance_name r) (rec_operation r)
  | None =>
      mkSnap (inst_name inst) cell (inst_position_x inst) (inst_position_y inst) pins
             "" (inst_name inst) KEEP
  end.

(** [CompletePipeline::capture_stage] *)
Definition capture_stage (stages : list StagePipeline) (n : string)
           (all_instances : list Instance) (new_transformation_indices : list nat)
           (history : list TransformationRecord) : list StagePipeline :=
  match get_stage stages n with
  | None => stages
  | Some _ =>
      let snaps := map (snapshot_of history) (filter is_flip_flop all_instances) in
      map (fun s => if String.eqb (stage_name s) n
                    then mkStage n snaps new_transformation_indices
                                 (length snaps) (length snaps)
                    else s) stages
  end.

(** Indices of the records of one operation kind. *)
Fixpoint indices_of (op : Operation) (history : list TransformationRecord) (i : nat)
  : list nat :=
  match history with
  | [] => []
  | r :: rest =>
      if Operation_eqb (rec_operation r) op then i :: indices_of op rest (S i)
      else indices_of op rest (S i)
  end.

(** transformation_tracking.cpp, [record_keep_transformation] *)
Definition record_keep_transformation (history : list TransformationRecord)
           (original_instance : Instance) : list TransformationRecord :=
  (history ++
   [mkRec (inst_name original_instance) (inst_name original_instance)
          (fold_left (fun m conn => smap_set (conn_pin_name conn) (conn_pin_name conn) m)
                     (inst_connections original_instance) [])
          KEEP (inst_cell_type original_instance) (inst_cell_type original_instance)
          "KEEP" [] (inst_position_x original_instance)
          (inst_position_y original_instance) (inst_name original_instance)])%list.

(** The part of the design database the pipeline works on, together with
    the sequence of [capture_stage] calls made so far ([db_captures], a ghost
    field that exists only in the model). *)
Record DesignDatabase := mkDB {
  db_cell_library : CellLibrary;
  db_instances : InstanceTable;
  db_hierarchical_ff_groups : list HierGroup;
  db_scan_chains : list ScanChain;
  db_objective_weights : ObjectiveWeights;
  db_placement_rows : list PlacementRow;
  db_placement_blockages : list Rectangle;
  db_transformation_history : list TransformationRecord;
  db_complete_pipeline : list StagePipeline;
  db_captures : list string;
  db_warnings : list string
}.

Definition with_state (db : DesignDatabase) (instances : InstanceTable)
           (history : list TransformationRecord) : DesignDatabase :=
  mkDB (db_cell_library db) instances (db_hierarchical_ff_groups db) (db_scan_chains db)
       (db_objective_weights db) (db_placement_rows db) (db_placement_blockages db)
       history (db_complete_pipeline db) (db_captures db) (db_warnings db).

(** A call [db.complete_pipeline.capture_stage(n, all_instances, indices,
    &db.transformation_history)]. *)
Definition capture (db : DesignDatabase) (n : string) (all_instances : list Instance)
           (indices : list nat) : DesignDatabase :=
  mkDB (db_cell_library db) (db_instances db) (db_hierarchical_ff_groups db)
       (db_scan_chains db) (db_objective_weights db) (db_placement_rows db)
       (db_placement_blockages db) (db_transformation_history db)
       (capture_stage (db_complete_pipeline db) n all_instances indices
                      (db_transformation_history db))
       (db_captures db ++ [n])%list (db_warnings db).

(** [initialize_transformation_tracking] *)
Definition initialize_transformation_tracking (db : DesignDatabase) : DesignDatabase :=
  let instances :=
    map (fun p => if is_flip_flop (snd p)
                  then (fst p, set_cluster_id (inst_name (snd p)) (snd p)) else p)
        (db_instances db) in
  let history :=
    fold_left (fun h p => if is_flip_flop (snd p) then record_keep_transformation h (snd p)
                          else h) instances [] in
  let db1 := with_state db instances history in
  capture db1 "ORIGINAL" (map snd instances) [].

Section Driver.

(** The timing table of timing_repr_hardcoded.hpp (not among the sources). *)
Variable get_timing_repr : string -> Q.

(** Step 12 of [main]. *)
Definition step_debank (db : DesignDatabase) : DesignDatabase :=
  let '(instances, history) :=
    perform_strategic_debanking (db_cell_library db) (db_instances db)
                                (db_transformation_history db) in
  let db1 := with_state db instances history in
  capture db1 "DEBANK" (map snd instances) (indices_of DEBANK history 0).

(** Steps 13 to 15 of [main]. *)
Definition step_substitution (db : DesignDatabase) : DesignDatabase * list (string * string) :=
  let groups := group_ff_instances (db_scan_chains db) (db_instances db) in
  let optimal :=
    calculate_optimal_ff_for_instance_groups get_timing_repr (db_cell_library db)
      (db_objective_weights db) (db_hierarchical_ff_groups db) in
  let '(instances, history) :=
    execute_three_stage_substitution get_timing_repr (db_cell_library db)
      (db_objective_weights db) (db_hierarchical_ff_groups db) optimal groups
      (db_instances db) (db_transformation_history db) in
  let db1 := with_state db instances history in
  (capture db1 "SUBSTITUTION" (map snd instances) (indices_of SUBSTITUTE history 0),
   optimal).

(** Steps 16 to 18 of [main]: banking types, regrouping, the three banking
    passes and [record_all_banking_transformations]. *)
Definition step_banking (optimal : list (string * string)) (db : DesignDatabase)
  : DesignDatabase :=
  let instances := assign_banking_types (db_instances db) in
  let groups := rebuild_ff_instance_groups_for_banking instances in
  let st :=
    execute_all_banking (db_cell_library db) (db_hierarchical_ff_groups db) optimal
                        (mkBank instances groups [] [] 1 1 1) in
  let history := record_all_banking_transformations st (db_transformation_history db) in
  let db1 := with_state db (bk_instances st) history in
  capture db1 "BANK" (filter is_flip_flop (map snd (bk_instances st)))
          (indices_of BANK history 0).

(** Step 18.5 of [main]. *)
Definition step_post_banking (db : DesignDatabase) : DesignDatabase :=
  let '(instances, history) :=
    execute_post_banking_substitution get_timing_repr (db_cell_library db)
      (db_objective_weights db) (db_instances db) (db_transformation_history db) in
  let db1 := with_state db instances history in
  capture db1 "POST_BANKING" (filter is_flip_flop (map snd instances))
          (indices_of POST_SUBSTITUTE history 0).

(** Step 19 of [main]: [Legalizer legalizer(DBL_MAX, db); Abacus(); place();].
    No transformation record is written and no stage is captured. *)
Definition step_legalize (db : DesignDatabase) : DesignDatabase :=
  let st := legalize DblMax (db_placement_rows db) (db_instances db)
                     (db_placement_blockages db) in
  mkDB (db_cell_library db) (lg_instances st) (db_hierarchical_ff_groups db)
       (db_scan_chains db) (db_objective_weights db) (lg_rows st)
       (db_placement_blockages db) (db_transformation_history db)
       (db_complete_pipeline db) (db_captures db)
       (db_warnings db ++ lg_warnings st)%list.

(** [main], from step 11 (tracking initialisation) to step 19 (legalization). *)
Definition run_pipeline (db : DesignDatabase) : DesignDatabase :=
  let db11 := initialize_transformation_tracking db in
  let db12 := step_debank db11 in
  let '(db15, optimal) := step_substitution db12 in
  let db18 := step_banking optimal db15 in
  let db185 := step_post_banking db18 in
  step_legalize db185.

End Driver.

(** A design right after loading: the library of the examples, one four-bit
    flip-flop, one row. *)
Definition ex_design : DesignDatabase :=
  mkDB ex_library [("m", ex_mb4)] ex_hier_groups [] ex_weights
       [mkRow 0 1000 50 200 200 0 0 (-1) []] [] [] CompletePipeline_init [] [].

Definition ex_f1 : Instance := new_instance "f1" ex_cell_ff400 3000 0 [].
Definition ex_f2 : Instance := new_instance "f2" ex_cell_ff400 3400 0 [].

(** Scenario 6 of the specification: the state of the legalizer when the
    placement loop starts (sub-rows carved around the blockage). *)
Definition ex_legal_state : LegalState :=
  mkLegal (buildSubRows (Legalizer_init [ex_row]) [] [ex_blockage])
          ex_legal_instances [].

(** A flip-flop of a design without placement rows. *)
Definition ex_f3 : Instance := new_instance "f3" ex_cell_ff400 3000 100 [].


(** The rows of scenario 6 after [buildSubRows]. *)
Definition ex_legal_rows : list PlacementRow :=
  buildSubRows (Legalizer_init [ex_row]) [] [ex_blockage].

(** A fixed macro over the same span as the blockage of scenario 6. *)
Definition ex_cell_macro : CellTemplate :=
  mkCell "MACRO" 2000 200 [] 1 0 "null" 0 RISING OTHER.

Definition ex_macro : Instance := new_instance "m1" ex_cell_macro 2000 0 [].

Definition ex_macro_rows : list PlacementRow :=
  buildSubRows (Legalizer_init [ex_row]) [ex_macro] [].


(** The flip-flop [f2] of scenario 5 as the legalizer leaves it. *)
Definition ex_f2_placed : Instance :=
  set_placement_status PLACED (set_new_position 4400 0 ex_f2).


(** A group with two single-bit scan cells, the second the smaller one. *)
Definition ex_cell_fsdn1_small : CellTemplate :=
  mkCell "FSDN_T" 400 200 ex_pins_scan 8 0 "null" 1 FALLING FLIP_FLOP.

Definition ex_two_cell_library : CellLibrary :=
  [("FSDN_S", ex_cell_fsdn1); ("FSDN_T", ex_cell_fsdn1_small)].

Definition ex_two_cell_groups : list HierGroup :=
  [mkHG "FALLING" "D_Q_QN_CK_SI_SE" 1 ["FSDN_S"; "FSDN_T"]].


(** The instance [u1] as the three substitution stages leave it: stage 3
    has moved it to the single-bit scan cell. *)
Definition ex_u1_substituted : Instance :=
  set_best_ff "FSDN_S" (calculate_ff_score ex_timing ex_library ex_weights "FSDN_S")
    (set_cell_template ex_cell_fsdn1 ex_u1).


(** The row of scenario 5 and its sub-row right of the blockage once [f1]
    has been committed. *)
Definition ex_placed_row : PlacementRow :=
  hd ex_row (lg_rows (Abacus_step DblMax ex_legal_state ex_f1)).

Definition ex_subrow_f1 : SubRow :=
  nth 1 (row_subrows ex_placed_row) (new_SubRow 0 0).


(** Scenario 5 when the legalizer is done: the row and its sub-row right of
    the blockage. *)
Definition ex_final_row : PlacementRow :=
  hd ex_row (lg_rows (legalize DblMax [ex_row] ex_legal_instances [ex_blockage])).

Definition ex_final_subrow : SubRow :=
  nth 1 (row_subrows ex_final_row) (new_SubRow 0 0).

(** An instance with a degenerate to fall back on: the cell template [c] is
    a flip-flop that names a single-bit degenerate other than ["null"], and
    the library has the cell [parent] under that name. *)
Definition has_degenerate (lib : CellLibrary) (i : Instance)
           (c parent : CellTemplate) : Prop :=
  inst_cell_template i = Some c /\
  ct_is_flip_flop c = true /\
  ct_single_bit_degenerate c <> "null" /\
  assoc_find (ct_single_bit_degenerate c) lib = Some parent.

(** The other instances: no cell template, not a flip-flop, a null
    degenerate, or a degenerate the library does not have. *)
Definition no_degenerate (lib : CellLibrary) (i : Instance) : Prop :=
  match inst_cell_template i with
  | None => True
  | Some c =>
      ct_is_flip_flop c = false \/
      ct_single_bit_degenerate c = "null" \/
      assoc_find (ct_single_bit_degenerate c) lib = None
  end.

(** The names [<name>_BIT<b>], [b] below the bit-width, that fragments of the
    instances of a table can bear. *)
Definition fragment_names (instances : InstanceTable) : list string :=
  flat_map (fun p => map (fun bit => (fst p ++ "_BIT" ++ to_string bit)%string)
                         (bit_range (get_bit_width (snd p))))
           instances.

(** A design whose only flip-flop sits on the dearer of two plain cells:
    stage 1 moves it to the cheaper one, stage 3 to the scan cell, and the
    post-banking pass back to the cheaper plain cell. *)
Definition ex_cell_fdn_b : CellTemplate :=
  mkCell "FDN_B" 400 200 ex_pins_d_q_ck 7 0 "null" 1 FALLING FLIP_FLOP.

Definition ex_revert_design : DesignDatabase :=
  mkDB (ex_library ++ [("FDN_B", ex_cell_fdn_b)])%list
       [("u3", new_instance "u3" ex_cell_fdn_b 0 0
                 [mkConn "D" "n1"; mkConn "Q" "n2"; mkConn "CK" "clk"])]
       [mkHG "FALLING" "D_Q_CK" 1 ["FDN_A"; "FDN_B"];
        mkHG "FALLING" "D_Q_QN_CK_SI_SE" 1 ["FSDN_S"];
        mkHG "FALLING" "D_Q_QN_CK_SI_SE" 2 ["FSDN2_X"];
        mkHG "FALLING" "D_Q_QN_CK_SI_SE" 4 ["FSDN4_X"]]
       [] ex_weights
       [mkRow 0 1000 50 200 200 0 0 (-1) []] [] [] CompletePipeline_init [] [].

(** The last record of the run on that design. *)
Definition ex_revert_record : TransformationRecord :=
  last (db_transformation_history (run_pipeline ex_timing ex_revert_design))
       (mkRec "" "" [] KEEP "" "" "" [] 0 0 "").

(* ========================================================================= *)
(** ** Scoring in double precision (ff_instance_grouping.cpp, substitution.cpp) *)
(* ========================================================================= *)

(** [static_cast<double>] of a non-negative [int]. *)
Definition double_of_int (z : Z) : float := PrimFloat.of_uint63 (Uint63.of_Z z).

(** The double a decimal value is stored as: the double nearest to it.  The
    quotient of numerator and denominator is rounded once, which gives the
    nearest double as long as both are below 2^53. *)
Definition to_double (q : Q) : float :=
  let n := double_of_int (Z.abs (Qnum q)) in
  let d := double_of_int (Zpos (Qden q)) in
  if (Qnum q <? 0)%Z then PrimFloat.opp (PrimFloat.div n d) else PrimFloat.div n d.

(** [std::numeric_limits<double>::max()] *)
Definition DBL_MAX : float := SF2Prim (S754_finite false (2 ^ 53 - 1) 971).

(** The rational a double stands for ([None] for infinities and NaN). *)
Definition exact_value (f : float) : option Q :=
  match Prim2SF f with
  | S754_zero _ => Some 0
  | S754_finite s m e =>
      Some ((if s then - inject_Z (Zpos m) else inject_Z (Zpos m)) * Qpower 2 e)
  | _ => None
  end.

Section ScoringInDoubles.

Variable get_timing_repr : string -> Q.
Variable cell_library : CellLibrary.
Variable objective_weights : ObjectiveWeights.

(** substitution.cpp, [calculate_ff_score], on the doubles the code computes
    with (IEEE binary64): every operation rounds to the nearest double, in
    the order the expression is written, none fused with another. *)
Definition calculate_ff_score_double (cell_name : string) : float :=
  match assoc_find cell_name cell_library with
  | None => DBL_MAX
  | Some cell =>
      if negb (ct_is_flip_flop cell) then DBL_MAX
      else
        let power := to_double (ct_leakage_power cell) in
        let area := to_double (ct_area cell) in
        let bit_width := Z.max 1 (ct_bit_width cell) in
        let timing_repr := to_double (get_timing_repr cell_name) in
        let delta := PrimFloat.mul (to_double (alpha objective_weights)) timing_repr in
        PrimFloat.add
          (PrimFloat.div
             (PrimFloat.add
                (PrimFloat.mul
                   (PrimFloat.mul (to_double (beta objective_weights)) power)
                   (to_double (1 # 1000)))
                (PrimFloat.mul (to_double (gamma objective_weights)) area))
             (double_of_int bit_width))
          delta
  end.

(** ff_instance_grouping.cpp, [calculate_optimal_ff_for_instance_groups]: the
    score computed inside the loop over the cells of a group, in doubles. *)
Definition cache_score_double (bit_width : Z) (cell_name : string) : option float :=
  match assoc_find cell_name cell_library with
  | None => None
  | Some cell =>
      if negb (ct_is_flip_flop cell) then None
      else
        let power := to_double (ct_leakage_power cell) in
        let area := to_double (ct_area cell) in
        let effective_bit_width := if (bit_width >? 0)%Z then bit_width else 1%Z in
        let timing_repr := to_double (get_timing_repr cell_name) in
        let delta :=
          PrimFloat.mul
            (PrimFloat.mul (to_double (alpha objective_weights)) timing_repr)
            (double_of_int 1000) in
        Some (PrimFloat.add
                (PrimFloat.div
                   (PrimFloat.add
                      (PrimFloat.mul
                         (PrimFloat.mul (to_double (beta objective_weights)) power)
                         (to_double (1 # 1000)))
                      (PrimFloat.mul (to_double (gamma objective_weights)) area))
                   (double_of_int effective_bit_width))
                delta)
  end.

End ScoringInDoubles.

(** Weights and a timing table with a timing term that is not zero. *)
Definition ex_weights_tenth : ObjectiveWeights := mkWeights (1 # 10) 1 1.

Definition ex_timing_tenth : string -> Q := fun _ => 1 # 10.

(* ========================================================================= *)
(** * Proofs *)
(* ========================================================================= *)

Lemma Qltb_lt (x y : Q) : Qltb x y = true <-> x < y.
Proof.
  unfold Qltb. rewrite negb_true_iff. split; intro H.
  - apply Qnot_le_lt. intro Hle. apply Qle_bool_iff in Hle. congruence.
  - destruct (Qle_bool y x) eqn:E; auto. apply Qle_bool_iff in E. lra.
Qed.

(* ------------------------------------------------------------------------- *)
(** *** Scoring *)

Lemma effective_bit_width_max (c : CellTemplate) :
  (if (group_bit_width c >? 0)%Z then group_bit_width c else 1%Z)
  = Z.max 1 (ct_bit_width c).
Proof.
  unfold group_bit_width.
  destruct (ct_bit_width c <=? 0)%Z eqn:E.
  - apply Z.leb_le in E. simpl. lia.
  - apply Z.leb_gt in E.
    destruct (ct_bit_width c >? 0)%Z eqn:E2; [lia|].
    rewrite Z.gtb_ltb in E2. apply Z.ltb_ge in E2. lia.
Qed.

(** Over the rationals: for a flip-flop cell of the library, filed in its
    group under [group_bit_width], the score of the per-group optimal-cell
    cache and the score of the substituter are the same per-bit expression
    (beta*P/1000 + gamma*A)/b plus alpha*T*1000 resp. alpha*T, so that they
    differ exactly by alpha*T*999. *)
Lemma cache_score_minus_ff_score
        (T : string -> Q) (lib : CellLibrary) (w : ObjectiveWeights)
        (cell_name : string) (c : CellTemplate)
        (Hfind : assoc_find cell_name lib = Some c)
        (Hff : ct_is_flip_flop c = true) :
  exists s_cache s_subst per_bit,
    cache_score T lib w (group_bit_width c) cell_name = Some s_cache /\
    calculate_ff_score T lib w cell_name = Fin s_subst /\
    per_bit == (beta w * ct_leakage_power c * (1 # 1000) + gamma w * ct_area c)
               / inject_Z (Z.max 1 (ct_bit_width c)) /\
    s_cache == per_bit + alpha w * T cell_name * 1000 /\
    s_subst == per_bit + alpha w * T cell_name /\
    s_cache - s_subst == alpha w * T cell_name * 999.
Proof.
  unfold cache_score, calculate_ff_score. rewrite Hfind, Hff. simpl.
  rewrite effective_bit_width_max.
  eexists. eexists. eexists.
  split; [reflexivity|]. split; [reflexivity|].
  split; [reflexivity|].
  split; [reflexivity|]. split; [reflexivity|].
  ring.
Qed.


(* ------------------------------------------------------------------------- *)
(** *** Substitution *)

Lemma score_ltb_lt (a b : Score) : score_ltb a b = true <-> score_lt a b.
Proof.
  destruct a, b; simpl; try apply Qltb_lt; split; auto; try discriminate; tauto.
Qed.

Lemma score_lt_le (a b : Score) : score_lt a b -> score_le a b.
Proof. destruct a, b; simpl; auto. apply Qlt_le_weak. Qed.

(** The scratch fields of an instance agree: a recorded best alternative
    carries its own score. *)
Definition best_ff_consistent (T : string -> Q) (lib : CellLibrary)
           (w : ObjectiveWeights) (i : Instance) : Prop :=
  inst_best_ff_from_substitution i = "" \/
  inst_best_ff_score i = calculate_ff_score T lib w (inst_best_ff_from_substitution i).

Lemma update_best_ff_record_consistent T lib w i ff_name :
  best_ff_consistent T lib w i ->
  best_ff_consistent T lib w (update_best_ff_record T lib w i ff_name).
Proof.
  intro H. unfold update_best_ff_record.
  destruct (score_ltb _ _); auto.
  right. reflexivity.
Qed.

Lemma set_cell_template_consistent T lib w c i :
  best_ff_consistent T lib w i ->
  best_ff_consistent T lib w (set_cell_template c i).
Proof. intro H. exact H. Qed.

Lemma post_banking_instance_records T lib w i h i' h' :
  best_ff_consistent T lib w i ->
  post_banking_instance T lib w i h = (i', h') ->
  exists added,
    h' = (h ++ added)%list /\
    Forall (fun r =>
              rec_operation r = POST_SUBSTITUTE /\
              score_lt (calculate_ff_score T lib w (rec_result_cell_type r))
                       (calculate_ff_score T lib w (rec_original_cell_type r))) added.
Proof.
  intros Hc. unfold post_banking_instance.
  destruct (negb (is_single_bit_ff i)).
  { intro E; inversion E; subst. exists []. rewrite app_nil_r. split; auto. }
  destruct (negb (inst_best_ff_from_substitution i =? "")%string) eqn:Hne; simpl.
  2:{ intro E; inversion E; subst. exists []. rewrite app_nil_r. split; auto. }
  destruct (score_ltb (inst_best_ff_score i) _) eqn:Hlt.
  2:{ intro E; inversion E; subst. exists []. rewrite app_nil_r. split; auto. }
  destruct (assoc_find _ lib) as [best_cell|].
  2:{ intro E; inversion E; subst. exists []. rewrite app_nil_r. split; auto. }
  intro E; inversion E; subst. unfold record_post_substitution_transformation.
  eexists. split; [reflexivity|].
  constructor; [|constructor]. simpl. split; [reflexivity|].
  apply score_ltb_lt in Hlt.
  destruct Hc as [Hc|Hc].
  - rewrite Hc in Hne. discriminate.
  - rewrite <- Hc. exact Hlt.
Qed.

(** When the scratch fields of every instance agree, every record appended
    by the post-banking substituter is a POST_SUBSTITUTE record whose result
    cell scores strictly lower, under [calculate_ff_score], than its original
    cell. *)
Lemma post_substitute_monotone
        (T : string -> Q) (lib : CellLibrary) (w : ObjectiveWeights)
        (instances instances' : InstanceTable)
        (history history' : list TransformationRecord)
        (Hcons : forall k i, In (k, i) instances -> best_ff_consistent T lib w i)
        (Hrun : execute_post_banking_substitution T lib w instances history
                = (instances', history')) :
  exists added,
    history' = (history ++ added)%list /\
    Forall (fun r =>
              rec_operation r = POST_SUBSTITUTE /\
              score_lt (calculate_ff_score T lib w (rec_result_cell_type r))
                       (calculate_ff_score T lib w (rec_original_cell_type r)) /\
              score_le (calculate_ff_score T lib w (rec_result_cell_type r))
                       (calculate_ff_score T lib w (rec_original_cell_type r))) added.
Proof.
  revert history instances' history' Hrun.
  induction instances as [|[k i] rest IH]; intros history instances' history' Hrun.
  - simpl in Hrun. inversion Hrun; subst. exists []. rewrite app_nil_r. split; auto.
  - simpl in Hrun.
    destruct (post_banking_instance T lib w i history) as [i1 h1] eqn:E1.
    destruct (execute_post_banking_substitution T lib w rest h1) as [rest' h2] eqn:E2.
    apply post_banking_instance_records in E1; [|apply (Hcons k); left; reflexivity].
    destruct E1 as [a1 [E1 Ha1]].
    apply IH in E2; [|intros k' i' Hin; apply (Hcons k'); right; exact Hin].
    destruct E2 as [a2 [E2 Ha2]].
    inversion Hrun; subst.
    exists (a1 ++ a2)%list. rewrite app_assoc. split; [reflexivity|].
    apply Forall_app. split; [|exact Ha2].
    eapply Forall_impl; [|exact Ha1]. intros r [Hop Hlt].
    split; [exact Hop|]. split; [exact Hlt|]. apply score_lt_le. exact Hlt.
Qed.


(** C7 (counterexample).  Stage 3 rewrites a falling-edge flip-flop to the
    optimal single-bit FSDN cell because the 4-bit target scores better than
    the current cell; the single-bit replacement itself scores worse, and the
    SUBSTITUTE record emitted at the end has score(result) > score(original). *)
Lemma substitute_record_not_monotone :
  exists r,
    In r (snd (execute_three_stage_substitution ex_timing ex_library ex_weights
                 ex_hier_groups ex_optimal ex_subst_groups ex_subst_instances [])) /\
    rec_operation r = SUBSTITUTE /\
    rec_original_cell_type r = "FDN_A" /\
    rec_result_cell_type r = "FSDN_S" /\
    ~ score_le (calculate_ff_score ex_timing ex_library ex_weights (rec_result_cell_type r))
               (calculate_ff_score ex_timing ex_library ex_weights (rec_original_cell_type r)).
Proof.
  eexists. split.
  - vm_compute. left. reflexivity.
  - repeat split. vm_compute. intro H. apply H. reflexivity.
Qed.

(* ------------------------------------------------------------------------- *)
(** *** Spatial clustering *)

Lemma Qleb_le (x y : Q) : Qleb x y = true <-> x <= y.
Proof. unfold Qleb. apply Qle_bool_iff. Qed.

(** Growing a cluster [first :: m] only appends members that lie within the
    threshold of [first], never beyond the target size, and leaves the number
    of remaining entries unchanged. *)
Lemma grow_cluster_spec first target thr rest :
  forall m c r,
    grow_cluster first target thr rest (first :: m) = (c, r) ->
    Forall (fun j => manhattan_distance first j <= thr) m ->
    (Z.of_nat (length (first :: m)) <= size_t_of_int target)%Z ->
    exists m',
      c = first :: m' /\
      Forall (fun j => manhattan_distance first j <= thr) m' /\
      (Z.of_nat (length c) <= size_t_of_int target)%Z /\
      length r = length rest.
Proof.
  induction rest as [|[j u] rest IH]; intros m c r Hg Hn Hl; simpl in Hg.
  - inversion Hg; subst. exists m. auto.
  - destruct (Z.pos (Pos.of_succ_nat (length m)) <? size_t_of_int target)%Z eqn:Hlt.
    2:{ inversion Hg; subst. exists m. auto. }
    apply Z.ltb_lt in Hlt.
    destruct u.
    + destruct (grow_cluster first target thr rest (first :: m)) as [c1 r1] eqn:E.
      inversion Hg; subst.
      destruct (IH _ _ _ E Hn Hl) as (m' & A & B & C & D).
      exists m'. repeat split; auto. simpl. now rewrite D.
    + destruct (Qleb (manhattan_distance first j) thr) eqn:Hd.
      * change ((first :: m) ++ [j])%list with (first :: (m ++ [j]))%list in Hg.
        destruct (grow_cluster first target thr rest (first :: (m ++ [j])%list))
          as [c1 r1] eqn:E.
        inversion Hg; subst.
        apply Qleb_le in Hd.
        assert (Hn' : Forall (fun j => manhattan_distance first j <= thr) (m ++ [j])%list).
        { apply Forall_app. split; auto. }
        assert (Hl' : (Z.of_nat (length (first :: (m ++ [j])%list)) <= size_t_of_int target)%Z).
        { simpl length. rewrite length_app. simpl length. lia. }
        destruct (IH _ _ _ E Hn' Hl') as (m' & A & B & C & D).
        exists m'. repeat split; auto. simpl. now rewrite D.
      * destruct (grow_cluster first target thr rest (first :: m)) as [c1 r1] eqn:E.
        inversion Hg; subst.
        destruct (IH _ _ _ E Hn Hl) as (m' & A & B & C & D).
        exists m'. repeat split; auto. simpl. now rewrite D.
Qed.

Lemma size_t_of_int_pos (target : Z) : (0 < target)%Z -> size_t_of_int target = target.
Proof.
  intro H. unfold size_t_of_int. destruct (target <? 0)%Z eqn:E; auto.
  apply Z.ltb_lt in E. lia.
Qed.

Lemma clustering_loop_spec thr target :
  (0 < target)%Z ->
  forall fuel l c,
    In c (clustering_loop fuel target thr l) ->
    exists first rest,
      c = first :: rest /\
      Z.of_nat (length c) = target /\
      Forall (fun j => manhattan_distance first j <= thr) rest.
Proof.
  intros Hpos. pose proof (size_t_of_int_pos _ Hpos) as Hsz.
  induction fuel as [|fuel IH]; intros l c Hin; simpl in Hin; [contradiction|].
  destruct l as [|[i u] rest]; [contradiction|].
  destruct u; [eapply IH; eauto|].
  destruct (grow_cluster i target thr rest [i]) as [cluster rest'] eqn:E.
  assert (Hl : (Z.of_nat (length [i]) <= size_t_of_int target)%Z)
    by (rewrite Hsz; simpl; lia).
  destruct (grow_cluster_spec _ _ _ _ _ _ _ E (Forall_nil _) Hl) as (m' & A & B & C & D).
  destruct (size_t_of_int target <=? Z.of_nat (length cluster))%Z eqn:Hge.
  - destruct Hin as [<-|Hin]; [|eapply IH; eauto].
    apply Z.leb_le in Hge. rewrite Hsz in *.
    exists i, m'. split; [exact A|]. split; [lia|exact B].
  - eapply IH; eauto.
Qed.

(** The entries not yet taken by a cluster. *)
Definition unused (l : list (Instance * bool)) : list Instance :=
  map fst (filter (fun p => negb (snd p)) l).

Lemma greedy_take_full (first : Instance) (thr : Q) (l : list Instance) :
  greedy_take first 0 thr l = ([], l).
Proof. destruct l; reflexivity. Qed.

Lemma greedy_take_length (first : Instance) (thr : Q) (rest : list Instance) :
  forall room,
    (length (snd (greedy_take first room thr rest)) <= length rest)%nat.
Proof.
  induction rest as [|j rest IH]; intro room; simpl; [lia|].
  destruct room as [|room]; [simpl; lia|].
  destruct (Qleb (manhattan_distance first j) thr).
  - specialize (IH room). destruct (greedy_take first room thr rest). simpl in *. lia.
  - specialize (IH (S room)). destruct (greedy_take first (S room) thr rest).
    simpl in *. lia.
Qed.

Lemma unused_cons (j : Instance) (u : bool) (l : list (Instance * bool)) :
  unused ((j, u) :: l) = if u then unused l else j :: unused l.
Proof. destruct u; reflexivity. Qed.

(** The inner loop, flags forgotten, is [greedy_take]. *)
Lemma grow_cluster_greedy (first : Instance) (target : Z) (thr : Q) (n : nat)
      (rest : list (Instance * bool)) :
  size_t_of_int target = Z.of_nat n ->
  forall cluster c r,
    (length cluster <= n)%nat ->
    grow_cluster first target thr rest cluster = (c, r) ->
    exists added,
      c = (cluster ++ added)%list /\
      greedy_take first (n - length cluster) thr (unused rest) = (added, unused r) /\
      length r = length rest.
Proof.
  intro Hsz. induction rest as [|[j u] rest IH]; intros cluster c r Hlen Hg;
    simpl in Hg.
  - inversion Hg; subst. exists []. rewrite app_nil_r. repeat split.
  - rewrite Hsz in Hg.
    destruct (Z.of_nat (length cluster) <? Z.of_nat n)%Z eqn:Hlt.
    2:{ apply Z.ltb_ge in Hlt. inversion Hg; subst. exists [].
        rewrite app_nil_r. split; [reflexivity|]. split; [|reflexivity].
        replace (n - length c)%nat with 0%nat by lia. apply greedy_take_full. }
    apply Z.ltb_lt in Hlt. rewrite unused_cons.
    destruct u.
    + destruct (grow_cluster first target thr rest cluster) as [c1 r1] eqn:E.
      inversion Hg; subst.
      destruct (IH _ _ _ Hlen E) as (added & A & B & C).
      exists added. rewrite unused_cons. simpl. auto.
    + destruct (n - length cluster)%nat as [|room] eqn:Eroom; [lia|].
      cbn [greedy_take].
      destruct (Qleb (manhattan_distance first j) thr).
      * destruct (grow_cluster first target thr rest (cluster ++ [j])%list)
          as [c1 r1] eqn:E.
        inversion Hg; subst.
        assert (Hlen' : (length (cluster ++ [j]) <= n)%nat)
          by (rewrite length_app; simpl; lia).
        destruct (IH _ _ _ Hlen' E) as (added & A & B & C).
        replace (n - length (cluster ++ [j]))%nat with room in B
          by (rewrite length_app; simpl; lia).
        exists (j :: added). rewrite B, unused_cons. simpl.
        split; [rewrite A, <- app_assoc; reflexivity|]. split; [reflexivity|].
        now rewrite C.
      * destruct (grow_cluster first target thr rest cluster) as [c1 r1] eqn:E.
        inversion Hg; subst.
        destruct (IH _ _ _ Hlen E) as (added & A & B & C).
        rewrite Eroom in B. exists added. rewrite B, unused_cons. simpl.
        split; [exact A|]. split; [reflexivity|]. now rewrite C.
Qed.

(** The outer loop, flags forgotten, is [greedy_sweep]. *)
Lemma clustering_loop_greedy (target : Z) (thr : Q) (n : nat) :
  size_t_of_int target = Z.of_nat n -> (0 < n)%nat ->
  forall fuel fuel' l,
    (length l <= fuel)%nat -> (length (unused l) <= fuel')%nat ->
    clustering_loop fuel target thr l = greedy_sweep fuel' n thr (unused l).
Proof.
  intros Hsz Hn. induction fuel as [|fuel IH]; intros fuel' l Hl Hu.
  - destruct l; [|simpl in Hl; lia]. destruct fuel'; reflexivity.
  - destruct l as [|[i u] rest]; [destruct fuel'; reflexivity|].
    simpl in Hl. rewrite unused_cons in *. destruct u.
    + cbn [clustering_loop]. apply IH; [lia|exact Hu].
    + destruct fuel' as [|fuel']; [simpl in Hu; lia|]. simpl in Hu.
      cbn [clustering_loop greedy_sweep].
      destruct (grow_cluster i target thr rest [i]) as [cluster rest'] eqn:E.
      assert (H1 : (length [i] <= n)%nat) by (simpl; lia).
      destruct (grow_cluster_greedy i target thr n rest Hsz [i] cluster rest' H1 E)
        as (added & A & B & C).
      replace (n - length [i])%nat with (pred n) in B by (simpl; lia).
      pose proof (greedy_take_length i thr (unused rest) (pred n)) as Hleft.
      rewrite B in *. cbn [snd] in Hleft.
      rewrite (IH fuel' rest') by lia.
      rewrite Hsz, A. cbn [app length].
      destruct (Z.of_nat n <=? Z.of_nat (S (length added)))%Z eqn:Ez;
        destruct (n <=? S (length added))%nat eqn:En; try reflexivity.
      * apply Z.leb_le in Ez. apply Nat.leb_gt in En. lia.
      * apply Z.leb_gt in Ez. apply Nat.leb_le in En. lia.
Qed.

Lemma unused_fresh_map (instances : list Instance) :
  unused (map (fun i => (i, false)) instances) = instances.
Proof.
  induction instances as [|i l IH]; [reflexivity|].
  cbn [map]. rewrite unused_cons. now rewrite IH.
Qed.

(** C8 (amended).  The clustering neither sorts nor stops at a far
    candidate: for a positive target size it is the sweep [greedy_sweep]
    over the candidates in the order they are handed over, where the cluster
    seeded at the first candidate left takes every later candidate left
    that lies within the threshold (Manhattan distance) of the seed, skips
    the farther ones and stops taking at the target size.  Hence every
    emitted cluster has exactly the target size and every member after the
    first lies within the threshold of the first; the threshold constant is
    10000 at all three call sites. *)
Theorem simple_distance_clustering_clusters
        (instances : list Instance) (target_cluster_size : Z)
        (max_distance_threshold : Q)
        (Htarget : (0 < target_cluster_size)%Z) :
  simple_distance_clustering instances target_cluster_size max_distance_threshold
  = greedy_sweep (length instances) (Z.to_nat target_cluster_size)
                 max_distance_threshold instances /\
  (forall c,
      In c (simple_distance_clustering instances target_cluster_size
                                       max_distance_threshold) ->
      exists first rest,
        c = first :: rest /\
        Z.of_nat (length c) = target_cluster_size /\
        Forall (fun j => manhattan_distance first j <= max_distance_threshold) rest) /\
  FSDN_2BIT_BANKING_distance == 10000 /\
  FSDN_4BIT_BANKING_distance == 10000 /\
  LSRDPQ_4BIT_BANKING_distance == 10000.
Proof.
  split; [|split].
  - unfold simple_distance_clustering.
    rewrite (clustering_loop_greedy target_cluster_size max_distance_threshold
               (Z.to_nat target_cluster_size)) with (fuel' := length instances).
    + now rewrite unused_fresh_map.
    + rewrite size_t_of_int_pos by exact Htarget. lia.
    + lia.
    + rewrite length_map. lia.
    + rewrite unused_fresh_map. lia.
  - intros c Hin. eapply clustering_loop_spec; eauto.
  - repeat split; reflexivity.
Qed.

(** Three candidates, the middle one far away: the cluster of [a] skips [b]
    and takes [c]. *)
Lemma simple_distance_clustering_clusters_witness :
  simple_distance_clustering [ex_ca; ex_cb; ex_cc] 2 FSDN_2BIT_BANKING_distance
  = greedy_sweep 3 2 FSDN_2BIT_BANKING_distance [ex_ca; ex_cb; ex_cc] /\
  (forall c,
      In c (simple_distance_clustering [ex_ca; ex_cb; ex_cc] 2
                                       FSDN_2BIT_BANKING_distance) ->
      exists first rest,
        c = first :: rest /\
        Z.of_nat (length c) = 2%Z /\
        Forall (fun j => manhattan_distance first j <= FSDN_2BIT_BANKING_distance)
               rest) /\
  FSDN_2BIT_BANKING_distance == 10000 /\
  FSDN_4BIT_BANKING_distance == 10000 /\
  LSRDPQ_4BIT_BANKING_distance == 10000.
Proof.
  apply (simple_distance_clustering_clusters [ex_ca; ex_cb; ex_cc] 2
           FSDN_2BIT_BANKING_distance).
  reflexivity.
Defined.

(** C8 (counterexample).  On candidates sorted by x the code does not stop
    at the first candidate that is too far from the cluster's first instance:
    it skips [b] and pairs [a] with [c], where the sweep of the specification
    stops at [b] and emits nothing.  Nor does the code sort: handed [c; a] it
    emits the cluster [c; a], right to left. *)
Lemma clustering_skips_far_candidates :
  simple_distance_clustering [ex_ca; ex_cb; ex_cc] 2 FSDN_2BIT_BANKING_distance
    = [[ex_ca; ex_cc]] /\
  ~ manhattan_distance ex_ca ex_cb <= FSDN_2BIT_BANKING_distance /\
  inst_position_x ex_ca < inst_position_x ex_cb /\
  inst_position_x ex_cb < inst_position_x ex_cc /\
  spec_sweep 3 2 FSDN_2BIT_BANKING_distance [ex_ca; ex_cb; ex_cc] = [] /\
  simple_distance_clustering [ex_cc; ex_ca] 2 FSDN_2BIT_BANKING_distance
    = [[ex_cc; ex_ca]].
Proof.
  split; [vm_compute; reflexivity|].
  split; [vm_compute; intro H; apply H; reflexivity|].
  split; [vm_compute; reflexivity|].
  split; [vm_compute; reflexivity|].
  split; vm_compute; reflexivity.
Qed.

(* ------------------------------------------------------------------------- *)
(** *** Association lists *)

Lemma assoc_erase_In {A : Type} (k k' : string) (v : A) (m : list (string * A)) :
  In (k', v) (assoc_erase k m) -> In (k', v) m /\ k' <> k.
Proof.
  induction m as [|[k0 v0] m IH]; simpl; [tauto|].
  destruct (String.eqb k k0) eqn:E.
  - intro H. destruct (IH H). auto.
  - intros [H|H].
    + inversion H; subst. split; auto. intro; subst.
      rewrite String.eqb_refl in E. discriminate.
    + destruct (IH H). auto.
Qed.

Lemma assoc_set_In {A : Type} (k k' : string) (v v' : A) (m : list (string * A)) :
  In (k', v') (assoc_set k v m) -> (k', v') = (k, v) \/ In (k', v') m.
Proof.
  induction m as [|[k0 v0] m IH]; simpl.
  - intros [H|[]]; auto.
  - destruct (String.eqb k k0) eqn:E; simpl.
    + intros [H|H]; auto.
    + intros [H|H]; auto. destruct (IH H); auto.
Qed.

Lemma erase_all_In (names : list string) (t : InstanceTable) k i :
  In (k, i) (erase_all names t) -> In (k, i) t /\ ~ In k names.
Proof.
  unfold erase_all. revert t.
  induction names as [|n names IH]; intros t H; simpl in *; [tauto|].
  apply IH in H. destruct H as [H Hn].
  apply assoc_erase_In in H. destruct H as [H Hk].
  split; auto. intros [->|Hin]; auto.
Qed.

Lemma insert_all_In (new_instances : list Instance) (t : InstanceTable) k i :
  In (k, i) (insert_all new_instances t) ->
  (In i new_instances /\ k = inst_name i) \/ In (k, i) t.
Proof.
  unfold insert_all. revert t.
  induction new_instances as [|n new_instances IH]; intros t H; simpl in *; [tauto|].
  apply IH in H. destruct H as [[H Hk]|H]; auto.
  apply assoc_set_In in H. destruct H as [H|H]; auto.
  inversion H; subst. auto.
Qed.

(* ------------------------------------------------------------------------- *)
(** *** Debanking *)

(** The fragments the loop body creates for one instance. *)
Definition debank_fragments (lib : CellLibrary) (i : Instance) : list Instance :=
  match inst_cell_template i, debank_parent lib i with
  | Some c, Some parent =>
      map (debank_fragment i (ct_single_bit_degenerate c) parent)
          (bit_range (ct_bit_width c))
  | _, _ => []
  end.

Definition is_debanked (lib : CellLibrary) (i : Instance) : bool :=
  match debank_parent lib i with Some _ => true | None => false end.

Lemma debank_parent_template lib i p :
  debank_parent lib i = Some p -> exists c, inst_cell_template i = Some c.
Proof.
  unfold debank_parent. destruct (inst_cell_template i); [eauto|discriminate].
Qed.

Lemma debank_fold lib l :
  forall st,
    db_new_instances (fold_left (debank_step lib) l st)
    = (db_new_instances st ++ flat_map (debank_fragments lib) l)%list /\
    db_instances_to_remove (fold_left (debank_step lib) l st)
    = (db_instances_to_remove st ++ map inst_name (filter (is_debanked lib) l))%list.
Proof.
  induction l as [|i l IH]; intro st; simpl.
  - now rewrite !app_nil_r.
  - destruct (IH (debank_step lib st i)) as [A B]. rewrite A, B. clear A B IH.
    unfold debank_step, debank_fragments, is_debanked.
    destruct (debank_parent lib i) as [p|] eqn:Ep.
    + destruct (debank_parent_template _ _ _ Ep) as [c Ec]. rewrite Ec. simpl.
      now rewrite <- !app_assoc.
    + destruct (inst_cell_template i); simpl; auto.
Qed.

(** The table after the stage.  The names marked for removal are those of
    the instances the loop guard lets through.  Afterwards every entry of
    the instance table is either an entry of the old table that the guard
    held back or a fragment carrying the degenerate cell of an instance it
    let through; so, when the degenerate cells are single-bit, every
    flip-flop that is not single-bit is an instance the stage skipped. *)
Lemma perform_strategic_debanking_entries
        (lib : CellLibrary) (instances : InstanceTable)
        (history : list TransformationRecord)
        (Hkeys : forall k i, In (k, i) instances -> inst_name i = k) :
  let st := fold_left (debank_step lib) (map snd instances) (mkDebank [] [] history) in
  let result := fst (perform_strategic_debanking lib instances history) in
  db_instances_to_remove st
  = map inst_name (filter (is_debanked lib) (map snd instances)) /\
  (forall k i, In (k, i) result ->
     (In (k, i) instances /\ debank_parent lib i = None) \/
     (exists orig parent,
        In orig (map snd instances) /\
        debank_parent lib orig = Some parent /\
        In i (debank_fragments lib orig) /\
        inst_cell_template i = Some parent /\
        inst_cluster_id i = inst_name orig)) /\
  ((forall orig parent,
      In orig (map snd instances) -> debank_parent lib orig = Some parent ->
      ct_bit_width parent = 1%Z) ->
   forall k i, In (k, i) result -> is_flip_flop i = true ->
     get_bit_width i = 1%Z \/ (In (k, i) instances /\ debank_parent lib i = None)).
Proof.
  intros st result.
  destruct (debank_fold lib (map snd instances) (mkDebank [] [] history)) as [Hnew Hrm].
  fold st in Hnew, Hrm. simpl in Hnew, Hrm.
  assert (Hres : forall k i, In (k, i) result ->
     (In (k, i) instances /\ debank_parent lib i = None) \/
     (exists orig parent,
        In orig (map snd instances) /\
        debank_parent lib orig = Some parent /\
        In i (debank_fragments lib orig) /\
        inst_cell_template i = Some parent /\
        inst_cluster_id i = inst_name orig)).
  { intros k i Hin. unfold result, perform_strategic_debanking in Hin. simpl in Hin.
    fold st in Hin. apply insert_all_In in Hin. destruct Hin as [[Hin Hk]|Hin].
    - right. rewrite Hnew in Hin. apply in_flat_map in Hin.
      destruct Hin as [orig [Ho Hf]].
      unfold debank_fragments in Hf.
      destruct (inst_cell_template orig) as [c|] eqn:Ec; [|contradiction].
      destruct (debank_parent lib orig) as [parent|] eqn:Ep; [|contradiction].
      exists orig, parent. repeat split; auto.
      + unfold debank_fragments. rewrite Ec, Ep. exact Hf.
      + apply in_map_iff in Hf. destruct Hf as [b [<- _]]. reflexivity.
      + apply in_map_iff in Hf. destruct Hf as [b [<- _]]. reflexivity.
    - left. apply erase_all_In in Hin. destruct Hin as [Hin Hn].
      split; auto.
      destruct (debank_parent lib i) as [p|] eqn:Ep; auto.
      exfalso. apply Hn. rewrite Hrm. rewrite <- (Hkeys _ _ Hin).
      apply in_map. apply filter_In. split.
      + apply in_map_iff. exists (k, i). auto.
      + unfold is_debanked. now rewrite Ep. }
  split; [exact Hrm|]. split; [exact Hres|].
  intros Hsingle k i Hin Hff.
  destruct (Hres k i Hin) as [H|(orig & parent & Ho & Hp & _ & Ht & _)]; auto.
  left. unfold get_bit_width. rewrite Ht. eapply Hsingle; eauto.
Qed.


(** C4 (counterexample).  A two-bit flip-flop whose cell names no degenerate
    is skipped by the stage and is still in the instance table, two bits
    wide, when the stage completes. *)
Lemma multibit_survives_debanking :
  assoc_find "k" (fst (perform_strategic_debanking ex_debank_library
                         ex_debank_instances [])) = Some ex_mb2 /\
  is_flip_flop ex_mb2 = true /\
  get_bit_width ex_mb2 = 2%Z.
Proof. vm_compute. repeat split; reflexivity. Qed.

(* ------------------------------------------------------------------------- *)
(** *** Banking arity *)

(** C3 (the code at the failing input).  Three FSDN fragments of one debanked
    flip-flop are re-banked by Pass A into a two-bit cell; the BANK record
    written for the operation lists all three fragments as sources. *)
Theorem rebank_three_fragments_arity :
  exists r,
    record_all_banking_transformations
      (execute_debank_cluster_rebanking ex_library ex_optimal
         (ex_bank_state ex_three_fragments [])) [] = [r] /\
    rec_operation r = BANK /\
    rec_original_instance_name r = "m_BIT0" /\
    rec_related_instances r = ["m_BIT1"; "m_BIT2"] /\
    rec_result_cell_type r = "FSDN2_X" /\
    result_bit_width ex_library r = Some 2%Z /\
    source_count r = 3%Z.
Proof.
  eexists. split; [vm_compute; reflexivity|].
  repeat split.
Qed.

(* ------------------------------------------------------------------------- *)
(** *** Stage snapshots *)

(** What a capture stores for stage [n], taken on a given instance table and
    history. *)
Definition stage_snapshot (n : string) (instances : InstanceTable)
           (history : list TransformationRecord) (indices : list nat) : StagePipeline :=
  let snaps := map (snapshot_of history) (filter is_flip_flop (map snd instances)) in
  mkStage n snaps indices (length snaps) (length snaps).

Lemma get_stage_capture_same stages n insts idx h :
  get_stage stages n <> None ->
  get_stage (capture_stage stages n insts idx h) n
  = Some (let snaps := map (snapshot_of h) (filter is_flip_flop insts) in
          mkStage n snaps idx (length snaps) (length snaps)).
Proof.
  intro Hfound. unfold capture_stage.
  destruct (get_stage stages n) as [s0|] eqn:E; [clear Hfound|contradiction].
  induction stages as [|s rest IH]; simpl in *; [discriminate|].
  destruct (String.eqb (stage_name s) n) eqn:En; simpl.
  - rewrite String.eqb_refl. reflexivity.
  - rewrite En. apply IH. exact E.
Qed.

Lemma get_stage_capture_other stages n m insts idx h :
  m <> n ->
  get_stage (capture_stage stages n insts idx h) m = get_stage stages m.
Proof.
  intro Hne. unfold capture_stage.
  destruct (get_stage stages n) as [s0|]; [|reflexivity].
  induction stages as [|s rest IH]; simpl; [reflexivity|].
  destruct (String.eqb (stage_name s) n) eqn:En; simpl.
  - apply String.eqb_eq in En. subst n.
    destruct (String.eqb (stage_name s) m) eqn:Em.
    + apply String.eqb_eq in Em. congruence.
    + assert (Hnm : String.eqb (stage_name s) m = false) by exact Em.
      destruct (String.eqb_spec (stage_name s) m); [congruence|]. apply IH.
  - destruct (String.eqb (stage_name s) m); [reflexivity|apply IH].
Qed.

Lemma capture_names stages n insts idx h :
  map stage_name (capture_stage stages n insts idx h) = map stage_name stages.
Proof.
  unfold capture_stage. destruct (get_stage stages n) as [s0|]; [|reflexivity].
  induction stages as [|s rest IH]; simpl; [reflexivity|].
  rewrite IH. destruct (String.eqb (stage_name s) n) eqn:En; [|reflexivity].
  apply String.eqb_eq in En. simpl. now rewrite En.
Qed.

Lemma get_stage_found stages n :
  In n (map stage_name stages) -> get_stage stages n <> None.
Proof.
  induction stages as [|s rest IH]; simpl; [tauto|].
  intros [H|H].
  - rewrite H, String.eqb_refl. discriminate.
  - destruct (String.eqb (stage_name s) n); [discriminate|auto].
Qed.

Lemma filter_idempotent {A : Type} (f : A -> bool) (l : list A) :
  filter f (filter f l) = filter f l.
Proof.
  induction l as [|x l IH]; simpl; [reflexivity|].
  destruct (f x) eqn:E; simpl; [rewrite E|]; now rewrite ?IH.
Qed.

Lemma capture_facts db n insts idx :
  let db' := capture db n insts idx in
  db_captures db' = (db_captures db ++ [n])%list /\
  db_instances db' = db_instances db /\
  db_transformation_history db' = db_transformation_history db /\
  map stage_name (db_complete_pipeline db') = map stage_name (db_complete_pipeline db) /\
  (In n (map stage_name (db_complete_pipeline db)) ->
   get_stage (db_complete_pipeline db') n
   = Some (let snaps := map (snapshot_of (db_transformation_history db))
                            (filter is_flip_flop insts) in
           mkStage n snaps idx (length snaps) (length snaps))) /\
  (forall m, m <> n ->
     get_stage (db_complete_pipeline db') m = get_stage (db_complete_pipeline db) m).
Proof.
  simpl. repeat split.
  - apply capture_names.
  - intro Hin. apply get_stage_capture_same. apply get_stage_found. exact Hin.
  - intros m Hm. apply get_stage_capture_other. exact Hm.
Qed.

(** The intermediate databases of a run of [main]. *)
Definition after_init (db : DesignDatabase) : DesignDatabase :=
  initialize_transformation_tracking db.
Definition after_debank (db : DesignDatabase) : DesignDatabase :=
  step_debank (after_init db).
Definition after_substitution (T : string -> Q) (db : DesignDatabase) : DesignDatabase :=
  fst (step_substitution T (after_debank db)).
Definition after_banking (T : string -> Q) (db : DesignDatabase) : DesignDatabase :=
  step_banking (snd (step_substitution T (after_debank db))) (after_substitution T db).
Definition after_post_banking (T : string -> Q) (db : DesignDatabase) : DesignDatabase :=
  step_post_banking T (after_banking T db).

Lemma run_pipeline_unfold T db :
  run_pipeline T db = step_legalize (after_post_banking T db).
Proof.
  unfold run_pipeline, after_post_banking, after_banking, after_substitution,
    after_debank, after_init.
  destruct (step_substitution T (step_debank (initialize_transformation_tracking db)))
    as [db15 optimal]. reflexivity.
Qed.

Lemma step_legalize_captures db :
  db_captures (step_legalize db) = db_captures db.
Proof. reflexivity. Qed.

Lemma step_legalize_pipeline db :
  db_complete_pipeline (step_legalize db) = db_complete_pipeline db.
Proof. reflexivity. Qed.

(** What one of the capturing steps establishes. *)
Definition captured_by (n : string) (idx : DesignDatabase -> list nat)
           (before after : DesignDatabase) : Prop :=
  db_captures after = (db_captures before ++ [n])%list /\
  map stage_name (db_complete_pipeline after)
  = map stage_name (db_complete_pipeline before) /\
  (In n (map stage_name (db_complete_pipeline before)) ->
   get_stage (db_complete_pipeline after) n
   = Some (stage_snapshot n (db_instances after) (db_transformation_history after)
                          (idx after))) /\
  (forall m, m <> n ->
     get_stage (db_complete_pipeline after) m
     = get_stage (db_complete_pipeline before) m).

Lemma init_captured db :
  captured_by "ORIGINAL" (fun _ => []) db (after_init db).
Proof.
  unfold after_init, initialize_transformation_tracking.
  match goal with |- captured_by _ _ _ (capture ?d ?n ?i ?x) =>
    pose proof (capture_facts d n i x) as (A & B & C & D & E & F) end.
  unfold captured_by. rewrite A, B, C, D.
  repeat split; auto.
Qed.

Lemma debank_captured db :
  captured_by "DEBANK" (fun d => indices_of DEBANK (db_transformation_history d) 0)
              db (step_debank db).
Proof.
  unfold step_debank.
  destruct (perform_strategic_debanking _ _ _) as [instances history].
  match goal with |- captured_by _ _ _ (capture ?d ?n ?i ?x) =>
    pose proof (capture_facts d n i x) as (A & B & C & D & E & F) end.
  unfold captured_by. rewrite A, B, C, D.
  repeat split; auto.
Qed.

Lemma substitution_captured T db :
  captured_by "SUBSTITUTION"
              (fun d => indices_of SUBSTITUTE (db_transformation_history d) 0)
              db (fst (step_substitution T db)).
Proof.
  unfold step_substitution.
  destruct (execute_three_stage_substitution _ _ _ _ _ _ _ _) as [instances history].
  simpl fst.
  match goal with |- captured_by _ _ _ (capture ?d ?n ?i ?x) =>
    pose proof (capture_facts d n i x) as (A & B & C & D & E & F) end.
  unfold captured_by. rewrite A, B, C, D.
  repeat split; auto.
Qed.

Lemma banking_captured optimal db :
  captured_by "BANK" (fun d => indices_of BANK (db_transformation_history d) 0)
              db (step_banking optimal db).
Proof.
  unfold step_banking.
  match goal with |- captured_by _ _ _ (capture ?d ?n ?i ?x) =>
    pose proof (capture_facts d n i x) as (A & B & C & D & E & F) end.
  unfold captured_by. rewrite A, B, C, D.
  repeat split; auto.
  intro Hin. rewrite (E Hin). unfold stage_snapshot. simpl.
  now rewrite filter_idempotent.
Qed.

Lemma post_banking_captured T db :
  captured_by "POST_BANKING"
              (fun d => indices_of POST_SUBSTITUTE (db_transformation_history d) 0)
              db (step_post_banking T db).
Proof.
  unfold step_post_banking.
  destruct (execute_post_banking_substitution _ _ _ _ _) as [instances history].
  match goal with |- captured_by _ _ _ (capture ?d ?n ?i ?x) =>
    pose proof (capture_facts d n i x) as (A & B & C & D & E & F) end.
  unfold captured_by. rewrite A, B, C, D.
  repeat split; auto.
  intro Hin. rewrite (E Hin). unfold stage_snapshot. simpl.
  now rewrite filter_idempotent.
Qed.

(** C5 (amended).  Starting from the freshly constructed pipeline, a run of
    [main] calls [capture_stage] exactly once for each of ORIGINAL, DEBANK,
    SUBSTITUTION, BANK and POST_BANKING, in this order and as the last action
    of the stage, so that each of these snapshots holds the flip-flop
    instances alive when its stage has finished (with the indices of the
    records of the stage's kind; none for ORIGINAL).  No capture is made for
    LEGALIZE: after the legalizer has run that snapshot is still the empty
    one the constructor created. *)
Theorem run_pipeline_captures
        (T : string -> Q) (db : DesignDatabase)
        (Hpipe : db_complete_pipeline db = CompletePipeline_init)
        (Hcapt : db_captures db = []) :
  let r := run_pipeline T db in
  let stage n := get_stage (db_complete_pipeline r) n in
  let snap n d idx :=
    Some (stage_snapshot n (db_instances d) (db_transformation_history d) idx) in
  db_captures r = ["ORIGINAL"; "DEBANK"; "SUBSTITUTION"; "BANK"; "POST_BANKING"] /\
  stage "ORIGINAL" = snap "ORIGINAL" (after_init db) [] /\
  stage "DEBANK"
  = snap "DEBANK" (after_debank db)
         (indices_of DEBANK (db_transformation_history (after_debank db)) 0) /\
  stage "SUBSTITUTION"
  = snap "SUBSTITUTION" (after_substitution T db)
         (indices_of SUBSTITUTE (db_transformation_history (after_substitution T db)) 0) /\
  stage "BANK"
  = snap "BANK" (after_banking T db)
         (indices_of BANK (db_transformation_history (after_banking T db)) 0) /\
  stage "POST_BANKING"
  = snap "POST_BANKING" (after_post_banking T db)
         (indices_of POST_SUBSTITUTE
                     (db_transformation_history (after_post_banking T db)) 0) /\
  stage "LEGALIZE" = Some (mkStage "LEGALIZE" [] [] 0 0).
Proof.
  intros r stage snap. subst r stage snap. cbv beta.
  rewrite run_pipeline_unfold.
  rewrite step_legalize_captures, step_legalize_pipeline.
  destruct (init_captured db) as (A1 & N1 & S1 & O1).
  assert (H2 : captured_by "DEBANK"
                 (fun d => indices_of DEBANK (db_transformation_history d) 0)
                 (after_init db) (after_debank db))
    by (unfold after_debank; apply debank_captured).
  assert (H3 : captured_by "SUBSTITUTION"
                 (fun d => indices_of SUBSTITUTE (db_transformation_history d) 0)
                 (after_debank db) (after_substitution T db))
    by (unfold after_substitution; apply substitution_captured).
  assert (H4 : captured_by "BANK"
                 (fun d => indices_of BANK (db_transformation_history d) 0)
                 (after_substitution T db) (after_banking T db))
    by (unfold after_banking; apply banking_captured).
  assert (H5 : captured_by "POST_BANKING"
                 (fun d => indices_of POST_SUBSTITUTE (db_transformation_history d) 0)
                 (after_banking T db) (after_post_banking T db))
    by (unfold after_post_banking; apply post_banking_captured).
  destruct H2 as (A2 & N2 & S2 & O2). destruct H3 as (A3 & N3 & S3 & O3).
  destruct H4 as (A4 & N4 & S4 & O4). destruct H5 as (A5 & N5 & S5 & O5).
  rewrite Hpipe in N1, S1, O1. rewrite N1 in N2, S2. rewrite N2 in N3, S3.
  rewrite N3 in N4, S4. rewrite N4 in S5.
  split.
  { rewrite A5, A4, A3, A2, A1, Hcapt. reflexivity. }
  split.
  { rewrite O5, O4, O3, O2 by discriminate. apply S1. simpl. tauto. }
  split.
  { rewrite O5, O4, O3 by discriminate. apply S2. simpl. tauto. }
  split.
  { rewrite O5, O4 by discriminate. apply S3. simpl. tauto. }
  split.
  { rewrite O5 by discriminate. apply S4. simpl. tauto. }
  split.
  { apply S5. simpl. tauto. }
  rewrite O5, O4, O3, O2, O1 by discriminate. reflexivity.
Qed.

Lemma run_pipeline_captures_witness :
  let r := run_pipeline ex_timing ex_design in
  let stage n := get_stage (db_complete_pipeline r) n in
  let snap n d idx :=
    Some (stage_snapshot n (db_instances d) (db_transformation_history d) idx) in
  db_captures r = ["ORIGINAL"; "DEBANK"; "SUBSTITUTION"; "BANK"; "POST_BANKING"] /\
  stage "ORIGINAL" = snap "ORIGINAL" (after_init ex_design) [] /\
  stage "DEBANK"
  = snap "DEBANK" (after_debank ex_design)
         (indices_of DEBANK (db_transformation_history (after_debank ex_design)) 0) /\
  stage "SUBSTITUTION"
  = snap "SUBSTITUTION" (after_substitution ex_timing ex_design)
         (indices_of SUBSTITUTE
            (db_transformation_history (after_substitution ex_timing ex_design)) 0) /\
  stage "BANK"
  = snap "BANK" (after_banking ex_timing ex_design)
         (indices_of BANK (db_transformation_history (after_banking ex_timing ex_design)) 0) /\
  stage "POST_BANKING"
  = snap "POST_BANKING" (after_post_banking ex_timing ex_design)
         (indices_of POST_SUBSTITUTE
                     (db_transformation_history (after_post_banking ex_timing ex_design)) 0) /\
  stage "LEGALIZE" = Some (mkStage "LEGALIZE" [] [] 0 0).
Proof.
  apply (run_pipeline_captures ex_timing ex_design); reflexivity.
Defined.

(** C5 (counterexample).  On a design with one four-bit flip-flop the run
    ends with the flip-flop [m_REBANKED] alive and legalized, five captures
    made, none of them for LEGALIZE, and an empty LEGALIZE snapshot. *)
Lemma legalize_stage_never_captured :
  let r := run_pipeline ex_timing ex_design in
  (exists i, assoc_find "m_REBANKED" (db_instances r) = Some i /\
             is_flip_flop i = true /\ inst_placement_status i = PLACED) /\
  ~ In "LEGALIZE" (db_captures r) /\
  (exists s, get_stage (db_complete_pipeline r) "LEGALIZE" = Some s /\
             stage_instances s = []).
Proof.
  vm_compute. split.
  - eexists. split; [reflexivity|]. split; reflexivity.
  - split.
    + intros [H|[H|[H|[H|[H|[]]]]]]; discriminate H.
    + eexists. split; reflexivity.
Qed.

(* ------------------------------------------------------------------------- *)
(** *** Legalizer: writes through instance pointers *)

(** A write that only touches [x_new] and [y_new]. *)
Definition keeps_static (f : Instance -> Instance) : Prop :=
  forall i, f i = set_new_position (inst_x_new (f i)) (inst_y_new (f i)) i.

Lemma keeps_static_id : keeps_static (fun i => i).
Proof. intros [ ]. reflexivity. Qed.

Lemma keeps_static_set x y : keeps_static (set_new_position x y).
Proof. intros [ ]. reflexivity. Qed.

Lemma keeps_static_compose f g :
  keeps_static f -> keeps_static g -> keeps_static (fun i => f (g i)).
Proof.
  intros Hf Hg i.
  pose proof (Hf (g i)) as H1. pose proof (Hg i) as H2.
  remember (f (g i)) as a. remember (g i) as b.
  etransitivity; [exact H1|]. rewrite H2. reflexivity.
Qed.

Lemma update_instance_compose n f g t :
  update_instance n f (update_instance n g t) = update_instance n (fun i => f (g i)) t.
Proof.
  unfold update_instance. rewrite map_map. apply map_ext.
  intros [k i]. simpl. destruct (String.eqb k n) eqn:E; simpl; rewrite E; reflexivity.
Qed.

Lemma update_instance_id n t : update_instance n (fun i => i) t = t.
Proof.
  unfold update_instance. rewrite <- (map_id t) at 2. apply map_ext.
  intros [k i]. simpl. destruct (String.eqb k n); reflexivity.
Qed.

Lemma assoc_find_update_instance m n f t :
  assoc_find m (update_instance n f t)
  = if String.eqb m n then option_map f (assoc_find m t) else assoc_find m t.
Proof.
  induction t as [|[k i] t IH]; simpl.
  - destruct (String.eqb m n); reflexivity.
  - destruct (String.eqb k n) eqn:Ekn; simpl.
    + destruct (String.eqb m k) eqn:Emk.
      * apply String.eqb_eq in Emk. subst m. rewrite Ekn. reflexivity.
      * exact IH.
    + destruct (String.eqb m k) eqn:Emk.
      * apply String.eqb_eq in Emk. subst m. rewrite Ekn. reflexivity.
      * exact IH.
Qed.

Lemma write_position_update n pos t :
  exists f, keeps_static f /\ write_position n pos t = update_instance n f t.
Proof.
  destruct pos as [[x y]|]; simpl.
  - exists (set_new_position x y). split; [apply keeps_static_set|reflexivity].
  - exists (fun i => i). split; [apply keeps_static_id|]. now rewrite update_instance_id.
Qed.

Lemma keeps_static_position f i :
  keeps_static f ->
  inst_position_x (f i) = inst_position_x i /\
  inst_position_y (f i) = inst_position_y i /\
  inst_cell_template (f i) = inst_cell_template i /\
  inst_weight (f i) = inst_weight i /\
  inst_name (f i) = inst_name i /\
  inst_placement_status (f i) = inst_placement_status i.
Proof. intro H. rewrite (H i). destruct i. simpl. repeat split. Qed.

Lemma check_cells_static n f t sitew row_y md cells :
  keeps_static f ->
  forall x,
    check_cells (update_instance n f t) sitew row_y md cells x
    = check_cells t sitew row_y md cells x.
Proof.
  intro Hf. induction cells as [|c cells IH]; intro x; simpl; [reflexivity|].
  rewrite assoc_find_update_instance.
  destruct (String.eqb c n); [|destruct (assoc_find c t); now rewrite ?IH].
  destruct (assoc_find c t) as [cp|]; simpl; [|apply IH].
  destruct (keeps_static_position f cp Hf) as (A & B & C & _).
  unfold get_width. rewrite A, B, C.
  destruct (exceeds _ md); [reflexivity|apply IH].
Qed.

Lemma check_clusters_static n f t sitew row_y md visited :
  keeps_static f ->
  forall x,
    check_clusters (update_instance n f t) sitew row_y md visited x
    = check_clusters t sitew row_y md visited x.
Proof.
  intro Hf. induction visited as [|c visited IH]; intro x; simpl; [reflexivity|].
  rewrite check_cells_static by exact Hf.
  destruct (check_cells t sitew row_y md (cl_cells c) x); [apply IH|reflexivity].
Qed.

(** The cost of a trial does not depend on earlier trial writes. *)
Lemma placeRow_trial_static md n f g t row i sr chk :
  keeps_static f -> keeps_static g ->
  fst (placeRow_trial md (update_instance n f t) row (g i) sr chk)
  = fst (placeRow_trial md t row i sr chk).
Proof.
  intros Hf Hg. unfold placeRow_trial.
  destruct (keeps_static_position g i Hg) as (A & B & C & D & _).
  rewrite A, B, C, D.
  destruct (inst_cell_template i) as [c|]; [|reflexivity].
  destruct (starts_new_cluster sr _).
  - simpl. destruct (exceeds _ md); reflexivity.
  - destruct (sr_clusters sr) as [|last lefts].
    + simpl. destruct (exceeds _ md); reflexivity.
    + destruct (trial_chain _ _ _ _ _ _ last lefts) as [[Tempx TW] visited].
      rewrite check_clusters_static by exact Hf.
      destruct chk; simpl.
      * destruct (check_clusters _ _ _ _ _ _); simpl; [|reflexivity].
        destruct (exceeds _ md); reflexivity.
      * reflexivity.
Qed.

(* ------------------------------------------------------------------------- *)
(** *** Legalizer: an instance no row accepts *)

(** No (row, sub-row) pair accepts the instance: on every row, either no
    sub-row fits ([findSubrowpos] returns -1) or the trial on the sub-row
    found returns the infinite cost. *)
Definition no_row_accepts (max_disp : Score) (rows : list PlacementRow)
           (t : InstanceTable) (instance : Instance) : Prop :=
  forall rowidx row sr,
    nth_error rows rowidx = Some row ->
    findSubrowpos instance row <> (-1)%Z ->
    nth_error (row_subrows row) (Z.to_nat (findSubrowpos instance row)) = Some sr ->
    fst (placeRow_trial max_disp t row (current t instance) sr true) = DblMax.

(** Search states reachable while every trial is rejected. *)
Definition still_unplaced (t0 : InstanceTable) (n : string) (s : Search) : Prop :=
  se_Cbest s = DblMax /\ se_bestRowIdx s = (-1)%Z /\ se_bestSubRowIdx s = (-1)%Z /\
  exists f, keeps_static f /\ se_instances s = update_instance n f t0.

Lemma current_update n f t instance :
  inst_name instance = n -> keeps_static f ->
  exists g, keeps_static g /\
            current (update_instance n f t) instance = g (current t instance).
Proof.
  intros Hn Hf. unfold current. rewrite assoc_find_update_instance, Hn, String.eqb_refl.
  destruct (assoc_find n t) as [i|]; simpl.
  - exists f. auto.
  - exists (fun i => i). split; [apply keeps_static_id|reflexivity].
Qed.

Lemma try_row_rejected md rows t0 instance rowidx s :
  no_row_accepts md rows t0 instance ->
  still_unplaced t0 (inst_name instance) s ->
  still_unplaced t0 (inst_name instance) (try_row md rows instance rowidx s).
Proof.
  intros Hrej (HC & HR & HS & f & Hf & Ht). unfold try_row.
  destruct (nth_error rows (Z.to_nat rowidx)) as [row|] eqn:Erow;
    [|repeat split; eauto].
  destruct (findSubrowpos instance row =? -1)%Z eqn:Esub; [repeat split; eauto|].
  apply Z.eqb_neq in Esub.
  destruct (nth_error (row_subrows row) _) as [sr|] eqn:Esr; [|repeat split; eauto].
  destruct (placeRow_trial md (se_instances s) row _ sr true) as [cost pos] eqn:Etrial.
  assert (Hcost : cost = DblMax).
  { pose proof (Hrej _ _ _ Erow Esub Esr) as H.
    rewrite Ht in Etrial.
    destruct (current_update (inst_name instance) f t0 instance eq_refl Hf)
      as (g & Hg & Hcur).
    rewrite Hcur in Etrial.
    pose proof (placeRow_trial_static md (inst_name instance) f g t0 row
                  (current t0 instance) sr true Hf Hg) as Hs.
    rewrite Etrial in Hs. simpl in Hs. congruence. }
  subst cost. rewrite HC. simpl.
  repeat split; auto.
  destruct (write_position_update (inst_name instance) pos (se_instances s))
    as (g & Hg & Hw).
  exists (fun i => g (f i)). split; [apply keeps_static_compose; auto|].
  rewrite Hw, Ht. apply update_instance_compose.
Qed.

Lemma sweep_rejected md rows t0 instance origin :
  no_row_accepts md rows t0 instance ->
  forall fuel i s,
    still_unplaced t0 (inst_name instance) s ->
    still_unplaced t0 (inst_name instance) (sweep md rows instance origin fuel i s).
Proof.
  intros Hrej. induction fuel as [|fuel IH]; intros i s Hs; simpl; [exact Hs|].
  destruct (negb _ && negb _); [exact Hs|].
  apply IH.
  match goal with |- still_unplaced _ _ (if ?d then _ else _) => destruct d end;
    match goal with
    | |- still_unplaced _ _ (try_row _ _ _ _ (if ?u then _ else _)) => destruct u
    | |- still_unplaced _ _ (if ?u then _ else _) => destruct u
    end;
    repeat (apply try_row_rejected; [exact Hrej|]); exact Hs.
Qed.

(** The failure branch of [Abacus].  When there is at least one placement
    row ([findBestRow] finds one) and no (row, sub-row) pair accepts the
    instance, the loop body of [Abacus] leaves rows and sub-rows as they are,
    writes the original position into [x_new, y_new], leaves
    [placement_status] and every other instance unchanged, prints a warning,
    and the loop goes on with the remaining instances. *)
Theorem Abacus_step_no_row_accepts
        (max_disp : Score) (st : LegalState) (instance i0 : Instance)
        (rest : list Instance)
        (Hrow : findBestRow (lg_rows st) instance <> (-1)%Z)
        (Hobj : assoc_find (inst_name instance) (lg_instances st) = Some i0)
        (Hrej : no_row_accepts max_disp (lg_rows st) (lg_instances st) instance) :
  let st' := Abacus_step max_disp st instance in
  lg_rows st' = lg_rows st /\
  (exists i',
      assoc_find (inst_name instance) (lg_instances st') = Some i' /\
      inst_x_new i' = inst_position_x instance /\
      inst_y_new i' = inst_position_y instance /\
      inst_placement_status i' = inst_placement_status i0) /\
  (forall m, m <> inst_name instance ->
             assoc_find m (lg_instances st') = assoc_find m (lg_instances st)) /\
  lg_warnings st'
  = (lg_warnings st
     ++ [("  Warning: Could not place instance " ++ inst_name instance)%string])%list /\
  fold_left (Abacus_step max_disp) (instance :: rest) st
  = fold_left (Abacus_step max_disp) rest st'.
Proof.
  intro st'. subst st'.
  apply Z.eqb_neq in Hrow.
  set (s0 := mkSearch DblMax (-1) (-1) (lg_instances st)).
  assert (H0 : still_unplaced (lg_instances st) (inst_name instance) s0).
  { repeat split. exists (fun i => i). split; [apply keeps_static_id|].
    simpl. now rewrite update_instance_id. }
  pose proof (sweep_rejected max_disp (lg_rows st) (lg_instances st) instance
                (findBestRow (lg_rows st) instance) Hrej
                (length (lg_rows st)) 0%Z s0 H0) as (HC & HR & HS & f & Hf & Ht).
  assert (Hstep : Abacus_step max_disp st instance
                  = mkLegal (lg_rows st)
                      (update_instance (inst_name instance)
                         (fun i => set_new_position (inst_position_x instance)
                                     (inst_position_y instance) (f i))
                         (lg_instances st))
                      (lg_warnings st
                       ++ [("  Warning: Could not place instance "
                            ++ inst_name instance)%string])%list).
  { unfold Abacus_step. rewrite Hrow. fold s0. rewrite HR, HS. simpl.
    rewrite Ht. now rewrite update_instance_compose. }
  simpl fold_left. rewrite Hstep. simpl.
  split; [reflexivity|]. split.
  { rewrite assoc_find_update_instance, String.eqb_refl, Hobj. simpl.
    eexists. split; [reflexivity|].
    destruct (keeps_static_position f i0 Hf) as (_ & _ & _ & _ & _ & Hst).
    destruct (f i0); simpl in *. auto. }
  split.
  { intros m Hm. rewrite assoc_find_update_instance.
    destruct (String.eqb_spec m (inst_name instance)); [contradiction|reflexivity]. }
  split; reflexivity.
Qed.

(** Scenario 6 of the specification, maximum displacement 500: the only
    sub-row that fits is 1000 away. *)
Lemma Abacus_step_no_row_accepts_witness :
  let st' := Abacus_step (Fin 500) ex_legal_state ex_f1 in
  lg_rows st' = lg_rows ex_legal_state /\
  (exists i',
      assoc_find (inst_name ex_f1) (lg_instances st') = Some i' /\
      inst_x_new i' = inst_position_x ex_f1 /\
      inst_y_new i' = inst_position_y ex_f1 /\
      inst_placement_status i' = inst_placement_status ex_f1) /\
  (forall m, m <> inst_name ex_f1 ->
             assoc_find m (lg_instances st') = assoc_find m (lg_instances ex_legal_state)) /\
  lg_warnings st'
  = (lg_warnings ex_legal_state
     ++ [("  Warning: Could not place instance " ++ inst_name ex_f1)%string])%list /\
  fold_left (Abacus_step (Fin 500)) (ex_f1 :: [ex_f2]) ex_legal_state
  = fold_left (Abacus_step (Fin 500)) [ex_f2] st'.
Proof.
  apply (Abacus_step_no_row_accepts (Fin 500) ex_legal_state ex_f1 ex_f1 [ex_f2]).
  - vm_compute. discriminate.
  - reflexivity.
  - intros rowidx row sr H1 H2 H3.
    destruct rowidx as [|rowidx]; [|destruct rowidx; discriminate H1].
    vm_compute in H1. injection H1 as <-.
    vm_compute in H3. injection H3 as <-.
    vm_compute. reflexivity.
Defined.

(** C9.  Without placement rows no (row, sub-row) pair accepts the
    instance, yet the loop body of [Abacus] takes the early [continue] after
    [findBestRow] answers -1 and never reaches the branch that writes the
    original position: [x_new, y_new] keep the value (0, 0) the instance was
    built with instead of the original position (3000, 100), and only the
    warning of the early exit is printed. *)
Lemma no_rows_position_not_written :
  let st' := Abacus_step DblMax (mkLegal [] [("f3", ex_f3)] []) ex_f3 in
  no_row_accepts DblMax [] [("f3", ex_f3)] ex_f3 /\
  exists i',
    assoc_find "f3" (lg_instances st') = Some i' /\
    ~ inst_x_new i' == inst_position_x ex_f3 /\
    ~ inst_y_new i' == inst_position_y ex_f3 /\
    lg_warnings st' = ["WARN: instance f3 cannot fit any [row]; skipping."].
Proof.
  split.
  - intros rowidx row sr H. destruct rowidx; discriminate H.
  - eexists. split; [vm_compute; reflexivity|].
    split; [vm_compute; discriminate|].
    split; [vm_compute; discriminate|].
    vm_compute. reflexivity.
Qed.

(* ========================================================================= *)
(** * Further properties of the code *)
(* ========================================================================= *)

(* ------------------------------------------------------------------------- *)
(** *** Rational comparisons *)

Lemma Qltb_ge (x y : Q) : Qltb x y = false <-> y <= x.
Proof.
  unfold Qltb. rewrite negb_false_iff. apply Qle_bool_iff.
Qed.

Lemma Qleb_gt (x y : Q) : Qleb x y = false <-> y < x.
Proof.
  unfold Qleb. split; intro H.
  - apply Qnot_le_lt. intro Hle. apply Qle_bool_iff in Hle. congruence.
  - destruct (Qle_bool x y) eqn:E; auto. apply Qle_bool_iff in E. lra.
Qed.

Ltac qbool :=
  repeat match goal with
         | H : Qltb _ _ = true |- _ => apply Qltb_lt in H
         | H : Qltb _ _ = false |- _ => apply Qltb_ge in H
         | H : Qleb _ _ = true |- _ => apply Qleb_le in H
         | H : Qleb _ _ = false |- _ => apply Qleb_gt in H
         | H : _ || _ = true |- _ => apply orb_true_iff in H
         | H : _ || _ = false |- _ => apply orb_false_iff in H; destruct H
         | H : _ && _ = true |- _ => apply andb_true_iff in H; destruct H
         | H : _ && _ = false |- _ => apply andb_false_iff in H
         end.

(* ------------------------------------------------------------------------- *)
(** *** Sub-row carving (buildSubRows) *)

(** The x-coordinates a list of sub-rows offers for placement. *)
Definition covered (sr : list SubRow) (x : Q) : Prop :=
  exists s, In s sr /\ sr_x_min s <= x /\ x < sr_x_max s.

Lemma covered_cons (s : SubRow) (sr : list SubRow) (x : Q) :
  covered (s :: sr) x <-> (sr_x_min s <= x /\ x < sr_x_max s) \/ covered sr x.
Proof.
  unfold covered. split.
  - intros (s' & [<-|Hin] & H); [left; exact H|right; exists s'; auto].
  - intros [H|(s' & Hin & H)]; [exists s; simpl; auto|exists s'; simpl; auto].
Qed.

Lemma carve_covered_iff (front back : Q) (sr : list SubRow) (x : Q) :
  covered (carve front back sr) x <-> covered sr x /\ (x < front \/ back <= x).
Proof.
  induction sr as [|s rest IH]; simpl.
  - unfold covered. split; [intros (s & [] & _)|intros [(s & [] & _) _]].
  - destruct (Qleb (sr_x_max s) front) eqn:E1; simpl.
    { qbool. rewrite !covered_cons, IH.
      split; [intros [H|H]|intros [[H|H] Ho]]; try tauto.
      split; [tauto|]. left. lra. }
    destruct (Qleb back (sr_x_min s)) eqn:E2; simpl.
    { qbool. rewrite !covered_cons, IH.
      split; [intros [H|H]|intros [[H|H] Ho]]; try tauto.
      split; [tauto|]. right. lra. }
    destruct (Qleb front (sr_x_min s)) eqn:E3; simpl.
    + destruct (Qleb (sr_x_max s) back) eqn:E4; simpl.
      { qbool. rewrite covered_cons, IH.
        split; [tauto|intros [[H|H] Ho]]; [|tauto].
        exfalso. destruct Ho; lra. }
      destruct (Qltb back (sr_x_max s)) eqn:E5; simpl.
      { qbool. rewrite !covered_cons, IH. simpl.
        split; [intros [H|H]|intros [[H|H] Ho]]; try tauto.
        - split; [left; lra|right; lra].
        - left. destruct Ho; lra. }
      qbool. exfalso. lra.
    + destruct (Qltb (sr_x_min s) front) eqn:E5; simpl; [|qbool; exfalso; lra].
      destruct (Qleb (sr_x_max s) back) eqn:E4; simpl.
      { qbool. rewrite !covered_cons, IH. simpl.
        split; [intros [H|H]|intros [[H|H] Ho]]; try tauto.
        - split; [left; lra|left; lra].
        - left. destruct Ho; lra. }
      qbool. rewrite !covered_cons, IH. simpl.
      split; [intros [H|[H|H]]|intros [[H|H] Ho]]; try tauto.
      * split; [left; lra|left; lra].
      * split; [left; lra|right; lra].
Qed.

(** Carving by an obstacle [front, back) removes exactly the points of the
    obstacle: a coordinate is offered by the carved sub-rows iff it was
    offered before and lies outside [front, back).  The carved sub-rows keep
    their books: if the free width of every sub-row was its length, it still
    is. *)
Theorem carve_covers (front back : Q) (sr : list SubRow) (x : Q) :
  (covered (carve front back sr) x <-> covered sr x /\ (x < front \/ back <= x)) /\
  (Forall (fun s => sr_Usewidth s == sr_x_max s - sr_x_min s) sr ->
   Forall (fun s => sr_Usewidth s == sr_x_max s - sr_x_min s) (carve front back sr)).
Proof.
  split; [apply carve_covered_iff|].
  induction sr as [|s rest IH]; intro H; simpl; [constructor|].
  inversion H as [|? ? Hs Hrest]; subst. specialize (IH Hrest).
  destruct (_ || _); [constructor; assumption|].
  destruct (_ && _); [assumption|].
  destruct (_ && _); [constructor; [simpl; reflexivity|assumption]|].
  destruct (_ && _); [constructor; [simpl; reflexivity|assumption]|].
  constructor; [simpl; reflexivity|].
  constructor; [simpl; reflexivity|assumption].
Qed.


(** [carve_row] changes nothing of a row but its sub-rows. *)
Lemma carve_row_static (a b c d : Q) (r : PlacementRow) :
  row_origin_x (carve_row a b c d r) = row_origin_x r /\
  row_origin_y (carve_row a b c d r) = row_origin_y r /\
  row_height (carve_row a b c d r) = row_height r /\
  row_site_width (carve_row a b c d r) = row_site_width r.
Proof.
  unfold carve_row. destruct (negb _); simpl; auto.
Qed.

Lemma carve_row_shrinks (a b c d : Q) (r : PlacementRow) (x : Q) :
  covered (row_subrows (carve_row a b c d r)) x -> covered (row_subrows r) x.
Proof.
  unfold carve_row. destruct (negb _); simpl; auto.
  intro H. apply carve_covered_iff in H. tauto.
Qed.

Lemma floorQ_le (x : Q) : floorQ x <= x.
Proof. apply Qfloor_le. Qed.

Lemma ceilQ_ge (x : Q) : x <= ceilQ x.
Proof. apply Qle_ceiling. Qed.

Lemma carve_row_avoids (MINx MAXx MINy MAXy : Q) (r : PlacementRow) (x : Q) :
  0 < row_site_width r ->
  MINy < row_origin_y r + row_height r ->
  row_origin_y r < MAXy ->
  covered (row_subrows (carve_row MINx MAXx MINy MAXy r)) x ->
  x < MINx + eps * row_site_width r \/ MAXx - eps * row_site_width r <= x.
Proof.
  intros Hsw Hy1 Hy2. unfold carve_row.
  apply Qltb_lt in Hy1, Hy2. rewrite Hy1, Hy2. simpl.
  intro H. apply carve_covered_iff in H. destruct H as [_ H].
  set (sw := row_site_width r) in *. set (ox := row_origin_x r) in *.
  assert (Hne : ~ sw == 0) by lra.
  destruct H as [H|H].
  - left. eapply Qlt_le_trans; [exact H|].
    pose proof (floorQ_le ((MINx - ox) / sw + eps)) as Hf.
    apply (Qmult_le_compat_r _ _ sw) in Hf; [|lra].
    assert (E : ((MINx - ox) / sw + eps) * sw == MINx - ox + eps * sw) by (field; exact Hne).
    rewrite E in Hf. lra.
  - right. eapply Qle_trans; [|exact H].
    pose proof (ceilQ_ge ((MAXx - ox) / sw - eps)) as Hc.
    apply (Qmult_le_compat_r _ _ sw) in Hc; [|lra].
    assert (E : ((MAXx - ox) / sw - eps) * sw == MAXx - ox - eps * sw) by (field; exact Hne).
    rewrite E in Hc. lra.
Qed.

(** The loops of [buildSubRows] row by row. *)
Definition carve_row_rect (r : PlacementRow) (rect : Rectangle) : PlacementRow :=
  carve_row (rect_x1 rect) (rect_x2 rect) (rect_y1 rect) (rect_y2 rect) r.

Definition carve_row_instance (r : PlacementRow) (blk : Instance) : PlacementRow :=
  match inst_cell_template blk with
  | None => r
  | Some c =>
      carve_row (inst_position_x blk) (inst_position_x blk + ct_width c)
                (inst_position_y blk) (inst_position_y blk + get_height blk) r
  end.

Lemma fold_carve_rect (rects : list Rectangle) (rows : list PlacementRow) :
  fold_left carve_rect rects rows
  = map (fun r => fold_left carve_row_rect rects r) rows.
Proof.
  revert rows. induction rects as [|rect rects IH]; intro rows; simpl.
  - symmetry. apply map_id.
  - rewrite IH. unfold carve_rect. rewrite map_map. reflexivity.
Qed.

Lemma fold_carve_instance (blks : list Instance) (rows : list PlacementRow) :
  fold_left carve_instance blks rows
  = map (fun r => fold_left carve_row_instance blks r) rows.
Proof.
  revert rows. induction blks as [|blk blks IH]; intro rows; simpl.
  - symmetry. apply map_id.
  - rewrite IH. unfold carve_instance, carve_row_instance.
    destruct (inst_cell_template blk); [rewrite map_map; reflexivity|].
    reflexivity.
Qed.

Definition same_geometry (r r' : PlacementRow) : Prop :=
  row_origin_x r' = row_origin_x r /\
  row_origin_y r' = row_origin_y r /\
  row_height r' = row_height r /\
  row_site_width r' = row_site_width r.

Lemma same_geometry_trans (a b c : PlacementRow) :
  same_geometry a b -> same_geometry b c -> same_geometry a c.
Proof.
  unfold same_geometry. intros (H1 & H2 & H3 & H4) (K1 & K2 & K3 & K4).
  repeat split; congruence.
Qed.

Lemma carve_row_instance_static (r : PlacementRow) (blk : Instance) :
  same_geometry r (carve_row_instance r blk).
Proof.
  unfold carve_row_instance. destruct (inst_cell_template blk).
  - apply carve_row_static.
  - unfold same_geometry. auto.
Qed.

Lemma carve_row_instance_shrinks (r : PlacementRow) (blk : Instance) (x : Q) :
  covered (row_subrows (carve_row_instance r blk)) x -> covered (row_subrows r) x.
Proof.
  unfold carve_row_instance. destruct (inst_cell_template blk); auto.
  apply carve_row_shrinks.
Qed.

Lemma fold_rect_static (rects : list Rectangle) (r : PlacementRow) :
  same_geometry r (fold_left carve_row_rect rects r).
Proof.
  revert r. induction rects as [|rect rects IH]; intro r; simpl.
  - unfold same_geometry. auto.
  - eapply same_geometry_trans; [|apply IH]. apply carve_row_static.
Qed.

Lemma fold_rect_shrinks (rects : list Rectangle) (r : PlacementRow) (x : Q) :
  covered (row_subrows (fold_left carve_row_rect rects r)) x ->
  covered (row_subrows r) x.
Proof.
  revert r. induction rects as [|rect rects IH]; intro r; simpl; auto.
  intro H. apply IH in H. revert H. apply carve_row_shrinks.
Qed.

Lemma fold_instance_static (blks : list Instance) (r : PlacementRow) :
  same_geometry r (fold_left carve_row_instance blks r).
Proof.
  revert r. induction blks as [|blk blks IH]; intro r; simpl.
  - unfold same_geometry. auto.
  - eapply same_geometry_trans; [|apply IH]. apply carve_row_instance_static.
Qed.

Lemma fold_instance_shrinks (blks : list Instance) (r : PlacementRow) (x : Q) :
  covered (row_subrows (fold_left carve_row_instance blks r)) x ->
  covered (row_subrows r) x.
Proof.
  revert r. induction blks as [|blk blks IH]; intro r; simpl; auto.
  intro H. apply IH in H. revert H. apply carve_row_instance_shrinks.
Qed.

Lemma fold_rect_avoids (rects : list Rectangle) (rect : Rectangle)
      (r : PlacementRow) (x : Q) :
  In rect rects ->
  0 < row_site_width r ->
  rect_y1 rect < row_origin_y r + row_height r ->
  row_origin_y r < rect_y2 rect ->
  covered (row_subrows (fold_left carve_row_rect rects r)) x ->
  x < rect_x1 rect + eps * row_site_width r
  \/ rect_x2 rect - eps * row_site_width r <= x.
Proof.
  revert r. induction rects as [|rc rects IH]; intros r Hin Hsw Hy1 Hy2 Hc.
  - destruct Hin.
  - simpl in Hc. destruct Hin as [->|Hin].
    + apply fold_rect_shrinks in Hc.
      apply carve_row_avoids in Hc; assumption.
    + assert (G : same_geometry r (carve_row_rect r rc)) by apply carve_row_static.
      destruct G as (G1 & G2 & G3 & G4).
      specialize (IH (carve_row_rect r rc) Hin).
      rewrite G2, G3, G4 in IH. apply IH; assumption.
Qed.

Lemma fold_instance_avoids (blks : list Instance) (blk : Instance) (c : CellTemplate)
      (r : PlacementRow) (x : Q) :
  In blk blks ->
  inst_cell_template blk = Some c ->
  0 < row_site_width r ->
  inst_position_y blk < row_origin_y r + row_height r ->
  row_origin_y r < inst_position_y blk + ct_height c ->
  covered (row_subrows (fold_left carve_row_instance blks r)) x ->
  x < inst_position_x blk + eps * row_site_width r
  \/ inst_position_x blk + ct_width c - eps * row_site_width r <= x.
Proof.
  revert r. induction blks as [|b blks IH]; intros r Hin Ht Hsw Hy1 Hy2 Hc.
  - destruct Hin.
  - simpl in Hc. destruct Hin as [->|Hin].
    + apply fold_instance_shrinks in Hc.
      unfold carve_row_instance in Hc. rewrite Ht in Hc.
      apply carve_row_avoids in Hc; try assumption.
      unfold get_height. rewrite Ht. exact Hy2.
    + destruct (carve_row_instance_static r b) as (G1 & G2 & G3 & G4).
      specialize (IH (carve_row_instance r b) Hin Ht).
      rewrite G2, G3, G4 in IH. apply IH; assumption.
Qed.

Lemma insert_by_x_In (i j : Instance) (l : list Instance) :
  In j (insert_by_x i l) <-> j = i \/ In j l.
Proof.
  induction l as [|k l IH]; simpl.
  - intuition congruence.
  - destruct (Qltb _ _); simpl; [rewrite IH|]; intuition congruence.
Qed.

Lemma sort_by_x_In (j : Instance) (l : list Instance) :
  In j (sort_by_x l) <-> In j l.
Proof.
  induction l as [|k l IH]; simpl; [tauto|].
  rewrite insert_by_x_In, IH. intuition congruence.
Qed.

(** The geometry of the rows is the same before and after [buildSubRows]. *)
Lemma buildSubRows_rows (rows : list PlacementRow) (blks : list Instance)
      (rects : list Rectangle) (row : PlacementRow) :
  In row (buildSubRows rows blks rects) ->
  exists r0, In r0 rows /\
    row = fold_left carve_row_rect rects
                    (fold_left carve_row_instance (sort_by_x blks) r0).
Proof.
  unfold buildSubRows. rewrite fold_carve_rect, fold_carve_instance, map_map.
  intro H. apply in_map_iff in H. destruct H as (r0 & <- & Hin).
  exists r0. auto.
Qed.

(** After [buildSubRows] no sub-row of a row reaches into a placement
    blockage that overlaps the row in y: every coordinate a sub-row offers
    lies left of the blockage's [x1] or at or right of its [x2], up to the
    tolerance of [eps] sites used when the edges are snapped to sites. *)
Theorem buildSubRows_avoids_blockages
        (rows : list PlacementRow) (blks : list Instance) (rects : list Rectangle)
        (rect : Rectangle) (row : PlacementRow) (x : Q) :
  In rect rects ->
  In row (buildSubRows rows blks rects) ->
  0 < row_site_width row ->
  rect_y1 rect < row_origin_y row + row_height row ->
  row_origin_y row < rect_y2 rect ->
  covered (row_subrows row) x ->
  x < rect_x1 rect + eps * row_site_width row
  \/ rect_x2 rect - eps * row_site_width row <= x.
Proof.
  intros Hrect Hrow Hsw Hy1 Hy2 Hc.
  apply buildSubRows_rows in Hrow. destruct Hrow as (r0 & _ & ->).
  set (r1 := fold_left carve_row_instance (sort_by_x blks) r0) in *.
  destruct (fold_rect_static rects r1) as (G1 & G2 & G3 & G4).
  rewrite G2, G3 in Hy1. rewrite G2 in Hy2. rewrite G4 in Hsw |- *.
  eapply fold_rect_avoids; eassumption.
Qed.

Lemma buildSubRows_avoids_blockages_witness :
  1000 < rect_x1 ex_blockage + eps * row_site_width (hd ex_row ex_legal_rows)
  \/ rect_x2 ex_blockage - eps * row_site_width (hd ex_row ex_legal_rows) <= 1000.
Proof.
  apply (buildSubRows_avoids_blockages (Legalizer_init [ex_row]) [] [ex_blockage]).
  - left. reflexivity.
  - vm_compute. left. reflexivity.
  - reflexivity.
  - reflexivity.
  - reflexivity.
  - exists (new_SubRow 0 2000). vm_compute.
    split; [left; reflexivity|]. split; [discriminate|reflexivity].
Defined.

(** After [buildSubRows] no sub-row of a row reaches into an instance that
    is not a flip-flop (a fixed obstacle with a cell template) and overlaps
    the row in y. *)
Theorem buildSubRows_avoids_instances
        (rows : list PlacementRow) (blks : list Instance) (rects : list Rectangle)
        (blk : Instance) (c : CellTemplate) (row : PlacementRow) (x : Q) :
  In blk blks ->
  inst_cell_template blk = Some c ->
  In row (buildSubRows rows blks rects) ->
  0 < row_site_width row ->
  inst_position_y blk < row_origin_y row + row_height row ->
  row_origin_y row < inst_position_y blk + ct_height c ->
  covered (row_subrows row) x ->
  x < inst_position_x blk + eps * row_site_width row
  \/ inst_position_x blk + ct_width c - eps * row_site_width row <= x.
Proof.
  intros Hblk Ht Hrow Hsw Hy1 Hy2 Hc.
  apply buildSubRows_rows in Hrow. destruct Hrow as (r0 & _ & ->).
  set (r1 := fold_left carve_row_instance (sort_by_x blks) r0) in *.
  destruct (fold_rect_static rects r1) as (G1 & G2 & G3 & G4).
  rewrite G2, G3 in Hy1. rewrite G2 in Hy2. rewrite G4 in Hsw |- *.
  apply fold_rect_shrinks in Hc. subst r1.
  destruct (fold_instance_static (sort_by_x blks) r0) as (K1 & K2 & K3 & K4).
  rewrite K2, K3 in Hy1. rewrite K2 in Hy2. rewrite K4 in Hsw |- *.
  apply (fold_instance_avoids (sort_by_x blks) blk c r0 x); try assumption.
  apply sort_by_x_In. exact Hblk.
Qed.

Lemma buildSubRows_avoids_instances_witness :
  1000 < inst_position_x ex_macro + eps * row_site_width (hd ex_row ex_macro_rows)
  \/ inst_position_x ex_macro + ct_width ex_cell_macro
     - eps * row_site_width (hd ex_row ex_macro_rows) <= 1000.
Proof.
  apply (buildSubRows_avoids_instances (Legalizer_init [ex_row]) [ex_macro] []).
  - left. reflexivity.
  - reflexivity.
  - vm_compute. left. reflexivity.
  - reflexivity.
  - reflexivity.
  - reflexivity.
  - exists (new_SubRow 0 2000). vm_compute.
    split; [left; reflexivity|]. split; [discriminate|reflexivity].
Defined.


(* ------------------------------------------------------------------------- *)
(** *** Row and sub-row selection (findBestRow, findSubrowpos) *)

Lemma score_lt_le_trans (a : Q) (s : Score) (b : Q) :
  score_lt (Fin a) s -> score_le s (Fin b) -> a < b.
Proof. destruct s; simpl; [lra|tauto]. Qed.

Lemma score_ltb_ge (a b : Score) : score_ltb a b = false -> score_le b a.
Proof.
  destruct a, b; simpl; auto; try discriminate.
  intro H. apply Qltb_ge in H. exact H.
Qed.

Lemma score_lt_trans (a b : Q) (s : Score) :
  a < b -> score_lt (Fin b) s -> score_lt (Fin a) s.
Proof. destruct s; simpl; [lra|tauto]. Qed.

Lemma findBestRow_from_cons (y : Q) (r : PlacementRow) (rest : list PlacementRow)
      (i : Z) (best : Score) (br : Z) :
  findBestRow_from y (r :: rest) i best br
  = if score_ltb (Fin (Qabs (y - row_origin_y r))) best
    then findBestRow_from y rest (i + 1) (Fin (Qabs (y - row_origin_y r))) i
    else findBestRow_from y rest (i + 1) best br.
Proof. reflexivity. Qed.

Lemma findBestRow_from_spec (y : Q) (rows : list PlacementRow) (i : Z)
      (best : Score) (br : Z) :
  (findBestRow_from y rows i best br = br /\
   Forall (fun r => score_le best (Fin (Qabs (y - row_origin_y r)))) rows)
  \/
  (exists k r,
      nth_error rows k = Some r /\
      findBestRow_from y rows i best br = (i + Z.of_nat k)%Z /\
      score_lt (Fin (Qabs (y - row_origin_y r))) best /\
      Forall (fun r' => Qabs (y - row_origin_y r) <= Qabs (y - row_origin_y r')) rows /\
      Forall (fun r' => Qabs (y - row_origin_y r) < Qabs (y - row_origin_y r'))
             (firstn k rows)).
Proof.
  revert i best br. induction rows as [|r rest IH]; intros i best br.
  - left. split; [reflexivity|constructor].
  - rewrite findBestRow_from_cons.
    destruct (score_ltb (Fin (Qabs (y - row_origin_y r))) best) eqn:E.
    + apply score_ltb_lt in E. right.
      destruct (IH (i + 1)%Z (Fin (Qabs (y - row_origin_y r))) i)
        as [[Hres Hall]|(k & r' & Hnth & Hres & Hlt & Hall & Hbefore)].
      * exists 0%nat, r.
        split; [reflexivity|]. split; [rewrite Hres; lia|].
        split; [exact E|]. split; [|constructor].
        constructor; [apply Qle_refl|exact Hall].
      * exists (S k), r'. unfold score_lt in Hlt.
        split; [exact Hnth|]. split; [rewrite Hres; lia|].
        split; [eapply score_lt_trans; eassumption|].
        split; [constructor; [apply Qlt_le_weak; exact Hlt|exact Hall]|].
        simpl. constructor; [exact Hlt|exact Hbefore].
    + apply score_ltb_ge in E.
      destruct (IH (i + 1)%Z best br)
        as [[Hres Hall]|(k & r' & Hnth & Hres & Hlt & Hall & Hbefore)].
      * left. split; [exact Hres|constructor; assumption].
      * right. exists (S k), r'.
        pose proof (score_lt_le_trans _ _ _ Hlt E) as Hlt'.
        split; [exact Hnth|]. split; [rewrite Hres; lia|].
        split; [exact Hlt|].
        split; [constructor; [apply Qlt_le_weak; exact Hlt'|exact Hall]|].
        simpl. constructor; [exact Hlt'|exact Hbefore].
Qed.

(** [findBestRow] answers -1 exactly on an empty row list; otherwise it
    answers the index of a row whose origin is nearest in y to the instance,
    and of the nearest rows the first: every row before it is strictly
    farther. *)
Theorem findBestRow_closest (rows : list PlacementRow) (instance : Instance) :
  (rows = [] /\ findBestRow rows instance = (-1)%Z)
  \/
  (exists k r,
      nth_error rows k = Some r /\
      findBestRow rows instance = Z.of_nat k /\
      Forall (fun r' => Qabs (inst_position_y instance - row_origin_y r)
                        <= Qabs (inst_position_y instance - row_origin_y r')) rows /\
      Forall (fun r' => Qabs (inst_position_y instance - row_origin_y r)
                        < Qabs (inst_position_y instance - row_origin_y r'))
             (firstn k rows)).
Proof.
  unfold findBestRow.
  destruct (findBestRow_from_spec (inst_position_y instance) rows 0 DblMax (-1))
    as [[Hres Hall]|(k & r & Hnth & Hres & _ & Hall & Hbefore)].
  - left. destruct rows as [|r rest]; [split; [reflexivity|exact Hres]|].
    inversion Hall as [|? ? Hr _]. destruct Hr.
  - right. exists k, r. repeat split; auto.
Qed.


Lemma findSubrowpos_from_cons (px w : Q) (s : SubRow) (rest : list SubRow) (idx : Z)
      (minDisplacement : Score) (subRow : Z) :
  findSubrowpos_from px w (s :: rest) idx minDisplacement subRow
  = if Qltb (sr_Usewidth s) w then
      findSubrowpos_from px w rest (idx + 1) minDisplacement subRow
    else
      if score_ltb (Fin (if Qltb px (sr_x_min s) then sr_x_min s - px
                         else if Qltb (sr_x_max s) (px + w) then px + w - sr_x_max s
                         else 0)) minDisplacement
      then findSubrowpos_from px w rest (idx + 1)
             (Fin (if Qltb px (sr_x_min s) then sr_x_min s - px
                   else if Qltb (sr_x_max s) (px + w) then px + w - sr_x_max s
                   else 0)) idx
      else subRow.
Proof. reflexivity. Qed.

Lemma findSubrowpos_from_fits (px w : Q) (subrows : list SubRow) (idx : Z)
      (minDisplacement : Score) (subRow : Z) :
  findSubrowpos_from px w subrows idx minDisplacement subRow = subRow
  \/ exists k s,
       nth_error subrows k = Some s /\
       findSubrowpos_from px w subrows idx minDisplacement subRow
       = (idx + Z.of_nat k)%Z /\
       w <= sr_Usewidth s.
Proof.
  revert idx minDisplacement subRow.
  induction subrows as [|s rest IH]; intros idx minD subRow.
  - left. reflexivity.
  - rewrite findSubrowpos_from_cons.
    destruct (Qltb (sr_Usewidth s) w) eqn:E.
    + destruct (IH (idx + 1)%Z minD subRow) as [H|(k & s' & Hnth & Hres & Hw)].
      * left. exact H.
      * right. exists (S k), s'. split; [exact Hnth|].
        split; [rewrite Hres; lia|exact Hw].
    + apply Qltb_ge in E. destruct (score_ltb _ minD); [|left; reflexivity].
      right.
      match goal with
      | |- context [findSubrowpos_from px w rest (idx + 1)%Z ?m idx] =>
          destruct (IH (idx + 1)%Z m idx) as [H|(k & s' & Hnth & Hres & Hw)]
      end.
      * exists 0%nat, s. split; [reflexivity|]. split; [rewrite H; lia|exact E].
      * exists (S k), s'. split; [exact Hnth|].
        split; [rewrite Hres; lia|exact Hw].
Qed.

Lemma findSubrowpos_from_none (px w : Q) (subrows : list SubRow) (idx subRow : Z) :
  (findSubrowpos_from px w subrows idx DblMax subRow = subRow /\
   Forall (fun s => sr_Usewidth s < w) subrows)
  \/ exists k s,
       nth_error subrows k = Some s /\
       findSubrowpos_from px w subrows idx DblMax subRow = (idx + Z.of_nat k)%Z /\
       w <= sr_Usewidth s.
Proof.
  revert idx. induction subrows as [|s rest IH]; intro idx.
  - left. split; [reflexivity|constructor].
  - rewrite findSubrowpos_from_cons.
    destruct (Qltb (sr_Usewidth s) w) eqn:E.
    + apply Qltb_lt in E.
      destruct (IH (idx + 1)%Z) as [[H Hall]|(k & s' & Hnth & Hres & Hw)].
      * left. split; [exact H|constructor; assumption].
      * right. exists (S k), s'. split; [exact Hnth|].
        split; [rewrite Hres; lia|exact Hw].
    + apply Qltb_ge in E. right.
      change (score_ltb (Fin (if Qltb px (sr_x_min s) then sr_x_min s - px
                              else if Qltb (sr_x_max s) (px + w)
                                   then px + w - sr_x_max s else 0)) DblMax)
        with true.
      cbv iota.
      match goal with
      | |- context [findSubrowpos_from px w rest (idx + 1)%Z ?m idx] =>
          destruct (findSubrowpos_from_fits px w rest (idx + 1)%Z m idx)
            as [H|(k & s' & Hnth & Hres & Hw)]
      end.
      * exists 0%nat, s. split; [reflexivity|]. split; [rewrite H; lia|exact E].
      * exists (S k), s'. split; [exact Hnth|].
        split; [rewrite Hres; lia|exact Hw].
Qed.

(** [findSubrowpos] answers -1 exactly when the instance has no cell
    template or every sub-row of the row has less free width than the cell
    is wide; otherwise it answers the index of a sub-row whose free width
    [Usewidth] is at least the cell's width. *)
Theorem findSubrowpos_fits (instance : Instance) (row : PlacementRow) :
  (findSubrowpos instance row = (-1)%Z
   <-> inst_cell_template instance = None
       \/ Forall (fun s => sr_Usewidth s < get_width instance) (row_subrows row))
  /\
  (findSubrowpos instance row <> (-1)%Z ->
   exists k s,
     nth_error (row_subrows row) k = Some s /\
     findSubrowpos instance row = Z.of_nat k /\
     get_width instance <= sr_Usewidth s).
Proof.
  unfold findSubrowpos, get_width.
  destruct (inst_cell_template instance) as [c|].
  2:{ split; [split; [left|]; reflexivity|]. intro H. contradiction. }
  destruct (findSubrowpos_from_none (inst_position_x instance) (ct_width c)
              (row_subrows row) 0 (-1))
    as [[H Hall]|(k & s & Hnth & Hres & Hw)].
  - split; [split; [right; exact Hall|intros _; exact H]|].
    intro Hne. contradiction.
  - split.
    + split; [intro H; rewrite H in Hres; lia|].
      intros [Hnone|Hall]; [discriminate|].
      rewrite Forall_forall in Hall.
      pose proof (Hall s (nth_error_In _ _ Hnth)) as Hlt.
      exfalso. apply (Qlt_not_le _ _ Hlt). exact Hw.
    + intros _. exists k, s. auto.
Qed.


(* ------------------------------------------------------------------------- *)
(** *** What [Abacus] leaves of the rows as it found them *)

(** The frame of a row: its geometry and the bounds of its sub-rows. *)
Definition row_frame (r : PlacementRow) : Q * Q * Q * Q * list (Q * Q) :=
  (row_origin_x r, row_origin_y r, row_height r, row_site_width r,
   map (fun s => (sr_x_min s, sr_x_max s)) (row_subrows r)).

Lemma map_replace_nth {A B : Type} (f : A -> B) (n : nat) (x y : A) (l : list A) :
  nth_error l n = Some y -> f x = f y -> map f (replace_nth n x l) = map f l.
Proof.
  revert n. induction l as [|a l IH]; intros [|n] Hn Hf; simpl in *; try discriminate.
  - injection Hn as ->. now rewrite Hf.
  - now rewrite IH.
Qed.

Lemma placeRow_final_bounds (row : PlacementRow) (instance : Instance) (sr : SubRow) :
  sr_x_min (fst (placeRow_final row instance sr)) = sr_x_min sr /\
  sr_x_max (fst (placeRow_final row instance sr)) = sr_x_max sr.
Proof.
  unfold placeRow_final. destruct (starts_new_cluster sr _); simpl; auto.
  destruct (sr_clusters sr); simpl; auto.
Qed.

Lemma commit_frame (rows : list PlacementRow) (t : InstanceTable) (instance : Instance)
      (ri si : Z) :
  map row_frame (fst (commit rows t instance ri si)) = map row_frame rows.
Proof.
  unfold commit.
  destruct (nth_error rows (Z.to_nat ri)) as [row|] eqn:Erow; [|reflexivity].
  destruct (nth_error (row_subrows row) (Z.to_nat si)) as [sr|] eqn:Esr; [|reflexivity].
  destruct (placeRow_final row (current t instance) sr) as [sr' pos] eqn:Ef. simpl.
  apply (map_replace_nth _ _ _ row); [exact Erow|].
  unfold row_frame. simpl. f_equal.
  apply (map_replace_nth _ _ _ sr); [exact Esr|].
  pose proof (placeRow_final_bounds row (current t instance) sr) as [H1 H2].
  rewrite Ef in H1, H2. simpl in H1, H2. now rewrite H1, H2.
Qed.

(** The loop body of [Abacus] never moves, adds or removes a row or a
    sub-row: the geometry of every row and the bounds of every sub-row are
    after the step what they were before it. *)
Lemma Abacus_step_frame (max_disp : Score) (st : LegalState) (instance : Instance) :
  map row_frame (lg_rows (Abacus_step max_disp st instance))
  = map row_frame (lg_rows st).
Proof.
  unfold Abacus_step.
  destruct (findBestRow (lg_rows st) instance =? -1)%Z; [reflexivity|].
  match goal with |- context [sweep ?a ?b ?c ?d ?e ?f ?g] =>
    set (s := sweep a b c d e f g) end.
  destruct (negb (se_bestRowIdx s =? -1)%Z && negb (se_bestSubRowIdx s =? -1)%Z);
    [|reflexivity].
  pose proof (commit_frame (lg_rows st) (se_instances s) instance
                (se_bestRowIdx s) (se_bestSubRowIdx s)) as H.
  destruct (commit _ _ _ _ _) as [rows' t]. exact H.
Qed.

Lemma Abacus_fold_frame (max_disp : Score) (ffs : list Instance) (st : LegalState) :
  map row_frame (lg_rows (fold_left (Abacus_step max_disp) ffs st))
  = map row_frame (lg_rows st).
Proof.
  revert st. induction ffs as [|i ffs IH]; intro st; simpl; [reflexivity|].
  rewrite IH. apply Abacus_step_frame.
Qed.

(** [Abacus] as a whole: the rows it leaves have the frames [buildSubRows]
    gave them. *)
Theorem Abacus_keeps_frames (max_disp : Score) (rows : list PlacementRow)
        (instances : InstanceTable) (placement_blockages : list Rectangle) :
  map row_frame (lg_rows (Abacus max_disp rows instances placement_blockages))
  = map row_frame
        (buildSubRows rows (snd (fst (classify_instances instances)))
                      placement_blockages).
Proof.
  unfold Abacus. destruct (classify_instances instances) as [[ffs blks] t]. simpl.
  apply Abacus_fold_frame.
Qed.


(* ------------------------------------------------------------------------- *)
(** *** Site alignment of the final positions (place) *)

(** [x] lies a whole number of sites from [base]. *)
Definition on_site (base sitew x : Q) : Prop :=
  exists k : Z, x == base + inject_Z k * sitew.

Lemma on_site_base (base sitew : Q) : on_site base sitew base.
Proof. exists 0%Z. ring. Qed.

Lemma snap_down_on_site (base sitew x : Q) : on_site base sitew (snap_down base sitew x).
Proof.
  exists (Qfloor ((x - base) / sitew)). unfold snap_down, floorQ. ring.
Qed.

Lemma on_site_placed_width (base sitew x w : Q) :
  on_site base sitew x -> on_site base sitew (x + placed_width sitew w).
Proof.
  intros [k Hk]. exists (k + Qceiling (w / sitew))%Z.
  unfold placed_width, ceilQ. rewrite Hk, inject_Z_plus. ring.
Qed.

Lemma on_site_rebase (origin sitew base x : Q) :
  on_site origin sitew base -> on_site base sitew x -> on_site origin sitew x.
Proof.
  intros [k Hk] [m Hm]. exists (k + m)%Z.
  rewrite Hm, Hk, inject_Z_plus. ring.
Qed.

(** The sub-rows of a row start on sites of the row. *)
Definition frame_on_site (f : Q * Q * Q * Q * list (Q * Q)) : Prop :=
  let '(ox, _, _, sw, bounds) := f in
  Forall (fun b => on_site ox sw (fst b)) bounds.

Definition row_on_site (r : PlacementRow) : Prop := frame_on_site (row_frame r).

Lemma row_on_site_iff (r : PlacementRow) :
  row_on_site r <->
  Forall (fun s => on_site (row_origin_x r) (row_site_width r) (sr_x_min s))
         (row_subrows r).
Proof.
  unfold row_on_site, row_frame, frame_on_site. rewrite Forall_map. reflexivity.
Qed.

Lemma carve_x_min (P : Q -> Prop) (front back : Q) (sr : list SubRow) :
  P back -> Forall (fun s => P (sr_x_min s)) sr ->
  Forall (fun s => P (sr_x_min s)) (carve front back sr).
Proof.
  intros Hb. induction sr as [|s rest IH]; intro H; simpl; [constructor|].
  inversion H as [|? ? Hs Hrest]; subst. specialize (IH Hrest).
  destruct (_ || _); [constructor; assumption|].
  destruct (_ && _); [assumption|].
  destruct (_ && _); [constructor; assumption|].
  destruct (_ && _); [constructor; assumption|].
  constructor; [assumption|]. constructor; assumption.
Qed.

Lemma carve_row_on_site (a b c d : Q) (r : PlacementRow) :
  row_on_site r -> row_on_site (carve_row a b c d r).
Proof.
  rewrite !row_on_site_iff. unfold carve_row. destruct (negb _); [auto|]. simpl.
  apply carve_x_min.
  exists (Qceiling ((b - row_origin_x r) / row_site_width r - eps)).
  unfold ceilQ. reflexivity.
Qed.

Lemma init_row_on_site (i : Z) (r : PlacementRow) :
  row_subrows r = [] -> row_on_site (init_row i r).
Proof.
  intro H. rewrite row_on_site_iff. unfold init_row. rewrite H. simpl.
  constructor; [apply on_site_base|constructor].
Qed.

Lemma Legalizer_init_on_site (rows : list PlacementRow) :
  Forall (fun r => row_subrows r = []) rows ->
  Forall row_on_site (Legalizer_init rows).
Proof.
  unfold Legalizer_init. generalize 0%Z.
  induction rows as [|r rows IH]; intros i H; simpl; [constructor|].
  inversion H; subst. constructor; [now apply init_row_on_site|now apply IH].
Qed.

Lemma buildSubRows_on_site (rows : list PlacementRow) (blks : list Instance)
      (rects : list Rectangle) :
  Forall row_on_site rows -> Forall row_on_site (buildSubRows rows blks rects).
Proof.
  intro H. unfold buildSubRows.
  rewrite fold_carve_rect, fold_carve_instance, map_map.
  apply Forall_map. eapply Forall_impl; [|exact H].
  intros r Hr. simpl.
  assert (H1 : row_on_site (fold_left carve_row_instance (sort_by_x blks) r)).
  { clear H. revert r Hr. induction (sort_by_x blks) as [|b l IH]; intros r Hr; simpl.
    - exact Hr.
    - apply IH. unfold carve_row_instance.
      destruct (inst_cell_template b); [now apply carve_row_on_site|exact Hr]. }
  revert H1. generalize (fold_left carve_row_instance (sort_by_x blks) r).
  clear. induction rects as [|rc l IH]; intros r Hr; simpl.
  - exact Hr.
  - apply IH. now apply carve_row_on_site.
Qed.

(** Every entry of the table stored under [n] satisfies [W]. *)
Definition marked (W : Instance -> Prop) (t : InstanceTable) (n : string) : Prop :=
  forall i, assoc_find n t = Some i -> W i.

Lemma fold_marked {A : Type} (f : InstanceTable -> A -> InstanceTable)
      (cells_of : A -> list string) (W : Instance -> Prop) (l : list A) :
  (forall a t n, In a l -> In n (cells_of a) \/ marked W t n -> marked W (f t a) n) ->
  forall t n,
    (exists a, In a l /\ In n (cells_of a)) \/ marked W t n ->
    marked W (fold_left f l t) n.
Proof.
  induction l as [|a l IH]; intros Hf t n H; simpl.
  - destruct H as [(a & [] & _)|H]. exact H.
  - apply IH.
    + intros a' t' n' Ha'. apply Hf. right. exact Ha'.
    + destruct H as [(a' & [<-|Ha'] & Hn)|H].
      * right. apply Hf; [left; reflexivity|left; exact Hn].
      * left. exists a'. auto.
      * right. apply Hf; [left; reflexivity|right; exact H].
Qed.

Lemma place_cells_marked (W : Instance -> Prop) (A : Q -> Prop) (sitew row_y : Q) :
  (forall x i, A x -> W (set_new_position x row_y i)) ->
  (forall x w, A x -> A (x + placed_width sitew w)) ->
  forall cells x t n,
    A x ->
    In n cells \/ marked W t n ->
    marked W (place_cells sitew row_y cells x t) n.
Proof.
  intros HW HA. induction cells as [|n0 rest IH]; intros x t n Hx H; simpl.
  - destruct H as [[]|H]. exact H.
  - apply IH; [apply HA; exact Hx|].
    destruct (in_dec string_dec n rest) as [Hin|Hnin]; [left; exact Hin|].
    right. intros i Hi. rewrite assoc_find_update_instance in Hi.
    destruct (String.eqb_spec n n0) as [->|Hne].
    + destruct (assoc_find n0 t) as [i0|]; [|discriminate].
      simpl in Hi. injection Hi as <-. apply HW. exact Hx.
    + destruct H as [[Heq|Hin]|H]; [congruence|contradiction|].
      apply H. exact Hi.
Qed.

(** A position [place] writes: on a site of some row, at that row's y. *)
Definition placed_on_site (rows : list PlacementRow) (i : Instance) : Prop :=
  exists row,
    In row rows /\
    inst_y_new i = row_origin_y row /\
    on_site (row_origin_x row) (row_site_width row) (inst_x_new i).

(** The names held by the clusters of a sub-row, of a row. *)
Definition subrow_cells (sub : SubRow) : list string :=
  concat (map cl_cells (sr_clusters sub)).

Definition row_cells (row : PlacementRow) : list string :=
  concat (map subrow_cells (row_subrows row)).

Lemma in_concat_map {A : Type} (f : A -> list string) (l : list A) (n : string) :
  In n (concat (map f l)) <-> exists a, In a l /\ In n (f a).
Proof.
  rewrite in_concat. split.
  - intros (c & Hc & Hn). apply in_map_iff in Hc. destruct Hc as (a & <- & Ha).
    exists a. auto.
  - intros (a & Ha & Hn). exists (f a). split; [apply in_map; exact Ha|exact Hn].
Qed.

Lemma place_row_marked (rows : list PlacementRow) (row : PlacementRow)
      (t : InstanceTable) (n : string) :
  In row rows -> row_on_site row ->
  In n (row_cells row) \/ marked (placed_on_site rows) t n ->
  marked (placed_on_site rows) (place_row t row) n.
Proof.
  intros Hrow Hsite H. unfold place_row.
  apply (fold_marked _ subrow_cells).
  - intros sub t' n' Hsub H'. unfold place_subrow.
    apply (fold_marked _ cl_cells).
    + intros c t'' n'' Hc H''. unfold place_cluster.
      apply (place_cells_marked _
               (on_site (sr_x_min sub) (row_site_width row))); auto.
      * intros x i Hx. exists row. split; [exact Hrow|].
        split; [destruct i; reflexivity|].
        apply (on_site_rebase _ _ (sr_x_min sub)).
        -- apply row_on_site_iff in Hsite. rewrite Forall_forall in Hsite.
           apply Hsite. exact Hsub.
        -- destruct i; exact Hx.
      * intros x w Hx. apply on_site_placed_width. exact Hx.
      * apply snap_down_on_site.
    + destruct H' as [H'|H']; [left|right; exact H'].
      apply in_concat_map. exact H'.
  - destruct H as [H|H]; [left|right; exact H].
    apply in_concat_map. exact H.
Qed.

Lemma place_marked (st : LegalState) (n : string) :
  Forall row_on_site (lg_rows st) ->
  (exists row, In row (lg_rows st) /\ In n (row_cells row)) ->
  marked (placed_on_site (lg_rows st)) (lg_instances (place st)) n.
Proof.
  intros Hsite H. unfold place. simpl.
  apply (fold_marked _ row_cells).
  - intros row t n' Hrow H'. apply place_row_marked; auto.
    rewrite Forall_forall in Hsite. apply Hsite. exact Hrow.
  - left. exact H.
Qed.

Lemma frames_on_site (rows rows' : list PlacementRow) :
  map row_frame rows' = map row_frame rows ->
  Forall row_on_site rows -> Forall row_on_site rows'.
Proof.
  intros Hf H. unfold row_on_site in *.
  rewrite <- Forall_map in *. rewrite Hf. exact H.
Qed.

(** Site alignment after legalization.  Let the rows come without sub-rows,
    as the parser leaves them, and with a positive site width once the
    constructor has filled it in (the source divides by it).  Then every
    instance that a cluster of some sub-row holds when [place] runs ends with
    [y_new] the origin y of a row and [x_new] a whole number of that row's
    sites from that row's origin x. *)
Theorem legalize_site_aligned
        (max_disp : Score) (rows : list PlacementRow) (instances : InstanceTable)
        (placement_blockages : list Rectangle)
        (row : PlacementRow) (n : string) (i : Instance) :
  let st := legalize max_disp rows instances placement_blockages in
  Forall (fun r => row_subrows r = []) rows ->
  Forall (fun r => 0 < row_site_width r) (Legalizer_init rows) ->
  In row (lg_rows st) ->
  In n (row_cells row) ->
  assoc_find n (lg_instances st) = Some i ->
  exists row' (k : Z),
    In row' (lg_rows st) /\
    inst_y_new i = row_origin_y row' /\
    inst_x_new i == row_origin_x row' + inject_Z k * row_site_width row'.
Proof.
  intros st Hfresh _ Hrow Hn Hi. subst st. unfold legalize in *.
  set (ab := Abacus max_disp (Legalizer_init rows) instances placement_blockages) in *.
  assert (Hsite : Forall row_on_site (lg_rows ab)).
  { subst ab. unfold Abacus.
    destruct (classify_instances instances) as [[ffs blks] t].
    eapply frames_on_site; [apply Abacus_fold_frame|]. simpl.
    apply buildSubRows_on_site, Legalizer_init_on_site, Hfresh. }
  assert (Hm : marked (placed_on_site (lg_rows ab)) (lg_instances (place ab)) n).
  { apply place_marked; [exact Hsite|]. exists row. auto. }
  destruct (Hm i Hi) as (row' & Hin & Hy & k & Hk).
  exists row', k. auto.
Qed.

(** Scenario 5 of the specification: [f2] ends on site 22 of the row. *)
Lemma legalize_site_aligned_witness :
  exists row' (k : Z),
    In row' (lg_rows (legalize DblMax [ex_row] ex_legal_instances [ex_blockage])) /\
    inst_y_new ex_f2_placed = row_origin_y row' /\
    inst_x_new ex_f2_placed == row_origin_x row' + inject_Z k * row_site_width row'.
Proof.
  apply (legalize_site_aligned DblMax [ex_row] ex_legal_instances [ex_blockage]
           (hd ex_row (lg_rows (legalize DblMax [ex_row] ex_legal_instances
                                         [ex_blockage])))
           "f2" ex_f2_placed).
  - constructor; [reflexivity|constructor].
  - constructor; [reflexivity|constructor].
  - vm_compute. left. reflexivity.
  - vm_compute. right. left. reflexivity.
  - vm_compute. reflexivity.
Defined.


(* ------------------------------------------------------------------------- *)
(** *** Bookkeeping of the committing insertion (placeRow, Collapse) *)

(** The cells of a cluster chain from left to right (the head of the list
    is the rightmost cluster) and the width the chain occupies. *)
Definition chain_cells (chain : list Cluster) : list string :=
  concat (map cl_cells (rev chain)).

Fixpoint chain_width (chain : list Cluster) : Q :=
  match chain with
  | [] => 0
  | c :: lefts => chain_width lefts + cl_width c
  end.

Lemma chain_cells_cons (c : Cluster) (lefts : list Cluster) :
  chain_cells (c :: lefts) = (chain_cells lefts ++ cl_cells c)%list.
Proof.
  unfold chain_cells. simpl. rewrite map_app, concat_app. simpl.
  now rewrite app_nil_r.
Qed.

Lemma Collapse_cons (sr_xmin xmin xmax sitew : Q) (cluster pred : Cluster)
      (lefts : list Cluster) :
  Collapse sr_xmin xmin xmax sitew cluster (pred :: lefts)
  = if Qltb (clamp_x sr_xmin xmin xmax sitew (cl_q cluster) (cl_weight cluster)
                     (cl_width cluster))
            (cl_x pred + cl_width pred)
    then Collapse sr_xmin xmin xmax sitew (AddCluster pred cluster) lefts
    else set_cl_x (clamp_x sr_xmin xmin xmax sitew (cl_q cluster) (cl_weight cluster)
                           (cl_width cluster)) cluster :: pred :: lefts.
Proof. reflexivity. Qed.

Lemma Collapse_nil (sr_xmin xmin xmax sitew : Q) (cluster : Cluster) :
  Collapse sr_xmin xmin xmax sitew cluster []
  = [set_cl_x (clamp_x sr_xmin xmin xmax sitew (cl_q cluster) (cl_weight cluster)
                       (cl_width cluster)) cluster].
Proof. reflexivity. Qed.

Lemma Collapse_cells (sr_xmin xmin xmax sitew : Q) (lefts : list Cluster)
      (cluster : Cluster) :
  chain_cells (Collapse sr_xmin xmin xmax sitew cluster lefts)
  = chain_cells (cluster :: lefts).
Proof.
  revert cluster. induction lefts as [|pred lefts IH]; intro cluster.
  - rewrite Collapse_nil. reflexivity.
  - rewrite Collapse_cons. destruct (Qltb _ _).
    + rewrite IH. rewrite !chain_cells_cons. simpl. now rewrite app_assoc.
    + rewrite !chain_cells_cons. reflexivity.
Qed.

Lemma Collapse_width (sr_xmin xmin xmax sitew : Q) (lefts : list Cluster)
      (cluster : Cluster) :
  chain_width (Collapse sr_xmin xmin xmax sitew cluster lefts)
  == chain_width (cluster :: lefts).
Proof.
  revert cluster. induction lefts as [|pred lefts IH]; intro cluster.
  - rewrite Collapse_nil. simpl. reflexivity.
  - rewrite Collapse_cons. destruct (Qltb _ _).
    + rewrite IH. simpl. ring.
    + simpl. reflexivity.
Qed.

(** The committing branch of [placeRow], entered with an instance that has
    a cell template (the function returns at its first line otherwise),
    keeps the books of a sub-row: its bounds stay, the cell joins the cells
    of the chain as the rightmost one (merging clusters reorders nothing),
    the free width [Usewidth] drops by the placed width of the cell, and the
    width the chain occupies grows by the same amount. *)
Theorem placeRow_final_accounts (row : PlacementRow) (instance : Instance)
        (sr : SubRow) :
  inst_cell_template instance <> None ->
  let sr' := fst (placeRow_final row instance sr) in
  let placeCellwidth := placed_width (row_site_width row) (get_width instance) in
  sr_x_min sr' = sr_x_min sr /\
  sr_x_max sr' = sr_x_max sr /\
  chain_cells (sr_clusters sr')
  = (chain_cells (sr_clusters sr) ++ [inst_name instance])%list /\
  sr_Usewidth sr' = sr_Usewidth sr - placeCellwidth /\
  chain_width (sr_clusters sr') == chain_width (sr_clusters sr) + placeCellwidth.
Proof.
  intros _. unfold placeRow_final, starts_new_cluster.
  destruct (sr_clusters sr) as [|last lefts] eqn:Ecl.
  - simpl. repeat split; try reflexivity. ring.
  - destruct (Qleb (cl_x last + cl_width last) _).
    + cbn [fst sr_x_min sr_x_max sr_clusters sr_Usewidth].
      repeat split; try reflexivity.
      * rewrite (chain_cells_cons _ (last :: lefts)). reflexivity.
      * simpl. ring.
    + cbn [fst sr_x_min sr_x_max sr_clusters sr_Usewidth].
      repeat split; try reflexivity.
      * rewrite Collapse_cells, !chain_cells_cons. simpl.
        now rewrite app_assoc.
      * rewrite Collapse_width. simpl. ring.
Qed.

(** Scenario 5: [f2] joins the cluster of [f1] in the sub-row right of the
    blockage. *)
Lemma placeRow_final_accounts_witness :
  let sr' := fst (placeRow_final ex_placed_row ex_f2 ex_subrow_f1) in
  let placeCellwidth := placed_width (row_site_width ex_placed_row) (get_width ex_f2) in
  sr_x_min sr' = sr_x_min ex_subrow_f1 /\
  sr_x_max sr' = sr_x_max ex_subrow_f1 /\
  chain_cells (sr_clusters sr')
  = (chain_cells (sr_clusters ex_subrow_f1) ++ [inst_name ex_f2])%list /\
  sr_Usewidth sr' = sr_Usewidth ex_subrow_f1 - placeCellwidth /\
  chain_width (sr_clusters sr')
  == chain_width (sr_clusters ex_subrow_f1) + placeCellwidth.
Proof.
  apply (placeRow_final_accounts ex_placed_row ex_f2 ex_subrow_f1). discriminate.
Defined.


(* ------------------------------------------------------------------------- *)
(** *** Clusters never share an instance (simple_distance_clustering) *)

Lemma grow_cluster_takes first target thr rest :
  forall cluster c r,
    grow_cluster first target thr rest cluster = (c, r) ->
    exists added,
      c = (cluster ++ added)%list /\
      Permutation (unused rest) (added ++ unused r).
Proof.
  induction rest as [|[j u] rest IH]; intros cluster c r Hg; simpl in Hg.
  - inversion Hg; subst. exists []. rewrite app_nil_r. split; [reflexivity|constructor].
  - destruct (Z.of_nat (length cluster) <? size_t_of_int target)%Z.
    2:{ inversion Hg; subst. exists []. rewrite app_nil_r.
        split; [reflexivity|apply Permutation_refl]. }
    destruct u.
    + destruct (grow_cluster first target thr rest cluster) as [c1 r1] eqn:E.
      inversion Hg; subst.
      destruct (IH _ _ _ E) as (added & A & B).
      exists added. split; [exact A|exact B].
    + destruct (Qleb (manhattan_distance first j) thr).
      * destruct (grow_cluster first target thr rest (cluster ++ [j])%list)
          as [c1 r1] eqn:E.
        inversion Hg; subst.
        destruct (IH _ _ _ E) as (added & A & B).
        exists (j :: added). split.
        -- rewrite A, <- app_assoc. reflexivity.
        -- unfold unused in *. simpl. constructor. exact B.
      * destruct (grow_cluster first target thr rest cluster) as [c1 r1] eqn:E.
        inversion Hg; subst.
        destruct (IH _ _ _ E) as (added & A & B).
        exists added. split; [exact A|].
        unfold unused in *. simpl.
        apply Permutation_cons_app. exact B.
Qed.

Lemma clustering_loop_partitions thr target :
  forall fuel l,
    exists leftover,
      Permutation (unused l)
                  (concat (clustering_loop fuel target thr l) ++ leftover).
Proof.
  induction fuel as [|fuel IH]; intro l; simpl.
  - exists (unused l). apply Permutation_refl.
  - destruct l as [|[i u] rest].
    + exists []. constructor.
    + destruct u; [exact (IH rest)|].
      destruct (grow_cluster i target thr rest [i]) as [cluster rest'] eqn:E.
      destruct (grow_cluster_takes _ _ _ _ _ _ _ E) as (added & A & B).
      destruct (IH rest') as (lo & Hlo).
      assert (Hall : Permutation (unused ((i, false) :: rest))
                       (cluster ++ concat (clustering_loop fuel target thr rest')
                        ++ lo)).
      { subst cluster. unfold unused at 1. simpl. constructor.
        fold (unused rest). rewrite B.
        apply Permutation_app_head. exact Hlo. }
      destruct (size_t_of_int target <=? Z.of_nat (length cluster))%Z.
      * exists lo. simpl. rewrite <- app_assoc. exact Hall.
      * exists (cluster ++ lo)%list. rewrite Hall.
        rewrite !app_assoc. apply Permutation_app_tail. apply Permutation_app_comm.
Qed.

Lemma unused_fresh (instances : list Instance) :
  unused (map (fun i => (i, false)) instances) = instances.
Proof.
  unfold unused. induction instances as [|i l IH]; simpl; [reflexivity|].
  now rewrite IH.
Qed.

(** The clusters of [simple_distance_clustering] and the candidates it
    leaves out together are a rearrangement of the candidates: a candidate is
    a member of at most one cluster, at most once, and no cluster has a
    member that is not a candidate. *)
Theorem simple_distance_clustering_partitions
        (instances : list Instance) (target_cluster_size : Z)
        (max_distance_threshold : Q) :
  exists leftover,
    Permutation instances
      (concat (simple_distance_clustering instances target_cluster_size
                                          max_distance_threshold)
       ++ leftover).
Proof.
  unfold simple_distance_clustering.
  destruct (clustering_loop_partitions max_distance_threshold target_cluster_size
              (length instances) (map (fun i => (i, false)) instances))
    as (lo & H).
  exists lo. rewrite unused_fresh in H. exact H.
Qed.


(* ------------------------------------------------------------------------- *)
(** *** Connections of a banked instance (map_singlebit_to_multibit_connections) *)

(** What source [i] contributes from its connection [conn]. *)
Definition banked_conn (i pin_offset : Z) (conn c : Connection) : Prop :=
  (is_data_pin (conn_pin_name conn) = true /\
   c = mkConn (conn_pin_name conn ++ to_string (i + pin_offset))%string
              (conn_net_name conn))
  \/ (is_data_pin (conn_pin_name conn) = false /\ i = 0%Z /\ c = conn).

Lemma singlebit_conns_In (i pin_offset : Z) (conns : list Connection) (c : Connection) :
  In c (singlebit_conns i pin_offset conns)
  <-> exists conn, In conn conns /\ banked_conn i pin_offset conn c.
Proof.
  unfold banked_conn. induction conns as [|conn rest IH]; simpl.
  - split; [intros []|intros (? & [] & _)].
  - destruct (is_data_pin (conn_pin_name conn)) eqn:Ed.
    + simpl. rewrite IH. split.
      * intros [<-|(conn' & Hin & H)].
        -- exists conn. split; [left; reflexivity|left; auto].
        -- exists conn'. split; [right; exact Hin|exact H].
      * intros (conn' & [<-|Hin] & H).
        -- destruct H as [[_ ->]|[H _]]; [left; reflexivity|congruence].
        -- right. exists conn'. auto.
    + destruct (i =? 0)%Z eqn:Ei.
      * apply Z.eqb_eq in Ei. simpl. rewrite IH. split.
        -- intros [<-|(conn' & Hin & H)].
           ++ exists conn. split; [left; reflexivity|right; auto].
           ++ exists conn'. split; [right; exact Hin|exact H].
        -- intros (conn' & [<-|Hin] & H).
           ++ destruct H as [[H _]|(_ & _ & ->)]; [congruence|left; reflexivity].
           ++ right. exists conn'. auto.
      * apply Z.eqb_neq in Ei. rewrite IH. split.
        -- intros (conn' & Hin & H). exists conn'. split; [right; exact Hin|exact H].
        -- intros (conn' & [<-|Hin] & H).
           ++ destruct H as [[H _]|(_ & H & _)]; [congruence|contradiction].
           ++ exists conn'. auto.
Qed.

Lemma map_singlebit_from_In (pin_offset target_bit_width : Z)
      (l : list Instance) (i : Z) (c : Connection) :
  In c (map_singlebit_from i pin_offset target_bit_width l)
  <-> exists k src conn,
        nth_error l k = Some src /\
        (i + Z.of_nat k < target_bit_width)%Z /\
        In conn (inst_connections src) /\
        banked_conn (i + Z.of_nat k) pin_offset conn c.
Proof.
  revert i. induction l as [|src0 rest IH]; intro i; simpl.
  - split; [intros []|intros ([|k] & ? & ? & H & _); discriminate H].
  - destruct (i <? target_bit_width)%Z eqn:Ei.
    + apply Z.ltb_lt in Ei. rewrite in_app_iff, singlebit_conns_In, IH. split.
      * intros [(conn & Hin & H)|(k & src & conn & Hn & Hk & Hin & H)].
        -- exists 0%nat, src0, conn. simpl. rewrite Z.add_0_r.
           repeat split; auto.
        -- exists (S k), src, conn. simpl nth_error.
           replace (i + Z.of_nat (S k))%Z with (i + 1 + Z.of_nat k)%Z by lia.
           repeat split; auto.
      * intros ([|k] & src & conn & Hn & Hk & Hin & H).
        -- simpl in Hn. injection Hn as <-. rewrite Z.add_0_r in H.
           left. exists conn. auto.
        -- simpl in Hn. right. exists k, src, conn.
           replace (i + 1 + Z.of_nat k)%Z with (i + Z.of_nat (S k))%Z by lia.
           repeat split; auto.
    + apply Z.ltb_ge in Ei. split; [intros []|].
      intros (k & src & conn & _ & Hk & _). lia.
Qed.

(** The pin offset [map_singlebit_to_multibit_connections] uses for a target
    template. *)
Definition pin_offset_of (template : option CellTemplate) : Z :=
  match template with
  | Some c => if contains "LSRDPQ" (ct_name c) then 1%Z else 0%Z
  | None => 0%Z
  end.

Lemma map_singlebit_to_multibit_connections_In
      (singlebit_instances : list Instance) (template : option CellTemplate)
      (target_bit_width : Z) (c : Connection) :
  In c (map_singlebit_to_multibit_connections singlebit_instances template
                                              target_bit_width)
  <-> exists k src conn,
        nth_error singlebit_instances k = Some src /\
        (Z.of_nat k < target_bit_width)%Z /\
        In conn (inst_connections src) /\
        banked_conn (Z.of_nat k) (pin_offset_of template) conn c.
Proof.
  unfold map_singlebit_to_multibit_connections.
  assert (E : (if match template with
                  | Some c0 => contains "LSRDPQ" (ct_name c0)
                  | None => false
                  end then 1%Z else 0%Z) = pin_offset_of template).
  { unfold pin_offset_of. destruct template; reflexivity. }
  rewrite E. rewrite map_singlebit_from_In. reflexivity.
Qed.

(** The connections a banked instance receives are exactly these: from each
    of the first [target_bit_width] sources every connection on [D], [Q] or
    [QN], renamed with the source's index (plus one for an LSRDPQ target) and
    on the same net; from the first source alone every other connection,
    unchanged.  Nothing of the other pins of the later sources, and nothing
    of the sources beyond the target width, reaches the banked instance. *)
Theorem map_singlebit_to_multibit_connections_exact
        (singlebit_instances : list Instance) (template : option CellTemplate)
        (target_bit_width : Z) (c : Connection) :
  In c (map_singlebit_to_multibit_connections singlebit_instances template
                                              target_bit_width)
  <-> exists k src conn,
        nth_error singlebit_instances k = Some src /\
        (Z.of_nat k < target_bit_width)%Z /\
        In conn (inst_connections src) /\
        ((is_data_pin (conn_pin_name conn) = true /\
          c = mkConn (conn_pin_name conn
                      ++ to_string (Z.of_nat k + pin_offset_of template))%string
                     (conn_net_name conn))
         \/ (is_data_pin (conn_pin_name conn) = false /\ k = 0%nat /\ c = conn)).
Proof.
  rewrite map_singlebit_to_multibit_connections_In. unfold banked_conn.
  split; intros (k & src & conn & Hn & Hk & Hin & H); exists k, src, conn;
    repeat split; auto;
    destruct H as [H|(H1 & H2 & H3)]; [left; exact H|right|left; exact H|right];
    repeat split; auto; lia.
Qed.


(* ------------------------------------------------------------------------- *)
(** *** Debanking followed by banking *)

Lemma map_singlebit_pin_to_multibit_data (p : string) (bit_index : Z) :
  is_data_pin p = true ->
  map_singlebit_pin_to_multibit p bit_index = (p ++ to_string bit_index)%string.
Proof.
  unfold is_data_pin, map_singlebit_pin_to_multibit. intro H.
  destruct (String.eqb_spec p "D") as [->|_]; [reflexivity|].
  destruct (String.eqb_spec p "Q") as [->|_]; [reflexivity|].
  destruct (String.eqb_spec p "QN") as [->|_]; [reflexivity|].
  discriminate H.
Qed.

Lemma map_multibit_to_singlebit_connections_In
      (multibit_instance : Instance) (pins : list Pin) (bit_index : Z)
      (pin : Pin) (conn : Connection) :
  In pin pins ->
  find_connection (inst_connections multibit_instance)
                  (map_singlebit_pin_to_multibit (pin_name pin) bit_index) = Some conn ->
  conn_net_name conn <> "" ->
  In (mkConn (pin_name pin) (conn_net_name conn))
     (map_multibit_to_singlebit_connections multibit_instance pins bit_index).
Proof.
  intros Hin Hf Hnet. induction pins as [|p rest IH]; [destruct Hin|].
  simpl. destruct Hin as [->|Hin].
  - rewrite Hf. destruct (String.eqb_spec (conn_net_name conn) "") as [E|_];
      [contradiction|]. simpl. left. reflexivity.
  - specialize (IH Hin).
    repeat match goal with
           | |- In _ (if ?c then _ else _) => destruct c
           | |- In _ (match ?c with Some _ => _ | None => _ end) => destruct c
           end;
      try exact IH; right; exact IH.
Qed.

Lemma nth_error_bit_range (bit_width b : Z) :
  (0 <= b < bit_width)%Z ->
  nth_error (bit_range bit_width) (Z.to_nat b) = Some b.
Proof.
  intro H. unfold bit_range. rewrite nth_error_map.
  rewrite nth_error_seq.
  destruct (Nat.ltb_spec (Z.to_nat b) (Z.to_nat bit_width)) as [_|Hge]; [|lia].
  simpl. f_equal. lia.
Qed.

(** Debanking and banking agree on the data pins.  Break a multi-bit
    instance into its fragments and bank the fragments, in order, into a
    target that is not an LSRDPQ cell: every net the instance had on a data
    pin [D<b>], [Q<b>] or [QN<b>] of a bit [b] below the target width, for a
    pin [D], [Q] or [QN] that the single-bit cell has, is on the same pin of
    the banked instance. *)
Theorem debank_rebank_data_nets
        (instance : Instance) (parent_cell_name : string)
        (parent_template : CellTemplate) (bit_width target_bit_width : Z)
        (target : option CellTemplate) (b : Z) (pin : Pin) (conn : Connection) :
  pin_offset_of target = 0%Z ->
  (0 <= b < bit_width)%Z ->
  (b < target_bit_width)%Z ->
  In pin (ct_pins parent_template) ->
  is_data_pin (pin_name pin) = true ->
  find_connection (inst_connections instance) (pin_name pin ++ to_string b)
  = Some conn ->
  conn_net_name conn <> "" ->
  In (mkConn (pin_name pin ++ to_string b) (conn_net_name conn))
     (map_singlebit_to_multibit_connections
        (map (debank_fragment instance parent_cell_name parent_template)
             (bit_range bit_width))
        target target_bit_width).
Proof.
  intros Hoff Hb Htw Hpin Hdata Hfind Hnet.
  apply map_singlebit_to_multibit_connections_In.
  exists (Z.to_nat b),
         (debank_fragment instance parent_cell_name parent_template b),
         (mkConn (pin_name pin) (conn_net_name conn)).
  split; [rewrite nth_error_map, nth_error_bit_range by exact Hb; reflexivity|].
  split; [lia|]. split.
  - simpl. apply map_multibit_to_singlebit_connections_In; auto.
    rewrite map_singlebit_pin_to_multibit_data by exact Hdata. exact Hfind.
  - left. simpl. split; [exact Hdata|].
    rewrite Hoff, Z.add_0_r, Z2Nat.id by lia. reflexivity.
Qed.

Lemma debank_rebank_data_nets_witness :
  In (mkConn "Q2" "b2")
     (map_singlebit_to_multibit_connections
        (map (debank_fragment ex_mb4 "FSDN_S" ex_cell_fsdn1) (bit_range 4))
        (Some ex_cell_fsdn4) 4).
Proof.
  apply (debank_rebank_data_nets ex_mb4 "FSDN_S" ex_cell_fsdn1 4 4
           (Some ex_cell_fsdn4) 2 (mkPin "Q" FF_DATA_OUTPUT) (mkConn "Q2" "b2")).
  - reflexivity.
  - lia.
  - lia.
  - simpl. right. left. reflexivity.
  - reflexivity.
  - reflexivity.
  - discriminate.
Defined.


(* ------------------------------------------------------------------------- *)
(** *** The history after debanking *)

Lemma record_debank_transformation_app (history : list TransformationRecord)
      (i : Instance) (frags : list Instance) (p : string) :
  record_debank_transformation history i frags p
  = (history ++ record_debank_transformation [] i frags p)%list.
Proof. unfold record_debank_transformation. reflexivity. Qed.

Lemma record_debank_transformation_ops (i : Instance) (frags : list Instance)
      (p : string) :
  Forall (fun r => rec_operation r = DEBANK)
         (record_debank_transformation [] i frags p).
Proof.
  unfold record_debank_transformation. apply Forall_app. split; [constructor|].
  apply Forall_map. apply Forall_forall. intros x _. reflexivity.
Qed.

Lemma record_debank_transformation_length (i : Instance) (frags : list Instance)
      (p : string) :
  length (record_debank_transformation [] i frags p) = length frags.
Proof.
  unfold record_debank_transformation. rewrite length_app, length_map. reflexivity.
Qed.

(** The records [record_debank_transformation] writes for one instance. *)
Definition debank_records (lib : CellLibrary) (i : Instance)
  : list TransformationRecord :=
  match inst_cell_template i, debank_parent lib i with
  | Some c, Some parent =>
      record_debank_transformation [] i (debank_fragments lib i)
                                   (ct_single_bit_degenerate c)
  | _, _ => []
  end.

(** A KEEP record of one of the named instances. *)
Definition keep_of (names : list string) (r : TransformationRecord) : bool :=
  Operation_eqb (rec_operation r) KEEP
  && existsb (String.eqb (rec_original_instance_name r)) names.

Lemma debank_records_DEBANK (lib : CellLibrary) (i : Instance) :
  Forall (fun r => rec_operation r = DEBANK) (debank_records lib i).
Proof.
  unfold debank_records.
  destruct (inst_cell_template i); [|constructor].
  destruct (debank_parent lib i); [|constructor].
  apply record_debank_transformation_ops.
Qed.

Lemma filter_all {A : Type} (f : A -> bool) (l : list A) :
  Forall (fun x => f x = true) l -> filter f l = l.
Proof.
  induction 1 as [|x l Hx _ IH]; simpl; [reflexivity|]. now rewrite Hx, IH.
Qed.

Lemma filter_filter {A : Type} (f g : A -> bool) (l : list A) :
  filter f (filter g l) = filter (fun x => g x && f x) l.
Proof.
  induction l as [|x l IH]; simpl; [reflexivity|].
  destruct (g x); simpl; [destruct (f x)|]; now rewrite IH.
Qed.

Lemma debank_step_history (lib : CellLibrary) (st : DebankState) (i : Instance) :
  db_history (debank_step lib st i)
  = if is_debanked lib i
    then (remove_keep_transformation_record (db_history st) (inst_name i)
          ++ debank_records lib i)%list
    else db_history st.
Proof.
  unfold debank_step, is_debanked, debank_records, debank_fragments.
  destruct (debank_parent lib i) as [p|] eqn:Ep.
  - destruct (debank_parent_template _ _ _ Ep) as [c Ec]. rewrite Ec.
    cbn [db_history]. rewrite record_debank_transformation_app.
    unfold remove_keep_transformation_record. rewrite filter_app. f_equal.
    apply filter_all. eapply Forall_impl; [|apply record_debank_transformation_ops].
    intros r Hr. cbv beta. rewrite Hr. reflexivity.
  - destruct (inst_cell_template i); reflexivity.
Qed.

Lemma debank_history_fold (lib : CellLibrary) (l : list Instance) :
  forall st,
    db_history (fold_left (debank_step lib) l st)
    = (filter (fun r => negb (keep_of (map inst_name (filter (is_debanked lib) l)) r))
              (db_history st)
       ++ flat_map (debank_records lib) l)%list.
Proof.
  induction l as [|i l IH]; intro st.
  - cbn [fold_left filter map flat_map]. rewrite app_nil_r. symmetry.
    apply filter_all. apply Forall_forall. intros r _. unfold keep_of.
    cbn [existsb]. now rewrite andb_false_r.
  - cbn [fold_left flat_map filter]. rewrite IH, debank_step_history. clear IH.
    destruct (is_debanked lib i) eqn:Ed.
    + unfold remove_keep_transformation_record.
      rewrite filter_app, filter_filter, <- app_assoc. f_equal.
      * apply filter_ext. intro r. unfold keep_of. cbn [map existsb].
        destruct (Operation_eqb (rec_operation r) KEEP); [|reflexivity].
        destruct (String.eqb (rec_original_instance_name r) (inst_name i));
          reflexivity.
      * f_equal. apply filter_all.
        eapply Forall_impl; [|apply debank_records_DEBANK].
        intros r Hr. cbv beta. unfold keep_of. rewrite Hr. reflexivity.
    + f_equal. unfold debank_records, is_debanked in *.
      destruct (debank_parent lib i); [discriminate|].
      destruct (inst_cell_template i); reflexivity.
Qed.

Lemma debank_records_length (lib : CellLibrary) (i : Instance) :
  length (debank_records lib i) = length (debank_fragments lib i).
Proof.
  unfold debank_records.
  destruct (inst_cell_template i) eqn:Et; [|unfold debank_fragments; now rewrite Et].
  destruct (debank_parent lib i) eqn:Ep;
    [|unfold debank_fragments; now rewrite Et, Ep].
  apply record_debank_transformation_length.
Qed.

(** The history after [perform_strategic_debanking]: the KEEP records of the
    debanked instances are gone, every other old record stays, in order, and
    behind them stand the DEBANK records, one per fragment, instance by
    instance in the order the instances were visited. *)
Theorem perform_strategic_debanking_history
        (lib : CellLibrary) (instances : InstanceTable)
        (history : list TransformationRecord) :
  let debanked := map inst_name (filter (is_debanked lib) (map snd instances)) in
  let added := flat_map (debank_records lib) (map snd instances) in
  snd (perform_strategic_debanking lib instances history)
  = (filter (fun r => negb (keep_of debanked r)) history ++ added)%list /\
  Forall (fun r => rec_operation r = DEBANK) added /\
  length added = length (flat_map (debank_fragments lib) (map snd instances)).
Proof.
  unfold perform_strategic_debanking. cbn [snd]. split; [|split].
  - rewrite debank_history_fold. reflexivity.
  - apply Forall_flat_map. apply Forall_forall. intros i _.
    apply debank_records_DEBANK.
  - induction (map snd instances) as [|i l IH]; [reflexivity|].
    cbn [flat_map]. rewrite !length_app, IH, debank_records_length. reflexivity.
Qed.


(* ------------------------------------------------------------------------- *)
(** *** Lookup after update in a name-keyed table *)

Lemma assoc_find_assoc_set {A : Type} (k k' : string) (v : A) (m : list (string * A)) :
  assoc_find k (assoc_set k' v m)
  = if String.eqb k k' then Some v else assoc_find k m.
Proof.
  induction m as [|[k0 v0] m IH]; simpl.
  - destruct (String.eqb k k'); reflexivity.
  - destruct (String.eqb_spec k' k0) as [->|Hne]; simpl.
    + destruct (String.eqb k k0); reflexivity.
    + destruct (String.eqb_spec k k0) as [->|Hne'].
      * destruct (String.eqb_spec k0 k'); [congruence|reflexivity].
      * exact IH.
Qed.

Lemma assoc_find_assoc_erase {A : Type} (k k' : string) (m : list (string * A)) :
  assoc_find k (assoc_erase k' m)
  = if String.eqb k k' then None else assoc_find k m.
Proof.
  induction m as [|[k0 v0] m IH]; simpl.
  - destruct (String.eqb k k'); reflexivity.
  - destruct (String.eqb_spec k' k0) as [->|Hne]; simpl.
    + rewrite IH. destruct (String.eqb k k0); reflexivity.
    + destruct (String.eqb_spec k k0) as [->|Hne'].
      * destruct (String.eqb_spec k0 k'); [congruence|reflexivity].
      * exact IH.
Qed.

(* ------------------------------------------------------------------------- *)
(** *** The optimal cell of a group (calculate_optimal_ff_for_instance_groups) *)

Section OptimalCell.

Variable get_timing_repr : string -> Q.
Variable cell_library : CellLibrary.
Variable objective_weights : ObjectiveWeights.

Local Abbreviation cscore := (cache_score get_timing_repr cell_library objective_weights).
Local Abbreviation cscan := (cache_scan get_timing_repr cell_library objective_weights).

(** [cell] has the least score among the scored cells of [names]. *)
Definition least_score (bit_width : Z) (names : list string) (cell : string) : Prop :=
  exists q,
    cscore bit_width cell = Some q /\
    Forall (fun n => forall q', cscore bit_width n = Some q' -> q <= q') names.

Lemma cache_scan_cons (bit_width : Z) (cell_name : string) (rest : list string)
      (best_cell : string) (best_score : Score) :
  cscan bit_width (cell_name :: rest) best_cell best_score
  = match cscore bit_width cell_name with
    | None => cscan bit_width rest best_cell best_score
    | Some score =>
        if score_ltb (Fin score) best_score
        then cscan bit_width rest cell_name (Fin score)
        else cscan bit_width rest best_cell best_score
    end.
Proof. reflexivity. Qed.

Lemma cache_scan_spec (bit_width : Z) (names : list string) :
  forall best_cell best_score,
    (cscan bit_width names best_cell best_score = (best_cell, best_score) /\
     Forall (fun n => forall q', cscore bit_width n = Some q' ->
                                 score_le best_score (Fin q')) names)
    \/
    (exists cell q,
        cscan bit_width names best_cell best_score = (cell, Fin q) /\
        In cell names /\
        cscore bit_width cell = Some q /\
        score_lt (Fin q) best_score /\
        Forall (fun n => forall q', cscore bit_width n = Some q' -> q <= q') names).
Proof.
  induction names as [|n rest IH]; intros best_cell best_score.
  - left. split; [reflexivity|constructor].
  - rewrite cache_scan_cons. destruct (cscore bit_width n) as [s|] eqn:Es.
    + destruct (score_ltb (Fin s) best_score) eqn:Elt.
      * apply score_ltb_lt in Elt. right.
        destruct (IH n (Fin s)) as [[Hres Hall]|(cell & q & Hres & Hin & Hq & Hlt & Hall)].
        -- exists n, s. split; [exact Hres|]. split; [left; reflexivity|].
           split; [exact Es|]. split; [exact Elt|].
           constructor; [|exact Hall].
           intros q' Hq'. rewrite Es in Hq'. injection Hq' as <-. apply Qle_refl.
        -- exists cell, q. split; [exact Hres|]. split; [right; exact Hin|].
           split; [exact Hq|]. unfold score_lt in Hlt.
           split; [eapply score_lt_trans; eassumption|].
           constructor; [|exact Hall].
           intros q' Hq'. rewrite Es in Hq'. injection Hq' as <-.
           apply Qlt_le_weak. exact Hlt.
      * apply score_ltb_ge in Elt.
        destruct (IH best_cell best_score)
          as [[Hres Hall]|(cell & q & Hres & Hin & Hq & Hlt & Hall)].
        -- left. split; [exact Hres|]. constructor; [|exact Hall].
           intros q' Hq'. rewrite Es in Hq'. injection Hq' as <-. exact Elt.
        -- right. exists cell, q. split; [exact Hres|]. split; [right; exact Hin|].
           split; [exact Hq|]. split; [exact Hlt|].
           constructor; [|exact Hall].
           intros q' Hq'. rewrite Es in Hq'. injection Hq' as <-.
           apply Qlt_le_weak. eapply score_lt_le_trans; eassumption.
    + destruct (IH best_cell best_score)
        as [[Hres Hall]|(cell & q & Hres & Hin & Hq & Hlt & Hall)].
      * left. split; [exact Hres|]. constructor; [|exact Hall].
        intros q' Hq'. rewrite Es in Hq'. discriminate.
      * right. exists cell, q. split; [exact Hres|]. split; [right; exact Hin|].
        split; [exact Hq|]. split; [exact Hlt|].
        constructor; [|exact Hall].
        intros q' Hq'. rewrite Es in Hq'. discriminate.
Qed.

Variable hierarchical_ff_groups : list HierGroup.

Local Abbreviation optimal_from :=
  (calculate_optimal_ff_for_instance_groups_from get_timing_repr cell_library
                                                objective_weights).

(** An entry of the cache names a least-score cell of a group with its key. *)
Definition optimal_entry (groups : list HierGroup) (key cell : string) : Prop :=
  exists g,
    In g groups /\ hier_key g = key /\
    In cell (hg_cell_names g) /\
    least_score (hg_bit_width g) (hg_cell_names g) cell.

Lemma optimal_from_spec (all : list HierGroup) (groups : list HierGroup) :
  forall optimal,
    (forall g, In g groups -> In g all) ->
    (forall key cell, assoc_find key optimal = Some cell -> optimal_entry all key cell) ->
    forall key cell,
      assoc_find key (optimal_from groups optimal) = Some cell ->
      optimal_entry all key cell.
Proof.
  induction groups as [|g rest IH]; intros optimal Hsub Hopt key cell; [apply Hopt|].
  cbn [calculate_optimal_ff_for_instance_groups_from].
  destruct (cscan (hg_bit_width g) (hg_cell_names g) "" DblMax) as [best s] eqn:Escan.
  apply IH; [intros g' Hg'; apply Hsub; right; exact Hg'|].
  destruct (String.eqb best "") eqn:Eb; [exact Hopt|].
  intros key' cell' Hfind. rewrite assoc_find_assoc_set in Hfind.
  destruct (String.eqb_spec key' (hier_key g)) as [->|Hne]; [|apply Hopt; exact Hfind].
  injection Hfind as <-.
  destruct (cache_scan_spec (hg_bit_width g) (hg_cell_names g) "" DblMax)
    as [[Hres _]|(c & q & Hres & Hin & Hq & _ & Hall)].
  - rewrite Escan in Hres. injection Hres as -> _. discriminate Eb.
  - rewrite Escan in Hres. injection Hres as -> _.
    exists g. split; [apply Hsub; left; reflexivity|]. split; [reflexivity|].
    split; [exact Hin|]. exists q. split; [exact Hq|exact Hall].
Qed.

(** Every entry of the optimal-cell cache names a cell of a group that has
    the entry's key, a flip-flop of the library, whose score (the cached
    formula, at the group's bit-width) is the least among the cells of that
    group that have a score. *)
Theorem calculate_optimal_ff_for_instance_groups_least (key cell : string) :
  assoc_find key
    (calculate_optimal_ff_for_instance_groups get_timing_repr cell_library
       objective_weights hierarchical_ff_groups) = Some cell ->
  exists g,
    In g hierarchical_ff_groups /\ hier_key g = key /\
    In cell (hg_cell_names g) /\
    exists q,
      cache_score get_timing_repr cell_library objective_weights
                  (hg_bit_width g) cell = Some q /\
      Forall (fun n => forall q',
                cache_score get_timing_repr cell_library objective_weights
                            (hg_bit_width g) n = Some q' -> q <= q')
             (hg_cell_names g).
Proof.
  intro H. unfold calculate_optimal_ff_for_instance_groups in H.
  apply (optimal_from_spec hierarchical_ff_groups) in H; [exact H|auto|].
  intros k c Hk. discriminate Hk.
Qed.

End OptimalCell.

Lemma calculate_optimal_ff_for_instance_groups_least_witness :
  exists g,
    In g ex_two_cell_groups /\ hier_key g = "FALLING|D_Q_QN_CK_SI_SE|1bit" /\
    In "FSDN_T" (hg_cell_names g) /\
    exists q,
      cache_score ex_timing ex_two_cell_library ex_weights (hg_bit_width g) "FSDN_T"
      = Some q /\
      Forall (fun n => forall q',
                cache_score ex_timing ex_two_cell_library ex_weights
                            (hg_bit_width g) n = Some q' -> q <= q')
             (hg_cell_names g).
Proof.
  apply (calculate_optimal_ff_for_instance_groups_least ex_timing ex_two_cell_library
           ex_weights ex_two_cell_groups).
  vm_compute. reflexivity.
Defined.


(* ------------------------------------------------------------------------- *)
(** *** What the three substitution stages change *)

(** [i'] is [i] up to the cell template and the best-alternative record. *)
Definition same_but_cell (i i' : Instance) : Prop :=
  inst_name i' = inst_name i /\
  inst_cell_type i' = inst_cell_type i /\
  inst_module_name i' = inst_module_name i /\
  inst_banking_type i' = inst_banking_type i /\
  inst_cluster_id i' = inst_cluster_id i /\
  inst_position_x i' = inst_position_x i /\
  inst_position_y i' = inst_position_y i /\
  inst_placement_status i' = inst_placement_status i /\
  inst_connections i' = inst_connections i /\
  inst_x_new i' = inst_x_new i /\
  inst_y_new i' = inst_y_new i /\
  inst_weight i' = inst_weight i.

Lemma same_but_cell_refl (i : Instance) : same_but_cell i i.
Proof. unfold same_but_cell. repeat split. Qed.

Lemma same_but_cell_trans (a b c : Instance) :
  same_but_cell a b -> same_but_cell b c -> same_but_cell a c.
Proof.
  unfold same_but_cell. intros H1 H2.
  decompose [and] H1. decompose [and] H2. repeat split; congruence.
Qed.

(** A relation between the entry of a name before and after. *)
Definition entry_rel (R : Instance -> Instance -> Prop) (t t' : InstanceTable)
           (n : string) : Prop :=
  match assoc_find n t, assoc_find n t' with
  | Some i, Some i' => R i i'
  | None, None => True
  | _, _ => False
  end.

Lemma keys_assoc_set {A : Type} (k : string) (v v0 : A) (m : list (string * A)) :
  assoc_find k m = Some v0 -> keys (assoc_set k v m) = keys m.
Proof.
  unfold keys. induction m as [|[k0 w] m IH]; simpl; [discriminate|].
  destruct (String.eqb_spec k k0) as [->|Hne]; simpl; [reflexivity|].
  intro H. now rewrite IH.
Qed.

Section ApplyToNames.

Variable R : Instance -> Instance -> Prop.
Hypothesis R_refl : forall i, R i i.
Hypothesis R_trans : forall a b c, R a b -> R b c -> R a c.
Variable f : Instance -> Instance.
Hypothesis f_R : forall i, R i (f i).

Lemma entry_rel_refl (t : InstanceTable) (n : string) : entry_rel R t t n.
Proof. unfold entry_rel. destruct (assoc_find n t); auto. Qed.

Lemma entry_rel_trans (t1 t2 t3 : InstanceTable) (n : string) :
  entry_rel R t1 t2 n -> entry_rel R t2 t3 n -> entry_rel R t1 t3 n.
Proof.
  unfold entry_rel.
  destruct (assoc_find n t1), (assoc_find n t2), (assoc_find n t3);
    try tauto. apply R_trans.
Qed.

Lemma apply_to_names_rel (names : list string) :
  forall t, keys (apply_to_names f names t) = keys t /\
            forall n, entry_rel R t (apply_to_names f names t) n.
Proof.
  induction names as [|m rest IH]; intro t; simpl.
  - split; [reflexivity|apply entry_rel_refl].
  - destruct (assoc_find m t) as [i|] eqn:Em; [|apply IH].
    destruct (IH (assoc_set m (f i) t)) as [Hk Hr]. split.
    + rewrite Hk. eapply keys_assoc_set. exact Em.
    + intro n. eapply entry_rel_trans; [|apply Hr].
      unfold entry_rel. rewrite assoc_find_assoc_set.
      destruct (String.eqb_spec n m) as [->|Hne].
      * rewrite Em. apply f_R.
      * destruct (assoc_find n t); auto.
Qed.

End ApplyToNames.

Section SubstitutionStages.

Variable get_timing_repr : string -> Q.
Variable cell_library : CellLibrary.
Variable objective_weights : ObjectiveWeights.
Variable hierarchical_ff_groups : list HierGroup.
Variable optimal_ff_for_groups : list (string * string).

Local Abbreviation score := (calculate_ff_score get_timing_repr cell_library objective_weights).
Local Abbreviation upd := (update_best_ff_record get_timing_repr cell_library objective_weights).
Local Abbreviation stage1 :=
  (stage1_instance get_timing_repr cell_library objective_weights
                   hierarchical_ff_groups optimal_ff_for_groups).
Local Abbreviation stage2 :=
  (stage2_instance get_timing_repr cell_library objective_weights optimal_ff_for_groups).
Local Abbreviation stage3 :=
  (stage3_instance get_timing_repr cell_library objective_weights).

Lemma same_but_cell_update (c : CellTemplate) (i : Instance) (n : string) :
  same_but_cell i (upd (set_cell_template c i) n).
Proof.
  unfold update_best_ff_record. destruct (score_ltb _ _); destruct i;
    unfold same_but_cell; simpl; repeat split.
Qed.

Ltac stage_cases :=
  repeat match goal with
         | |- context [if ?c then _ else _] => destruct c
         | |- context [match ?x with Some _ => _ | None => _ end] => destruct x
         end.

Lemma stage1_same (i : Instance) : same_but_cell i (stage1 i).
Proof.
  unfold stage1_instance. stage_cases;
    try apply same_but_cell_refl; apply same_but_cell_update.
Qed.

Lemma stage2_same (i : Instance) : same_but_cell i (stage2 i).
Proof.
  unfold stage2_instance. stage_cases;
    try apply same_but_cell_refl; apply same_but_cell_update.
Qed.

Lemma stage3_same (fsdn lsrdpq : bool * Score * string) (i : Instance) :
  same_but_cell i (stage3 fsdn lsrdpq i).
Proof.
  unfold stage3_instance. destruct fsdn as [[a1 s1] n1], lsrdpq as [[a2 s2] n2].
  stage_cases; try apply same_but_cell_refl; apply same_but_cell_update.
Qed.

(** The three substitution stages leave the instance table with the keys it
    had, in their order, and change nothing of an instance but its cell
    template and its best-alternative record: name, cell-type string, module,
    banking type, cluster id, position, placement status and connections are
    as before. *)
Theorem execute_three_stage_substitution_changes_cells_only
        (ff_instance_groups : list (string * list string))
        (instances : InstanceTable) (history : list TransformationRecord) :
  let result :=
    fst (execute_three_stage_substitution get_timing_repr cell_library
           objective_weights hierarchical_ff_groups optimal_ff_for_groups
           ff_instance_groups instances history) in
  keys result = keys instances /\
  forall n, entry_rel same_but_cell instances result n.
Proof.
  unfold execute_three_stage_substitution. cbn [fst].
  unfold execute_stage3_substitution, execute_stage2_substitution,
    execute_stage1_substitution.
  set (names := group_members ff_instance_groups).
  destruct (apply_to_names_rel same_but_cell same_but_cell_refl same_but_cell_trans
              stage1 stage1_same names instances) as [K1 R1].
  set (i1 := apply_to_names stage1 names instances) in *.
  destruct (apply_to_names_rel same_but_cell same_but_cell_refl same_but_cell_trans
              stage2 stage2_same names i1) as [K2 R2].
  set (i2 := apply_to_names stage2 names i1) in *.
  match goal with
  | |- context [if ?c then i2 else apply_to_names ?g names i2] =>
      destruct (apply_to_names_rel same_but_cell same_but_cell_refl
                  same_but_cell_trans g (stage3_same _ _) names i2) as [K3 R3];
      destruct c
  end.
  - split; [congruence|]. intro n.
    eapply entry_rel_trans; [apply same_but_cell_trans|apply R1|apply R2].
  - split; [congruence|]. intro n.
    eapply entry_rel_trans; [apply same_but_cell_trans| |apply R3].
    eapply entry_rel_trans; [apply same_but_cell_trans|apply R1|apply R2].
Qed.

End SubstitutionStages.


Lemma assoc_find_In {A : Type} (k : string) (v : A) (m : list (string * A)) :
  assoc_find k m = Some v -> In (k, v) m.
Proof.
  induction m as [|[k0 v0] m IH]; simpl; [discriminate|].
  destruct (String.eqb_spec k k0) as [->|Hne].
  - intro H. injection H as ->. left. reflexivity.
  - intro H. right. apply IH. exact H.
Qed.

Lemma apply_to_names_Forall (P : Instance -> Prop) (f : Instance -> Instance)
      (names : list string) :
  (forall i, P i -> P (f i)) ->
  forall t,
    (forall k i, In (k, i) t -> P i) ->
    forall k i, In (k, i) (apply_to_names f names t) -> P i.
Proof.
  intro Hf. induction names as [|m rest IH]; intros t Ht; simpl; [exact Ht|].
  destruct (assoc_find m t) as [i0|] eqn:Em; [|apply IH; exact Ht].
  apply IH. intros k i Hin. apply assoc_set_In in Hin. destruct Hin as [E|Hin].
  - injection E as -> ->. apply Hf. apply (Ht m). apply assoc_find_In. exact Em.
  - apply (Ht k). exact Hin.
Qed.

Section SubstitutionInvariants.

Variable get_timing_repr : string -> Q.
Variable cell_library : CellLibrary.
Variable objective_weights : ObjectiveWeights.
Variable hierarchical_ff_groups : list HierGroup.
Variable optimal_ff_for_groups : list (string * string).

Local Abbreviation score := (calculate_ff_score get_timing_repr cell_library objective_weights).
Local Abbreviation upd := (update_best_ff_record get_timing_repr cell_library objective_weights).
Local Abbreviation consistent :=
  (best_ff_consistent get_timing_repr cell_library objective_weights).
Local Abbreviation stage1 :=
  (stage1_instance get_timing_repr cell_library objective_weights
                   hierarchical_ff_groups optimal_ff_for_groups).
Local Abbreviation stage2 :=
  (stage2_instance get_timing_repr cell_library objective_weights optimal_ff_for_groups).
Local Abbreviation stage3 :=
  (stage3_instance get_timing_repr cell_library objective_weights).

Ltac stage_cases :=
  repeat match goal with
         | |- context [if ?c then _ else _] => destruct c
         | |- context [match ?x with Some _ => _ | None => _ end] => destruct x
         end.

Lemma update_consistent (c : CellTemplate) (i : Instance) (n : string) :
  consistent i -> consistent (upd (set_cell_template c i) n).
Proof.
  intro H. apply update_best_ff_record_consistent.
  apply set_cell_template_consistent. exact H.
Qed.

Lemma stage1_consistent (i : Instance) : consistent i -> consistent (stage1 i).
Proof.
  intro H. unfold stage1_instance. stage_cases; try exact H.
  apply update_consistent. exact H.
Qed.

Lemma stage2_consistent (i : Instance) : consistent i -> consistent (stage2 i).
Proof.
  intro H. unfold stage2_instance. stage_cases; try exact H.
  apply update_consistent. exact H.
Qed.

Lemma stage3_consistent (fsdn lsrdpq : bool * Score * string) (i : Instance) :
  consistent i -> consistent (stage3 fsdn lsrdpq i).
Proof.
  intro H. unfold stage3_instance.
  destruct fsdn as [[a1 s1] n1], lsrdpq as [[a2 s2] n2].
  stage_cases; try exact H; apply update_consistent; exact H.
Qed.

(** The three substitution stages keep the best-alternative records sound:
    if every instance either has no recorded alternative or carries, as its
    recorded best score, the score of the recorded alternative, the same
    holds of every instance afterwards. *)
Theorem execute_three_stage_substitution_best_ff_consistent
        (ff_instance_groups : list (string * list string))
        (instances : InstanceTable) (history : list TransformationRecord)
        (k : string) (i : Instance) :
  (forall k0 i0, In (k0, i0) instances ->
                 best_ff_consistent get_timing_repr cell_library objective_weights i0) ->
  In (k, i)
     (fst (execute_three_stage_substitution get_timing_repr cell_library
             objective_weights hierarchical_ff_groups optimal_ff_for_groups
             ff_instance_groups instances history)) ->
  best_ff_consistent get_timing_repr cell_library objective_weights i.
Proof.
  intros H0. unfold execute_three_stage_substitution. cbn [fst].
  unfold execute_stage3_substitution, execute_stage2_substitution,
    execute_stage1_substitution.
  set (names := group_members ff_instance_groups).
  pose proof (apply_to_names_Forall _ stage1 names stage1_consistent instances H0)
    as H1.
  set (i1 := apply_to_names stage1 names instances) in *.
  pose proof (apply_to_names_Forall _ stage2 names stage2_consistent i1 H1) as H2.
  set (i2 := apply_to_names stage2 names i1) in *.
  match goal with
  | |- In _ (if ?c then i2 else apply_to_names ?g names i2) -> _ =>
      destruct c; [apply H2|]
  end.
  apply (apply_to_names_Forall consistent); [apply stage3_consistent|exact H2].
Qed.

(** The cell library files every cell under its own name. *)
Definition library_keyed_by_name (lib : CellLibrary) : bool :=
  forallb (fun p => String.eqb (ct_name (snd p)) (fst p)) lib.

Lemma library_keyed_by_name_find (lib : CellLibrary) (k : string) (c : CellTemplate) :
  library_keyed_by_name lib = true -> assoc_find k lib = Some c -> ct_name c = k.
Proof.
  unfold library_keyed_by_name. intros H Hf. apply assoc_find_In in Hf.
  rewrite forallb_forall in H. specialize (H _ Hf). simpl in H.
  apply String.eqb_eq. exact H.
Qed.

Lemma score_le_refl (s : Score) : score_le s s.
Proof. destruct s; simpl; [apply Qle_refl|exact I]. Qed.

Lemma score_le_trans (a b c : Score) : score_le a b -> score_le b c -> score_le a c.
Proof.
  destruct a, b, c; simpl; try tauto. apply Qle_trans.
Qed.

(** The current cell of [i'] scores no worse than the current cell of [i]. *)
Definition no_worse (i i' : Instance) : Prop :=
  score_le (score (template_name i')) (score (template_name i)).

Lemma template_name_update (c : CellTemplate) (i : Instance) (n : string) :
  template_name (upd (set_cell_template c i) n) = ct_name c.
Proof.
  unfold update_best_ff_record. destruct (score_ltb _ _); reflexivity.
Qed.

Lemma stage2_no_worse (i : Instance) :
  library_keyed_by_name cell_library = true -> no_worse i (stage2 i).
Proof.
  intro Hlib. unfold no_worse, stage2_instance.
  destruct (String.eqb _ ""); [apply score_le_refl|].
  destruct (assoc_find _ optimal_ff_for_groups) as [optimal_ff_name|];
    [|apply score_le_refl].
  destruct (score_ltb (score optimal_ff_name) (score (template_name i))) eqn:Elt;
    [|apply score_le_refl].
  destruct (assoc_find optimal_ff_name cell_library) as [optimal_cell|] eqn:Ef;
    [|apply score_le_refl].
  rewrite template_name_update.
  rewrite (library_keyed_by_name_find _ _ _ Hlib Ef).
  apply score_lt_le. apply score_ltb_lt. exact Elt.
Qed.

(** Stage 2 never makes an instance worse: in a library that files every
    cell under its own name, the cell an instance has after stage 2 scores,
    under [calculate_ff_score], no higher than the cell it had before. *)
Theorem execute_stage2_substitution_no_worse
        (ff_instance_groups : list (string * list string))
        (instances : InstanceTable) (n : string) :
  library_keyed_by_name cell_library = true ->
  entry_rel no_worse instances
            (execute_stage2_substitution get_timing_repr cell_library
               objective_weights optimal_ff_for_groups ff_instance_groups instances)
            n.
Proof.
  intro Hlib. unfold execute_stage2_substitution.
  apply (apply_to_names_rel no_worse).
  - intro i. apply score_le_refl.
  - intros a b c H1 H2. unfold no_worse in *. eapply score_le_trans; eassumption.
  - intro i. apply stage2_no_worse. exact Hlib.
Qed.

End SubstitutionInvariants.

Lemma execute_three_stage_substitution_best_ff_consistent_witness :
  best_ff_consistent ex_timing ex_library ex_weights ex_u1_substituted.
Proof.
  apply (execute_three_stage_substitution_best_ff_consistent ex_timing ex_library
           ex_weights ex_hier_groups ex_optimal ex_subst_groups ex_subst_instances []
           "u1" ex_u1_substituted).
  - intros k0 i0 [H|[]]. inversion H; subst. left. reflexivity.
  - vm_compute. left. reflexivity.
Defined.

Lemma execute_stage2_substitution_no_worse_witness :
  entry_rel (no_worse ex_timing ex_library ex_weights) ex_subst_instances
            (execute_stage2_substitution ex_timing ex_library ex_weights ex_optimal
               ex_subst_groups ex_subst_instances)
            "u1".
Proof.
  apply (execute_stage2_substitution_no_worse ex_timing ex_library ex_weights
           ex_optimal ex_subst_groups ex_subst_instances "u1").
  reflexivity.
Defined.


(* ------------------------------------------------------------------------- *)
(** *** SUBSTITUTE records (record_final_substitution_operations) *)

(** A record the end of the substitution stage may write for an entry of
    [l]: a flip-flop whose cell differs from the one noted before stage 1. *)
Definition substitute_record_of (original_cell_types : list (string * string))
           (l : InstanceTable) (r : TransformationRecord) : Prop :=
  rec_operation r = SUBSTITUTE /\
  rec_stage r = "SUBSTITUTE" /\
  rec_result_instance_name r = rec_original_instance_name r /\
  rec_original_cell_type r <> rec_result_cell_type r /\
  exists k i,
    In (k, i) l /\ is_flip_flop i = true /\
    rec_original_instance_name r = inst_name i /\
    rec_result_cell_type r = template_name i /\
    assoc_find (inst_name i) original_cell_types = Some (rec_original_cell_type r).

Lemma substitute_record_of_mono (oct : list (string * string)) (l l' : InstanceTable)
      (r : TransformationRecord) :
  (forall p, In p l -> In p l') ->
  substitute_record_of oct l r -> substitute_record_of oct l' r.
Proof.
  intros Hsub (H1 & H2 & H3 & H4 & k & i & Hin & H5).
  repeat split; auto. exists k, i. split; [apply Hsub; exact Hin|exact H5].
Qed.

Lemma record_final_substitution_operations_from_spec
      (oct : list (string * string)) (instances : InstanceTable) (l : InstanceTable) :
  forall history,
  exists added,
    record_final_substitution_operations_from oct instances l history
    = (history ++ added)%list /\
    Forall (substitute_record_of oct l) added.
Proof.
  induction l as [|[k i] rest IH]; intro history.
  - exists []. rewrite app_nil_r. split; [reflexivity|constructor].
  - cbn [record_final_substitution_operations_from].
    assert (Hweak : forall h,
               exists added,
                 record_final_substitution_operations_from oct instances rest h
                 = (h ++ added)%list /\
                 Forall (substitute_record_of oct ((k, i) :: rest)) added).
    { intro h. destruct (IH h) as (added & E & F). exists added. split; [exact E|].
      eapply Forall_impl; [|exact F]. intros r Hr.
      eapply substitute_record_of_mono; [|exact Hr]. intros p Hp. right. exact Hp. }
    destruct (is_flip_flop i) eqn:Eff; cbn [negb]; [|apply Hweak].
    destruct (assoc_find (inst_name i) oct) as [original_cell_name|] eqn:Eo;
      [|apply Hweak].
    destruct (String.eqb_spec original_cell_name (template_name i)) as [Heq|Hne];
      cbn [negb]; [apply Hweak|].
    unfold record_substitute_transformation.
    destruct (assoc_find (inst_name i) instances) as [instance|]; [|apply Hweak].
    match goal with
    | |- context [record_final_substitution_operations_from _ _ _ (history ++ [?r])] =>
        destruct (Hweak (history ++ [r])%list) as (added & E & F);
        exists (r :: added)
    end.
    split; [rewrite E, <- app_assoc; reflexivity|].
    constructor; [|exact F].
    unfold substitute_record_of. cbn [rec_operation rec_stage rec_result_instance_name
      rec_original_instance_name rec_original_cell_type rec_result_cell_type].
    repeat split; auto.
    exists k, i. repeat split; auto. left. reflexivity.
Qed.

(** The substitution stage appends to the history nothing but SUBSTITUTE
    records, one for an instance and itself, each for a flip-flop of the
    final table whose final cell name differs from the cell name noted for it
    before stage 1; the record carries these two names. *)
Theorem execute_three_stage_substitution_records
        (get_timing_repr : string -> Q) (cell_library : CellLibrary)
        (objective_weights : ObjectiveWeights)
        (hierarchical_ff_groups : list HierGroup)
        (optimal_ff_for_groups : list (string * string))
        (ff_instance_groups : list (string * list string))
        (instances : InstanceTable) (history : list TransformationRecord) :
  let result :=
    execute_three_stage_substitution get_timing_repr cell_library objective_weights
      hierarchical_ff_groups optimal_ff_for_groups ff_instance_groups instances
      history in
  exists added,
    snd result = (history ++ added)%list /\
    Forall (substitute_record_of (record_original_cell_types instances [])
                                 (fst result)) added.
Proof.
  unfold execute_three_stage_substitution. cbn [fst snd].
  apply record_final_substitution_operations_from_spec.
Qed.


(* ------------------------------------------------------------------------- *)
(** *** The tracking system after initialization *)

(** The record [record_keep_transformation] writes. *)
Definition keep_record (original_instance : Instance) : TransformationRecord :=
  mkRec (inst_name original_instance) (inst_name original_instance)
        (fold_left (fun m conn => smap_set (conn_pin_name conn) (conn_pin_name conn) m)
                   (inst_connections original_instance) [])
        KEEP (inst_cell_type original_instance) (inst_cell_type original_instance)
        "KEEP" [] (inst_position_x original_instance)
        (inst_position_y original_instance) (inst_name original_instance).

Lemma record_keep_transformation_app (history : list TransformationRecord)
      (i : Instance) :
  record_keep_transformation history i = (history ++ [keep_record i])%list.
Proof. reflexivity. Qed.

Lemma keep_fold (l : InstanceTable) :
  forall h,
    fold_left (fun h p => if is_flip_flop (snd p)
                          then record_keep_transformation h (snd p) else h) l h
    = (h ++ map keep_record (filter is_flip_flop (map snd l)))%list.
Proof.
  induction l as [|[k i] l IH]; intro h; cbn [fold_left map filter snd].
  - now rewrite app_nil_r.
  - rewrite IH. destruct (is_flip_flop i); [|reflexivity].
    rewrite record_keep_transformation_app, <- app_assoc. reflexivity.
Qed.

(** A record mentions a name as its original or as its result. *)
Definition mentions (n : string) (r : TransformationRecord) : bool :=
  String.eqb (rec_original_instance_name r) n
  || String.eqb (rec_result_instance_name r) n.

Lemma latest_record_cons (n : string) (r : TransformationRecord)
      (rest : list TransformationRecord) (found : option TransformationRecord) :
  latest_record n (r :: rest) found
  = if mentions n r then latest_record n rest (Some r) else latest_record n rest found.
Proof. reflexivity. Qed.

Lemma latest_record_sat (P : TransformationRecord -> Prop) (n : string)
      (history : list TransformationRecord) :
  Forall (fun r => mentions n r = true -> P r) history ->
  forall found r,
    (forall r0, found = Some r0 -> P r0) ->
    latest_record n history found = Some r -> P r.
Proof.
  induction 1 as [|r0 rest Hr0 _ IH]; intros found r Hfound.
  - simpl. apply Hfound.
  - rewrite latest_record_cons. destruct (mentions n r0) eqn:Em.
    + apply IH. intros r1 E. injection E as <-. apply Hr0. reflexivity.
    + apply IH. exact Hfound.
Qed.

Lemma latest_record_found (n : string) (history : list TransformationRecord)
      (r : TransformationRecord) :
  In r history -> mentions n r = true ->
  forall found, latest_record n history found <> None.
Proof.
  induction history as [|r0 rest IH]; intros Hin Hm found; [destruct Hin|].
  rewrite latest_record_cons. destruct Hin as [->|Hin].
  - rewrite Hm. clear. revert r. induction rest as [|r1 rest IH]; intro r.
    + discriminate.
    + rewrite latest_record_cons. destruct (mentions n r1); apply IH.
  - destruct (mentions n r0); apply IH; assumption.
Qed.

Lemma is_flip_flop_set_cluster_id (c : string) (i : Instance) :
  is_flip_flop (set_cluster_id c i) = is_flip_flop i.
Proof. reflexivity. Qed.

(** The instance table [initialize_transformation_tracking] leaves. *)
Definition with_cluster_ids (instances : InstanceTable) : InstanceTable :=
  map (fun p => if is_flip_flop (snd p)
                then (fst p, set_cluster_id (inst_name (snd p)) (snd p)) else p)
      instances.

Lemma with_cluster_ids_flip_flops (instances : InstanceTable) :
  filter is_flip_flop (map snd (with_cluster_ids instances))
  = map (fun i => set_cluster_id (inst_name i) i)
        (filter is_flip_flop (map snd instances)).
Proof.
  unfold with_cluster_ids. induction instances as [|[k i] l IH]; [reflexivity|].
  cbn [map filter snd fst]. destruct (is_flip_flop i) eqn:E.
  - cbn [snd]. rewrite is_flip_flop_set_cluster_id, E. cbn [map]. now rewrite IH.
  - cbn [snd]. rewrite E. exact IH.
Qed.

(** After [initialize_transformation_tracking] the history is one KEEP
    record per flip-flop of the design, in the order of the instance table,
    each naming its flip-flop as original, as result and as cluster; every
    flip-flop has its own name as cluster id and is otherwise unchanged, and
    the other instances are untouched. *)
Theorem initialize_transformation_tracking_history (db : DesignDatabase) :
  let db' := initialize_transformation_tracking db in
  let flip_flops := filter is_flip_flop (map snd (db_instances db)) in
  db_transformation_history db' = map keep_record flip_flops /\
  Forall (fun r => rec_operation r = KEEP /\
                   rec_result_instance_name r = rec_original_instance_name r /\
                   rec_cluster_id r = rec_original_instance_name r)
         (db_transformation_history db') /\
  map rec_original_instance_name (db_transformation_history db')
  = map inst_name flip_flops /\
  db_instances db'
  = map (fun p => if is_flip_flop (snd p)
                  then (fst p, set_cluster_id (inst_name (snd p)) (snd p)) else p)
        (db_instances db).
Proof.
  unfold initialize_transformation_tracking. cbn [capture with_state
    db_transformation_history db_instances].
  fold (with_cluster_ids (db_instances db)).
  rewrite keep_fold, with_cluster_ids_flip_flops. cbn [app].
  rewrite map_map.
  assert (E : map (fun i => keep_record (set_cluster_id (inst_name i) i))
                  (filter is_flip_flop (map snd (db_instances db)))
              = map keep_record (filter is_flip_flop (map snd (db_instances db)))).
  { apply map_ext. intros [ ]. reflexivity. }
  rewrite E. split; [reflexivity|]. split.
  - apply Forall_map. apply Forall_forall. intros i _. repeat split.
  - split; [|reflexivity]. rewrite map_map. reflexivity.
Qed.

(** The ORIGINAL stage captured by [initialize_transformation_tracking]
    (when the pipeline has a stage of that name) holds one snapshot per
    flip-flop, in table order, and every snapshot reports the flip-flop's own
    name as its original name and as its cluster and KEEP as its last
    operation. *)
Theorem initialize_transformation_tracking_original (db : DesignDatabase) :
  In "ORIGINAL" (map stage_name (db_complete_pipeline db)) ->
  exists s,
    get_stage (db_complete_pipeline (initialize_transformation_tracking db)) "ORIGINAL"
    = Some s /\
    map snap_instance_name (stage_instances s)
    = map inst_name (filter is_flip_flop (map snd (db_instances db))) /\
    stage_transformation_indices s = [] /\
    stage_ff_instances s = length (filter is_flip_flop (map snd (db_instances db))) /\
    Forall (fun sn => snap_last_operation sn = KEEP /\
                      snap_original_name sn = snap_instance_name sn /\
                      snap_cluster_id sn = snap_instance_name sn)
           (stage_instances s).
Proof.
  intro Hin. unfold initialize_transformation_tracking.
  fold (with_cluster_ids (db_instances db)).
  rewrite keep_fold. cbn [app].
  set (t := with_cluster_ids (db_instances db)).
  set (h := map keep_record (filter is_flip_flop (map snd t))).
  unfold capture. cbn [db_complete_pipeline with_state db_transformation_history].
  rewrite get_stage_capture_same by (apply get_stage_found; exact Hin).
  eexists. split; [reflexivity|]. cbn [stage_instances stage_transformation_indices
    stage_ff_instances].
  assert (Hnames : map snap_instance_name
                     (map (snapshot_of h) (filter is_flip_flop (map snd t)))
                   = map inst_name (filter is_flip_flop (map snd (db_instances db)))).
  { rewrite map_map. subst t. rewrite with_cluster_ids_flip_flops, map_map.
    apply map_ext. intro i. unfold snapshot_of.
    destruct (latest_record _ h None); destruct i; reflexivity. }
  split; [exact Hnames|]. split; [reflexivity|]. split.
  - rewrite length_map. subst t. rewrite with_cluster_ids_flip_flops, length_map.
    reflexivity.
  - apply Forall_map. apply Forall_forall. intros i Hi.
    assert (Hall : Forall (fun r => mentions (inst_name i) r = true ->
                                    rec_operation r = KEEP /\
                                    rec_original_instance_name r = inst_name i /\
                                    rec_cluster_id r = inst_name i) h).
    { subst h. apply Forall_map. apply Forall_forall. intros j _ Hm.
      unfold mentions, keep_record in Hm.
      cbn [rec_original_instance_name rec_result_instance_name] in Hm.
      rewrite orb_diag in Hm. apply String.eqb_eq in Hm.
      cbn [keep_record rec_operation rec_original_instance_name rec_cluster_id].
      auto. }
    assert (Hsome : latest_record (inst_name i) h None <> None).
    { apply (latest_record_found _ _ (keep_record i)).
      - subst h. apply in_map. exact Hi.
      - unfold mentions, keep_record.
        cbn [rec_original_instance_name rec_result_instance_name].
        now rewrite String.eqb_refl. }
    unfold snapshot_of.
    destruct (latest_record (inst_name i) h None) as [r|] eqn:Er; [|contradiction].
    destruct (latest_record_sat _ _ _ Hall None r) as (A & B & C);
      [discriminate|exact Er|].
    cbn [snap_last_operation snap_original_name snap_instance_name snap_cluster_id].
    auto.
Qed.

Lemma initialize_transformation_tracking_original_witness :
  exists s,
    get_stage (db_complete_pipeline (initialize_transformation_tracking ex_design))
              "ORIGINAL" = Some s /\
    map snap_instance_name (stage_instances s)
    = map inst_name (filter is_flip_flop (map snd (db_instances ex_design))) /\
    stage_transformation_indices s = [] /\
    stage_ff_instances s
    = length (filter is_flip_flop (map snd (db_instances ex_design))) /\
    Forall (fun sn => snap_last_operation sn = KEEP /\
                      snap_original_name sn = snap_instance_name sn /\
                      snap_cluster_id sn = snap_instance_name sn)
           (stage_instances s).
Proof.
  apply (initialize_transformation_tracking_original ex_design).
  simpl. left. reflexivity.
Defined.


(* ------------------------------------------------------------------------- *)
(** *** Grouping of the flip-flops (group_ff_instances) *)

Lemma assoc_find_smap_set {A : Type} (k k' : string) (v : A) (m : list (string * A)) :
  assoc_find k (smap_set k' v m)
  = if String.eqb k k' then Some v else assoc_find k m.
Proof.
  induction m as [|[k0 v0] m IH]; simpl.
  - destruct (String.eqb k k'); reflexivity.
  - destruct (String.compare k' k0) eqn:Ec; simpl.
    + apply String.compare_eq_iff in Ec. subst k0.
      destruct (String.eqb k k'); reflexivity.
    + destruct (String.eqb k k'); reflexivity.
    + destruct (String.eqb_spec k k0) as [->|Hne].
      * destruct (String.eqb_spec k0 k') as [->|_]; [|reflexivity].
        pose proof (String.compare_antisym k' k') as Ha. rewrite Ec in Ha.
        discriminate Ha.
      * exact IH.
Qed.

Lemma assoc_find_smap_push {A : Type} (k k' : string) (x : A)
      (m : list (string * list A)) :
  assoc_find k (smap_push k' x m)
  = if String.eqb k k'
    then Some (match assoc_find k' m with Some l => l ++ [x] | None => [x] end)%list
    else assoc_find k m.
Proof.
  unfold smap_push. destruct (assoc_find k' m); apply assoc_find_smap_set.
Qed.

(** What a group holds: nothing when no entry has the key, else the images
    of the entries with the key, in order. *)
Definition members_of {A B : Type} (sel : A -> bool) (f : A -> B) (l : list A)
  : option (list B) :=
  match filter sel l with
  | [] => None
  | _ => Some (map f (filter sel l))
  end.

Section Grouping.

Context {B : Type}.
Variable key_of : Instance -> string.
Variable payload : Instance -> B.

Fixpoint group_by_key (l : InstanceTable) (groups : list (string * list B))
  : list (string * list B) :=
  match l with
  | [] => groups
  | (_, instance) :: rest =>
      if is_flip_flop instance
      then group_by_key rest (smap_push (key_of instance) (payload instance) groups)
      else group_by_key rest groups
  end.

Definition in_group (key : string) (i : Instance) : bool :=
  is_flip_flop i && String.eqb (key_of i) key.

Lemma group_by_key_lookup (key : string) (l : InstanceTable) :
  forall groups,
    assoc_find key (group_by_key l groups)
    = match assoc_find key groups, filter (in_group key) (map snd l) with
      | None, [] => None
      | None, _ => Some (map payload (filter (in_group key) (map snd l)))
      | Some g, _ => Some (g ++ map payload (filter (in_group key) (map snd l)))%list
      end.
Proof.
  induction l as [|[k i] rest IH]; intro groups; cbn [group_by_key map filter snd].
  - destruct (assoc_find key groups); [now rewrite app_nil_r|reflexivity].
  - assert (Hg : in_group key i = is_flip_flop i && String.eqb (key_of i) key)
      by reflexivity.
    destruct (is_flip_flop i).
    + rewrite IH, assoc_find_smap_push. rewrite (String.eqb_sym key (key_of i)).
      cbn [andb] in Hg. rewrite Hg.
      destruct (String.eqb_spec (key_of i) key) as [->|Hne].
      * destruct (assoc_find key groups) as [g|].
        -- cbn [map]. rewrite <- app_assoc. reflexivity.
        -- reflexivity.
      * reflexivity.
    + cbn [andb] in Hg. rewrite Hg. apply IH.
Qed.

End Grouping.

(** Each flip-flop lands in the group of its own key, and in no other: under
    a key, [group_ff_instances] files the names of exactly the flip-flops
    whose [generate_instance_group_key] is that key, in table order, and
    [rebuild_ff_instance_groups_for_banking] files exactly the flip-flops
    whose hierarchy and clock signal make up that key; a key that no
    flip-flop has is absent, and an instance that is not a flip-flop is in no
    group. *)
Theorem group_ff_instances_lookup
        (scan_chains : list ScanChain) (instances : InstanceTable) (key : string) :
  assoc_find key (group_ff_instances scan_chains instances)
  = members_of (fun i => is_flip_flop i
                         && String.eqb (generate_instance_group_key scan_chains i) key)
               inst_name (map snd instances)
  /\
  assoc_find key (rebuild_ff_instance_groups_for_banking instances)
  = members_of (fun i => is_flip_flop i
                         && String.eqb
                              (get_instance_hierarchy i ++ "|"
                               ++ get_instance_clock_signal_from (inst_connections i))
                              key)
               (fun i => i) (map snd instances).
Proof.
  split.
  - unfold group_ff_instances, members_of.
    assert (E : forall l g,
               group_ff_instances_from scan_chains l g
               = group_by_key (generate_instance_group_key scan_chains) inst_name l g).
    { induction l as [|[k i] l IH]; intro g; cbn [group_ff_instances_from group_by_key];
        [reflexivity|]. destruct (is_flip_flop i); apply IH. }
    rewrite E, group_by_key_lookup. reflexivity.
  - unfold rebuild_ff_instance_groups_for_banking, members_of.
    assert (E : forall l g,
               rebuild_ff_instance_groups_for_banking_from l g
               = group_by_key
                   (fun i => (get_instance_hierarchy i ++ "|"
                              ++ get_instance_clock_signal_from (inst_connections i))%string)
                   (fun i => i) l g).
    { induction l as [|[k i] l IH]; intro g;
        cbn [rebuild_ff_instance_groups_for_banking_from group_by_key];
        [reflexivity|]. destruct (is_flip_flop i); apply IH. }
    rewrite E, group_by_key_lookup. reflexivity.
Qed.

(* ------------------------------------------------------------------------- *)
(** *** Pin classification (classify_ff_pin_type) *)

Lemma toupper_ascii_idempotent (c : ascii) :
  toupper_ascii (toupper_ascii c) = toupper_ascii c.
Proof.
  destruct c as [[ ] [ ] [ ] [ ] [ ] [ ] [ ] [ ]]; reflexivity.
Qed.

Lemma toupper_idempotent (s : string) : toupper (toupper s) = toupper s.
Proof.
  induction s as [|c s IH]; simpl; [reflexivity|].
  now rewrite toupper_ascii_idempotent, IH.
Qed.

(** Pin classification ignores case: a pin name and its upper-case form
    fall in the same class. *)
Theorem classify_ff_pin_type_ignores_case (pin_name : string) :
  classify_ff_pin_type (toupper pin_name) = classify_ff_pin_type pin_name.
Proof.
  unfold classify_ff_pin_type. rewrite toupper_idempotent. reflexivity.
Qed.

(** The data pins of a banked or debanked cell keep their class: for the
    bits 0 to 7 the indexed pin [D<b>], [Q<b>], [QN<b>] that debanking looks
    up (and banking writes) for a single-bit pin [D], [Q], [QN] is classified
    as that pin is. *)
Theorem map_singlebit_pin_to_multibit_class (singlebit_pin : string) (bit_index : Z) :
  is_data_pin singlebit_pin = true ->
  (0 <= bit_index <= 7)%Z ->
  classify_ff_pin_type (map_singlebit_pin_to_multibit singlebit_pin bit_index)
  = classify_ff_pin_type singlebit_pin.
Proof.
  intros Hd Hb. unfold is_data_pin in Hd.
  assert (Hp : singlebit_pin = "D" \/ singlebit_pin = "Q" \/ singlebit_pin = "QN").
  { destruct (String.eqb_spec singlebit_pin "D"); [auto|].
    destruct (String.eqb_spec singlebit_pin "Q"); [auto|].
    destruct (String.eqb_spec singlebit_pin "QN"); [auto|discriminate]. }
  assert (Hi : (bit_index = 0 \/ bit_index = 1 \/ bit_index = 2 \/ bit_index = 3 \/
                bit_index = 4 \/ bit_index = 5 \/ bit_index = 6 \/ bit_index = 7)%Z)
    by lia.
  destruct Hp as [->|[->| ->]];
    repeat (destruct Hi as [->|Hi]; [vm_compute; reflexivity|]);
    subst; vm_compute; reflexivity.
Qed.

Lemma map_singlebit_pin_to_multibit_class_witness :
  classify_ff_pin_type (map_singlebit_pin_to_multibit "QN" 3)
  = classify_ff_pin_type "QN".
Proof.
  apply (map_singlebit_pin_to_multibit_class "QN" 3); [reflexivity|lia].
Defined.

(* ------------------------------------------------------------------------- *)
(** *** Hierarchy prefix of an instance name (extract_hierarchy_prefix) *)

(** [ch] occurs in [s]. *)
Fixpoint occurs (ch : ascii) (s : string) : bool :=
  match s with
  | EmptyString => false
  | String c rest => Ascii.eqb c ch || occurs ch rest
  end.

Lemma prefix_before_last_none (ch : ascii) (s : string) :
  occurs ch s = false -> prefix_before_last ch s = None.
Proof.
  induction s as [|c s IH]; simpl; [reflexivity|].
  intro H. apply orb_false_iff in H. destruct H as [Hc Hs].
  now rewrite IH, Hc.
Qed.

Lemma prefix_before_last_app (ch : ascii) (p leaf : string) :
  occurs ch leaf = false ->
  prefix_before_last ch (p ++ String ch leaf) = Some p.
Proof.
  intro H. induction p as [|c p IH]; simpl.
  - rewrite prefix_before_last_none by exact H. now rewrite Ascii.eqb_refl.
  - now rewrite IH.
Qed.

(** [extract_hierarchy_prefix] cuts an instance name at its last slash: a
    name [p/leaf] whose leaf has no slash has prefix [p], and a name without
    a slash has the empty prefix. *)
Theorem extract_hierarchy_prefix_last_slash (p leaf : string) :
  occurs "/" leaf = false ->
  extract_hierarchy_prefix (p ++ "/" ++ leaf) = p /\
  extract_hierarchy_prefix leaf = "".
Proof.
  intro H. unfold extract_hierarchy_prefix. split.
  - change ("/" ++ leaf)%string with (String "/" leaf).
    now rewrite prefix_before_last_app.
  - now rewrite prefix_before_last_none.
Qed.

Lemma extract_hierarchy_prefix_last_slash_witness :
  extract_hierarchy_prefix ("top/core" ++ "/" ++ "ff_1") = "top/core" /\
  extract_hierarchy_prefix "ff_1" = "".
Proof.
  apply (extract_hierarchy_prefix_last_slash "top/core" "ff_1"). reflexivity.
Defined.


(* ------------------------------------------------------------------------- *)
(** *** The instance table under the banking passes *)

(** [n] is the name of one of the instances of [cluster]. *)
Definition named_in (cluster : list Instance) (n : string) : bool :=
  existsb (fun s => String.eqb (inst_name s) n) cluster.

Lemma assoc_find_erase_instances (cluster : list Instance) (n : string) :
  forall t,
    assoc_find n (erase_instances cluster t)
    = if named_in cluster n then None else assoc_find n t.
Proof.
  unfold erase_instances, named_in.
  induction cluster as [|s rest IH]; intro t; simpl; [reflexivity|].
  rewrite IH, assoc_find_assoc_erase. rewrite (String.eqb_sym n (inst_name s)).
  destruct (String.eqb (inst_name s) n); simpl.
  - destruct (existsb _ rest); reflexivity.
  - reflexivity.
Qed.

(** The table after a cluster has been banked into [new_inst]: the sources
    are gone, the new instance is filed under its name unless a source had
    that name, every other entry is as before. *)
Definition banked_into (cluster : list Instance) (new_inst : Instance)
           (t t' : InstanceTable) : Prop :=
  forall n,
    assoc_find n t'
    = if named_in cluster n then None
      else if String.eqb n (inst_name new_inst) then Some new_inst
      else assoc_find n t.

Lemma erase_set_banked (cluster : list Instance) (new_name : string)
      (new_inst : Instance) (t : InstanceTable) :
  inst_name new_inst = new_name ->
  banked_into cluster new_inst t
              (erase_instances cluster (assoc_set new_name new_inst t)).
Proof.
  intros <- n. rewrite assoc_find_erase_instances, assoc_find_assoc_set. reflexivity.
Qed.

Section BankingTable.

Variable cell_library : CellLibrary.
Variable hierarchical_ff_groups : list HierGroup.
Variable optimal_ff_for_groups : list (string * string).

(** A multi-bit instance as a banking pass creates it for a cluster: its
    cell is one of the cached optimal cells, its template what the library
    holds under that name, its position the centroid of the cluster. *)
Definition fresh_multibit (cluster : list Instance) (i : Instance) : Prop :=
  exists key,
    assoc_find key optimal_ff_for_groups = Some (inst_cell_type i) /\
    inst_cell_template i = assoc_find (inst_cell_type i) cell_library /\
    inst_position_x i == sum_x cluster / inject_Z (Z.of_nat (length cluster)) /\
    inst_position_y i == sum_y cluster / inject_Z (Z.of_nat (length cluster)) /\
    inst_placement_status i = UNPLACED /\
    inst_banking_type i <> BT_NONE.

(** The effect of one loop body on the instance table: none, or the cluster
    banked into a fresh multi-bit instance. *)
Definition banks_or_skips (cluster : list Instance) (st st' : BankState) : Prop :=
  bk_instances st' = bk_instances st
  \/ exists new_inst,
       fresh_multibit cluster new_inst /\
       banked_into cluster new_inst (bk_instances st) (bk_instances st').

Lemma rebank_cluster_banks (st : BankState) (cluster_id : string)
      (instances : list Instance) :
  banks_or_skips instances st
    (rebank_cluster cell_library optimal_ff_for_groups st (cluster_id, instances)).
Proof.
  unfold rebank_cluster.
  destruct (length instances <? 2)%nat; [left; reflexivity|].
  destruct instances as [|first others] eqn:Ei; [left; reflexivity|].
  rewrite <- Ei.
  destruct (String.eqb (rebank_target_key _ _) "") eqn:Ek; [left; reflexivity|].
  destruct (assoc_find (rebank_target_key _ _) optimal_ff_for_groups)
    as [optimal_ff|] eqn:Eo; [|left; reflexivity].
  right. eexists. split; [|cbn [bk_instances]; apply erase_set_banked; reflexivity].
  exists (rebank_target_key (inst_banking_type first) (length instances)).
  cbn [new_multibit inst_cell_type inst_cell_template inst_position_x inst_position_y
       inst_placement_status inst_banking_type].
  split; [exact Eo|]. split; [reflexivity|]. split; [reflexivity|].
  split; [reflexivity|]. split; [reflexivity|].
  intro Hbt. rewrite Hbt in Ek. discriminate Ek.
Qed.

Lemma length_eqb_2 (cluster : list Instance) :
  (length cluster =? 2)%nat = true -> inject_Z (Z.of_nat (length cluster)) = 2.
Proof. intro H. apply Nat.eqb_eq in H. rewrite H. reflexivity. Qed.

Lemma length_eqb_4 (cluster : list Instance) :
  (length cluster =? 4)%nat = true -> inject_Z (Z.of_nat (length cluster)) = 4.
Proof. intro H. apply Nat.eqb_eq in H. rewrite H. reflexivity. Qed.

Lemma bank_pair_1to2_banks (group_key : string) (st : BankState)
      (cluster : list Instance) :
  banks_or_skips cluster st
    (bank_pair_1to2 cell_library hierarchical_ff_groups optimal_ff_for_groups
                    group_key st cluster).
Proof.
  unfold bank_pair_1to2.
  destruct (length cluster =? 2)%nat eqn:El; [|left; reflexivity]. cbn [negb].
  destruct (String.eqb _ ""); [left; reflexivity|].
  destruct (retarget_key _ _) as [target_key|]; [|left; reflexivity].
  destruct (assoc_find target_key optimal_ff_for_groups) as [optimal_ff|] eqn:Eo;
    [|left; reflexivity].
  right. eexists. split; [|cbn [bk_instances]; apply erase_set_banked; reflexivity].
  exists target_key.
  cbn [new_multibit inst_cell_type inst_cell_template inst_position_x inst_position_y
       inst_placement_status inst_banking_type].
  rewrite (length_eqb_2 _ El).
  split; [exact Eo|]. split; [reflexivity|]. split; [reflexivity|].
  split; [reflexivity|]. split; [reflexivity|discriminate].
Qed.

Lemma bank_pair_2to4_banks (group_key : string) (st : BankState)
      (cluster : list Instance) :
  banks_or_skips cluster st
    (bank_pair_2to4 cell_library hierarchical_ff_groups optimal_ff_for_groups
                    group_key st cluster).
Proof.
  unfold bank_pair_2to4.
  destruct (length cluster =? 2)%nat eqn:El; [|left; reflexivity]. cbn [negb].
  destruct (String.eqb _ ""); [left; reflexivity|].
  destruct (retarget_key _ _) as [target_key|]; [|left; reflexivity].
  destruct (assoc_find target_key optimal_ff_for_groups) as [optimal_ff|] eqn:Eo;
    [|left; reflexivity].
  right. eexists. split; [|cbn [bk_instances]; apply erase_set_banked; reflexivity].
  exists target_key.
  cbn [new_multibit inst_cell_type inst_cell_template inst_position_x inst_position_y
       inst_placement_status inst_banking_type].
  rewrite (length_eqb_2 _ El).
  split; [exact Eo|]. split; [reflexivity|]. split; [reflexivity|].
  split; [reflexivity|]. split; [reflexivity|discriminate].
Qed.

Lemma bank_quad_lsrdpq_banks (group_key : string) (st : BankState)
      (cluster : list Instance) :
  banks_or_skips cluster st
    (bank_quad_lsrdpq cell_library optimal_ff_for_groups group_key st cluster).
Proof.
  unfold bank_quad_lsrdpq.
  destruct (length cluster =? 4)%nat eqn:El; [|left; reflexivity]. cbn [negb].
  destruct (assoc_find "RISING|D_Q_QN_CK|4bit" optimal_ff_for_groups)
    as [optimal_ff|] eqn:Eo; [|left; reflexivity].
  right. eexists. split; [|cbn [bk_instances]; apply erase_set_banked; reflexivity].
  exists "RISING|D_Q_QN_CK|4bit".
  cbn [new_multibit inst_cell_type inst_cell_template inst_position_x inst_position_y
       inst_placement_status inst_banking_type].
  rewrite (length_eqb_4 _ El).
  split; [exact Eo|]. split; [reflexivity|]. split; [reflexivity|].
  split; [reflexivity|]. split; [reflexivity|discriminate].
Qed.

(** One synthesis step of any of the three banking passes (the loop bodies
    of debank-cluster re-banking, 1-bit to 2-bit, 2-bit to 4-bit and LSRDPQ
    banking) either leaves the instance table as it is or banks its cluster:
    afterwards no name of a source is in the table, the new multi-bit
    instance is filed under its name (unless a source had that name), and
    every other entry is what it was.  The new instance carries one of the
    cached optimal cells, with the template the library holds for it, at the
    centroid of the cluster, unplaced, with a banking type other than NONE. *)
Theorem banking_steps_bank_or_skip (group_key cluster_id : string) (st : BankState)
        (cluster : list Instance) :
  banks_or_skips cluster st
    (rebank_cluster cell_library optimal_ff_for_groups st (cluster_id, cluster)) /\
  banks_or_skips cluster st
    (bank_pair_1to2 cell_library hierarchical_ff_groups optimal_ff_for_groups
                    group_key st cluster) /\
  banks_or_skips cluster st
    (bank_pair_2to4 cell_library hierarchical_ff_groups optimal_ff_for_groups
                    group_key st cluster) /\
  banks_or_skips cluster st
    (bank_quad_lsrdpq cell_library optimal_ff_for_groups group_key st cluster).
Proof.
  split; [apply rebank_cluster_banks|].
  split; [apply bank_pair_1to2_banks|].
  split; [apply bank_pair_2to4_banks|apply bank_quad_lsrdpq_banks].
Qed.

End BankingTable.


(* ------------------------------------------------------------------------- *)
(** *** BANK records (record_all_banking_transformations) *)

Definition has_sources (op : BankingOperation) : bool :=
  match op_source_instances op with [] => false | _ => true end.

(** The BANK record of a banking operation. *)
Definition bank_record_of (op : BankingOperation) (r : TransformationRecord) : Prop :=
  rec_operation r = BANK /\
  rec_stage r = "BANK" /\
  rec_result_instance_name r = op_result_instance_name op /\
  rec_original_instance_name r :: rec_related_instances r
  = map inst_name (op_source_instances op).

Lemma record_operation_spec (instances : InstanceTable)
      (history : list TransformationRecord) (op : BankingOperation) :
  (has_sources op = false /\ record_operation instances history op = history)
  \/ (has_sources op = true /\
      exists r, record_operation instances history op = (history ++ [r])%list /\
                bank_record_of op r).
Proof.
  unfold record_operation, record_bank_transformation, has_sources.
  destruct (op_source_instances op) as [|primary others] eqn:Es; [left; auto|].
  right. split; [reflexivity|]. eexists. split; [reflexivity|].
  unfold bank_record_of. rewrite Es.
  cbn [rec_operation rec_stage rec_result_instance_name
    rec_original_instance_name rec_related_instances map]. repeat split.
Qed.

(** [record_all_banking_transformations] only appends to the history, and
    what it appends is one BANK record for each banking operation that has a
    source, in the order of the operations: the record names the first
    source as original, the other sources as related instances and the
    operation's result as result.  An operation without sources leaves no
    record. *)
Theorem record_all_banking_transformations_records
        (st : BankState) (history : list TransformationRecord) :
  exists added,
    record_all_banking_transformations st history = (history ++ added)%list /\
    Forall2 bank_record_of (filter has_sources (bk_banking_operations st)) added.
Proof.
  unfold record_all_banking_transformations.
  generalize (bk_instances st) as instances. intro instances.
  revert history. induction (bk_banking_operations st) as [|op ops IH]; intro history.
  - exists []. rewrite app_nil_r. split; [reflexivity|constructor].
  - cbn [fold_left filter].
    destruct (record_operation_spec instances history op)
      as [[Hs E]|[Hs (r & E & Hr)]]; rewrite E, Hs.
    + apply IH.
    + destruct (IH (history ++ [r])%list) as (added & Ea & Fa).
      exists (r :: added). split.
      * rewrite Ea, <- app_assoc. reflexivity.
      * constructor; assumption.
Qed.


(* ------------------------------------------------------------------------- *)
(** *** The instance table under the post-banking substitution *)

Section PostBanking.

Variable get_timing_repr : string -> Q.
Variable cell_library : CellLibrary.
Variable objective_weights : ObjectiveWeights.

Local Abbreviation score := (calculate_ff_score get_timing_repr cell_library objective_weights).

(** [p'] is the entry [p] after the pass: untouched, or a single-bit
    flip-flop moved to its recorded best alternative, a cell of the library
    whose recorded score is strictly below the score of the current cell. *)
Definition reverted_or_kept (p p' : string * Instance) : Prop :=
  fst p' = fst p /\
  (snd p' = snd p
   \/ (is_single_bit_ff (snd p) = true /\
       inst_best_ff_from_substitution (snd p) <> "" /\
       score_lt (inst_best_ff_score (snd p)) (score (template_name (snd p))) /\
       exists best_cell,
         assoc_find (inst_best_ff_from_substitution (snd p)) cell_library
         = Some best_cell /\
         snd p' = set_cell_template best_cell (snd p))).

Lemma post_banking_instance_cases (instance : Instance)
      (history : list TransformationRecord) :
  reverted_or_kept ("", instance)
    ("", fst (post_banking_instance get_timing_repr cell_library objective_weights
                                    instance history)).
Proof.
  unfold reverted_or_kept, post_banking_instance. cbn [fst snd].
  split; [reflexivity|].
  destruct (is_single_bit_ff instance) eqn:Es; cbn [negb]; [|left; reflexivity].
  destruct (String.eqb_spec (inst_best_ff_from_substitution instance) "") as [E|Hne];
    cbn [negb andb]; [left; reflexivity|].
  destruct (score_ltb (inst_best_ff_score instance) (score (template_name instance)))
    eqn:Elt; [|left; reflexivity].
  destruct (assoc_find (inst_best_ff_from_substitution instance) cell_library)
    as [best_cell|] eqn:Ef; [|left; reflexivity].
  right. split; [reflexivity|]. split; [exact Hne|].
  split; [apply score_ltb_lt; exact Elt|].
  exists best_cell. split; [reflexivity|reflexivity].
Qed.

(** The post-banking substitution keeps every key of the instance table, in
    order, and touches an instance only to give a single-bit flip-flop the
    cell recorded as its best alternative, when the library has that cell and
    the recorded score is strictly below the score of the current cell;
    multi-bit flip-flops and all other instances come out as they went in. *)
Theorem execute_post_banking_substitution_instances
        (instances : InstanceTable) (history : list TransformationRecord) :
  Forall2 reverted_or_kept instances
          (fst (execute_post_banking_substitution get_timing_repr cell_library
                  objective_weights instances history)).
Proof.
  revert history. induction instances as [|[k i] rest IH]; intro history.
  - constructor.
  - cbn [execute_post_banking_substitution].
    pose proof (post_banking_instance_cases i history) as Hi.
    destruct (post_banking_instance get_timing_repr cell_library objective_weights
                                    i history) as [i' h'].
    specialize (IH h').
    destruct (execute_post_banking_substitution get_timing_repr cell_library
                objective_weights rest h') as [rest' h''].
    cbn [fst] in *. constructor; [|exact IH].
    destruct Hi as [_ Hi]. split; [reflexivity|exact Hi].
Qed.

End PostBanking.


(* ------------------------------------------------------------------------- *)
(** *** Site arithmetic *)

Definition is_mult (sitew q : Q) : Prop := exists k : Z, q == inject_Z k * sitew.

Lemma placed_width_mult (sitew w : Q) : is_mult sitew (placed_width sitew w).
Proof. exists (Qceiling (w / sitew)). reflexivity. Qed.

Lemma div_mul_cancel (a sitew : Q) : 0 < sitew -> a / sitew * sitew == a.
Proof. intro H. field. lra. Qed.

Lemma placed_width_ge (sitew w : Q) : 0 < sitew -> w <= placed_width sitew w.
Proof.
  intro H. unfold placed_width.
  pose proof (ceilQ_ge (w / sitew)) as Hc.
  apply (Qmult_le_compat_r _ _ sitew) in Hc; [|lra].
  rewrite div_mul_cancel in Hc by exact H. exact Hc.
Qed.

Lemma placed_width_nonneg (sitew w : Q) :
  0 < sitew -> 0 <= w -> 0 <= placed_width sitew w.
Proof. intros H Hw. pose proof (placed_width_ge sitew w H). lra. Qed.

Lemma inject_Z_lt_succ (a b : Z) : inject_Z a < inject_Z b + 1 -> (a <= b)%Z.
Proof.
  intro H. assert (H' : inject_Z a < inject_Z (b + 1)) by (rewrite inject_Z_plus; exact H).
  rewrite <- Zlt_Qlt in H'. lia.
Qed.

Lemma mult_le_sites (k m : Z) (sitew : Q) :
  0 < sitew -> (k <= m)%Z -> inject_Z k * sitew <= inject_Z m * sitew.
Proof.
  intros H Hk. apply Qmult_le_compat_r; [|lra]. rewrite <- Zle_Qle. exact Hk.
Qed.

Lemma sites_lt_cancel (a b sitew : Q) :
  0 < sitew -> a * sitew < b * sitew -> a < b.
Proof.
  intros H Hab. destruct (Qlt_le_dec a b) as [Hlt|Hge]; [exact Hlt|].
  apply (Qmult_le_compat_r _ _ sitew) in Hge; lra.
Qed.

(** floor(a/s) + ceil(b/s) sites fit in m sites when a + b < (m + 1) sites
    does. *)
Lemma floor_ceil_fit (a b sitew : Q) (m : Z) :
  0 < sitew ->
  a + b <= inject_Z m * sitew ->
  floorQ (a / sitew) * sitew + ceilQ (b / sitew) * sitew <= inject_Z m * sitew.
Proof.
  intros H Hab. unfold floorQ, ceilQ.
  set (F := Qfloor (a / sitew)). set (C := Qceiling (b / sitew)).
  assert (HF : inject_Z F <= a / sitew) by apply Qfloor_le.
  assert (HC : inject_Z C < b / sitew + 1).
  { pose proof (Qceiling_lt (b / sitew)) as Hc. fold C in Hc.
    replace (C - 1)%Z with (C + - (1))%Z in Hc by lia.
    rewrite inject_Z_plus, inject_Z_opp in Hc.
    change (inject_Z 1) with 1 in Hc. lra. }
  assert (Hsum : inject_Z (F + C) < inject_Z m + 1).
  { rewrite inject_Z_plus.
    apply (sites_lt_cancel _ _ sitew H).
    apply (Qmult_le_compat_r _ _ sitew) in HF; [|lra].
    rewrite div_mul_cancel in HF by exact H.
    assert (HC' : inject_Z C * sitew < (b / sitew + 1) * sitew).
    { apply Qmult_lt_compat_r; assumption. }
    assert (E : (b / sitew + 1) * sitew == b + sitew) by (field; lra).
    rewrite E in HC'. nra. }
  apply inject_Z_lt_succ in Hsum.
  pose proof (mult_le_sites _ _ sitew H Hsum) as Hm.
  rewrite inject_Z_plus in Hm. lra.
Qed.

Lemma fits_sites (sitew w U : Q) :
  0 < sitew -> w <= U -> is_mult sitew U -> placed_width sitew w <= U.
Proof.
  intros H Hw [k Hk]. unfold placed_width.
  pose proof (floor_ceil_fit 0 w sitew k H) as Hf.
  assert (E0 : floorQ (0 / sitew) == 0).
  { unfold floorQ. assert (E : 0 / sitew == 0) by (field; lra).
    rewrite E. reflexivity. }
  rewrite E0 in Hf. rewrite Hk. lra.
Qed.

Lemma snap_down_le (base sitew x : Q) : 0 < sitew -> snap_down base sitew x <= x.
Proof.
  intro H. unfold snap_down.
  pose proof (floorQ_le ((x - base) / sitew)) as Hf.
  apply (Qmult_le_compat_r _ _ sitew) in Hf; [|lra].
  rewrite div_mul_cancel in Hf by exact H. lra.
Qed.

Lemma snap_down_ge_base (base sitew x : Q) :
  0 < sitew -> base <= x -> base <= snap_down base sitew x.
Proof.
  intros H Hx. unfold snap_down, floorQ.
  assert (Hq : 0 <= (x - base) / sitew).
  { apply Qle_shift_div_l; [exact H|]. lra. }
  assert (H0 : (0 <= Qfloor ((x - base) / sitew))%Z).
  { rewrite <- (Qfloor_Z 0). apply Qfloor_resp_le. exact Hq. }
  rewrite Zle_Qle in H0. change (inject_Z 0) with 0 in H0.
  assert (0 <= inject_Z (Qfloor ((x - base) / sitew)) * sitew).
  { apply Qmult_le_0_compat; [exact H0|lra]. }
  lra.
Qed.

Lemma snap_down_on_site_id (base sitew x : Q) :
  0 < sitew -> on_site base sitew x -> snap_down base sitew x == x.
Proof.
  intros H [k Hk]. unfold snap_down, floorQ.
  assert (E : (x - base) / sitew == inject_Z k).
  { rewrite Hk. field. lra. }
  rewrite E, Qfloor_Z. rewrite Hk. ring.
Qed.

(* ------------------------------------------------------------------------- *)
(** *** Well-formed cluster chains (AddCell, AddCluster, Collapse, placeRow) *)

Lemma is_mult_plus (sitew a b : Q) :
  is_mult sitew a -> is_mult sitew b -> is_mult sitew (a + b).
Proof.
  intros [k Hk] [m Hm]. exists (k + m)%Z. rewrite Hk, Hm, inject_Z_plus. ring.
Qed.

Lemma is_mult_0 (sitew : Q) : is_mult sitew 0.
Proof. exists 0%Z. ring. Qed.

Section Chains.

(** The width of each named instance, which the legalizer never changes,
    the site width of the row and the left bound of the sub-row. *)
Variable W : string -> Q.
Variable sitew : Q.
Hypothesis sitew_pos : 0 < sitew.
Hypothesis W_nonneg : forall n, 0 <= W n.

Definition cells_width (cells : list string) : Q :=
  fold_right (fun n a => placed_width sitew (W n) + a) 0 cells.

Lemma cells_width_app (a b : list string) :
  cells_width (a ++ b) == cells_width a + cells_width b.
Proof.
  induction a as [|n a IH]; simpl; [ring|]. rewrite IH. ring.
Qed.

Lemma cells_width_nonneg (cells : list string) : 0 <= cells_width cells.
Proof.
  induction cells as [|n cells IH]; simpl; [lra|].
  pose proof (placed_width_nonneg sitew (W n) sitew_pos (W_nonneg n)). lra.
Qed.

Lemma cells_width_mult (cells : list string) : is_mult sitew (cells_width cells).
Proof.
  induction cells as [|n cells IH]; simpl; [apply is_mult_0|].
  apply is_mult_plus; [apply placed_width_mult|exact IH].
Qed.

(** A cluster chain (head = rightmost cluster) that is laid out properly
    between [xmin] and [hi]: clusters on sites, in order without overlap,
    each as wide as its cells. *)
Fixpoint chain_ok (xmin : Q) (chain : list Cluster) (hi : Q) : Prop :=
  match chain with
  | [] => True
  | c :: lefts =>
      cl_x c + cl_width c <= hi /\
      xmin <= cl_x c /\
      on_site xmin sitew (cl_x c) /\
      cl_width c == cells_width (cl_cells c) /\
      chain_ok xmin lefts (cl_x c)
  end.

Lemma chain_ok_bound (xmin : Q) (chain : list Cluster) (hi hi' : Q) :
  chain_ok xmin chain hi ->
  match chain with [] => True | c :: _ => cl_x c + cl_width c <= hi' end ->
  chain_ok xmin chain hi'.
Proof.
  destruct chain as [|c lefts]; simpl; [auto|]. intros (_ & H) H'. split; auto.
Qed.

Lemma chain_width_nonneg (xmin : Q) (chain : list Cluster) (hi : Q) :
  chain_ok xmin chain hi -> 0 <= chain_width chain.
Proof.
  revert hi. induction chain as [|c lefts IH]; intros hi H; simpl; [lra|].
  destruct H as (_ & _ & _ & Hw & Hl). specialize (IH _ Hl).
  pose proof (cells_width_nonneg (cl_cells c)). lra.
Qed.

Lemma chain_width_mult (xmin : Q) (chain : list Cluster) (hi : Q) :
  chain_ok xmin chain hi -> is_mult sitew (chain_width chain).
Proof.
  revert hi. induction chain as [|c lefts IH]; intros hi H; simpl;
    [apply is_mult_0|].
  destruct H as (_ & _ & _ & Hw & Hl). specialize (IH _ Hl).
  destruct IH as [k Hk]. destruct (cells_width_mult (cl_cells c)) as [m Hm].
  exists (k + m)%Z. rewrite Hk, Hw, Hm, inject_Z_plus. ring.
Qed.

Lemma clamp_ok (xmin xmax q weight width : Q) :
  on_site xmin sitew xmax -> is_mult sitew width -> xmin + width <= xmax ->
  xmin <= clamp_x xmin xmin xmax sitew q weight width /\
  clamp_x xmin xmin xmax sitew q weight width + width <= xmax /\
  on_site xmin sitew (clamp_x xmin xmin xmax sitew q weight width).
Proof.
  intros [M HM] [k Hk] Hfit. unfold clamp_x.
  set (x0 := snap_down xmin sitew (q / weight)).
  assert (H0 : on_site xmin sitew x0) by apply snap_down_on_site.
  destruct (Qltb x0 xmin) eqn:E1.
  - destruct (Qltb xmax (xmin + width)) eqn:E2; qbool.
    + lra.
    + split; [lra|]. split; [lra|apply on_site_base].
  - destruct (Qltb xmax (x0 + width)) eqn:E2; qbool.
    + split; [lra|]. split; [lra|].
      exists (M - k)%Z. rewrite HM, Hk.
      replace (M - k)%Z with (M + - k)%Z by lia.
      rewrite inject_Z_plus, inject_Z_opp. ring.
    + split; [lra|]. split; [lra|exact H0].
Qed.

Lemma Collapse_ok (xmin xmax : Q) (lefts : list Cluster) :
  on_site xmin sitew xmax ->
  forall (c : Cluster) (hl : Q),
    chain_ok xmin lefts hl ->
    cl_width c == cells_width (cl_cells c) ->
    xmin + (chain_width lefts + cl_width c) <= xmax ->
    chain_ok xmin (Collapse xmin xmin xmax sitew c lefts) xmax.
Proof.
  intro Hmax. induction lefts as [|pred lefts IH]; intros c hl Hl Hw Hfit.
  - rewrite Collapse_nil. simpl in Hfit.
    assert (Hm : is_mult sitew (cl_width c)).
    { destruct (cells_width_mult (cl_cells c)) as [k Hk]. exists k. now rewrite Hw. }
    destruct (clamp_ok xmin xmax (cl_q c) (cl_weight c) (cl_width c) Hmax Hm)
      as (A & B & C); [lra|].
    simpl. repeat split; auto.
  - rewrite Collapse_cons.
    pose proof (chain_width_nonneg _ _ _ Hl) as Hnn.
    assert (Hm : is_mult sitew (cl_width c)).
    { destruct (cells_width_mult (cl_cells c)) as [k Hk]. exists k. now rewrite Hw. }
    simpl in Hfit, Hnn.
    destruct Hl as (Hp1 & Hp2 & Hp3 & Hp4 & Hp5).
    pose proof (chain_width_nonneg _ _ _ Hp5) as Hnn'.
    pose proof (cells_width_nonneg (cl_cells pred)) as Hpn.
    destruct (clamp_ok xmin xmax (cl_q c) (cl_weight c) (cl_width c) Hmax Hm)
      as (A & B & C); [lra|].
    destruct (Qltb _ (cl_x pred + cl_width pred)) eqn:E; qbool.
    + apply (IH (AddCluster pred c) (cl_x pred)); [exact Hp5| |].
      * simpl. rewrite cells_width_app, Hp4, Hw. reflexivity.
      * simpl. lra.
    + simpl. repeat split; auto.
Qed.

(** The books of a sub-row. *)
Definition sub_ok (sr : SubRow) : Prop :=
  on_site (sr_x_min sr) sitew (sr_x_max sr) /\
  chain_ok (sr_x_min sr) (sr_clusters sr) (sr_x_max sr) /\
  sr_Usewidth sr == sr_x_max sr - sr_x_min sr - chain_width (sr_clusters sr).

Lemma on_site_mult (base x : Q) : on_site base sitew x -> is_mult sitew (x - base).
Proof. intros [k Hk]. exists k. rewrite Hk. ring. Qed.

Lemma sub_ok_Usewidth_mult (sr : SubRow) : sub_ok sr -> is_mult sitew (sr_Usewidth sr).
Proof.
  intros (Hm & Hc & Hu). apply on_site_mult in Hm. destruct Hm as [M HM].
  destruct (chain_width_mult _ _ _ Hc) as [k Hk].
  exists (M - k)%Z. rewrite Hu, HM, Hk.
  replace (M - k)%Z with (M + - k)%Z by lia.
  rewrite inject_Z_plus, inject_Z_opp. ring.
Qed.

Lemma nominal_x_ok (sr : SubRow) (px w : Q) :
  on_site (sr_x_min sr) sitew (sr_x_max sr) ->
  0 <= w ->
  placed_width sitew w <= sr_x_max sr - sr_x_min sr ->
  sr_x_min sr <= nominal_x sitew sr px w /\
  nominal_x sitew sr px w + placed_width sitew w <= sr_x_max sr /\
  on_site (sr_x_min sr) sitew (nominal_x sitew sr px w).
Proof.
  intros Hm Hw Hfit. pose proof (placed_width_ge sitew w sitew_pos) as Hge.
  destruct (on_site_mult _ _ Hm) as [M HM].
  unfold nominal_x.
  destruct (Qleb px (sr_x_min sr)) eqn:E1; qbool.
  { split; [lra|]. split; [lra|apply on_site_base]. }
  destruct (Qleb (sr_x_max sr) (px + w)) eqn:E2; qbool.
  - split; [apply snap_down_ge_base; [exact sitew_pos|lra]|].
    split; [|apply snap_down_on_site].
    unfold snap_down, placed_width.
    pose proof (floor_ceil_fit (sr_x_max sr - w - sr_x_min sr) w sitew M sitew_pos)
      as Hf.
    assert (Hab : sr_x_max sr - w - sr_x_min sr + w <= inject_Z M * sitew)
      by (rewrite <- HM; lra).
    specialize (Hf Hab). lra.
  - split; [apply snap_down_ge_base; [exact sitew_pos|lra]|].
    split; [|apply snap_down_on_site].
    unfold snap_down, placed_width.
    pose proof (floor_ceil_fit (px - sr_x_min sr) w sitew M sitew_pos) as Hf.
    assert (Hab : px - sr_x_min sr + w <= inject_Z M * sitew)
      by (rewrite <- HM; lra).
    specialize (Hf Hab). lra.
Qed.

Lemma placeRow_final_ok (row : PlacementRow) (instance : Instance) (sr : SubRow) :
  row_site_width row = sitew ->
  get_width instance = W (inst_name instance) ->
  get_width instance <= sr_Usewidth sr ->
  sub_ok sr ->
  sub_ok (fst (placeRow_final row instance sr)).
Proof.
  intros Hrow HWi Hfits Hok.
  pose proof (sub_ok_Usewidth_mult sr Hok) as Hum.
  destruct Hok as (Hm & Hc & Hu).
  pose proof (chain_width_nonneg _ _ _ Hc) as Hnn.
  assert (Hw0 : 0 <= get_width instance) by (rewrite HWi; apply W_nonneg).
  pose proof (fits_sites sitew _ _ sitew_pos Hfits Hum) as Hpw.
  assert (Hlen : placed_width sitew (get_width instance)
                 <= sr_x_max sr - sr_x_min sr) by lra.
  destruct (nominal_x_ok sr (inst_position_x instance) (get_width instance)
              Hm Hw0 Hlen) as (N1 & N2 & N3).
  unfold placeRow_final. rewrite Hrow.
  set (t := nominal_x sitew sr (inst_position_x instance) (get_width instance)) in *.
  set (pw := placed_width sitew (get_width instance)) in *.
  unfold starts_new_cluster.
  destruct (sr_clusters sr) as [|last lefts] eqn:Ecl.
  - cbn [fst]. unfold sub_ok. cbn [sr_x_min sr_x_max sr_clusters sr_Usewidth].
    split; [exact Hm|]. split.
    + simpl. repeat split; auto; try lra.
      rewrite <- HWi. fold pw. ring.
    + simpl. simpl in Hu. lra.
  - destruct (Qleb (cl_x last + cl_width last) t) eqn:E; qbool.
    + cbn [fst]. unfold sub_ok. cbn [sr_x_min sr_x_max sr_clusters sr_Usewidth].
      split; [exact Hm|]. split.
      * cbn [chain_ok AddCell cl_x cl_width cl_cells app].
        split; [lra|]. split; [exact N1|]. split; [exact N3|].
        split; [simpl; rewrite <- HWi; fold pw; ring|].
        apply (chain_ok_bound (sr_x_min sr) (last :: lefts) (sr_x_max sr) t);
          [exact Hc|exact E].
      * simpl. simpl in Hu. lra.
    + cbn [fst]. unfold sub_ok. cbn [sr_x_min sr_x_max sr_clusters sr_Usewidth].
      split; [exact Hm|].
      destruct Hc as (C1 & C2 & C3 & C4 & C5). simpl in Hu, Hnn.
      split.
      * apply (Collapse_ok _ _ _ Hm _ (cl_x last)); [exact C5| |].
        -- simpl. rewrite cells_width_app, C4. simpl. rewrite <- HWi. fold pw. ring.
        -- simpl. lra.
      * rewrite Collapse_width. simpl. lra.
Qed.

End Chains.

(* ------------------------------------------------------------------------- *)
(** *** What the row sweep of [Abacus] keeps *)

(** What the legalizer never writes of an instance: everything but
    [x_new], [y_new] and [placement_status]. *)
Definition frozen (i : Instance) : Instance :=
  set_placement_status UNPLACED (set_new_position 0 0 i).

Definition same_frozen (t0 t : InstanceTable) : Prop :=
  map (fun p => (fst p, frozen (snd p))) t = map (fun p => (fst p, frozen (snd p))) t0.

Lemma frozen_set_new_position (x y : Q) (i : Instance) :
  frozen (set_new_position x y i) = frozen i.
Proof. destruct i. reflexivity. Qed.

Lemma frozen_set_placement_status (s : PlacementStatus) (i : Instance) :
  frozen (set_placement_status s i) = frozen i.
Proof. destruct i. reflexivity. Qed.

Lemma frozen_fields (i j : Instance) :
  frozen i = frozen j ->
  inst_name i = inst_name j /\ get_width i = get_width j /\
  inst_position_x i = inst_position_x j /\
  inst_cell_template i = inst_cell_template j.
Proof.
  destruct i, j. unfold frozen, get_width. simpl. intro H. inversion H; subst. auto.
Qed.

Lemma same_frozen_update (t0 t : InstanceTable) (n : string)
      (f : Instance -> Instance) :
  (forall i, frozen (f i) = frozen i) ->
  same_frozen t0 t -> same_frozen t0 (update_instance n f t).
Proof.
  intros Hf H. unfold same_frozen in *. rewrite <- H.
  unfold update_instance. rewrite map_map. apply map_ext.
  intros [k i]. simpl. destruct (String.eqb k n); simpl; [now rewrite Hf|reflexivity].
Qed.

Lemma same_frozen_write (t0 t : InstanceTable) (n : string) (pos : option (Q * Q)) :
  same_frozen t0 t -> same_frozen t0 (write_position n pos t).
Proof.
  intro H. destruct pos as [[x y]|]; simpl; [|exact H].
  apply same_frozen_update; [apply frozen_set_new_position|exact H].
Qed.

Lemma same_frozen_find (t0 t : InstanceTable) (n : string) :
  same_frozen t0 t ->
  option_map frozen (assoc_find n t) = option_map frozen (assoc_find n t0).
Proof.
  unfold same_frozen. revert t0. induction t as [|[k i] t IH]; intros [|[k0 i0] t0] H;
    simpl in *; try discriminate; [reflexivity|].
  inversion H; subst. destruct (String.eqb n k0); simpl; [congruence|].
  apply IH. assumption.
Qed.

(** Search states whose best pair, when there is one, is a row of the list
    and the sub-row [findSubrowpos] answers for it. *)
Definition best_valid (rows : list PlacementRow) (instance : Instance) (s : Search)
  : Prop :=
  se_bestRowIdx s = (-1)%Z
  \/ exists row sr,
       nth_error rows (Z.to_nat (se_bestRowIdx s)) = Some row /\
       nth_error (row_subrows row) (Z.to_nat (se_bestSubRowIdx s)) = Some sr /\
       se_bestSubRowIdx s <> (-1)%Z /\
       get_width instance <= sr_Usewidth sr.

Lemma findSubrowpos_valid (instance : Instance) (row : PlacementRow) (sr : SubRow) :
  findSubrowpos instance row <> (-1)%Z ->
  nth_error (row_subrows row) (Z.to_nat (findSubrowpos instance row)) = Some sr ->
  get_width instance <= sr_Usewidth sr.
Proof.
  intros Hne Hnth. unfold findSubrowpos, get_width in *.
  destruct (inst_cell_template instance) as [c|]; [|contradiction].
  destruct (findSubrowpos_from_none (inst_position_x instance) (ct_width c)
              (row_subrows row) 0 (-1)) as [[H _]|(k & s & Hk & Hres & Hw)].
  - contradiction.
  - rewrite Hres in Hnth. simpl in Hnth. rewrite Nat2Z.id in Hnth. congruence.
Qed.

Section Sweep.

Variable max_disp : Score.
Variable rows : list PlacementRow.
Variable instance : Instance.
Variable t0 : InstanceTable.

Definition sweep_inv (s : Search) : Prop :=
  best_valid rows instance s /\ same_frozen t0 (se_instances s).

Lemma try_row_inv (rowidx : Z) (s : Search) :
  sweep_inv s -> sweep_inv (try_row max_disp rows instance rowidx s).
Proof.
  intros [Hb Ht]. unfold try_row.
  destruct (nth_error rows (Z.to_nat rowidx)) as [row|] eqn:Erow; [|split; assumption].
  destruct (findSubrowpos instance row =? -1)%Z eqn:Esub; [split; assumption|].
  apply Z.eqb_neq in Esub.
  destruct (nth_error (row_subrows row) _) as [sr|] eqn:Esr; [|split; assumption].
  destruct (placeRow_trial max_disp (se_instances s) row _ sr true) as [cost pos].
  destruct (score_ltb cost (se_Cbest s)).
  - split; [|apply same_frozen_write; exact Ht].
    right. exists row, sr. cbn [se_bestRowIdx se_bestSubRowIdx].
    split; [exact Erow|]. split; [exact Esr|]. split; [exact Esub|].
    eapply findSubrowpos_valid; eassumption.
  - split; [|apply same_frozen_write; exact Ht]. exact Hb.
Qed.

Lemma sweep_keeps_inv (origin : Z) :
  forall fuel i s,
    sweep_inv s -> sweep_inv (sweep max_disp rows instance origin fuel i s).
Proof.
  induction fuel as [|fuel IH]; intros i s Hs; simpl; [exact Hs|].
  destruct (negb _ && negb _); [exact Hs|].
  apply IH.
  match goal with |- sweep_inv (if ?d then _ else _) => destruct d end;
    match goal with
    | |- sweep_inv (try_row _ _ _ _ (if ?u then _ else _)) => destruct u
    | |- sweep_inv (if ?u then _ else _) => destruct u
    end;
    repeat apply try_row_inv; exact Hs.
Qed.

End Sweep.

(* ------------------------------------------------------------------------- *)
(** *** The invariant of the loop of [Abacus] *)

Definition all_cells (rows : list PlacementRow) : list string :=
  concat (map row_cells rows).

Lemma Forall_replace_nth {A : Type} (P : A -> Prop) (n : nat) (x : A) (l : list A) :
  Forall P l -> P x -> Forall P (replace_nth n x l).
Proof.
  intros H Hx. revert n. induction H as [|a l Ha Hl IH]; intros [|n]; simpl.
  - constructor.
  - constructor.
  - constructor; assumption.
  - constructor; [exact Ha|apply IH].
Qed.

Lemma concat_replace_nth {A : Type} (f : A -> list string) (n : nat) (x y : A)
      (l : list A) (a : string) :
  nth_error l n = Some y ->
  Permutation (f x) (a :: f y) ->
  Permutation (concat (map f (replace_nth n x l))) (a :: concat (map f l)).
Proof.
  revert n. induction l as [|b l IH]; intros [|n] Hn Hp; simpl in *; try discriminate.
  - injection Hn as ->. rewrite Hp. reflexivity.
  - rewrite (IH n Hn Hp). apply Permutation_sym, Permutation_middle.
Qed.

Lemma subrow_cells_chain (sub : SubRow) :
  Permutation (subrow_cells sub) (chain_cells (sr_clusters sub)).
Proof.
  unfold subrow_cells, chain_cells.
  induction (sr_clusters sub) as [|c l IH]; simpl; [reflexivity|].
  rewrite map_app, concat_app. simpl. rewrite app_nil_r, IH.
  apply Permutation_app_comm.
Qed.

Lemma placeRow_final_chain_cells (row : PlacementRow) (instance : Instance)
      (sr : SubRow) :
  chain_cells (sr_clusters (fst (placeRow_final row instance sr)))
  = (chain_cells (sr_clusters sr) ++ [inst_name instance])%list.
Proof.
  unfold placeRow_final, starts_new_cluster.
  destruct (sr_clusters sr) as [|last lefts] eqn:Ecl; [reflexivity|].
  destruct (Qleb (cl_x last + cl_width last) _); cbn [fst sr_clusters].
  - rewrite (chain_cells_cons _ (last :: lefts)). reflexivity.
  - rewrite Collapse_cells, !chain_cells_cons. simpl. now rewrite app_assoc.
Qed.

Lemma placeRow_final_subrow_cells (row : PlacementRow) (instance : Instance)
      (sr : SubRow) :
  Permutation (subrow_cells (fst (placeRow_final row instance sr)))
              (inst_name instance :: subrow_cells sr).
Proof.
  rewrite subrow_cells_chain, placeRow_final_chain_cells, (subrow_cells_chain sr).
  rewrite Permutation_app_comm. reflexivity.
Qed.

Section AbacusInvariant.

Variable t0 : InstanceTable.
Hypothesis widths_nonneg : Forall (fun p => 0 <= get_width (snd p)) t0.

(** The width of the instance filed under a name. *)
Definition width_of (n : string) : Q :=
  match assoc_find n t0 with Some i => get_width i | None => 0 end.

Lemma width_of_nonneg (n : string) : 0 <= width_of n.
Proof.
  unfold width_of. destruct (assoc_find n t0) as [i|] eqn:E; [|lra].
  apply assoc_find_In in E. rewrite Forall_forall in widths_nonneg.
  apply (widths_nonneg (n, i) E).
Qed.

Definition rows_ok (rows : list PlacementRow) : Prop :=
  Forall (fun row => 0 < row_site_width row /\
                     Forall (sub_ok width_of (row_site_width row)) (row_subrows row))
         rows.

Definition abacus_inv (names : list string) (st : LegalState) : Prop :=
  same_frozen t0 (lg_instances st) /\
  rows_ok (lg_rows st) /\
  NoDup (all_cells (lg_rows st)) /\
  incl (all_cells (lg_rows st)) names.

Lemma current_frozen (t : InstanceTable) (instance : Instance) :
  same_frozen t0 t ->
  assoc_find (inst_name instance) t0 = Some instance ->
  assoc_find (inst_name instance) t = Some (current t instance) /\
  frozen (current t instance) = frozen instance.
Proof.
  intros Ht H0. pose proof (same_frozen_find _ _ (inst_name instance) Ht) as Hf.
  rewrite H0 in Hf. unfold current.
  destruct (assoc_find (inst_name instance) t) as [i|]; simpl in Hf; [|discriminate].
  split; [reflexivity|congruence].
Qed.

Lemma commit_inv (names : list string) (rows : list PlacementRow) (t : InstanceTable)
      (instance : Instance) (ri si : Z) (row : PlacementRow) (sr : SubRow) :
  rows_ok rows ->
  NoDup (all_cells rows) -> incl (all_cells rows) names ->
  ~ In (inst_name instance) names ->
  same_frozen t0 t ->
  assoc_find (inst_name instance) t0 = Some instance ->
  nth_error rows (Z.to_nat ri) = Some row ->
  nth_error (row_subrows row) (Z.to_nat si) = Some sr ->
  get_width instance <= sr_Usewidth sr ->
  rows_ok (fst (commit rows t instance ri si)) /\
  NoDup (all_cells (fst (commit rows t instance ri si))) /\
  incl (all_cells (fst (commit rows t instance ri si))) (inst_name instance :: names) /\
  same_frozen t0 (snd (commit rows t instance ri si)).
Proof.
  intros Hok Hnd Hincl Hfresh Ht H0 Erow Esr Hfit.
  destruct (current_frozen t instance Ht H0) as [Hcur Hfr].
  destruct (frozen_fields _ _ Hfr) as (Hname & Hwid & _ & _).
  unfold commit. rewrite Erow, Esr.
  destruct (placeRow_final row (current t instance) sr) as [sr' pos] eqn:Ef.
  cbn [fst snd].
  assert (Hsr' : sr' = fst (placeRow_final row (current t instance) sr))
    by (rewrite Ef; reflexivity).
  pose proof Hok as Hok'. unfold rows_ok in Hok'. rewrite Forall_forall in Hok'.
  destruct (Hok' row (nth_error_In _ _ Erow)) as [Hsw Hsubs].
  assert (Hsrok : sub_ok width_of (row_site_width row) sr).
  { rewrite Forall_forall in Hsubs. apply Hsubs. eapply nth_error_In. exact Esr. }
  assert (Hsr'ok : sub_ok width_of (row_site_width row) sr').
  { rewrite Hsr'. apply placeRow_final_ok; auto.
    - apply width_of_nonneg.
    - rewrite Hwid, Hname. unfold width_of. rewrite H0. reflexivity.
    - rewrite Hwid. exact Hfit. }
  assert (Hperm : Permutation
                    (all_cells (replace_nth (Z.to_nat ri)
                       (set_subrows (replace_nth (Z.to_nat si) sr' (row_subrows row)) row)
                       rows))
                    (inst_name instance :: all_cells rows)).
  { unfold all_cells. apply (concat_replace_nth _ _ _ row); [exact Erow|].
    unfold row_cells at 1. cbn [set_subrows row_subrows].
    apply (concat_replace_nth _ _ _ sr); [exact Esr|].
    rewrite Hsr', <- Hname. apply placeRow_final_subrow_cells. }
  split; [|split; [|split]].
  - apply Forall_replace_nth; [exact Hok|]. cbn [set_subrows row_site_width row_subrows].
    split; [exact Hsw|]. apply Forall_replace_nth; assumption.
  - eapply Permutation_NoDup; [apply Permutation_sym; exact Hperm|].
    constructor; [|exact Hnd]. intro Hin. apply Hfresh. apply Hincl. exact Hin.
  - intros n Hn. eapply Permutation_in in Hn; [|exact Hperm].
    destruct Hn as [<-|Hn]; [left; reflexivity|right; apply Hincl; exact Hn].
  - apply same_frozen_write. exact Ht.
Qed.

Lemma Abacus_step_inv (max_disp : Score) (names : list string) (st : LegalState)
      (instance : Instance) :
  abacus_inv names st ->
  assoc_find (inst_name instance) t0 = Some instance ->
  ~ In (inst_name instance) names ->
  abacus_inv (inst_name instance :: names) (Abacus_step max_disp st instance).
Proof.
  intros (Ht & Hok & Hnd & Hincl) H0 Hfresh.
  assert (Hweak : incl (all_cells (lg_rows st)) (inst_name instance :: names)).
  { intros n Hn. right. apply Hincl. exact Hn. }
  unfold Abacus_step.
  destruct (findBestRow (lg_rows st) instance =? -1)%Z.
  { repeat split; assumption. }
  pose proof (sweep_keeps_inv max_disp (lg_rows st) instance t0
                (findBestRow (lg_rows st) instance) (length (lg_rows st)) 0
                (mkSearch DblMax (-1) (-1) (lg_instances st))) as Hs.
  match goal with |- context [sweep ?a ?b ?c ?d ?e ?f ?g] =>
    set (s := sweep a b c d e f g) in * end.
  destruct Hs as [Hbest Hts]; [split; [left; reflexivity|exact Ht]|].
  destruct (negb (se_bestRowIdx s =? -1)%Z && negb (se_bestSubRowIdx s =? -1)%Z)
    eqn:Eb.
  - apply andb_true_iff in Eb. destruct Eb as [Eb1 Eb2].
    apply negb_true_iff, Z.eqb_neq in Eb1.
    destruct Hbest as [Hbest|(row & sr & Erow & Esr & _ & Hfit)]; [contradiction|].
    destruct (commit_inv names (lg_rows st) (se_instances s) instance
                (se_bestRowIdx s) (se_bestSubRowIdx s) row sr
                Hok Hnd Hincl Hfresh Hts H0 Erow Esr Hfit) as (A & B & C & D).
    destruct (commit (lg_rows st) (se_instances s) instance (se_bestRowIdx s)
                     (se_bestSubRowIdx s)) as [rows' t'].
    cbn [fst snd] in *. unfold abacus_inv. cbn [lg_instances lg_rows].
    split; [|auto].
    apply same_frozen_update; [apply frozen_set_placement_status|exact D].
  - unfold abacus_inv. cbn [lg_instances lg_rows].
    split; [|auto].
    apply same_frozen_update; [apply frozen_set_new_position|exact Hts].
Qed.

Lemma Abacus_fold_inv (max_disp : Score) (ffs : list Instance) :
  forall names st,
    abacus_inv names st ->
    Forall (fun i => assoc_find (inst_name i) t0 = Some i) ffs ->
    NoDup (map inst_name ffs ++ names) ->
    abacus_inv (rev (map inst_name ffs) ++ names)
               (fold_left (Abacus_step max_disp) ffs st).
Proof.
  induction ffs as [|i ffs IH]; intros names st Hinv Hall Hnd; [exact Hinv|].
  inversion Hall as [|? ? Hi Hrest]; subst.
  cbn [fold_left map rev]. rewrite <- app_assoc. cbn [app].
  simpl in Hnd. apply NoDup_cons_iff in Hnd. destruct Hnd as [Hni Hnd].
  apply IH; [| exact Hrest |].
  - apply Abacus_step_inv; [exact Hinv|exact Hi|].
    intro Hin. apply Hni. apply in_or_app. right. exact Hin.
  - eapply Permutation_NoDup; [apply Permutation_middle|].
    constructor; [exact Hni|exact Hnd].
Qed.

End AbacusInvariant.

(* ------------------------------------------------------------------------- *)
(** *** Rows and table at the start of the loop *)

(** A sub-row as the constructor and [buildSubRows] make it: both ends on
    sites of the row, free width equal to its length, no cluster. *)
Definition fresh_sub (ox sitew : Q) (s : SubRow) : Prop :=
  on_site ox sitew (sr_x_min s) /\ on_site ox sitew (sr_x_max s) /\
  sr_Usewidth s == sr_x_max s - sr_x_min s /\ sr_clusters s = [].

Lemma carve_fresh (ox sitew front back : Q) (sr : list SubRow) :
  on_site ox sitew front -> on_site ox sitew back ->
  Forall (fresh_sub ox sitew) sr -> Forall (fresh_sub ox sitew) (carve front back sr).
Proof.
  intros Hf Hb. induction sr as [|s rest IH]; intro H; simpl; [constructor|].
  inversion H as [|? ? Hs Hrest]; subst. specialize (IH Hrest).
  destruct Hs as (S1 & S2 & S3 & S4).
  destruct (_ || _); [constructor; [repeat split; assumption|assumption]|].
  destruct (_ && _); [assumption|].
  destruct (_ && _);
    [constructor; [unfold fresh_sub; simpl; repeat split; auto; reflexivity|assumption]|].
  destruct (_ && _);
    [constructor; [unfold fresh_sub; simpl; repeat split; auto; reflexivity|assumption]|].
  constructor; [unfold fresh_sub, new_SubRow; simpl; repeat split; auto; reflexivity|].
  constructor; [unfold fresh_sub, new_SubRow; simpl; repeat split; auto; reflexivity|].
  assumption.
Qed.

Definition fresh_row (r : PlacementRow) : Prop :=
  0 < row_site_width r /\
  Forall (fresh_sub (row_origin_x r) (row_site_width r)) (row_subrows r).

Lemma carve_row_fresh (a b c d : Q) (r : PlacementRow) :
  fresh_row r -> fresh_row (carve_row a b c d r).
Proof.
  intros [Hsw H]. unfold carve_row. destruct (negb _); [split; assumption|].
  split; [exact Hsw|]. cbn [row_subrows row_origin_x row_site_width].
  apply carve_fresh; [| |exact H].
  - exists (Qfloor ((a - row_origin_x r) / row_site_width r + eps)). reflexivity.
  - exists (Qceiling ((b - row_origin_x r) / row_site_width r - eps)). reflexivity.
Qed.

Lemma init_row_fresh (i : Z) (r : PlacementRow) :
  row_subrows r = [] -> row_site_width r == 0 -> 0 < row_step_x r ->
  fresh_row (init_row i r).
Proof.
  intros Hs Hw Hstep. unfold fresh_row, init_row. rewrite Hs.
  cbn [row_site_width row_subrows row_origin_x].
  assert (E : Qeqb (row_site_width r) 0 = true) by (apply Qeq_bool_iff; exact Hw).
  rewrite E. split; [exact Hstep|].
  constructor; [|constructor]. unfold fresh_sub, new_SubRow. simpl.
  split; [apply on_site_base|]. split; [|split; [reflexivity|reflexivity]].
  exists (row_num_x r). ring.
Qed.

Lemma Legalizer_init_fresh (rows : list PlacementRow) :
  Forall (fun r => row_subrows r = [] /\ row_site_width r == 0 /\ 0 < row_step_x r)
         rows ->
  Forall fresh_row (Legalizer_init rows).
Proof.
  unfold Legalizer_init. intro H. generalize 0%Z as i.
  induction H as [|r rows (H1 & H2 & H3) _ IH]; intro i; simpl; [constructor|].
  constructor; [apply init_row_fresh; [exact H1|exact H2|exact H3]|apply IH].
Qed.

Lemma buildSubRows_fresh (rows : list PlacementRow) (blks : list Instance)
      (rects : list Rectangle) :
  Forall fresh_row rows -> Forall fresh_row (buildSubRows rows blks rects).
Proof.
  intro H. unfold buildSubRows.
  rewrite fold_carve_rect, fold_carve_instance, map_map.
  apply Forall_map. eapply Forall_impl; [|exact H].
  intros r Hr. simpl.
  assert (H1 : fresh_row (fold_left carve_row_instance (sort_by_x blks) r)).
  { clear H. revert r Hr. induction (sort_by_x blks) as [|b l IH]; intros r Hr; simpl.
    - exact Hr.
    - apply IH. unfold carve_row_instance.
      destruct (inst_cell_template b); [now apply carve_row_fresh|exact Hr]. }
  revert H1. generalize (fold_left carve_row_instance (sort_by_x blks) r).
  clear. induction rects as [|rc l IH]; intros r Hr; simpl.
  - exact Hr.
  - apply IH. now apply carve_row_fresh.
Qed.

Lemma fresh_sub_ok (W : string -> Q) (ox sitew : Q) (s : SubRow) :
  fresh_sub ox sitew s -> sub_ok W sitew s.
Proof.
  intros ([a Ha] & [b Hb] & Hu & Hc). unfold sub_ok. rewrite Hc. simpl.
  split; [|split; [exact I|lra]].
  exists (b - a)%Z. rewrite Hb, Ha.
  replace (b - a)%Z with (b + - a)%Z by lia.
  rewrite inject_Z_plus, inject_Z_opp. ring.
Qed.

Lemma fresh_rows_ok (t0 : InstanceTable) (rows : list PlacementRow) :
  Forall fresh_row rows -> rows_ok t0 rows /\ all_cells rows = [].
Proof.
  intro H. split.
  - unfold rows_ok. eapply Forall_impl; [|exact H].
    intros r [Hsw Hs]. split; [exact Hsw|].
    eapply Forall_impl; [|exact Hs]. intros s. apply fresh_sub_ok.
  - unfold all_cells. induction H as [|r rows [_ Hr] _ IH]; simpl; [reflexivity|].
    rewrite IH, app_nil_r. unfold row_cells.
    induction Hr as [|s l (_ & _ & _ & Hc) _ IHs]; simpl; [reflexivity|].
    rewrite IHs, app_nil_r. unfold subrow_cells. rewrite Hc. reflexivity.
Qed.

(** The table and the flip-flops [classify_instances] hands to the loop. *)
Lemma classify_instances_spec (instances : InstanceTable) :
  let '(ffs, blks, t) := classify_instances instances in
  keys t = keys instances /\
  ffs = filter is_flip_flop (map snd instances) /\
  Forall2 (fun p p' => fst p' = fst p /\ frozen (snd p') = frozen (snd p) /\
                       (is_flip_flop (snd p) = true -> snd p' = snd p))
          instances t.
Proof.
  induction instances as [|[k i] rest IH]; simpl.
  - repeat split; constructor.
  - destruct (classify_instances rest) as [[ffs blks] t].
    destruct IH as (K & F & A).
    destruct (is_flip_flop i) eqn:E.
    + split; [simpl; now rewrite K|]. split; [now rewrite F|].
      constructor; [|exact A]. simpl. auto.
    + split; [simpl; now rewrite K|]. split; [exact F|].
      constructor; [|exact A]. simpl. split; [reflexivity|].
      split; [apply frozen_set_new_position|]. rewrite E. discriminate.
Qed.

Lemma insert_by_x_perm (i : Instance) (l : list Instance) :
  Permutation (insert_by_x i l) (i :: l).
Proof.
  induction l as [|j l IH]; simpl; [reflexivity|].
  destruct (Qltb _ _); [|reflexivity].
  rewrite IH. apply perm_swap.
Qed.

Lemma sort_by_x_perm (l : list Instance) : Permutation (sort_by_x l) l.
Proof.
  induction l as [|i l IH]; simpl; [reflexivity|].
  rewrite insert_by_x_perm. constructor. exact IH.
Qed.

Lemma assoc_find_NoDup {A : Type} (k : string) (v : A) (m : list (string * A)) :
  NoDup (keys m) -> In (k, v) m -> assoc_find k m = Some v.
Proof.
  unfold keys. induction m as [|[k0 v0] m IH]; simpl; [tauto|].
  intros Hnd [E|Hin].
  - injection E as -> ->. now rewrite String.eqb_refl.
  - inversion Hnd as [|? ? Hn Hnd']; subst.
    destruct (String.eqb_spec k k0) as [->|_].
    + exfalso. apply Hn. apply (in_map fst) in Hin. exact Hin.
    + apply IH; assumption.
Qed.

Lemma classify_flip_flops (instances : InstanceTable) :
  Forall (fun p => inst_name (snd p) = fst p /\ 0 <= get_width (snd p)) instances ->
  NoDup (keys instances) ->
  let '(ffs, blks, t) := classify_instances instances in
  Forall (fun p => 0 <= get_width (snd p)) t /\
  Forall (fun i => assoc_find (inst_name i) t = Some i) ffs /\
  NoDup (map inst_name ffs).
Proof.
  intros Hk Hnd. pose proof (classify_instances_spec instances) as H.
  destruct (classify_instances instances) as [[ffs blks] t].
  destruct H as (K & F & A).
  assert (Hw : Forall (fun p => 0 <= get_width (snd p)) t).
  { clear K F Hnd. induction A as [|p p' l l' (_ & Hf & _) _ IH]; [constructor|].
    inversion Hk as [|? ? [_ Hp] Hrest]; subst.
    constructor; [|apply IH; exact Hrest].
    destruct (frozen_fields _ _ Hf) as (_ & Hwid & _). rewrite Hwid. exact Hp. }
  assert (Hin : forall i, In i ffs -> In (inst_name i, i) t).
  { subst ffs. clear K Hnd Hw. induction A as [|p p' l l' (Hk1 & _ & Hff) _ IH];
      [intros i []|].
    inversion Hk as [|? ? [Hp _] Hrest]; subst.
    intros i. simpl. destruct (is_flip_flop (snd p)) eqn:E.
    - intros [<-|Hi].
      + left. specialize (Hff eq_refl). destruct p as [k j], p' as [k' j'].
        simpl in *. subst. reflexivity.
      + right. apply IH; assumption.
    - intro Hi. right. apply IH; assumption. }
  split; [exact Hw|]. split.
  - apply Forall_forall. intros i Hi. apply assoc_find_NoDup; [|apply Hin; exact Hi].
    rewrite K. exact Hnd.
  - subst ffs. clear -Hk Hnd. unfold keys in Hnd.
    induction instances as [|[k i] rest IH]; simpl; [constructor|].
    inversion Hk as [|? ? [Hn _] Hrest]; subst. simpl in Hn, Hnd.
    inversion Hnd as [|? ? Hni Hnd']; subst.
    destruct (is_flip_flop i); [|apply IH; assumption].
    simpl. constructor; [|apply IH; assumption].
    intro H. apply Hni. clear -H Hrest.
    induction rest as [|[k' j] rest IH]; simpl in *; [contradiction|].
    inversion Hrest as [|? ? [Hn' _] Hrest']; subst. simpl in Hn'.
    destruct (is_flip_flop j); simpl in H.
    + destruct H as [H|H]; [left; congruence|right; apply IH; assumption].
    + right. apply IH; assumption.
Qed.

(** The state in which [Abacus] leaves rows and table. *)
Lemma Abacus_inv (max_disp : Score) (rows : list PlacementRow)
      (instances : InstanceTable) (placement_blockages : list Rectangle) :
  Forall fresh_row rows ->
  Forall (fun p => inst_name (snd p) = fst p /\ 0 <= get_width (snd p)) instances ->
  NoDup (keys instances) ->
  exists t0 names,
    Forall (fun p => 0 <= get_width (snd p)) t0 /\
    (forall n, In n names -> exists i, assoc_find n t0 = Some i) /\
    abacus_inv t0 names (Abacus max_disp rows instances placement_blockages).
Proof.
  intros Hrows Hk Hnd. unfold Abacus.
  pose proof (classify_flip_flops instances Hk Hnd) as H.
  destruct (classify_instances instances) as [[ffs blks] t].
  destruct H as (Hw & Hff & Hnames).
  exists t, (rev (map inst_name (sort_by_x ffs)) ++ [])%list.
  split; [exact Hw|]. split.
  - intros n Hn. rewrite app_nil_r in Hn. apply in_rev in Hn.
    apply in_map_iff in Hn. destruct Hn as (i & <- & Hi).
    apply (proj1 (sort_by_x_In _ _)) in Hi. rewrite Forall_forall in Hff.
    exists i. apply Hff. exact Hi.
  - apply Abacus_fold_inv.
    + exact Hw.
    + destruct (fresh_rows_ok t _ (buildSubRows_fresh rows blks placement_blockages
                                                     Hrows)) as [Hok Hcells].
      unfold abacus_inv. cbn [lg_instances lg_rows]. rewrite Hcells.
      split; [reflexivity|]. split; [exact Hok|].
      split; [constructor|intros n []].
    + apply Forall_forall. intros i Hi. apply (proj1 (sort_by_x_In _ _)) in Hi.
      rewrite Forall_forall in Hff. apply Hff. exact Hi.
    + rewrite app_nil_r. eapply Permutation_NoDup; [|exact Hnames].
      apply Permutation_map. apply Permutation_sym. apply sort_by_x_perm.
Qed.

(* ------------------------------------------------------------------------- *)
(** *** The positions [place] writes *)

(** The cells of a list, left to right, stand side by side between [lo] and
    [hi]: each has an entry in the table with [y_new = y], starts at or
    after the end of the one before (the first at or after [lo]) and ends at
    or before [hi], where a cell ends at [x_new] plus its placed width. *)
Fixpoint footprints (t : InstanceTable) (sitew y : Q) (cells : list string)
         (lo hi : Q) : Prop :=
  match cells with
  | [] => True
  | n :: rest =>
      exists i,
        assoc_find n t = Some i /\
        inst_y_new i = y /\
        lo <= inst_x_new i /\
        inst_x_new i + placed_width sitew (get_width i) <= hi /\
        footprints t sitew y rest (inst_x_new i + placed_width sitew (get_width i)) hi
  end.

Lemma footprints_lo (t : InstanceTable) (sitew y : Q) (cells : list string)
      (lo lo' hi : Q) :
  lo' <= lo -> footprints t sitew y cells lo hi -> footprints t sitew y cells lo' hi.
Proof.
  destruct cells as [|n rest]; simpl; [auto|].
  intros Hlo (i & A & B & C & D & E). exists i. repeat split; auto. lra.
Qed.

Lemma footprints_app (t : InstanceTable) (sitew y : Q) (a b : list string)
      (lo mid hi : Q) :
  lo <= mid -> mid <= hi ->
  footprints t sitew y a lo mid -> footprints t sitew y b mid hi ->
  footprints t sitew y (a ++ b) lo hi.
Proof.
  revert lo. induction a as [|n a IH]; intros lo Hlo Hhi Ha Hb; simpl.
  - eapply footprints_lo; eassumption.
  - destruct Ha as (i & A & B & C & D & E). exists i.
    split; [exact A|]. split; [exact B|]. split; [exact C|]. split; [lra|].
    apply IH; assumption.
Qed.

Lemma fold_left_ext {A B : Type} (f g : A -> B -> A) (l : list B) :
  (forall a x, f a x = g a x) -> forall a, fold_left f l a = fold_left g l a.
Proof.
  intro H. induction l as [|x l IH]; intro a; simpl; [reflexivity|].
  rewrite H. apply IH.
Qed.

Lemma fold_left_flat_map {A B C : Type} (f : A -> C -> A) (g : B -> list C)
      (l : list B) :
  forall a, fold_left f (flat_map g l) a
            = fold_left (fun a x => fold_left f (g x) a) l a.
Proof.
  induction l as [|x l IH]; intro a; simpl; [reflexivity|].
  rewrite fold_left_app. apply IH.
Qed.

Lemma fold_left_map {A B C : Type} (f : A -> C -> A) (g : B -> C) (l : list B) :
  forall a, fold_left f (map g l) a = fold_left (fun a x => f a (g x)) l a.
Proof.
  induction l as [|x l IH]; intro a; simpl; [reflexivity|]. apply IH.
Qed.

(** One run of the inner loop of [place]: site width, y, start, cells. *)
Definition run_cmd (t : InstanceTable) (cmd : Q * Q * Q * list string)
  : InstanceTable :=
  let '(sitew, y, x, cells) := cmd in place_cells sitew y cells x t.

Definition cluster_cmd (row : PlacementRow) (sub : SubRow) (c : Cluster)
  : Q * Q * Q * list string :=
  (row_site_width row, row_origin_y row,
   snap_down (sr_x_min sub) (row_site_width row) (cl_x c), cl_cells c).

Definition cmds_of_row (row : PlacementRow) : list (Q * Q * Q * list string) :=
  flat_map (fun sub => map (cluster_cmd row sub) (sr_clusters sub)) (row_subrows row).

Definition cmds (rows : list PlacementRow) : list (Q * Q * Q * list string) :=
  flat_map cmds_of_row rows.

Lemma place_as_cmds (rows : list PlacementRow) (t : InstanceTable) :
  fold_left place_row rows t = fold_left run_cmd (cmds rows) t.
Proof.
  unfold cmds. rewrite fold_left_flat_map. apply fold_left_ext.
  intros a row. unfold place_row, cmds_of_row. rewrite fold_left_flat_map.
  apply fold_left_ext. intros b sub. unfold place_subrow. rewrite fold_left_map.
  apply fold_left_ext. intros c cl. reflexivity.
Qed.

Lemma cmds_cells (rows : list PlacementRow) :
  concat (map snd (cmds rows)) = all_cells rows.
Proof.
  unfold cmds, all_cells. induction rows as [|row rows IH]; simpl; [reflexivity|].
  rewrite map_app, concat_app, IH. f_equal.
  unfold cmds_of_row, row_cells.
  induction (row_subrows row) as [|sub subs IHs]; simpl; [reflexivity|].
  rewrite map_app, concat_app, IHs. f_equal.
  unfold subrow_cells. rewrite map_map. reflexivity.
Qed.

Section Place.

Variable t0 : InstanceTable.

Local Abbreviation W := (width_of t0).

Lemma same_frozen_width (t : InstanceTable) (n : string) (i : Instance) :
  same_frozen t0 t -> assoc_find n t = Some i -> get_width i = W n.
Proof.
  intros Ht Hi. pose proof (same_frozen_find _ _ n Ht) as Hf. rewrite Hi in Hf.
  unfold width_of. destruct (assoc_find n t0) as [i0|]; [|discriminate].
  assert (Hf' : frozen i = frozen i0).
  { apply (f_equal (fun o => match o with Some v => v | None => frozen i end)) in Hf.
    exact Hf. }
  apply frozen_fields in Hf'. tauto.
Qed.

Lemma same_frozen_present (t : InstanceTable) (n : string) :
  same_frozen t0 t -> assoc_find n t0 <> None -> assoc_find n t <> None.
Proof.
  intros Ht H0 Hn. pose proof (same_frozen_find _ _ n Ht) as Hf. rewrite Hn in Hf.
  destruct (assoc_find n t0); [discriminate|contradiction].
Qed.

Lemma place_cells_frozen (sitew y : Q) (cells : list string) :
  forall x t, same_frozen t0 t -> same_frozen t0 (place_cells sitew y cells x t).
Proof.
  induction cells as [|n rest IH]; intros x t Ht; simpl; [exact Ht|].
  apply IH. apply same_frozen_update; [apply frozen_set_new_position|exact Ht].
Qed.

Lemma place_cells_other (sitew y : Q) (cells : list string) (n : string) :
  ~ In n cells ->
  forall x t, assoc_find n (place_cells sitew y cells x t) = assoc_find n t.
Proof.
  induction cells as [|m rest IH]; intros Hn x t; simpl; [reflexivity|].
  rewrite IH by (intro H; apply Hn; right; exact H).
  rewrite assoc_find_update_instance.
  destruct (String.eqb_spec n m) as [->|_]; [|reflexivity].
  exfalso. apply Hn. left. reflexivity.
Qed.

(** The cells stand side by side from [x] on. *)
Fixpoint cells_at (t : InstanceTable) (sitew y : Q) (cells : list string) (x : Q)
  : Prop :=
  match cells with
  | [] => True
  | n :: rest =>
      (exists i, assoc_find n t = Some i /\ inst_x_new i = x /\ inst_y_new i = y /\
                 get_width i = W n) /\
      cells_at t sitew y rest (x + placed_width sitew (W n))
  end.

Lemma cells_at_ext (t t' : InstanceTable) (sitew y : Q) (cells : list string) :
  (forall n, In n cells -> assoc_find n t' = assoc_find n t) ->
  forall x, cells_at t sitew y cells x -> cells_at t' sitew y cells x.
Proof.
  induction cells as [|n rest IH]; intros Heq x; simpl; [auto|].
  intros [(i & A & B) H]. split.
  - exists i. rewrite Heq by (left; reflexivity). auto.
  - apply IH; [|exact H]. intros m Hm. apply Heq. right. exact Hm.
Qed.

Lemma place_cells_at (sitew y : Q) (cells : list string) :
  NoDup cells ->
  forall x t,
    same_frozen t0 t ->
    (forall n, In n cells -> assoc_find n t0 <> None) ->
    cells_at (place_cells sitew y cells x t) sitew y cells x.
Proof.
  induction 1 as [|n rest Hn Hnd IH]; intros x t Ht Hpres; simpl; [exact I|].
  destruct (assoc_find n t) as [i|] eqn:Ei.
  2:{ exfalso. apply (same_frozen_present t n Ht); [apply Hpres; left; reflexivity|].
      exact Ei. }
  pose proof (same_frozen_width t n i Ht Ei) as Hw. rewrite Hw.
  split.
  - rewrite place_cells_other by exact Hn.
    rewrite assoc_find_update_instance, String.eqb_refl, Ei. simpl.
    eexists. split; [reflexivity|]. destruct i; simpl in *. auto.
  - apply IH.
    + apply same_frozen_update; [apply frozen_set_new_position|exact Ht].
    + intros m Hm. apply Hpres. right. exact Hm.
Qed.

Lemma run_cmds_other (l : list (Q * Q * Q * list string)) (n : string) :
  ~ In n (concat (map snd l)) ->
  forall t, assoc_find n (fold_left run_cmd l t) = assoc_find n t.
Proof.
  induction l as [|[[[sitew y] x] cells] l IH]; intros Hn t; simpl; [reflexivity|].
  simpl in Hn. rewrite IH by (intro H; apply Hn; apply in_or_app; right; exact H).
  apply place_cells_other. intro H. apply Hn. apply in_or_app. left. exact H.
Qed.

Lemma run_cmds_frozen (l : list (Q * Q * Q * list string)) :
  forall t, same_frozen t0 t -> same_frozen t0 (fold_left run_cmd l t).
Proof.
  induction l as [|[[[sitew y] x] cells] l IH]; intros t Ht; simpl; [exact Ht|].
  apply IH. apply place_cells_frozen. exact Ht.
Qed.

Lemma run_cmds_at (l : list (Q * Q * Q * list string)) :
  NoDup (concat (map snd l)) ->
  (forall n, In n (concat (map snd l)) -> assoc_find n t0 <> None) ->
  forall t,
    same_frozen t0 t ->
    forall sitew y x cells,
      In (sitew, y, x, cells) l ->
      cells_at (fold_left run_cmd l t) sitew y cells x.
Proof.
  induction l as [|[[[sitew0 y0] x0] cells0] l IH]; intros Hnd Hpres t Ht sitew y x cells Hin;
    [destruct Hin|].
  simpl in Hnd, Hpres. simpl fold_left.
  assert (Hnd0 : NoDup cells0) by (eapply NoDup_app_remove_r; exact Hnd).
  assert (Hndl : NoDup (concat (map snd l))) by (eapply NoDup_app_remove_l; exact Hnd).
  destruct Hin as [E|Hin].
  - injection E as <- <- <- <-.
    apply (cells_at_ext (place_cells sitew0 y0 cells0 x0 t)).
    + intros n Hn. apply run_cmds_other. intro Hl.
      revert Hn Hl. clear -Hnd. revert Hnd. generalize (concat (map snd l)) as rest.
      induction cells0 as [|m cells0 IHc]; intros rest Hnd Hn Hl; [destruct Hn|].
      simpl in Hnd. inversion Hnd as [|? ? Hm Hnd']; subst.
      destruct Hn as [->|Hn].
      * apply Hm. apply in_or_app. right. exact Hl.
      * eapply IHc; eassumption.
    + apply place_cells_at; [exact Hnd0|exact Ht|].
      intros n Hn. apply Hpres. apply in_or_app. left. exact Hn.
  - apply IH; auto.
    + intros n Hn. apply Hpres. apply in_or_app. right. exact Hn.
    + apply place_cells_frozen. exact Ht.
Qed.

Section Geometry.

Variable sitew : Q.
Hypothesis sitew_pos : 0 < sitew.
Hypothesis W_nonneg : forall n, 0 <= W n.

Lemma cells_at_footprints (t : InstanceTable) (y : Q) (cells : list string) :
  forall x lo hi,
    cells_at t sitew y cells x ->
    lo <= x -> x + cells_width W sitew cells <= hi ->
    footprints t sitew y cells lo hi.
Proof.
  induction cells as [|n rest IH]; intros x lo hi Hat Hlo Hhi; simpl; [exact I|].
  destruct Hat as [(i & A & B & C & D) Hrest]. simpl in Hhi.
  pose proof (cells_width_nonneg W sitew sitew_pos W_nonneg rest) as Hnn.
  exists i. rewrite B, D.
  split; [exact A|]. split; [exact C|]. split; [exact Hlo|]. split; [lra|].
  apply (IH (x + placed_width sitew (W n))); [exact Hrest|lra|lra].
Qed.

Lemma chain_footprints (t : InstanceTable) (y xmin : Q) (chain : list Cluster) :
  forall hi,
    chain_ok W sitew xmin chain hi ->
    (forall c, In c chain ->
               exists x, x == cl_x c /\ cells_at t sitew y (cl_cells c) x) ->
    footprints t sitew y (chain_cells chain) xmin hi.
Proof.
  induction chain as [|c lefts IH]; intros hi Hok Hat; [exact I|].
  rewrite chain_cells_cons.
  destruct Hok as (H1 & H2 & H3 & H4 & H5).
  pose proof (cells_width_nonneg W sitew sitew_pos W_nonneg (cl_cells c)) as Hnn.
  apply (footprints_app _ _ _ _ _ _ (cl_x c)); [exact H2|lra| |].
  - apply IH; [exact H5|]. intros c' Hc'. apply Hat. right. exact Hc'.
  - destruct (Hat c (or_introl eq_refl)) as (x & Ex & Hx).
    apply (cells_at_footprints _ _ _ x); [exact Hx|lra|lra].
Qed.

End Geometry.

End Place.

(** No overlap after legalization (constructor, [Abacus], [place]).  Let the
    rows come as the parser leaves them (no sub-rows, site width not yet set,
    positive site step) and let the instance table file every instance under
    its own name, once, with cells of non-negative width.  Then in every
    sub-row of every row the cells the clusters hold stand side by side: read
    from left to right, each cell has [y_new] the origin y of the row, starts
    at or right of the sub-row's [x_min] and of the end of the cell before
    it, and ends, [x_new] plus its site-rounded width, at or left of the
    sub-row's [x_max]. *)
Theorem legalize_no_overlap
        (max_disp : Score) (rows : list PlacementRow) (instances : InstanceTable)
        (placement_blockages : list Rectangle) (row : PlacementRow) (sub : SubRow) :
  let st := legalize max_disp rows instances placement_blockages in
  Forall (fun r => row_subrows r = [] /\ row_site_width r == 0 /\ 0 < row_step_x r)
         rows ->
  Forall (fun p => inst_name (snd p) = fst p /\ 0 <= get_width (snd p)) instances ->
  NoDup (keys instances) ->
  In row (lg_rows st) ->
  In sub (row_subrows row) ->
  footprints (lg_instances st) (row_site_width row) (row_origin_y row)
             (chain_cells (sr_clusters sub)) (sr_x_min sub) (sr_x_max sub).
Proof.
  intros st Hrows Hinst Hnd Hrow Hsub. subst st. unfold legalize in *.
  destruct (Abacus_inv max_disp (Legalizer_init rows) instances placement_blockages
              (Legalizer_init_fresh rows Hrows) Hinst Hnd)
    as (t0 & names & Hw & Hpres & Hfr & Hok & Hcells & Hincl).
  set (ab := Abacus max_disp (Legalizer_init rows) instances placement_blockages) in *.
  unfold place in *. cbn [lg_rows lg_instances] in *.
  rewrite place_as_cmds.
  unfold rows_ok in Hok. rewrite Forall_forall in Hok.
  destruct (Hok row Hrow) as [Hsw Hsubs].
  rewrite Forall_forall in Hsubs. specialize (Hsubs sub Hsub).
  destruct Hsubs as (Hm & Hc & Hu).
  apply (chain_footprints t0 (row_site_width row) Hsw (width_of_nonneg t0 Hw)).
  - exact Hc.
  - intros c Hcin. exists (snap_down (sr_x_min sub) (row_site_width row) (cl_x c)).
    split.
    + apply snap_down_on_site_id; [exact Hsw|].
      clear -Hc Hcin. revert Hc. generalize (sr_x_max sub).
      induction (sr_clusters sub) as [|c0 l IH]; intros hi Hc; [destruct Hcin|].
      destruct Hc as (_ & _ & H3 & _ & H5).
      destruct Hcin as [<-|Hcin]; [exact H3|]. eapply IH; eassumption.
    + apply run_cmds_at.
      * rewrite cmds_cells. exact Hcells.
      * intros n Hn. rewrite cmds_cells in Hn. apply Hincl in Hn.
        destruct (Hpres n Hn) as [i Hi]. rewrite Hi. discriminate.
      * exact Hfr.
      * unfold cmds. apply in_flat_map. exists row. split; [exact Hrow|].
        unfold cmds_of_row. apply in_flat_map. exists sub. split; [exact Hsub|].
        apply in_map_iff. exists c. split; [reflexivity|exact Hcin].
Qed.

(** Scenario 5 of the specification: [f1] and [f2] side by side in the
    sub-row right of the blockage. *)
Lemma legalize_no_overlap_witness :
  footprints (lg_instances (legalize DblMax [ex_row] ex_legal_instances [ex_blockage]))
             (row_site_width ex_final_row) (row_origin_y ex_final_row)
             (chain_cells (sr_clusters ex_final_subrow))
             (sr_x_min ex_final_subrow) (sr_x_max ex_final_subrow).
Proof.
  apply (legalize_no_overlap DblMax [ex_row] ex_legal_instances [ex_blockage]
           ex_final_row ex_final_subrow).
  - constructor; [|constructor]. split; [reflexivity|]. split; reflexivity.
  - constructor; [|constructor; [|constructor]]; split; try reflexivity;
      vm_compute; discriminate.
  - vm_compute. constructor; [|constructor; [|constructor]].
    + intros [H|[]]. discriminate H.
    + intros [].
  - vm_compute. left. reflexivity.
  - vm_compute. right. left. reflexivity.
Defined.

(* ------------------------------------------------------------------------- *)
(** *** Order of the sub-rows of a row *)

(** Bounds [(x_min, x_max)] in left-to-right order from [lo] on, none
    reaching into the next. *)
Fixpoint bounds_sorted (lo : Q) (bounds : list (Q * Q)) : Prop :=
  match bounds with
  | [] => True
  | (a, b) :: rest => lo <= a /\ a <= b /\ bounds_sorted b rest
  end.

Definition subrow_bounds (sr : list SubRow) : list (Q * Q) :=
  map (fun s => (sr_x_min s, sr_x_max s)) sr.

Lemma bounds_sorted_lo (lo lo' : Q) (bounds : list (Q * Q)) :
  lo' <= lo -> bounds_sorted lo bounds -> bounds_sorted lo' bounds.
Proof.
  destruct bounds as [|[a b] rest]; simpl; [auto|].
  intros H (H1 & H2 & H3). repeat split; auto. lra.
Qed.

Lemma carve_sorted (front back : Q) (sr : list SubRow) :
  front <= back ->
  forall lo,
    bounds_sorted lo (subrow_bounds sr) ->
    bounds_sorted lo (subrow_bounds (carve front back sr)).
Proof.
  intro Hfb. induction sr as [|s rest IH]; intros lo H; simpl; [exact I|].
  simpl in H. destruct H as (H1 & H2 & H3).
  destruct (Qleb (sr_x_max s) front) eqn:E1; simpl.
  { repeat split; auto. }
  destruct (Qleb back (sr_x_min s)) eqn:E2; simpl.
  { repeat split; auto. }
  qbool.
  destruct (Qleb front (sr_x_min s)) eqn:E3; simpl.
  - destruct (Qleb (sr_x_max s) back) eqn:E4; simpl.
    { apply IH. eapply bounds_sorted_lo; [|exact H3]. lra. }
    destruct (Qltb back (sr_x_max s)) eqn:E5; simpl; qbool; [|exfalso; lra].
    repeat split; auto; lra.
  - destruct (Qltb (sr_x_min s) front) eqn:E5; simpl; qbool; [|exfalso; lra].
    destruct (Qleb (sr_x_max s) back) eqn:E4; simpl; qbool.
    + split; [exact H1|]. split; [lra|].
      apply IH. eapply bounds_sorted_lo; [|exact H3]. lra.
    + split; [exact H1|]. split; [lra|]. split; [exact Hfb|]. split; [lra|].
      apply IH. exact H3.
Qed.

Lemma snapped_edges_ordered (ox sitew MINx MAXx : Q) :
  0 < sitew -> MINx <= MAXx ->
  ox + floorQ ((MINx - ox) / sitew + eps) * sitew
  <= ox + ceilQ ((MAXx - ox) / sitew - eps) * sitew.
Proof.
  intros Hsw Hx. unfold floorQ, ceilQ.
  set (F := Qfloor ((MINx - ox) / sitew + eps)).
  set (C := Qceiling ((MAXx - ox) / sitew - eps)).
  assert (HF : inject_Z F <= (MINx - ox) / sitew + eps) by apply Qfloor_le.
  assert (HC : (MAXx - ox) / sitew - eps <= inject_Z C) by apply Qle_ceiling.
  assert (Hd : (MINx - ox) / sitew <= (MAXx - ox) / sitew).
  { apply Qmult_le_compat_r; [lra|]. apply Qlt_le_weak, Qinv_lt_0_compat. exact Hsw. }
  assert (He : eps + eps < 1) by reflexivity.
  assert (Hlt : inject_Z F < inject_Z C + 1) by lra.
  apply inject_Z_lt_succ in Hlt.
  pose proof (mult_le_sites _ _ sitew Hsw Hlt). lra.
Qed.

(** A row whose sub-rows are in order. *)
Definition frame_sorted (f : Q * Q * Q * Q * list (Q * Q)) : Prop :=
  let '(ox, _, _, sitew, bounds) := f in 0 < sitew /\ bounds_sorted ox bounds.

Definition row_sorted (r : PlacementRow) : Prop := frame_sorted (row_frame r).

Lemma carve_row_sorted (a b c d : Q) (r : PlacementRow) :
  a <= b -> row_sorted r -> row_sorted (carve_row a b c d r).
Proof.
  intros Hab [Hsw H]. unfold carve_row. destruct (negb _); [split; assumption|].
  split; [exact Hsw|]. cbn [row_frame row_subrows row_origin_x row_site_width].
  apply carve_sorted; [|exact H].
  apply snapped_edges_ordered; assumption.
Qed.

Lemma init_row_sorted (i : Z) (r : PlacementRow) :
  row_subrows r = [] -> row_site_width r == 0 -> 0 < row_step_x r ->
  (0 <= row_num_x r)%Z ->
  row_sorted (init_row i r).
Proof.
  intros Hs Hw Hstep Hn. unfold row_sorted, row_frame, init_row. rewrite Hs.
  cbn [row_site_width row_subrows row_origin_x frame_sorted map].
  assert (E : Qeqb (row_site_width r) 0 = true) by (apply Qeq_bool_iff; exact Hw).
  rewrite E. split; [exact Hstep|]. simpl.
  split; [lra|]. split; [|exact I].
  assert (0 <= row_step_x r * inject_Z (row_num_x r)).
  { apply Qmult_le_0_compat; [lra|]. rewrite Zle_Qle in Hn. exact Hn. }
  lra.
Qed.

Lemma classify_instances_blks (instances : InstanceTable) :
  Forall (fun p => 0 <= get_width (snd p)) instances ->
  Forall (fun b => 0 <= get_width b) (snd (fst (classify_instances instances))).
Proof.
  induction 1 as [|[k i] rest Hi _ IH]; simpl; [constructor|].
  destruct (classify_instances rest) as [[ffs blks] t]. simpl in IH.
  destruct (is_flip_flop i); simpl; [exact IH|].
  constructor; [|exact IH]. destruct i; exact Hi.
Qed.

Lemma buildSubRows_sorted (rows : list PlacementRow) (blks : list Instance)
      (rects : list Rectangle) :
  Forall (fun b => 0 <= get_width b) blks ->
  Forall (fun rect => rect_x1 rect <= rect_x2 rect) rects ->
  Forall row_sorted rows -> Forall row_sorted (buildSubRows rows blks rects).
Proof.
  intros Hb Hr H. unfold buildSubRows.
  rewrite fold_carve_rect, fold_carve_instance, map_map.
  apply Forall_map. eapply Forall_impl; [|exact H].
  intros r Hrow. simpl.
  assert (Hb' : Forall (fun b => 0 <= get_width b) (sort_by_x blks)).
  { apply Forall_forall. intros b Hin. apply (proj1 (sort_by_x_In _ _)) in Hin.
    rewrite Forall_forall in Hb. apply Hb. exact Hin. }
  assert (H1 : row_sorted (fold_left carve_row_instance (sort_by_x blks) r)).
  { clear H Hb. revert r Hrow.
    induction Hb' as [|b l Hbw _ IH]; intros r Hrow; simpl; [exact Hrow|].
    apply IH. unfold carve_row_instance. unfold get_width in Hbw.
    destruct (inst_cell_template b) as [c|]; [|exact Hrow].
    apply carve_row_sorted; [lra|exact Hrow]. }
  revert H1. generalize (fold_left carve_row_instance (sort_by_x blks) r).
  clear -Hr. induction Hr as [|rc l Hrc _ IH]; intros r Hrow; simpl; [exact Hrow|].
  apply IH. apply carve_row_sorted; assumption.
Qed.

(** The sub-rows of a row stay in order.  Let the rows come as the parser
    leaves them, with a non-negative number of sites, and let no blockage
    rectangle and no cell have a negative width.  Then after legalization
    the sub-rows of every row are in left-to-right order from the row's
    origin on: each ends at or after its start, and each starts at or after
    the end of the one before it. *)
Theorem legalize_subrows_sorted
        (max_disp : Score) (rows : list PlacementRow) (instances : InstanceTable)
        (placement_blockages : list Rectangle) (row : PlacementRow) :
  let st := legalize max_disp rows instances placement_blockages in
  Forall (fun r => row_subrows r = [] /\ row_site_width r == 0 /\
                   0 < row_step_x r /\ (0 <= row_num_x r)%Z) rows ->
  Forall (fun p => 0 <= get_width (snd p)) instances ->
  Forall (fun rect => rect_x1 rect <= rect_x2 rect) placement_blockages ->
  In row (lg_rows st) ->
  bounds_sorted (row_origin_x row) (subrow_bounds (row_subrows row)).
Proof.
  intros st Hrows Hinst Hrects Hrow. subst st. unfold legalize, place in Hrow.
  cbn [lg_rows] in Hrow. unfold Abacus in Hrow.
  pose proof (classify_instances_blks instances Hinst) as Hb.
  destruct (classify_instances instances) as [[ffs blks] t]. cbn [fst snd] in Hb.
  assert (Hinit : Forall row_sorted (Legalizer_init rows)).
  { unfold Legalizer_init. clear -Hrows. generalize 0%Z as i.
    induction Hrows as [|r rows (H1 & H2 & H3 & H4) _ IH]; intro i; simpl;
      [constructor|].
    constructor; [apply init_row_sorted; assumption|apply IH]. }
  pose proof (buildSubRows_sorted _ blks placement_blockages Hb Hrects Hinit) as Hs.
  pose proof (Abacus_fold_frame max_disp (sort_by_x ffs)
                (mkLegal (buildSubRows (Legalizer_init rows) blks placement_blockages)
                         t [])) as Hf.
  cbn [lg_rows] in Hf.
  assert (Hall : Forall row_sorted
                   (lg_rows (fold_left (Abacus_step max_disp) (sort_by_x ffs)
                      (mkLegal (buildSubRows (Legalizer_init rows) blks
                                             placement_blockages) t [])))).
  { unfold row_sorted in *. rewrite <- Forall_map in *. rewrite Hf. exact Hs. }
  rewrite Forall_forall in Hall. destruct (Hall row Hrow) as [_ H]. exact H.
Qed.

(** Scenario 5 of the specification: the sub-rows left and right of the
    blockage. *)
Lemma legalize_subrows_sorted_witness :
  bounds_sorted (row_origin_x ex_final_row)
                (subrow_bounds (row_subrows ex_final_row)).
Proof.
  apply (legalize_subrows_sorted DblMax [ex_row] ex_legal_instances [ex_blockage]
           ex_final_row).
  - constructor; [|constructor]. split; [reflexivity|]. split; [reflexivity|].
    split; [reflexivity|]. vm_compute. discriminate.
  - constructor; [|constructor; [|constructor]]; vm_compute; discriminate.
  - constructor; [|constructor]. vm_compute. discriminate.
  - vm_compute. left. reflexivity.
Defined.

(* ------------------------------------------------------------------------- *)
(** *** The [PLACED] flag and the clusters *)

(** The placement status filed under each key. *)
Definition statuses (t : InstanceTable) : list (string * PlacementStatus) :=
  map (fun p => (fst p, inst_placement_status (snd p))) t.

Lemma assoc_find_statuses (n : string) (t : InstanceTable) :
  assoc_find n (statuses t) = option_map inst_placement_status (assoc_find n t).
Proof.
  induction t as [|[k i] t IH]; simpl; [reflexivity|].
  destruct (String.eqb n k); [reflexivity|exact IH].
Qed.

Lemma statuses_update (n : string) (f : Instance -> Instance) (t : InstanceTable) :
  (forall i, inst_placement_status (f i) = inst_placement_status i) ->
  statuses (update_instance n f t) = statuses t.
Proof.
  intro Hf. unfold statuses, update_instance. rewrite map_map. apply map_ext.
  intros [k i]. simpl. destruct (String.eqb k n); simpl; [now rewrite Hf|reflexivity].
Qed.

Lemma statuses_set_new_position (n : string) (x y : Q) (t : InstanceTable) :
  statuses (update_instance n (set_new_position x y) t) = statuses t.
Proof. apply statuses_update. intro i. reflexivity. Qed.

Lemma statuses_write (n : string) (pos : option (Q * Q)) (t : InstanceTable) :
  statuses (write_position n pos t) = statuses t.
Proof.
  destruct pos as [[x y]|]; simpl; [apply statuses_set_new_position|reflexivity].
Qed.

Lemma statuses_update_placed (n m : string) (t : InstanceTable) :
  assoc_find n (statuses (update_instance m (set_placement_status PLACED) t))
  = if String.eqb n m
    then option_map (fun _ => PLACED) (assoc_find n t)
    else assoc_find n (statuses t).
Proof.
  rewrite !assoc_find_statuses, assoc_find_update_instance.
  destruct (String.eqb n m); [|reflexivity].
  destruct (assoc_find n t); reflexivity.
Qed.

Lemma try_row_statuses (max_disp : Score) (rows : list PlacementRow)
      (instance : Instance) (rowidx : Z) (s : Search) :
  statuses (se_instances (try_row max_disp rows instance rowidx s))
  = statuses (se_instances s).
Proof.
  unfold try_row.
  destruct (nth_error rows (Z.to_nat rowidx)) as [row|]; [|reflexivity].
  destruct (findSubrowpos instance row =? -1)%Z; [reflexivity|].
  destruct (nth_error (row_subrows row) _) as [sr|]; [|reflexivity].
  destruct (placeRow_trial max_disp (se_instances s) row _ sr true) as [cost pos].
  destruct (score_ltb cost (se_Cbest s)); cbn [se_instances]; apply statuses_write.
Qed.

Lemma sweep_statuses (max_disp : Score) (rows : list PlacementRow)
      (instance : Instance) (origin : Z) :
  forall fuel i s,
    statuses (se_instances (sweep max_disp rows instance origin fuel i s))
    = statuses (se_instances s).
Proof.
  induction fuel as [|fuel IH]; intros i s; [reflexivity|].
  cbn [sweep].
  destruct (negb _ && negb _); [reflexivity|].
  rewrite IH.
  repeat match goal with
         | |- context [if ?c then try_row _ _ _ _ _ else _] => destruct c
         end; rewrite ?try_row_statuses; reflexivity.
Qed.

Lemma commit_statuses (rows : list PlacementRow) (t : InstanceTable)
      (instance : Instance) (ri si : Z) :
  statuses (snd (commit rows t instance ri si)) = statuses t.
Proof.
  unfold commit.
  destruct (nth_error rows (Z.to_nat ri)) as [row|]; [|reflexivity].
  destruct (nth_error (row_subrows row) (Z.to_nat si)) as [sr|]; [|reflexivity].
  destruct (placeRow_final row (current t instance) sr) as [sr' pos].
  cbn [snd]. apply statuses_write.
Qed.

Lemma commit_cells (rows : list PlacementRow) (t : InstanceTable)
      (instance : Instance) (ri si : Z) (row : PlacementRow) (sr : SubRow) :
  nth_error rows (Z.to_nat ri) = Some row ->
  nth_error (row_subrows row) (Z.to_nat si) = Some sr ->
  Permutation (all_cells (fst (commit rows t instance ri si)))
              (inst_name (current t instance) :: all_cells rows).
Proof.
  intros Erow Esr. unfold commit. rewrite Erow, Esr.
  destruct (placeRow_final row (current t instance) sr) as [sr' pos] eqn:Ef.
  cbn [fst].
  assert (Hsr' : sr' = fst (placeRow_final row (current t instance) sr))
    by (rewrite Ef; reflexivity).
  unfold all_cells. apply (concat_replace_nth _ _ _ row); [exact Erow|].
  unfold row_cells at 1. cbn [set_subrows row_subrows].
  apply (concat_replace_nth _ _ _ sr); [exact Esr|].
  rewrite Hsr'. apply placeRow_final_subrow_cells.
Qed.

Lemma place_cells_statuses (sitew y : Q) (cells : list string) :
  forall x t, statuses (place_cells sitew y cells x t) = statuses t.
Proof.
  induction cells as [|n rest IH]; intros x t; simpl; [reflexivity|].
  rewrite IH. apply statuses_set_new_position.
Qed.

Lemma place_statuses (rows : list PlacementRow) (t : InstanceTable) :
  statuses (fold_left place_row rows t) = statuses t.
Proof.
  rewrite place_as_cmds. revert t.
  induction (cmds rows) as [|[[[sitew y] x] cells] l IH]; intro t; simpl;
    [reflexivity|].
  rewrite IH. apply place_cells_statuses.
Qed.

Lemma classify_instances_statuses (instances : InstanceTable) :
  statuses (snd (classify_instances instances)) = statuses instances.
Proof.
  induction instances as [|[k i] rest IH]; simpl; [reflexivity|].
  destruct (classify_instances rest) as [[ffs blks] t]. simpl in IH.
  destruct (is_flip_flop i); simpl; rewrite IH; reflexivity.
Qed.

(** The names flagged [PLACED] are the cells of the clusters and the names
    flagged so in [s0]. *)
Definition held_placed (s0 : list (string * PlacementStatus)) (st : LegalState)
  : Prop :=
  forall n,
    assoc_find n (statuses (lg_instances st)) = Some PLACED
    <-> In n (all_cells (lg_rows st)) \/ assoc_find n s0 = Some PLACED.

Section PlacedFlag.

Variable t0 : InstanceTable.
Hypothesis widths_nonneg : Forall (fun p => 0 <= get_width (snd p)) t0.
Variable s0 : list (string * PlacementStatus).

Lemma Abacus_step_held (max_disp : Score) (names : list string) (st : LegalState)
      (instance : Instance) :
  abacus_inv t0 names st ->
  assoc_find (inst_name instance) t0 = Some instance ->
  ~ In (inst_name instance) names ->
  held_placed s0 st ->
  held_placed s0 (Abacus_step max_disp st instance).
Proof.
  intros (Ht & Hok & Hnd & Hincl) H0 Hfresh Hheld.
  unfold Abacus_step.
  destruct (findBestRow (lg_rows st) instance =? -1)%Z; [exact Hheld|].
  pose proof (sweep_keeps_inv max_disp (lg_rows st) instance t0
                (findBestRow (lg_rows st) instance) (length (lg_rows st)) 0
                (mkSearch DblMax (-1) (-1) (lg_instances st))) as Hs.
  pose proof (sweep_statuses max_disp (lg_rows st) instance
                (findBestRow (lg_rows st) instance) (length (lg_rows st)) 0
                (mkSearch DblMax (-1) (-1) (lg_instances st))) as Hst.
  cbn [se_instances] in Hst.
  match goal with |- context [sweep ?a ?b ?c ?d ?e ?f ?g] =>
    set (s := sweep a b c d e f g) in * end.
  destruct Hs as [Hbest Hts]; [split; [left; reflexivity|exact Ht]|].
  destruct (negb (se_bestRowIdx s =? -1)%Z && negb (se_bestSubRowIdx s =? -1)%Z)
    eqn:Eb.
  - apply andb_true_iff in Eb. destruct Eb as [Eb1 Eb2].
    apply negb_true_iff, Z.eqb_neq in Eb1.
    destruct Hbest as [Hbest|(row & sr & Erow & Esr & _ & Hfit)]; [contradiction|].
    destruct (current_frozen t0 (se_instances s) instance Hts H0) as [Hcur Hfr].
    destruct (frozen_fields _ _ Hfr) as (Hname & _).
    pose proof (commit_cells (lg_rows st) (se_instances s) instance
                  (se_bestRowIdx s) (se_bestSubRowIdx s) row sr Erow Esr) as Hperm.
    pose proof (commit_statuses (lg_rows st) (se_instances s) instance
                  (se_bestRowIdx s) (se_bestSubRowIdx s)) as Hcs.
    pose proof (commit_inv t0 widths_nonneg names (lg_rows st) (se_instances s)
                  instance (se_bestRowIdx s) (se_bestSubRowIdx s) row sr
                  Hok Hnd Hincl Hfresh Hts H0 Erow Esr Hfit) as (_ & _ & _ & Hfz).
    destruct (commit (lg_rows st) (se_instances s) instance (se_bestRowIdx s)
                     (se_bestSubRowIdx s)) as [rows' t'].
    cbn [fst snd] in *. rewrite Hname in Hperm.
    intro n. cbn [lg_instances lg_rows]. rewrite statuses_update_placed.
    destruct (String.eqb_spec n (inst_name instance)) as [->|Hne].
    + pose proof (same_frozen_present t0 t' (inst_name instance) Hfz) as Hp.
      destruct (assoc_find (inst_name instance) t') as [i|].
      * simpl. split; [intros _|reflexivity].
        left. eapply Permutation_in; [apply Permutation_sym; exact Hperm|].
        left. reflexivity.
      * exfalso. apply Hp; [rewrite H0; discriminate|reflexivity].
    + rewrite Hcs, Hst. rewrite (Hheld n). split.
      * intros [Hin|Hi]; [left|right; exact Hi].
        eapply Permutation_in; [apply Permutation_sym; exact Hperm|].
        right. exact Hin.
      * intros [Hin|Hi]; [|right; exact Hi].
        eapply Permutation_in in Hin; [|exact Hperm].
        destruct Hin as [E|Hin]; [congruence|left; exact Hin].
  - intro n. cbn [lg_instances lg_rows].
    rewrite statuses_set_new_position, Hst. apply Hheld.
Qed.

Lemma Abacus_fold_held (max_disp : Score) (ffs : list Instance) :
  forall names st,
    abacus_inv t0 names st ->
    Forall (fun i => assoc_find (inst_name i) t0 = Some i) ffs ->
    NoDup (map inst_name ffs ++ names) ->
    held_placed s0 st ->
    held_placed s0 (fold_left (Abacus_step max_disp) ffs st).
Proof.
  induction ffs as [|i ffs IH]; intros names st Hinv Hall Hnd Hheld; [exact Hheld|].
  inversion Hall as [|? ? Hi Hrest]; subst.
  cbn [fold_left].
  simpl in Hnd. apply NoDup_cons_iff in Hnd. destruct Hnd as [Hni Hnd].
  assert (Hfresh : ~ In (inst_name i) names).
  { intro Hin. apply Hni. apply in_or_app. right. exact Hin. }
  apply (IH (inst_name i :: names)).
  - apply Abacus_step_inv; assumption.
  - exact Hrest.
  - eapply Permutation_NoDup; [apply Permutation_middle|].
    constructor; [exact Hni|exact Hnd].
  - eapply Abacus_step_held; eassumption.
Qed.

End PlacedFlag.

(** Flip-flops and the [PLACED] flag after legalization.  Let the rows come
    as the parser leaves them and let the table file every instance once,
    under its own name, with a non-negative cell width.  Then no name stands
    in two clusters (nor twice in one); every name in a cluster is a
    flip-flop of the table flagged [PLACED]; and an instance flagged
    [PLACED] is in a cluster or was flagged so before the legalizer ran. *)
Theorem legalize_placed_flag
        (max_disp : Score) (rows : list PlacementRow) (instances : InstanceTable)
        (placement_blockages : list Rectangle) :
  let st := legalize max_disp rows instances placement_blockages in
  Forall (fun r => row_subrows r = [] /\ row_site_width r == 0 /\ 0 < row_step_x r) rows ->
  Forall (fun p => inst_name (snd p) = fst p /\ 0 <= get_width (snd p)) instances ->
  NoDup (keys instances) ->
  NoDup (all_cells (lg_rows st)) /\
  (forall n, In n (all_cells (lg_rows st)) ->
             exists i, assoc_find n (lg_instances st) = Some i /\
                       is_flip_flop i = true /\
                       inst_placement_status i = PLACED) /\
  (forall n i, assoc_find n (lg_instances st) = Some i ->
               inst_placement_status i = PLACED ->
               In n (all_cells (lg_rows st)) \/
               exists i0, assoc_find n instances = Some i0 /\
                          inst_placement_status i0 = PLACED).
Proof.
  intros st Hrows Hk Hnd. subst st. unfold legalize, place. cbn [lg_rows lg_instances].
  pose proof (Legalizer_init_fresh rows Hrows) as Hfresh.
  unfold Abacus.
  pose proof (classify_flip_flops instances Hk Hnd) as H.
  pose proof (classify_instances_spec instances) as Hspec.
  pose proof (classify_instances_statuses instances) as Hcst.
  destruct (classify_instances instances) as [[ffs blks] t].
  destruct H as (Hw & Hff & Hnames). destruct Hspec as (_ & Hfilter & _).
  cbn [snd] in Hcst.
  set (st0 := mkLegal (buildSubRows (Legalizer_init rows) blks placement_blockages)
                      t []).
  assert (Hsorted : Forall (fun i => assoc_find (inst_name i) t = Some i)
                           (sort_by_x ffs)).
  { apply Forall_forall. intros i Hi. apply (proj1 (sort_by_x_In _ _)) in Hi.
    rewrite Forall_forall in Hff. apply Hff. exact Hi. }
  assert (Hndn : NoDup (map inst_name (sort_by_x ffs) ++ [])).
  { rewrite app_nil_r. eapply Permutation_NoDup; [|exact Hnames].
    apply Permutation_map. apply Permutation_sym. apply sort_by_x_perm. }
  destruct (fresh_rows_ok t _ (buildSubRows_fresh _ blks placement_blockages Hfresh))
    as [Hok Hcells].
  assert (Hinv0 : abacus_inv t [] st0).
  { unfold abacus_inv, st0. cbn [lg_instances lg_rows]. rewrite Hcells.
    split; [reflexivity|]. split; [exact Hok|]. split; [constructor|intros n []]. }
  assert (Hheld0 : held_placed (statuses instances) st0).
  { intro n. unfold st0. cbn [lg_instances lg_rows]. rewrite Hcells, Hcst.
    simpl. tauto. }
  pose proof (Abacus_fold_inv t Hw max_disp (sort_by_x ffs) [] st0 Hinv0 Hsorted Hndn)
    as (Hfz & _ & Hnodup & Hincl).
  pose proof (Abacus_fold_held t Hw (statuses instances) max_disp (sort_by_x ffs) []
                st0 Hinv0 Hsorted Hndn Hheld0) as Hheld.
  set (stA := fold_left (Abacus_step max_disp) (sort_by_x ffs) st0) in *.
  assert (Hfin : forall n,
             assoc_find n (statuses (fold_left place_row (lg_rows stA)
                                               (lg_instances stA)))
             = assoc_find n (statuses (lg_instances stA))).
  { intro n. rewrite place_statuses. reflexivity. }
  assert (Hfzf : same_frozen t (fold_left place_row (lg_rows stA) (lg_instances stA))).
  { rewrite place_as_cmds. apply run_cmds_frozen. exact Hfz. }
  split; [exact Hnodup|]. split.
  - intros n Hn.
    assert (Hst : assoc_find n (statuses (lg_instances stA)) = Some PLACED)
      by (apply Hheld; left; exact Hn).
    rewrite <- Hfin, assoc_find_statuses in Hst.
    apply Hincl in Hn. rewrite app_nil_r in Hn. apply in_rev in Hn.
    apply in_map_iff in Hn. destruct Hn as (ff & <- & Hin).
    assert (Hfind : assoc_find (inst_name ff) t = Some ff).
    { rewrite Forall_forall in Hsorted. apply Hsorted. exact Hin. }
    apply (proj1 (sort_by_x_In _ _)) in Hin. rewrite Hfilter in Hin.
    apply filter_In in Hin. destruct Hin as [_ Hisff].
    pose proof (same_frozen_find _ _ (inst_name ff) Hfzf) as Hf. rewrite Hfind in Hf.
    destruct (assoc_find (inst_name ff) _) as [i|]; [|discriminate].
    exists i. split; [reflexivity|]. simpl in Hst, Hf. split.
    + assert (Hf' : frozen i = frozen ff).
      { apply (f_equal (fun o => match o with Some v => v | None => frozen i end))
          in Hf. exact Hf. }
      destruct (frozen_fields _ _ Hf') as (_ & _ & _ & Hct).
      unfold is_flip_flop in *. rewrite Hct. exact Hisff.
    + congruence.
  - intros n i Hi Hp.
    assert (Hst : assoc_find n (statuses (lg_instances stA)) = Some PLACED).
    { rewrite <- Hfin, assoc_find_statuses, Hi. simpl. now rewrite Hp. }
    apply Hheld in Hst. destruct Hst as [Hin|Hinit]; [left; exact Hin|right].
    rewrite assoc_find_statuses in Hinit.
    destruct (assoc_find n instances) as [i0|]; [|discriminate].
    exists i0. split; [reflexivity|]. simpl in Hinit. congruence.
Qed.

(** Scenario 5 of the specification: [f1] and [f2], each in one cluster and
    flagged [PLACED]. *)
Lemma legalize_placed_flag_witness :
  NoDup (all_cells (lg_rows (legalize DblMax [ex_row] ex_legal_instances [ex_blockage])))
  /\ (forall n,
        In n (all_cells (lg_rows (legalize DblMax [ex_row] ex_legal_instances
                                           [ex_blockage]))) ->
        exists i,
          assoc_find n (lg_instances (legalize DblMax [ex_row] ex_legal_instances
                                               [ex_blockage])) = Some i /\
          is_flip_flop i = true /\ inst_placement_status i = PLACED)
  /\ (forall n i,
        assoc_find n (lg_instances (legalize DblMax [ex_row] ex_legal_instances
                                             [ex_blockage])) = Some i ->
        inst_placement_status i = PLACED ->
        In n (all_cells (lg_rows (legalize DblMax [ex_row] ex_legal_instances
                                           [ex_blockage]))) \/
        exists i0, assoc_find n ex_legal_instances = Some i0 /\
                   inst_placement_status i0 = PLACED).
Proof.
  apply (legalize_placed_flag DblMax [ex_row] ex_legal_instances [ex_blockage]).
  - constructor; [|constructor]. split; [reflexivity|]. split; reflexivity.
  - constructor; [|constructor; [|constructor]]; split; try reflexivity;
      vm_compute; discriminate.
  - vm_compute. constructor; [|constructor; [|constructor]].
    + intros [H|[]]. discriminate H.
    + intros [].
Defined.

(* ------------------------------------------------------------------------- *)
(** *** Which instances the debanking stage takes apart *)

Lemma NoDup_app_inv {A : Type} (l l' : list A) :
  NoDup (l ++ l') -> NoDup l /\ NoDup l' /\ forall x, In x l -> ~ In x l'.
Proof.
  induction l as [|a l IH]; simpl; intro H.
  - split; [constructor|]. split; [exact H|]. intros x [].
  - inversion H as [|? ? Hn Hnd]; subst. destruct (IH Hnd) as (A1 & A2 & A3).
    split; [constructor; [|exact A1]|].
    + intro Hin. apply Hn. apply in_or_app. left. exact Hin.
    + split; [exact A2|]. intros x [<-|Hx].
      * intro Hin. apply Hn. apply in_or_app. right. exact Hin.
      * apply A3. exact Hx.
Qed.

Lemma NoDup_app_intro {A : Type} (l l' : list A) :
  NoDup l -> NoDup l' -> (forall x, In x l -> ~ In x l') -> NoDup (l ++ l').
Proof.
  induction 1 as [|a l Hn Hnd IH]; simpl; intros Hl' Hdis; [exact Hl'|].
  constructor.
  - intro Hin. apply in_app_or in Hin. destruct Hin as [Hin|Hin]; [auto|].
    apply (Hdis a); [left; reflexivity|exact Hin].
  - apply IH; [exact Hl'|]. intros x Hx. apply Hdis. right. exact Hx.
Qed.

Lemma assoc_find_erase_all (n : string) (names : list string) (t : InstanceTable) :
  assoc_find n (erase_all names t)
  = if existsb (String.eqb n) names then None else assoc_find n t.
Proof.
  unfold erase_all. revert t.
  induction names as [|m names IH]; intro t; simpl; [reflexivity|].
  rewrite IH, assoc_find_assoc_erase.
  destruct (String.eqb n m); simpl; [|reflexivity].
  destruct (existsb (String.eqb n) names); reflexivity.
Qed.

Lemma assoc_find_insert_all_other (n : string) (new_instances : list Instance) :
  (forall f, In f new_instances -> inst_name f <> n) ->
  forall t, assoc_find n (insert_all new_instances t) = assoc_find n t.
Proof.
  unfold insert_all.
  induction new_instances as [|f l IH]; intros Hne t; simpl; [reflexivity|].
  rewrite IH by (intros g Hg; apply Hne; right; exact Hg).
  rewrite assoc_find_assoc_set.
  destruct (String.eqb_spec n (inst_name f)) as [->|_]; [|reflexivity].
  exfalso. apply (Hne f); [left; reflexivity|reflexivity].
Qed.

Lemma assoc_find_insert_all_new (f : Instance) (new_instances : list Instance) :
  NoDup (map inst_name new_instances) -> In f new_instances ->
  forall t, assoc_find (inst_name f) (insert_all new_instances t) = Some f.
Proof.
  induction new_instances as [|g l IH]; intros Hnd Hin t; [destruct Hin|].
  simpl in Hnd. inversion Hnd as [|? ? Hn Hnd']; subst.
  change (insert_all (g :: l) t) with (insert_all l (assoc_set (inst_name g) g t)).
  destruct Hin as [->|Hin]; [|apply IH; assumption].
  rewrite assoc_find_insert_all_other.
  - rewrite assoc_find_assoc_set, String.eqb_refl. reflexivity.
  - intros h Hh E. apply Hn. rewrite <- E. apply in_map. exact Hh.
Qed.

Lemma has_degenerate_parent (lib : CellLibrary) (i : Instance)
      (c parent : CellTemplate) :
  has_degenerate lib i c parent -> debank_parent lib i = Some parent.
Proof.
  intros (Hc & Hff & Hd & Hp). unfold debank_parent. rewrite Hc, Hff.
  destruct (String.eqb_spec (ct_single_bit_degenerate c) "null") as [E|_];
    [contradiction|exact Hp].
Qed.

Lemma debank_parent_degenerate (lib : CellLibrary) (i : Instance)
      (parent : CellTemplate) :
  debank_parent lib i = Some parent -> exists c, has_degenerate lib i c parent.
Proof.
  unfold debank_parent, has_degenerate.
  destruct (inst_cell_template i) as [c|]; [|discriminate].
  destruct (ct_is_flip_flop c) eqn:Eff; [|discriminate].
  destruct (String.eqb_spec (ct_single_bit_degenerate c) "null") as [E|Hne];
    [discriminate|].
  simpl. intro H. exists c. repeat split; auto.
Qed.

Lemma no_degenerate_parent (lib : CellLibrary) (i : Instance) :
  no_degenerate lib i <-> debank_parent lib i = None.
Proof.
  unfold no_degenerate, debank_parent.
  destruct (inst_cell_template i) as [c|]; [|tauto].
  destruct (ct_is_flip_flop c); simpl.
  - destruct (String.eqb_spec (ct_single_bit_degenerate c) "null") as [E|Hne]; simpl.
    + tauto.
    + split; [intros [H|[H|H]]; [discriminate|contradiction|exact H]|auto].
  - tauto.
Qed.

Lemma bit_range_In (bit_width bit : Z) :
  (0 <= bit < bit_width)%Z -> In bit (bit_range bit_width).
Proof.
  intro H. unfold bit_range. apply in_map_iff. exists (Z.to_nat bit).
  split; [lia|]. apply in_seq. lia.
Qed.

(** The names of the fragments the loop creates are among [fragment_names],
    and pairwise distinct when those are. *)
Lemma debank_fragments_names (lib : CellLibrary) (k : string) (i : Instance) :
  inst_name i = k ->
  map inst_name (debank_fragments lib i)
  = map (fun bit => (k ++ "_BIT" ++ to_string bit)%string)
        (bit_range (get_bit_width i))
  \/ debank_fragments lib i = [].
Proof.
  intro Hk. unfold debank_fragments, get_bit_width.
  destruct (inst_cell_template i) as [c|]; [|right; reflexivity].
  destruct (debank_parent lib i) as [p|]; [|right; reflexivity].
  left. rewrite map_map. apply map_ext. intro bit. simpl. now rewrite Hk.
Qed.

Lemma new_instances_names (lib : CellLibrary) (instances : InstanceTable) :
  (forall k i, In (k, i) instances -> inst_name i = k) ->
  incl (map inst_name (flat_map (debank_fragments lib) (map snd instances)))
       (fragment_names instances) /\
  (NoDup (fragment_names instances) ->
   NoDup (map inst_name (flat_map (debank_fragments lib) (map snd instances)))).
Proof.
  induction instances as [|[k i] rest IH]; intro Hkeys.
  - split; [intros x []|intros _; constructor].
  - destruct IH as [Hincl Hnd].
    { intros k' i' H. apply Hkeys. right. exact H. }
    assert (Hk : inst_name i = k) by (apply Hkeys; left; reflexivity).
    cbn [map snd flat_map fragment_names fst]. rewrite map_app.
    fold (fragment_names rest).
    destruct (debank_fragments_names lib k i Hk) as [E|E]; rewrite E.
    + split.
      * apply incl_app_app; [apply incl_refl|exact Hincl].
      * intro H. apply NoDup_app_inv in H. destruct H as (H1 & H2 & H3).
        apply NoDup_app_intro; [exact H1|apply Hnd; exact H2|].
        intros x Hx Hin. apply (H3 x Hx). apply Hincl. exact Hin.
    + cbn [map app]. split.
      * apply incl_appr. exact Hincl.
      * intro H. apply NoDup_app_inv in H. apply Hnd. tauto.
Qed.

(** C4 (amended).  Let the table file every instance under its own name and
    let the names of the table and the fragment names [<name>_BIT<b>] be
    pairwise distinct.  An instance whose cell is a flip-flop more than one
    bit wide with a non-null degenerate that the library has is taken
    apart: its name leaves the table and each of its bits gets the fragment
    built for it, filed under [<name>_BIT<b>].  An instance without cell
    template, whose cell is not a flip-flop, or whose degenerate is null or
    not in the library stays as it is.  When the degenerate cells met are
    single-bit, a flip-flop more than one bit wide that is in the table
    after the stage is an instance that stayed for that reason. *)
Theorem perform_strategic_debanking_outcome
        (lib : CellLibrary) (instances : InstanceTable)
        (history : list TransformationRecord)
        (Hkeys : forall k i, In (k, i) instances -> inst_name i = k)
        (Hnames : NoDup (keys instances ++ fragment_names instances))
        (Hsingle : forall k i c parent,
            In (k, i) instances -> has_degenerate lib i c parent ->
            ct_bit_width parent = 1%Z) :
  let result := fst (perform_strategic_debanking lib instances history) in
  (forall k i c parent,
      In (k, i) instances -> has_degenerate lib i c parent ->
      (1 < ct_bit_width c)%Z ->
      assoc_find k result = None /\
      forall bit,
        (0 <= bit < ct_bit_width c)%Z ->
        assoc_find (k ++ "_BIT" ++ to_string bit)%string result
        = Some (debank_fragment i (ct_single_bit_degenerate c) parent bit)) /\
  (forall k i,
      In (k, i) instances -> no_degenerate lib i -> assoc_find k result = Some i) /\
  (forall k i,
      In (k, i) result -> is_flip_flop i = true -> (1 < get_bit_width i)%Z ->
      In (k, i) instances /\ no_degenerate lib i).
Proof.
  intro result.
  pose proof (perform_strategic_debanking_entries lib instances history Hkeys)
    as (_ & Hentries & _).
  fold result in Hentries.
  destruct (debank_fold lib (map snd instances) (mkDebank [] [] history)) as [Hnew Hrm].
  cbn [db_new_instances db_instances_to_remove app] in Hnew, Hrm.
  assert (Hres : result
                 = insert_all (flat_map (debank_fragments lib) (map snd instances))
                     (erase_all (map inst_name (filter (is_debanked lib)
                                                       (map snd instances)))
                                instances)).
  { unfold result, perform_strategic_debanking. cbn [fst]. now rewrite Hnew, Hrm. }
  destruct (NoDup_app_inv _ _ Hnames) as (Hndk & Hndf & Hdis).
  destruct (new_instances_names lib instances Hkeys) as [Hincl Hndnew].
  specialize (Hndnew Hndf).
  assert (Hother : forall k, In k (keys instances) ->
                   forall f, In f (flat_map (debank_fragments lib) (map snd instances)) ->
                             inst_name f <> k).
  { intros k Hk f Hf E. apply (Hdis k Hk). apply Hincl. rewrite <- E.
    apply in_map. exact Hf. }
  assert (Hkey : forall k i, In (k, i) instances -> In k (keys instances)).
  { intros k i H. unfold keys. apply in_map_iff. exists (k, i). auto. }
  split; [|split].
  - intros k i c parent Hin Hdeg Hwide.
    pose proof (has_degenerate_parent _ _ _ _ Hdeg) as Hp.
    pose proof Hdeg as (Hc & _).
    pose proof (Hkeys _ _ Hin) as Hk.
    split.
    + rewrite Hres, assoc_find_insert_all_other by (apply Hother; eauto).
      rewrite assoc_find_erase_all.
      replace (existsb _ _) with true; [reflexivity|].
      symmetry. apply existsb_exists. exists k. split; [|apply String.eqb_refl].
      rewrite <- Hk. apply in_map. apply filter_In. split.
      * apply in_map_iff. exists (k, i). auto.
      * unfold is_debanked. now rewrite Hp.
    + intros bit Hbit.
      set (f := debank_fragment i (ct_single_bit_degenerate c) parent bit).
      assert (Hname : inst_name f = (k ++ "_BIT" ++ to_string bit)%string)
        by (unfold f; simpl; now rewrite Hk).
      rewrite <- Hname, Hres. apply assoc_find_insert_all_new; [exact Hndnew|].
      apply in_flat_map. exists i. split.
      * apply in_map_iff. exists (k, i). auto.
      * unfold debank_fragments. rewrite Hc, Hp. apply in_map.
        apply bit_range_In. exact Hbit.
  - intros k i Hin Hno.
    apply no_degenerate_parent in Hno.
    rewrite Hres, assoc_find_insert_all_other by (apply Hother; eauto).
    rewrite assoc_find_erase_all.
    destruct (existsb _ _) eqn:E.
    + exfalso. apply existsb_exists in E. destruct E as (n & Hn & En).
      apply String.eqb_eq in En. subst n.
      apply in_map_iff in Hn. destruct Hn as (i' & Hi' & Hf).
      apply filter_In in Hf. destruct Hf as [Hf Hdeb].
      apply in_map_iff in Hf. destruct Hf as ([k' j] & Hj & Hin').
      simpl in Hj. subst j. pose proof (Hkeys _ _ Hin') as Hk'.
      rewrite Hi' in Hk'. subst k'.
      pose proof (assoc_find_NoDup k i instances Hndk Hin) as F1.
      pose proof (assoc_find_NoDup k i' instances Hndk Hin') as F2.
      rewrite F1 in F2. injection F2 as <-.
      unfold is_debanked in Hdeb. rewrite Hno in Hdeb. discriminate.
    + apply assoc_find_NoDup; assumption.
  - intros k i Hin Hff Hwide.
    destruct (Hentries k i Hin) as [[H Hno]|(orig & parent & Ho & Hp & _ & Ht & _)].
    + split; [exact H|]. apply no_degenerate_parent. exact Hno.
    + exfalso. apply in_map_iff in Ho. destruct Ho as ([k' j] & Hj & Hin').
      simpl in Hj. subst j.
      destruct (debank_parent_degenerate _ _ _ Hp) as [c Hdeg].
      pose proof (Hsingle k' orig c parent Hin' Hdeg) as H1.
      unfold get_bit_width in Hwide. rewrite Ht in Hwide. lia.
Qed.

(** A table with a two-bit flip-flop [k] whose cell names no degenerate and a
    four-bit flip-flop [m] with the degenerate [FSDN_S]: [k] stays, [m]
    gives way to [m_BIT0] .. [m_BIT3]. *)
Lemma perform_strategic_debanking_outcome_witness :
  let result := fst (perform_strategic_debanking ex_debank_library
                                                 ex_debank_instances []) in
  (forall k i c parent,
      In (k, i) ex_debank_instances -> has_degenerate ex_debank_library i c parent ->
      (1 < ct_bit_width c)%Z ->
      assoc_find k result = None /\
      forall bit,
        (0 <= bit < ct_bit_width c)%Z ->
        assoc_find (k ++ "_BIT" ++ to_string bit)%string result
        = Some (debank_fragment i (ct_single_bit_degenerate c) parent bit)) /\
  (forall k i,
      In (k, i) ex_debank_instances -> no_degenerate ex_debank_library i ->
      assoc_find k result = Some i) /\
  (forall k i,
      In (k, i) result -> is_flip_flop i = true -> (1 < get_bit_width i)%Z ->
      In (k, i) ex_debank_instances /\ no_degenerate ex_debank_library i).
Proof.
  apply (perform_strategic_debanking_outcome ex_debank_library ex_debank_instances []).
  - intros k i [H|[H|[]]]; inversion H; subst; reflexivity.
  - vm_compute.
    repeat (constructor; [simpl; intuition discriminate|]). constructor.
  - intros k i c parent [H|[H|[]]] (Hc & Hff & Hd & Hp); inversion H; subst;
      vm_compute in Hc; injection Hc as <-; vm_compute in Hp.
    + discriminate Hp.
    + injection Hp as <-. reflexivity.
Defined.

(* ------------------------------------------------------------------------- *)
(** *** The best-alternative fields along the pipeline *)

(** A property of instances that holds of every entry of a table. *)
Definition all_entries (P : Instance -> Prop) (t : InstanceTable) : Prop :=
  forall k i, In (k, i) t -> P i.

Lemma initialize_transformation_tracking_entries (P : Instance -> Prop)
      (db : DesignDatabase) :
  (forall n i, P i -> P (set_cluster_id n i)) ->
  all_entries P (db_instances db) ->
  all_entries P (db_instances (initialize_transformation_tracking db)).
Proof.
  intros Hset H k i Hin. unfold initialize_transformation_tracking in Hin.
  cbn [capture db_instances with_state] in Hin.
  apply in_map_iff in Hin. destruct Hin as ([k0 i0] & E & Hin0).
  cbn [fst snd] in E. specialize (H k0 i0 Hin0).
  destruct (is_flip_flop i0); inversion E; subst; [apply Hset|]; exact H.
Qed.

Lemma perform_strategic_debanking_entries_of (P : Instance -> Prop)
      (lib : CellLibrary) (instances : InstanceTable)
      (history : list TransformationRecord) :
  (forall orig n c bit, P (debank_fragment orig n c bit)) ->
  all_entries P instances ->
  all_entries P (fst (perform_strategic_debanking lib instances history)).
Proof.
  intros Hfrag H k i Hin. unfold perform_strategic_debanking in Hin. cbn [fst] in Hin.
  apply insert_all_In in Hin. destruct Hin as [[Hin _]|Hin].
  - destruct (debank_fold lib (map snd instances) (mkDebank [] [] history))
      as [Hnew _].
    rewrite Hnew in Hin. cbn [db_new_instances app] in Hin.
    apply in_flat_map in Hin. destruct Hin as (orig & _ & Hf).
    unfold debank_fragments in Hf.
    destruct (inst_cell_template orig) as [c|]; [|destruct Hf].
    destruct (debank_parent lib orig) as [parent|]; [|destruct Hf].
    apply in_map_iff in Hf. destruct Hf as (bit & <- & _). apply Hfrag.
  - apply erase_all_In in Hin. apply (H k). tauto.
Qed.

Lemma erase_instances_In (cluster : list Instance) (k : string) (i : Instance) :
  forall t, In (k, i) (erase_instances cluster t) -> In (k, i) t.
Proof.
  unfold erase_instances.
  induction cluster as [|s rest IH]; intros t Hin; simpl in Hin; [exact Hin|].
  apply IH in Hin. apply assoc_erase_In in Hin. tauto.
Qed.

Lemma fold_left_inv {A B : Type} (Inv : A -> Prop) (f : A -> B -> A) (l : list B) :
  (forall a b, Inv a -> Inv (f a b)) -> forall a, Inv a -> Inv (fold_left f l a).
Proof.
  intro Hf. induction l as [|b l IH]; intros a Ha; simpl; [exact Ha|].
  apply IH. apply Hf. exact Ha.
Qed.

Section BankingEntries.

Variable cell_library : CellLibrary.
Variable hierarchical_ff_groups : list HierGroup.
Variable optimal_ff_for_groups : list (string * string).
Variable P : Instance -> Prop.
Hypothesis new_multibit_ok :
  forall n optimal_ff x y bt cluster_id module_name conns,
    P (new_multibit cell_library n optimal_ff x y bt cluster_id module_name conns).

Definition bank_entries (st : BankState) : Prop := all_entries P (bk_instances st).

Lemma erase_set_entries (cluster : list Instance) (n : string) (new_inst : Instance)
      (t : InstanceTable) :
  all_entries P t -> P new_inst ->
  all_entries P (erase_instances cluster (assoc_set n new_inst t)).
Proof.
  intros Ht Hnew k i Hin. apply erase_instances_In in Hin.
  apply assoc_set_In in Hin. destruct Hin as [E|Hin].
  - injection E as _ ->. exact Hnew.
  - apply (Ht k). exact Hin.
Qed.

Ltac banking_body :=
  repeat match goal with
         | |- bank_entries (if ?c then _ else _) => destruct c
         | |- bank_entries (match ?x with Some _ => _ | None => _ end) => destruct x
         | |- bank_entries (match ?x with [] => _ | _ :: _ => _ end) => destruct x
         end;
  try assumption;
  unfold bank_entries; cbn [bk_instances];
  apply erase_set_entries; [assumption|apply new_multibit_ok].

Lemma rebank_cluster_entries (st : BankState) (cluster : string * list Instance) :
  bank_entries st ->
  bank_entries (rebank_cluster cell_library optimal_ff_for_groups st cluster).
Proof.
  intro H. destruct cluster as [cluster_id instances]. unfold rebank_cluster.
  destruct (length instances <? 2)%nat; [exact H|].
  destruct instances as [|first others] eqn:Ei; [exact H|]. rewrite <- Ei.
  banking_body.
Qed.

Lemma bank_pair_1to2_entries (group_key : string) (st : BankState)
      (cluster : list Instance) :
  bank_entries st ->
  bank_entries (bank_pair_1to2 cell_library hierarchical_ff_groups
                               optimal_ff_for_groups group_key st cluster).
Proof. intro H. unfold bank_pair_1to2. banking_body. Qed.

Lemma bank_pair_2to4_entries (group_key : string) (st : BankState)
      (cluster : list Instance) :
  bank_entries st ->
  bank_entries (bank_pair_2to4 cell_library hierarchical_ff_groups
                               optimal_ff_for_groups group_key st cluster).
Proof. intro H. unfold bank_pair_2to4. banking_body. Qed.

Lemma bank_quad_lsrdpq_entries (group_key : string) (st : BankState)
      (cluster : list Instance) :
  bank_entries st ->
  bank_entries (bank_quad_lsrdpq cell_library optimal_ff_for_groups group_key st
                                 cluster).
Proof. intro H. unfold bank_quad_lsrdpq. banking_body. Qed.

Lemma execute_all_banking_entries (st : BankState) :
  bank_entries st ->
  bank_entries (execute_all_banking cell_library hierarchical_ff_groups
                                    optimal_ff_for_groups st).
Proof.
  intro H. unfold execute_all_banking.
  assert (HA : bank_entries (execute_debank_cluster_rebanking cell_library
                               optimal_ff_for_groups st)).
  { unfold execute_debank_cluster_rebanking. apply fold_left_inv; [|exact H].
    intros a b. apply rebank_cluster_entries. }
  set (stA := execute_debank_cluster_rebanking cell_library optimal_ff_for_groups st)
    in *.
  assert (HB : bank_entries (execute_fsdn_two_phase_banking cell_library
                               hierarchical_ff_groups optimal_ff_for_groups stA)).
  { unfold execute_fsdn_two_phase_banking, finalize_2bit_banking_records.
    unfold bank_entries. cbn [bk_instances]. fold (bank_entries
      (fold_left (fsdn_group_step cell_library hierarchical_ff_groups
                    optimal_ff_for_groups) (keys (bk_ff_instance_groups stA)) stA)).
    apply fold_left_inv; [|exact HA].
    intros a g Ha. unfold fsdn_group_step.
    destruct (length _ <? 2)%nat; [exact Ha|].
    assert (H1 : bank_entries (fst (execute_1bit_to_2bit_banking cell_library
                                      hierarchical_ff_groups optimal_ff_for_groups a g))).
    { unfold execute_1bit_to_2bit_banking.
      destruct (length _ <? 2)%nat; [exact Ha|]. cbn [fst].
      apply fold_left_inv; [|exact Ha]. intros a' c. apply bank_pair_1to2_entries. }
    destruct (execute_1bit_to_2bit_banking cell_library hierarchical_ff_groups
                optimal_ff_for_groups a g) as [st1 created].
    cbn [fst] in H1. destruct (created >? 0)%Z; [|exact H1].
    unfold execute_2bit_to_4bit_banking.
    destruct (assoc_find g (bk_ff_instance_groups st1)); [|exact H1].
    destruct (length _ <? 2)%nat; [exact H1|].
    apply fold_left_inv; [|exact H1]. intros a' c. apply bank_pair_2to4_entries. }
  set (stB := execute_fsdn_two_phase_banking cell_library hierarchical_ff_groups
                optimal_ff_for_groups stA) in *.
  unfold execute_lsrdpq_single_phase_banking.
  apply fold_left_inv; [|exact HB].
  intros a g Ha. destruct (length _ <? 4)%nat; [exact Ha|].
  unfold execute_lsrdpq_4bit_banking.
  destruct (length _ <? 4)%nat; [exact Ha|].
  apply fold_left_inv; [|exact Ha]. intros a' c. apply bank_quad_lsrdpq_entries.
Qed.

End BankingEntries.

Lemma assign_banking_types_entries (P : Instance -> Prop) (instances : InstanceTable) :
  (forall bt i, P i -> P (set_banking_type bt i)) ->
  all_entries P instances -> all_entries P (assign_banking_types instances).
Proof.
  intros Hset H k i Hin. unfold assign_banking_types in Hin.
  apply in_map_iff in Hin. destruct Hin as ([k0 i0] & E & Hin0).
  cbn [fst snd] in E. inversion E; subst. specialize (H k i0 Hin0).
  unfold assign_banking_type.
  repeat match goal with |- P (if ?c then _ else _) => destruct c end;
    try apply Hset; exact H.
Qed.

(* ------------------------------------------------------------------------- *)
(** *** The records written before the post-banking pass *)

(** No record of a history is a POST_SUBSTITUTE record. *)
Definition no_post_substitute (history : list TransformationRecord) : Prop :=
  Forall (fun r => rec_operation r <> POST_SUBSTITUTE) history.

Lemma initialize_transformation_tracking_no_post (db : DesignDatabase) :
  no_post_substitute
    (db_transformation_history (initialize_transformation_tracking db)).
Proof.
  unfold initialize_transformation_tracking.
  cbn [capture db_transformation_history with_state].
  rewrite keep_fold. cbn [app]. unfold no_post_substitute.
  apply Forall_map. apply Forall_forall. intros i _. discriminate.
Qed.

Lemma perform_strategic_debanking_no_post (lib : CellLibrary)
      (instances : InstanceTable) (history : list TransformationRecord) :
  no_post_substitute history ->
  no_post_substitute (snd (perform_strategic_debanking lib instances history)).
Proof.
  intro H. unfold perform_strategic_debanking. cbn [snd].
  rewrite debank_history_fold. cbn [db_history].
  unfold no_post_substitute in *. apply Forall_app. split.
  - apply Forall_forall. intros r Hr. apply filter_In in Hr.
    rewrite Forall_forall in H. apply H. tauto.
  - apply Forall_forall. intros r Hr. apply in_flat_map in Hr.
    destruct Hr as (i & _ & Hr).
    pose proof (debank_records_DEBANK lib i) as Hd. rewrite Forall_forall in Hd.
    rewrite (Hd r Hr). discriminate.
Qed.

Lemma record_all_banking_transformations_no_post (st : BankState)
      (history : list TransformationRecord) :
  no_post_substitute history ->
  no_post_substitute (record_all_banking_transformations st history).
Proof.
  unfold record_all_banking_transformations. apply fold_left_inv.
  intros h op Hh.
  destruct (record_operation_spec (bk_instances st) h op)
    as [[_ E]|(_ & r & E & Hr & _)]; rewrite E; [exact Hh|].
  apply Forall_app. split; [exact Hh|]. constructor; [|constructor].
  rewrite Hr. discriminate.
Qed.

Section PipelineScores.

Variable T : string -> Q.

(** What the database keeps through the stages before legalization. *)
Definition same_setup (db db' : DesignDatabase) : Prop :=
  db_cell_library db' = db_cell_library db /\
  db_objective_weights db' = db_objective_weights db.

Lemma after_init_setup (db : DesignDatabase) : same_setup db (after_init db).
Proof. split; reflexivity. Qed.

Lemma step_debank_setup (db : DesignDatabase) : same_setup db (step_debank db).
Proof.
  unfold step_debank. destruct (perform_strategic_debanking _ _ _). split; reflexivity.
Qed.

Lemma step_substitution_setup (db : DesignDatabase) :
  same_setup db (fst (step_substitution T db)).
Proof.
  unfold step_substitution. destruct (execute_three_stage_substitution _ _ _ _ _ _ _ _).
  split; reflexivity.
Qed.

Lemma step_banking_setup (optimal : list (string * string)) (db : DesignDatabase) :
  same_setup db (step_banking optimal db).
Proof. split; reflexivity. Qed.

Lemma after_banking_setup (db : DesignDatabase) : same_setup db (after_banking T db).
Proof.
  unfold after_banking, after_substitution, after_debank.
  destruct (step_banking_setup (snd (step_substitution T (step_debank (after_init db))))
              (fst (step_substitution T (step_debank (after_init db))))) as [A1 A2].
  destruct (step_substitution_setup (step_debank (after_init db))) as [B1 B2].
  destruct (step_debank_setup (after_init db)) as [C1 C2].
  destruct (after_init_setup db) as [D1 D2].
  split; congruence.
Qed.

(** Before the post-banking pass the scratch fields of every instance agree
    and the history holds no POST_SUBSTITUTE record. *)
Lemma after_banking_state (db : DesignDatabase) :
  all_entries (fun i => inst_best_ff_from_substitution i = "") (db_instances db) ->
  all_entries (best_ff_consistent T (db_cell_library db) (db_objective_weights db))
              (db_instances (after_banking T db)) /\
  no_post_substitute (db_transformation_history (after_banking T db)).
Proof.
  intro Hfresh.
  set (lib := db_cell_library db). set (w := db_objective_weights db).
  (* tracking initialisation *)
  assert (I1 : all_entries (best_ff_consistent T lib w) (db_instances (after_init db))).
  { apply initialize_transformation_tracking_entries.
    - intros n i H. exact H.
    - intros k i Hin. left. apply (Hfresh k). exact Hin. }
  pose proof (initialize_transformation_tracking_no_post db) as H1.
  fold (after_init db) in H1.
  (* debanking *)
  assert (I2 : all_entries (best_ff_consistent T lib w)
                           (db_instances (after_debank db)) /\
               no_post_substitute (db_transformation_history (after_debank db))).
  { unfold after_debank, step_debank.
    pose proof (perform_strategic_debanking_entries_of (best_ff_consistent T lib w)
                  (db_cell_library (after_init db)) (db_instances (after_init db))
                  (db_transformation_history (after_init db))) as HE.
    pose proof (perform_strategic_debanking_no_post
                  (db_cell_library (after_init db)) (db_instances (after_init db))
                  (db_transformation_history (after_init db)) H1) as HN.
    destruct (perform_strategic_debanking _ _ _) as [instances history].
    cbn [fst snd] in HE, HN. cbn [capture db_instances db_transformation_history
                                   with_state].
    split; [|exact HN]. apply HE; [|exact I1]. intros. left. reflexivity. }
  destruct I2 as [I2 H2].
  (* substitution *)
  assert (I3 : all_entries (best_ff_consistent T lib w)
                           (db_instances (after_substitution T db)) /\
               no_post_substitute
                 (db_transformation_history (after_substitution T db))).
  { unfold after_substitution, step_substitution.
    set (d := after_debank db) in *.
    set (groups := group_ff_instances (db_scan_chains d) (db_instances d)).
    set (optimal := calculate_optimal_ff_for_instance_groups T (db_cell_library d)
                      (db_objective_weights d) (db_hierarchical_ff_groups d)).
    unfold execute_three_stage_substitution.
    cbn [fst capture db_instances db_transformation_history with_state].
    change (db_cell_library d) with lib. change (db_objective_weights d) with w.
    unfold execute_stage3_substitution, execute_stage2_substitution,
      execute_stage1_substitution.
    set (names := group_members groups).
    pose proof (apply_to_names_Forall _ _ names
                  (stage1_consistent T lib w (db_hierarchical_ff_groups d) optimal)
                  (db_instances d) I2) as A1.
    match type of A1 with
    | forall k i, In _ ?t -> _ => set (i1 := t) in *
    end.
    pose proof (apply_to_names_Forall _ _ names
                  (stage2_consistent T lib w optimal) i1 A1) as A2.
    match type of A2 with
    | forall k i, In _ ?t -> _ => set (i2 := t) in *
    end.
    match goal with
    | |- all_entries _ (if ?c then i2 else apply_to_names ?g names i2) /\ _ =>
        assert (A3 : all_entries (best_ff_consistent T lib w)
                                 (if c then i2 else apply_to_names g names i2))
    end.
    { match goal with |- all_entries _ (if ?c then _ else _) => destruct c end;
        [exact A2|].
      unfold all_entries.
      apply (apply_to_names_Forall (best_ff_consistent T lib w));
        [apply stage3_consistent|exact A2]. }
    split; [exact A3|].
    match goal with
    | |- no_post_substitute
           (record_final_substitution_operations_from ?oct ?inst ?l ?h) =>
        destruct (record_final_substitution_operations_from_spec oct inst l h)
          as (added & E & F)
    end.
    rewrite E. apply Forall_app. split; [exact H2|].
    eapply Forall_impl; [|exact F]. intros r (Hop & _). rewrite Hop. discriminate. }
  destruct I3 as [I3 H3].
  (* banking *)
  unfold after_banking, step_banking.
  cbn [capture db_instances db_transformation_history with_state].
  split.
  - apply execute_all_banking_entries.
    + intros. left. reflexivity.
    + unfold bank_entries. cbn [bk_instances].
      apply assign_banking_types_entries; [intros bt i H; exact H|exact I3].
  - apply record_all_banking_transformations_no_post. exact H3.
Qed.

End PipelineScores.

Lemma step_legalize_history (db : DesignDatabase) :
  db_transformation_history (step_legalize db) = db_transformation_history db.
Proof. reflexivity. Qed.

Lemma step_post_banking_history (T : string -> Q) (db : DesignDatabase) :
  db_transformation_history (step_post_banking T db)
  = snd (execute_post_banking_substitution T (db_cell_library db)
           (db_objective_weights db) (db_instances db)
           (db_transformation_history db)).
Proof.
  unfold step_post_banking.
  destruct (execute_post_banking_substitution _ _ _ _ _) as [instances history].
  reflexivity.
Qed.

Lemma after_post_banking_eq (T : string -> Q) (db : DesignDatabase) :
  after_post_banking T db = step_post_banking T (after_banking T db).
Proof. reflexivity. Qed.

(** The post-banking pass on a database whose scratch fields agree and whose
    history holds no POST_SUBSTITUTE record yet. *)
Lemma step_post_banking_records (T : string -> Q) (d : DesignDatabase)
      (r : TransformationRecord) :
  all_entries (best_ff_consistent T (db_cell_library d) (db_objective_weights d))
              (db_instances d) ->
  no_post_substitute (db_transformation_history d) ->
  In r (db_transformation_history (step_post_banking T d)) ->
  rec_operation r = POST_SUBSTITUTE ->
  score_lt (calculate_ff_score T (db_cell_library d) (db_objective_weights d)
              (rec_result_cell_type r))
           (calculate_ff_score T (db_cell_library d) (db_objective_weights d)
              (rec_original_cell_type r)).
Proof.
  intros Hcons Hno Hin Hop. rewrite step_post_banking_history in Hin.
  destruct (execute_post_banking_substitution T (db_cell_library d)
              (db_objective_weights d) (db_instances d)
              (db_transformation_history d))
    as [instances' history'] eqn:Erun.
  cbn [snd] in Hin.
  destruct (post_substitute_monotone T _ _ _ _ _ _ Hcons Erun) as (added & E & F).
  rewrite E in Hin. apply in_app_or in Hin. destruct Hin as [Hin|Hin].
  - exfalso. unfold no_post_substitute in Hno. rewrite Forall_forall in Hno.
    apply (Hno r Hin). exact Hop.
  - rewrite Forall_forall in F. destruct (F r Hin) as (_ & H1 & H2). exact H1.
Qed.

(** C7 (amended).  In a run of the pipeline on a design whose instances
    carry no best alternative yet (the field is empty, as the constructor of
    an instance leaves it; only the substituter writes it), every
    POST_SUBSTITUTE record of the final history has a result cell that
    scores, under [calculate_ff_score], strictly lower than its original
    cell, hence no higher. *)
Theorem run_pipeline_post_substitute_monotone
        (T : string -> Q) (db : DesignDatabase) (r : TransformationRecord)
        (Hfresh : forall k i, In (k, i) (db_instances db) ->
                              inst_best_ff_from_substitution i = "")
        (Hin : In r (db_transformation_history (run_pipeline T db)))
        (Hop : rec_operation r = POST_SUBSTITUTE) :
  score_lt (calculate_ff_score T (db_cell_library db) (db_objective_weights db)
              (rec_result_cell_type r))
           (calculate_ff_score T (db_cell_library db) (db_objective_weights db)
              (rec_original_cell_type r)) /\
  score_le (calculate_ff_score T (db_cell_library db) (db_objective_weights db)
              (rec_result_cell_type r))
           (calculate_ff_score T (db_cell_library db) (db_objective_weights db)
              (rec_original_cell_type r)).
Proof.
  rewrite run_pipeline_unfold, step_legalize_history in Hin.
  rewrite after_post_banking_eq in Hin.
  pose proof (after_banking_state T db Hfresh) as [Hcons Hno].
  pose proof (after_banking_setup T db) as [HL HW].
  rewrite <- HL, <- HW. rewrite <- HL, <- HW in Hcons.
  assert (Hlt := step_post_banking_records T _ r Hcons Hno Hin Hop).
  split; [exact Hlt|apply score_lt_le; exact Hlt].
Qed.

(** The run on [ex_revert_design]: the record of the post-banking pass takes
    [u3] from [FSDN_S] (score 10) back to [FDN_A] (score 5). *)
Lemma run_pipeline_post_substitute_monotone_witness :
  score_lt (calculate_ff_score ex_timing (db_cell_library ex_revert_design)
              (db_objective_weights ex_revert_design)
              (rec_result_cell_type ex_revert_record))
           (calculate_ff_score ex_timing (db_cell_library ex_revert_design)
              (db_objective_weights ex_revert_design)
              (rec_original_cell_type ex_revert_record)) /\
  score_le (calculate_ff_score ex_timing (db_cell_library ex_revert_design)
              (db_objective_weights ex_revert_design)
              (rec_result_cell_type ex_revert_record))
           (calculate_ff_score ex_timing (db_cell_library ex_revert_design)
              (db_objective_weights ex_revert_design)
              (rec_original_cell_type ex_revert_record)).
Proof.
  apply (run_pipeline_post_substitute_monotone ex_timing ex_revert_design
           ex_revert_record).
  - intros k i [H|[]]. inversion H; subst. reflexivity.
  - vm_compute. right. right. left. reflexivity.
  - vm_compute. reflexivity.
Defined.

(* ------------------------------------------------------------------------- *)
(** *** The two scores in double precision *)

(** C6 (amended).  For a flip-flop cell of the library, filed in its group
    under [group_bit_width], the cache and the substituter compute in
    doubles the same per-bit term ((beta*P)*0.001 + gamma*A)/b and add to it
    the timing term (alpha*T)*1000 resp. alpha*T.  Read over the rationals
    the two scores differ by exactly alpha*T*999. *)
Theorem scores_differ_in_timing_factor
        (T : string -> Q) (lib : CellLibrary) (w : ObjectiveWeights)
        (cell_name : string) (c : CellTemplate)
        (Hfind : assoc_find cell_name lib = Some c)
        (Hff : ct_is_flip_flop c = true) :
  let per_bit :=
    PrimFloat.div
      (PrimFloat.add
         (PrimFloat.mul (PrimFloat.mul (to_double (beta w))
                                       (to_double (ct_leakage_power c)))
                        (to_double (1 # 1000)))
         (PrimFloat.mul (to_double (gamma w)) (to_double (ct_area c))))
      (double_of_int (Z.max 1 (ct_bit_width c))) in
  let delta := PrimFloat.mul (to_double (alpha w)) (to_double (T cell_name)) in
  cache_score_double T lib w (group_bit_width c) cell_name
  = Some (PrimFloat.add per_bit (PrimFloat.mul delta (double_of_int 1000))) /\
  calculate_ff_score_double T lib w cell_name = PrimFloat.add per_bit delta /\
  exists s_cache s_subst,
    cache_score T lib w (group_bit_width c) cell_name = Some s_cache /\
    calculate_ff_score T lib w cell_name = Fin s_subst /\
    s_cache - s_subst == alpha w * T cell_name * 999.
Proof.
  intros per_bit delta. subst per_bit delta.
  split; [|split].
  - unfold cache_score_double. rewrite Hfind, Hff. cbn [negb].
    rewrite effective_bit_width_max. reflexivity.
  - unfold calculate_ff_score_double. rewrite Hfind, Hff. reflexivity.
  - destruct (cache_score_minus_ff_score T lib w cell_name c Hfind Hff)
      as (s_cache & s_subst & per_bit & H1 & H2 & _ & _ & _ & H6).
    exists s_cache, s_subst. auto.
Qed.

(** The cell [FSDN_S] with alpha = 0.1 and timing 0.1: the cache adds
    (0.1*0.1)*1000 and the substituter 0.1*0.1 to the per-bit term 10. *)
Lemma scores_differ_in_timing_factor_witness :
  let per_bit :=
    PrimFloat.div
      (PrimFloat.add
         (PrimFloat.mul (PrimFloat.mul (to_double (beta ex_weights_tenth))
                                       (to_double (ct_leakage_power ex_cell_fsdn1)))
                        (to_double (1 # 1000)))
         (PrimFloat.mul (to_double (gamma ex_weights_tenth))
                        (to_double (ct_area ex_cell_fsdn1))))
      (double_of_int (Z.max 1 (ct_bit_width ex_cell_fsdn1))) in
  let delta := PrimFloat.mul (to_double (alpha ex_weights_tenth))
                             (to_double (ex_timing_tenth "FSDN_S")) in
  cache_score_double ex_timing_tenth ex_library ex_weights_tenth
                     (group_bit_width ex_cell_fsdn1) "FSDN_S"
  = Some (PrimFloat.add per_bit (PrimFloat.mul delta (double_of_int 1000))) /\
  calculate_ff_score_double ex_timing_tenth ex_library ex_weights_tenth "FSDN_S"
  = PrimFloat.add per_bit delta /\
  exists s_cache s_subst,
    cache_score ex_timing_tenth ex_library ex_weights_tenth
                (group_bit_width ex_cell_fsdn1) "FSDN_S" = Some s_cache /\
    calculate_ff_score ex_timing_tenth ex_library ex_weights_tenth "FSDN_S"
    = Fin s_subst /\
    s_cache - s_subst
    == alpha ex_weights_tenth * ex_timing_tenth "FSDN_S" * 999.
Proof.
  apply (scores_differ_in_timing_factor ex_timing_tenth ex_library ex_weights_tenth
           "FSDN_S" ex_cell_fsdn1); reflexivity.
Defined.

(** C6 (counterexample).  For [FSDN_S] with alpha = 0.1 and timing 0.1 the
    code computes the cache score 20 and the substituter score 10.01 (the
    double nearest to it).  The two doubles do not differ by alpha*T*999:
    not as exact values, neither against the decimal 9.99 nor against the
    product of the stored doubles, and not when difference and product are
    themselves computed in doubles (9.99 against 9.990000000000002). *)
Lemma double_scores_differ_inexactly :
  exists s_cache s_subst q_cache q_subst q_alpha q_timing,
    cache_score_double ex_timing_tenth ex_library ex_weights_tenth
                       (group_bit_width ex_cell_fsdn1) "FSDN_S" = Some s_cache /\
    calculate_ff_score_double ex_timing_tenth ex_library ex_weights_tenth "FSDN_S"
    = s_subst /\
    exact_value s_cache = Some q_cache /\
    exact_value s_subst = Some q_subst /\
    exact_value (to_double (alpha ex_weights_tenth)) = Some q_alpha /\
    exact_value (to_double (ex_timing_tenth "FSDN_S")) = Some q_timing /\
    q_cache == 20 /\
    ~ q_cache - q_subst == alpha ex_weights_tenth * ex_timing_tenth "FSDN_S" * 999 /\
    ~ q_cache - q_subst == q_alpha * q_timing * 999 /\
    PrimFloat.eqb (PrimFloat.sub s_cache s_subst)
                  (PrimFloat.mul
                     (PrimFloat.mul (to_double (alpha ex_weights_tenth))
                                    (to_double (ex_timing_tenth "FSDN_S")))
                     (double_of_int 999))
    = false.
Proof.
  do 6 eexists.
  split; [vm_compute; reflexivity|].
  split; [reflexivity|].
  split; [vm_compute; reflexivity|].
  split; [vm_compute; reflexivity|].
  split; [vm_compute; reflexivity|].
  split; [vm_compute; reflexivity|].
  split; [vm_compute; reflexivity|].
  split; [vm_compute; discriminate|].
  split; [vm_compute; discriminate|].
  vm_compute. reflexivity.
Qed.
